(* ===== verification/_CoqProject ===== *)
-Q . S2P
Prelude.v
Crc64.v
Limits.v
Util.v
Rpc.v
Task.v
Aof.v
EventLoop.v
Server.v
Framing.v
Master.v
Sched.v
Sessions.v
Job.v
Recovery.v
Liveness.v
Protocol.v
Stdio.v
Calls.v
Config.v
Publish.v
WorkerMap.v
WorkerReduce.v
Worker.v
TaskProgs.v
WordCount.v
Exchange.v
System.v
Interleave.v
Start.v
Cluster.v
History.v
Shutdown.v
