(* ===== verification/Prelude.v ===== *)
(** * C_MapReduce: verification library

    A single-machine MapReduce in C: one master, an event-driven TCP server
    that hands out map and reduce tasks, records completed tasks in an
    append-only log and recovers from it, and worker processes that ask for
    tasks, run them and report. This library models both programs: the
    checksum, the wire format, the log, the event loop, the framing server,
    the scheduler and the configuration on the master's side, the protocol
    client and the map and reduce tasks on the worker's, and a master and any
    number of workers together, from their start through crashes and restarts
    to the output files. Source files are named relative to src/src/.

    ** Parts, from the bottom up

    - [Prelude]: outcomes of C functions ([Ret], [Aborted] for a failed
      [assert], [Fault] for undefined behaviour), unsigned integers kept at
      their width ([wrap], [fits]), big-endian bytes, lengths as [Z].
    - [Crc64] (crc64.c): the table and the byte loop; a bitwise reference.
    - [Limits] (config.h, task.h): the capacities.
    - [Util] (util.c): the hash and the I/O loops. The kernel is a script
      ([list io]) of answers consumed call by call: a transfer of some bytes,
      [EINTR], [EAGAIN] or another error; an exhausted script transfers
      everything. [benign] scripts have no failures but any short transfers.
    - [Rpc] (rpc.c, rpc.h): cursor-based encoders and decoders of the seven
      messages; the class [WireMessage] states what a message kind owes to its
      clients, and the messages' theorems are proved against it.
    - [Task] (task.h, master.h, [maybe_advance_phase] of util.c): tasks, their
      attempts, the job, workers and the master's record.
    - [Aof] (aof.c, aof.h): the log's headers and records, loading with
      replay, creation and append.
    - [EventLoop] (event_loop.c): the handler tables and the dispatch loop,
      parametric in the handlers and in the kernel's event batches.
    - [Server] (server.c, server.h): connections with their read and write
      buffers, framing, accept, timeouts, initialisation. A state [sys A] is
      the server, the application, the kernel script and the bytes the kernel
      accepted per connection. The callbacks are the classes
      [ServerCallbacks] and [ServerHandlers].
    - [Framing]: the specification of the server. [parse_frames], [deliver]
      and [receive] describe the protocol on byte streams;
      [ServerHandlersSpec] is what the server relies on in its application.
      [process_buffer] and [on_read] refine them; the send queue keeps the
      stream. The module [Recorder] is a small application for the witnesses.
    - [Master] (master.c): the scheduler as an instance of these classes, its
      start from a directory and its bootstrap from a log.
    - [Sched]: the invariants of task.h over the task table, what each handler
      does to it, and the relation [master_step] of the steps the server's loop
      makes ([server_run_refines]), over which invariants are proved; the
      timeout sweep.
    - [Sessions]: the specification [spec_run] of the server over whole runs,
      which keeps no read buffers but the history of each connection, and its
      refinement by [server_run].
    - [Job]: the job invariant and the runs of the master in which workers
      only report the task they hold ([honest]).
    - [Recovery]: the log of a running master determines its completed tasks.
    - [Liveness]: rounds on an idle connection, and the end of the job.
    - [Protocol]: the effect of each message on an idle connection, and what
      follows from the checks the handlers leave out.
    - [Stdio]: what the sources use of the C library: strings, [strsep],
      [strtol], [sscanf] words, decimal printing, streams, [fgets]. A process
      [proc] is its files, the file systems seen so far, and the kernel script.
    - [Calls]: programs as trees of system calls ([prog]); [run] executes one
      alone, as [Stdio] does, [perform] a single call; what a program touches.
    - [Config] (config.c, config.h): defaults, the table of keys, the line
      parser, [load_config].
    - [Publish]: when every file system a process shows holds each published
      file either as it was or complete.
    - [WorkerMap] (worker_map.c): the tokenizer, the partition by [get_hash],
      the temporary files and their publication.
    - [WorkerReduce] (worker_reduce.c): the record list, the parser, the group
      walk, the output. [qsort] is the class [Qsort] with the laws [QsortSpec].
    - [Worker] (worker.c): framing, request, report and main loop, against a
      connection given by the class [Peer].
    - [TaskProgs]: the functions of worker_map.c and worker_reduce.c as such
      programs, each shown to run as the function it is named after.
    - [WordCount]: what maps and reduces compute together.
    - [Exchange]: the server as the worker's peer, and each exchange of a
      worker with the master, on a connection that is idle, refused or gone.
    - [System]: the files of a job, and its run by one worker.
    - [Interleave]: tasks of several processes on the same files, call by call:
      what each relies on ([working]) and guarantees to the others ([guar]);
      any number of them side by side ([pool_run]).
    - [Start] ([master_main] of master.c): from the command line to the loop,
      started afresh or on a log, and the theorem about master and worker.
    - [Cluster]: a master and any number of worker processes over one file
      system as a transition function [cluster_exec] on events: a process
      connects, asks, makes the next system call of its task, which succeeds or
      fails, reports, dies; the master sees a closed connection, or dies and is
      started again. [cluster_ok] is its invariant; [job_step] is the
      specification of the job.
    - [History]: the theorems about any sequence of these events.
    - [Shutdown] (server.c): the signal handler, the end of the loop, and the
      descriptors that are opened and closed.

    ** How state and operations correspond

    Structs are records with the fields of the C struct; [client_t] lists only
    the bytes in use, so [len] and [wlen] are lengths. Arrays indexed by a
    descriptor are maps whose absent entries are zeroed slots; the arrays of
    tasks are lists of the full capacity. A zeroed worker slot has no kind
    ([None] is the code 0). Every operation is a function of the state and the
    remaining kernel script. Time is an argument where the code reads a clock.
    Calls without an effect on this state (logging, [close], [free], sleeping)
    are dropped. The fields of a configuration the C code writes through an
    offset are setters ([config_target]). A stream opened for writing holds its
    bytes until [fclose]; the prefixes a full buffer may put into a temporary
    file earlier are not shown, nor does anything read them. The kernel answers
    of a process and of the server are separate scripts.

    ** What the theorems show

    - Encodings: the checksum is bitwise CRC-64 and detects bursts; messages
      and logs round-trip; decoders are strict; damaged records are refused.
    - Framing: frames are delivered whole, in order and independently of how
      the bytes arrive, by each call and over whole runs of the event loop:
      every message of every connection once, as soon as it is whole, until one
      is refused; replies reach the stream whole and in order.
    - Scheduling: the task table is well formed whatever clients send. The
      rest is about honest workers, which report, while the job runs, only the
      task and attempt their slot holds ([honest]; the workers of [Worker] are
      honest): the job invariant holds, the map phase completes before the
      reduce phase starts, a task of the phase has one holder, messages never
      fault, the end of the job means that all tasks are complete, one worker
      is enough to reach it, and a restart from the log resumes the job.
    - Handlers: the result of each request and report, failures included.
    - Configuration: what a file sets and when it is refused; a printed
      configuration loads back; every value is within its bounds, so that the
      start of the master is free of undefined behaviour.
    - Tasks: what a map and a reduce task compute, when they fail, and that
      neither ever shows a partial file under a published name, alone or side
      by side with other tasks and attempts, call by call in any order.
    - System: from configuration and input files, master and worker end the
      job, and the outputs are the counts of the words of the inputs. The
      inputs are text whose lines and words fit the buffers ([text_ok]), and no
      word occurs more than 1024 times, since a reduce task fails on a key with
      more values.
    - Histories: whatever workers and masters come, go, fail and die, and
      however the calls of the tasks interleave, nothing is undefined, completed
      tasks stay completed with their files in place, the job goes through the
      steps of its specification, and an end of the job means correct outputs.
      If no word occurs more than 1024 times, a restart with one worker gets
      there within one turn more than there are tasks.
    - Shutdown: a signal ends the loop after the batch that reports it, and
      every descriptor is closed once.
    - Departures: theorems that exhibit behaviour the comments or README.md
      exclude (the clock that stands still, tasks of lost workers, repeated,
      late and unassigned reports, failed appends and replies, bad logs, words
      that are split, lost or too frequent).

    ** Bounds and fuel

    [process_frames] runs with the buffer's length as fuel: every frame
    removes at least [FRAME_HDR_SIZE] bytes, so it never runs out
    ([process_buffer_refines] has no fuel). [aof_replay] runs with one more
    than the number of unread bytes: every record takes [AOF_RECORD_SIZE]. The
    loops over tasks and descriptors count down the C loop's own bound.
    [el_run] consumes the kernel's answers; [None] as its result says that the
    loop is still polling after the last one. [fgets_loop] runs with one more
    than the length of the file: every line takes a byte. [worker_loop] takes a
    bound on its turns, and [None] is a worker that still runs; a job of [M]
    maps and [R] reduces is finished within [M + R + 1] turns
    ([system_word_count]).

    ** Not modelled

    The logging macros, sleeping and [sigaction] have no model; [open_aof] of
    util.c has no caller. The capacity of the record list does not wrap: the
    memory it stands for would not fit the address space.

    In [Cluster] the calls of tasks interleave, but an exchange of a worker with
    the master is one event, and the master dies between two of them. A master
    that dies after the append of a record and before the acknowledgement is the report followed by the restart and the exit of the
    worker. One that dies within the append leaves a torn record, which
    [aof_load] refuses ([aof_load_torn_tail]): such a log has no restart to
    speak of. The sockets of [Cluster] transfer what they are given; the
    handlers under short transfers and errors are the subject of [Framing] and
    [Protocol]. [server_run] is given batches of events; [Cluster] calls the
    handlers of one event at a time, which is what a batch does in turn
    ([el_dispatch]). *)

From stdpp Require Export base numbers list gmap sorting.
From Stdlib Require Export ZArith Lia.

#[global] Open Scope Z_scope.

(** ** Outcomes of C functions

    A C function that can hit a failed [assert] or undefined behaviour is a
    function into [outcome]: [Ret] is a normal return, [Aborted] is the
    SIGABRT of a failed [assert], [Fault] is undefined behaviour (an
    out-of-bounds access, the use of an indeterminate pointer, a heap
    overflow). *)

Inductive outcome (A : Type) : Type :=
  | Ret (a : A)
  | Aborted
  | Fault.
Arguments Ret {A} a.
Arguments Aborted {A}.
Arguments Fault {A}.

#[export] Instance outcome_ret : MRet outcome := fun A a => Ret a.
#[export] Instance outcome_bind : MBind outcome := fun A B f m =>
  match m with
  | Ret a => f a
  | Aborted => Aborted
  | Fault => Fault
  end.

(** [assert(b)] *)
Definition c_assert (b : bool) : outcome unit :=
  if b then Ret tt else Aborted.

(** The value of an option, where [None] is undefined behaviour. *)
Definition or_fault {A} (o : option A) : outcome A :=
  match o with
  | Some a => Ret a
  | None => Fault
  end.

Lemma outcome_bind_Ret {A B} (m : outcome A) (f : A -> outcome B) b :
  m ≫= f = Ret b <-> exists a, m = Ret a /\ f a = Ret b.
Proof.
  destruct m; cbn; split.
  1: eauto. 1: by intros (? & [= ->] & ?).
  all: try discriminate. all: by intros (? & ? & ?).
Qed.

Lemma or_fault_Ret {A} (o : option A) a : or_fault o = Ret a <-> o = Some a.
Proof. destruct o; cbn; split; congruence. Qed.

(** ** Machine integers *)

(** [v] fits in an unsigned [w]-bit integer. *)
Definition fits (w v : Z) : Prop := 0 <= v < 2 ^ w.
#[export] Instance fits_dec w v : Decision (fits w v).
Proof. unfold fits. apply _. Defined.

Abbreviation u8 := (fits 8).
Abbreviation u16 := (fits 16).
Abbreviation u32 := (fits 32).
Abbreviation u64 := (fits 64).

(** Conversion to an unsigned [w]-bit integer wraps. *)
Definition wrap (w v : Z) : Z := v mod 2 ^ w.

Lemma wrap_fits w v : 0 <= w -> fits w (wrap w v).
Proof. intros. apply Z.mod_pos_bound, Z.pow_pos_nonneg; lia. Qed.

Lemma wrap_small w v : fits w v -> wrap w v = v.
Proof. intros. by apply Z.mod_small. Qed.

Lemma fits_mono w w' v : 0 <= w <= w' -> fits w v -> fits w' v.
Proof.
  intros ? []. split; [done|].
  apply Z.lt_le_trans with (2 ^ w); [done|]. apply Z.pow_le_mono_r; lia.
Qed.

(** ** Byte strings *)

(** Lengths as [Z], the way [size_t] and [ssize_t] values are compared. *)
Definition zlen {A} (l : list A) : Z := Z.of_nat (length l).

Lemma zlen_nil {A} : zlen (@nil A) = 0.
Proof. done. Qed.
Lemma zlen_cons {A} (x : A) l : zlen (x :: l) = 1 + zlen l.
Proof. unfold zlen. cbn. lia. Qed.
Lemma zlen_app {A} (l k : list A) : zlen (l ++ k) = zlen l + zlen k.
Proof. unfold zlen. rewrite length_app. lia. Qed.
Lemma zlen_nonneg {A} (l : list A) : 0 <= zlen l.
Proof. unfold zlen. lia. Qed.
Lemma zlen_take {A} n (l : list A) :
  0 <= n <= zlen l -> zlen (take (Z.to_nat n) l) = n.
Proof. unfold zlen. intros. rewrite length_take. lia. Qed.
Lemma zlen_drop {A} n (l : list A) :
  0 <= n <= zlen l -> zlen (drop (Z.to_nat n) l) = zlen l - n.
Proof. unfold zlen. intros. rewrite length_drop. lia. Qed.

(** Big-endian bytes of an unsigned integer: [htons]/[htonl]/[htobe64]
    followed by [memcpy] of [n] bytes. *)
Fixpoint be_encode (n : nat) (v : Z) : list Z :=
  match n with
  | O => []
  | S n' => Z.land (Z.shiftr v (8 * Z.of_nat n')) 255 :: be_encode n' v
  end.

(** [memcpy] of the bytes followed by [ntohs]/[ntohl]/[be64toh]. *)
Definition be_decode (bs : list Z) : Z :=
  fold_left (fun acc b => Z.lor (Z.shiftl acc 8) b) bs 0.

Lemma length_be_encode n v : length (be_encode n v) = n.
Proof. induction n; cbn; congruence. Qed.

Lemma zlen_be_encode n v : zlen (be_encode n v) = Z.of_nat n.
Proof. unfold zlen. by rewrite length_be_encode. Qed.

Lemma land_255 v : Z.land v 255 = v mod 256.
Proof. change 255 with (Z.ones 8). by rewrite Z.land_ones. Qed.

Lemma be_encode_bytes n v : Forall u8 (be_encode n v).
Proof.
  induction n; cbn; constructor; [|done].
  rewrite land_255. by apply Z.mod_pos_bound.
Qed.

Lemma testbit_above w v i : 0 <= w -> fits w v -> w <= i -> Z.testbit v i = false.
Proof.
  intros ? Hv ?. rewrite <- (Z.mod_small v (2 ^ w)) by done.
  apply Z.mod_pow2_bits_high. lia.
Qed.

(** Shifting in [w] fresh low bits is multiplication and addition. *)
Lemma lor_shiftl w a b : 0 <= w -> fits w b ->
  Z.lor (Z.shiftl a w) b = a * 2 ^ w + b.
Proof.
  intros Hw Hb. pose proof (Z.add_lor_land (Z.shiftl a w) b) as H.
  replace (Z.land (Z.shiftl a w) b) with 0 in H.
  { rewrite Z.shiftl_mul_pow2 in H by done. rewrite Z.shiftl_mul_pow2 by done. lia. }
  symmetry. apply Z.bits_inj'. intros i Hi. rewrite Z.land_spec, Z.bits_0.
  destruct (decide (i < w)).
  - by rewrite Z.shiftl_spec_low.
  - rewrite (testbit_above w b) by (done || lia). apply andb_false_r.
Qed.

Lemma be_decode_app_one bs b : u8 b ->
  be_decode (bs ++ [b]) = be_decode bs * 256 + b.
Proof.
  intros. unfold be_decode. rewrite fold_left_app. cbn. by apply lor_shiftl.
Qed.

Lemma be_encode_snoc n v :
  be_encode (S n) v = be_encode n (v / 256) ++ [v mod 256].
Proof.
  induction n as [|n IH].
  - cbn. by rewrite land_255.
  - cbn [be_encode] in *. rewrite IH. cbn [app]. f_equal.
    rewrite !land_255, !Z.shiftr_div_pow2 by lia. f_equal.
    rewrite Z.div_div by lia. f_equal.
    change 256 with (2 ^ 8). rewrite <- Z.pow_add_r by lia. f_equal. lia.
Qed.

(** Decoding inverts encoding for values that fit in [n] bytes. *)
Lemma be_decode_encode n v : fits (8 * Z.of_nat n) v -> be_decode (be_encode n v) = v.
Proof.
  revert v. induction n as [|n IH]; intros v Hv.
  - unfold fits in Hv. cbn in *. lia.
  - rewrite be_encode_snoc, be_decode_app_one by (apply Z.mod_pos_bound; lia).
    rewrite IH.
    + rewrite (Z.div_mod v 256) at 3 by lia. lia.
    + unfold fits in *. split; [apply Z.div_pos; lia|].
      apply Z.div_lt_upper_bound; [lia|].
      change 256 with (2 ^ 8). rewrite <- Z.pow_add_r by lia.
      replace (8 + 8 * Z.of_nat n) with (8 * Z.of_nat (S n)) by lia. apply Hv.
Qed.

(** Encoding inverts decoding for byte strings. *)
Lemma be_encode_decode bs : Forall u8 bs -> be_encode (length bs) (be_decode bs) = bs.
Proof.
  induction bs as [|b bs IH] using rev_ind; intros Hall; [done|].
  apply Forall_app in Hall as [Hbs Hb]. rewrite Forall_singleton in Hb.
  rewrite be_decode_app_one by done.
  rewrite length_app, Nat.add_comm. cbn [length Nat.add].
  rewrite be_encode_snoc. unfold fits in Hb.
  rewrite Z.div_add_l by lia. rewrite (Z.div_small b) by lia.
  rewrite Z.add_0_r, Z.add_comm, Z.mod_add by lia.
  rewrite Z.mod_small by lia. by rewrite IH.
Qed.

Lemma be_decode_fits bs : Forall u8 bs -> fits (8 * zlen bs) (be_decode bs).
Proof.
  induction bs as [|b bs IH] using rev_ind; intros Hall; [by cbn; unfold fits|].
  apply Forall_app in Hall as [Hbs Hb]. rewrite Forall_singleton in Hb.
  rewrite be_decode_app_one by done. specialize (IH Hbs).
  pose proof (zlen_nonneg bs). unfold fits in *.
  replace (8 * zlen (bs ++ [b])) with (8 * zlen bs + 8) by (unfold zlen; rewrite length_app; cbn; lia).
  rewrite Z.pow_add_r by lia. lia.
Qed.

Lemma be_encode_inj n v v' : fits (8 * Z.of_nat n) v -> fits (8 * Z.of_nat n) v' ->
  be_encode n v = be_encode n v' -> v = v'.
Proof.
  intros Hv Hv' Heq. rewrite <- (be_decode_encode n v), <- (be_decode_encode n v') by done.
  by rewrite Heq.
Qed.

(** ** Automation *)

(** Length side conditions on byte strings. *)
Create Rewrite HintDb mr_len.
#[export] Hint Rewrite @zlen_nil @zlen_cons @zlen_app zlen_be_encode : mr_len.

Ltac len := autorewrite with mr_len; unfold zlen in *; lia.

(** Byte and range side conditions. *)
Create HintDb mr discriminated.
#[export] Hint Resolve be_encode_bytes Forall_nil_2 Forall_cons_2 Forall_app_2 : mr.

(** Split the boolean tests and matches of a definition. *)
Ltac split_ifs :=
  repeat match goal with
  | |- context [if ?b then _ else _] => destruct b eqn:?
  | |- context [match ?x with _ => _ end] => destruct x eqn:?
  end.

(** Decidable side conditions on closed terms. *)
Ltac decide_now := apply (bool_decide_unpack _); vm_compute; exact I.
