(* ===== verification/Crc64.v ===== *)
(** * CRC-64 (src/crc64.c)

    The table-driven checksum that protects every section of the append-only
    log, with its table, and the bitwise CRC-64-Jones it is meant to compute.
    The theorems show that the two agree, that the checksum can be computed in
    pieces, that it stays in 64 bits, and that a corruption confined to eight
    consecutive bytes always changes it. *)

From S2P Require Import Prelude.

(** ** The code *)

(** [crc64_tab[256]] *)
Definition crc64_tab : list Z := [
    0x0000000000000000; 0x7ad870c830358979; 0xf5b0e190606b12f2;
    0x8f689158505e9b8b; 0xc038e5739841b68f; 0xbae095bba8743ff6;
    0x358804e3f82aa47d; 0x4f50742bc81f2d04; 0xab28ecb46814fe75;
    0xd1f09c7c5821770c; 0x5e980d24087fec87; 0x24407dec384a65fe;
    0x6b1009c7f05548fa; 0x11c8790fc060c183; 0x9ea0e857903e5a08;
    0xe478989fa00bd371; 0x7d08ff3b88be6f81; 0x07d08ff3b88be6f8;
    0x88b81eabe8d57d73; 0xf2606e63d8e0f40a; 0xbd301a4810ffd90e;
    0xc7e86a8020ca5077; 0x4880fbd87094cbfc; 0x32588b1040a14285;
    0xd620138fe0aa91f4; 0xacf86347d09f188d; 0x2390f21f80c18306;
    0x594882d7b0f40a7f; 0x1618f6fc78eb277b; 0x6cc0863448deae02;
    0xe3a8176c18803589; 0x997067a428b5bcf0; 0xfa11fe77117cdf02;
    0x80c98ebf2149567b; 0x0fa11fe77117cdf0; 0x75796f2f41224489;
    0x3a291b04893d698d; 0x40f16bccb908e0f4; 0xcf99fa94e9567b7f;
    0xb5418a5cd963f206; 0x513912c379682177; 0x2be1620b495da80e;
    0xa489f35319033385; 0xde51839b2936bafc; 0x9101f7b0e12997f8;
    0xebd98778d11c1e81; 0x64b116208142850a; 0x1e6966e8b1770c73;
    0x8719014c99c2b083; 0xfdc17184a9f739fa; 0x72a9e0dcf9a9a271;
    0x08719014c99c2b08; 0x4721e43f0183060c; 0x3df994f731b68f75;
    0xb29105af61e814fe; 0xc849756751dd9d87; 0x2c31edf8f1d64ef6;
    0x56e99d30c1e3c78f; 0xd9810c6891bd5c04; 0xa3597ca0a188d57d;
    0xec09088b6997f879; 0x96d1784359a27100; 0x19b9e91b09fcea8b;
    0x636199d339c963f2; 0xdf7adabd7a6e2d6f; 0xa5a2aa754a5ba416;
    0x2aca3b2d1a053f9d; 0x50124be52a30b6e4; 0x1f423fcee22f9be0;
    0x659a4f06d21a1299; 0xeaf2de5e82448912; 0x902aae96b271006b;
    0x74523609127ad31a; 0x0e8a46c1224f5a63; 0x81e2d7997211c1e8;
    0xfb3aa75142244891; 0xb46ad37a8a3b6595; 0xceb2a3b2ba0eecec;
    0x41da32eaea507767; 0x3b024222da65fe1e; 0xa2722586f2d042ee;
    0xd8aa554ec2e5cb97; 0x57c2c41692bb501c; 0x2d1ab4dea28ed965;
    0x624ac0f56a91f461; 0x1892b03d5aa47d18; 0x97fa21650afae693;
    0xed2251ad3acf6fea; 0x095ac9329ac4bc9b; 0x7382b9faaaf135e2;
    0xfcea28a2faafae69; 0x8632586aca9a2710; 0xc9622c4102850a14;
    0xb3ba5c8932b0836d; 0x3cd2cdd162ee18e6; 0x460abd1952db919f;
    0x256b24ca6b12f26d; 0x5fb354025b277b14; 0xd0dbc55a0b79e09f;
    0xaa03b5923b4c69e6; 0xe553c1b9f35344e2; 0x9f8bb171c366cd9b;
    0x10e3202993385610; 0x6a3b50e1a30ddf69; 0x8e43c87e03060c18;
    0xf49bb8b633338561; 0x7bf329ee636d1eea; 0x012b592653589793;
    0x4e7b2d0d9b47ba97; 0x34a35dc5ab7233ee; 0xbbcbcc9dfb2ca865;
    0xc113bc55cb19211c; 0x5863dbf1e3ac9dec; 0x22bbab39d3991495;
    0xadd33a6183c78f1e; 0xd70b4aa9b3f20667; 0x985b3e827bed2b63;
    0xe2834e4a4bd8a21a; 0x6debdf121b863991; 0x1733afda2bb3b0e8;
    0xf34b37458bb86399; 0x8993478dbb8deae0; 0x06fbd6d5ebd3716b;
    0x7c23a61ddbe6f812; 0x3373d23613f9d516; 0x49aba2fe23cc5c6f;
    0xc6c333a67392c7e4; 0xbc1b436e43a74e9d; 0x95ac9329ac4bc9b5;
    0xef74e3e19c7e40cc; 0x601c72b9cc20db47; 0x1ac40271fc15523e;
    0x5594765a340a7f3a; 0x2f4c0692043ff643; 0xa02497ca54616dc8;
    0xdafce7026454e4b1; 0x3e847f9dc45f37c0; 0x445c0f55f46abeb9;
    0xcb349e0da4342532; 0xb1eceec59401ac4b; 0xfebc9aee5c1e814f;
    0x8464ea266c2b0836; 0x0b0c7b7e3c7593bd; 0x71d40bb60c401ac4;
    0xe8a46c1224f5a634; 0x927c1cda14c02f4d; 0x1d148d82449eb4c6;
    0x67ccfd4a74ab3dbf; 0x289c8961bcb410bb; 0x5244f9a98c8199c2;
    0xdd2c68f1dcdf0249; 0xa7f41839ecea8b30; 0x438c80a64ce15841;
    0x3954f06e7cd4d138; 0xb63c61362c8a4ab3; 0xcce411fe1cbfc3ca;
    0x83b465d5d4a0eece; 0xf96c151de49567b7; 0x76048445b4cbfc3c;
    0x0cdcf48d84fe7545; 0x6fbd6d5ebd3716b7; 0x15651d968d029fce;
    0x9a0d8ccedd5c0445; 0xe0d5fc06ed698d3c; 0xaf85882d2576a038;
    0xd55df8e515432941; 0x5a3569bd451db2ca; 0x20ed197575283bb3;
    0xc49581ead523e8c2; 0xbe4df122e51661bb; 0x3125607ab548fa30;
    0x4bfd10b2857d7349; 0x04ad64994d625e4d; 0x7e7514517d57d734;
    0xf11d85092d094cbf; 0x8bc5f5c11d3cc5c6; 0x12b5926535897936;
    0x686de2ad05bcf04f; 0xe70573f555e26bc4; 0x9ddd033d65d7e2bd;
    0xd28d7716adc8cfb9; 0xa85507de9dfd46c0; 0x273d9686cda3dd4b;
    0x5de5e64efd965432; 0xb99d7ed15d9d8743; 0xc3450e196da80e3a;
    0x4c2d9f413df695b1; 0x36f5ef890dc31cc8; 0x79a59ba2c5dc31cc;
    0x037deb6af5e9b8b5; 0x8c157a32a5b7233e; 0xf6cd0afa9582aa47;
    0x4ad64994d625e4da; 0x300e395ce6106da3; 0xbf66a804b64ef628;
    0xc5bed8cc867b7f51; 0x8aeeace74e645255; 0xf036dc2f7e51db2c;
    0x7f5e4d772e0f40a7; 0x05863dbf1e3ac9de; 0xe1fea520be311aaf;
    0x9b26d5e88e0493d6; 0x144e44b0de5a085d; 0x6e963478ee6f8124;
    0x21c640532670ac20; 0x5b1e309b16452559; 0xd476a1c3461bbed2;
    0xaeaed10b762e37ab; 0x37deb6af5e9b8b5b; 0x4d06c6676eae0222;
    0xc26e573f3ef099a9; 0xb8b627f70ec510d0; 0xf7e653dcc6da3dd4;
    0x8d3e2314f6efb4ad; 0x0256b24ca6b12f26; 0x788ec2849684a65f;
    0x9cf65a1b368f752e; 0xe62e2ad306bafc57; 0x6946bb8b56e467dc;
    0x139ecb4366d1eea5; 0x5ccebf68aecec3a1; 0x2616cfa09efb4ad8;
    0xa97e5ef8cea5d153; 0xd3a62e30fe90582a; 0xb0c7b7e3c7593bd8;
    0xca1fc72bf76cb2a1; 0x45775673a732292a; 0x3faf26bb9707a053;
    0x70ff52905f188d57; 0x0a2722586f2d042e; 0x854fb3003f739fa5;
    0xff97c3c80f4616dc; 0x1bef5b57af4dc5ad; 0x61372b9f9f784cd4;
    0xee5fbac7cf26d75f; 0x9487ca0fff135e26; 0xdbd7be24370c7322;
    0xa10fceec0739fa5b; 0x2e675fb4576761d0; 0x54bf2f7c6752e8a9;
    0xcdcf48d84fe75459; 0xb71738107fd2dd20; 0x387fa9482f8c46ab;
    0x42a7d9801fb9cfd2; 0x0df7adabd7a6e2d6; 0x772fdd63e7936baf;
    0xf8474c3bb7cdf024; 0x829f3cf387f8795d; 0x66e7a46c27f3aa2c;
    0x1c3fd4a417c62355; 0x935745fc4798b8de; 0xe98f353477ad31a7;
    0xa6df411fbfb21ca3; 0xdc0731d78f8795da; 0x536fa08fdfd90e51;
    0x29b7d047efec8728
  ].

(** One iteration of the loop: [crc64_tab[(uint8_t)crc ^ byte] ^ (crc >> 8)]. *)
Definition crc64_step (crc byte : Z) : Z :=
  Z.lxor (nth (Z.to_nat (Z.lxor (wrap 8 crc) byte)) crc64_tab 0) (Z.shiftr crc 8).

(** [crc64(crc, s, l)], where [s] lists the [l] bytes. *)
Definition crc64 (crc : Z) (s : list Z) : Z := fold_left crc64_step s crc.

(** ** The reference: bit-at-a-time CRC-64-Jones *)

(** The polynomial the header of crc64.c names, and its bit reversal. *)
Definition jones_poly : Z := 0xad93d23594c935a9.

Fixpoint bit_reverse (n : nat) (v : Z) : Z :=
  match n with
  | O => 0
  | S n' => Z.lor (Z.shiftl (Z.land v 1) (Z.of_nat n')) (bit_reverse n' (Z.shiftr v 1))
  end.

Definition jones_poly_reflected : Z := bit_reverse 64 jones_poly.

(** Divide out one bit of the reflected register. *)
Definition crc_bit (c : Z) : Z :=
  if Z.odd c then Z.lxor (Z.shiftr c 1) jones_poly_reflected else Z.shiftr c 1.

Fixpoint crc_bits (n : nat) (c : Z) : Z :=
  match n with
  | O => c
  | S n' => crc_bit (crc_bits n' c)
  end.

Definition crc64_jones_step (crc byte : Z) : Z := crc_bits 8 (Z.lxor crc byte).

Definition crc64_jones (crc : Z) (s : list Z) : Z := fold_left crc64_jones_step s crc.

(** ** Bit-level lemmas *)

Lemma fits_lxor w a b : 0 <= w -> fits w a -> fits w b -> fits w (Z.lxor a b).
Proof.
  intros Hw Ha Hb. unfold fits in *.
  assert (0 <= Z.lxor a b) by (apply Z.lxor_nonneg; lia). split; [done|].
  destruct (decide (Z.lxor a b = 0)) as [->|]; [by apply Z.pow_pos_nonneg|].
  apply Z.log2_lt_pow2; [lia|].
  eapply Z.le_lt_trans; [apply Z.log2_lxor; lia|].
  destruct (decide (w = 0)) as [->|].
  { change (2 ^ 0) with 1 in *. assert (a = 0) by lia. assert (b = 0) by lia. by subst. }
  apply Z.max_lub_lt.
  - destruct (decide (a = 0)) as [->|]; [cbn; lia|]. apply Z.log2_lt_pow2; lia.
  - destruct (decide (b = 0)) as [->|]; [cbn; lia|]. apply Z.log2_lt_pow2; lia.
Qed.

Lemma fits_shiftr w k a : 0 <= k -> fits w a -> fits w (Z.shiftr a k).
Proof.
  unfold fits. intros Hk Ha. rewrite Z.shiftr_div_pow2 by lia.
  assert (0 < 2 ^ k) by (apply Z.pow_pos_nonneg; lia).
  split; [apply Z.div_pos; lia|].
  apply Z.le_lt_trans with a; [|lia]. apply Z.div_le_upper_bound; nia.
Qed.

Lemma shiftr_high_zero w a : 0 <= w -> fits w a -> Z.shiftr a w = 0.
Proof. intros ? Ha. rewrite Z.shiftr_div_pow2 by lia. by apply Z.div_small. Qed.

(** One bit step distributes over exclusive or. *)
Lemma crc_bit_lxor c d : crc_bit (Z.lxor c d) = Z.lxor (crc_bit c) (crc_bit d).
Proof.
  unfold crc_bit. rewrite <- !Z.bit0_odd, Z.lxor_spec, Z.shiftr_lxor.
  set (p := jones_poly_reflected). set (x := Z.shiftr c 1). set (y := Z.shiftr d 1).
  destruct (Z.testbit c 0), (Z.testbit d 0); cbn [xorb].
  - rewrite (Z.lxor_comm y p), <- Z.lxor_assoc, (Z.lxor_assoc x p p), Z.lxor_nilpotent.
    by rewrite Z.lxor_0_r.
  - by rewrite Z.lxor_assoc, (Z.lxor_comm y p), Z.lxor_assoc.
  - by rewrite Z.lxor_assoc.
  - done.
Qed.

Lemma crc_bits_lxor n c d :
  crc_bits n (Z.lxor c d) = Z.lxor (crc_bits n c) (crc_bits n d).
Proof. induction n as [|n IH]; cbn; [done|]. by rewrite IH, crc_bit_lxor. Qed.

(** Low zero bits are shifted out unchanged. *)
Lemma crc_bits_shift n c :
  crc_bits n (Z.shiftl c (Z.of_nat n)) = c.
Proof.
  revert c. induction n as [|n IH]; intros c; [by cbn; rewrite Z.shiftl_0_r|].
  cbn. replace (Z.shiftl c (Z.of_nat (S n))) with (Z.shiftl (2 * c) (Z.of_nat n)).
  2:{ rewrite !Z.shiftl_mul_pow2, Nat2Z.inj_succ, Z.pow_succ_r by lia. lia. }
  rewrite IH. unfold crc_bit. rewrite Z.odd_mul. cbn [Z.odd andb].
  rewrite Z.shiftr_div_pow2 by lia. change (2 ^ 1) with 2. rewrite Z.mul_comm.
  by apply Z.div_mul.
Qed.

(** The table holds the eight-step remainder of every byte. *)
Lemma crc64_tab_remainders :
  map (fun i => crc_bits 8 (Z.of_nat i)) (seq 0 256) = crc64_tab.
Proof. vm_compute. reflexivity. Qed.

Lemma crc64_tab_entry i : u8 i ->
  nth (Z.to_nat i) crc64_tab 0 = crc_bits 8 i.
Proof.
  intros Hi. unfold fits in Hi. rewrite <- crc64_tab_remainders.
  set (f := fun i => crc_bits 8 (Z.of_nat i)).
  rewrite (nth_indep _ 0 (f 0%nat)) by (rewrite length_map, length_seq; lia).
  rewrite (map_nth f), seq_nth by lia. unfold f. f_equal. lia.
Qed.

Lemma split_low_byte c : c = Z.lxor (wrap 8 c) (Z.shiftl (Z.shiftr c 8) 8).
Proof.
  apply Z.bits_inj'. intros i Hi. rewrite Z.lxor_spec. unfold wrap.
  destruct (decide (i < 8)).
  - rewrite Z.mod_pow2_bits_low, Z.shiftl_spec_low by lia. by rewrite xorb_false_r.
  - rewrite Z.mod_pow2_bits_high, Z.shiftl_spec, Z.shiftr_spec by lia.
    rewrite xorb_false_l. f_equal. lia.
Qed.

Lemma crc_index_u8 crc byte : u8 byte -> u8 (Z.lxor (wrap 8 crc) byte).
Proof. intros. apply fits_lxor; [lia| |done]. by apply wrap_fits. Qed.

Lemma crc64_step_jones crc byte : u8 byte ->
  crc64_step crc byte = crc64_jones_step crc byte.
Proof.
  intros Hb. unfold crc64_step, crc64_jones_step.
  rewrite crc64_tab_entry by by apply crc_index_u8.
  replace (Z.lxor crc byte)
    with (Z.lxor (Z.lxor (wrap 8 crc) byte) (Z.shiftl (Z.shiftr crc 8) 8)).
  { rewrite (crc_bits_lxor 8 (Z.lxor _ _)). f_equal. symmetry. apply (crc_bits_shift 8). }
  rewrite (split_low_byte crc) at 3.
  by rewrite !Z.lxor_assoc, (Z.lxor_comm byte).
Qed.

(** Every table entry fits in 64 bits, and its top byte identifies it. *)
Lemma crc64_tab_fits : Forall u64 crc64_tab.
Proof.
  assert (forallb (fun v => (0 <=? v) && (v <? 2 ^ 64)) crc64_tab = true) as H
    by (vm_compute; reflexivity).
  apply Forall_forall. intros v Hv%list_elem_of_In. rewrite forallb_forall in H.
  specialize (H v Hv). unfold fits. lia.
Qed.

Lemma crc64_tab_nth_fits i : u64 (nth i crc64_tab 0).
Proof.
  destruct (decide (i < length crc64_tab)%nat) as [Hi|Hi].
  - eapply (proj1 (List.Forall_forall _ _) crc64_tab_fits). by apply nth_In.
  - rewrite nth_overflow by lia. by split.
Qed.

Lemma crc64_tab_top_bytes :
  forallb (fun p => Nat.eqb (fst p) (snd p) ||
     negb (Z.shiftr (nth (fst p) crc64_tab 0) 56 =? Z.shiftr (nth (snd p) crc64_tab 0) 56))
   (list_prod (seq 0 256) (seq 0 256)) = true.
Proof. vm_compute. reflexivity. Qed.

Lemma crc64_tab_top_inj i j : u8 i -> u8 j ->
  Z.shiftr (nth (Z.to_nat i) crc64_tab 0) 56 = Z.shiftr (nth (Z.to_nat j) crc64_tab 0) 56 ->
  i = j.
Proof.
  unfold fits. intros Hi Hj Heq. pose proof crc64_tab_top_bytes as H.
  rewrite forallb_forall in H.
  specialize (H (Z.to_nat i, Z.to_nat j)). cbn [fst snd] in H.
  rewrite Heq, Z.eqb_refl in H. cbn [negb] in H.
  assert ((Z.to_nat i =? Z.to_nat j)%nat = true) as E.
  { rewrite orb_false_r in H. apply H. apply in_prod; apply in_seq; lia. }
  apply Nat.eqb_eq in E. lia.
Qed.

(** ** Steps of the register *)

Lemma crc64_step_fits crc byte : u64 crc -> u64 (crc64_step crc byte).
Proof.
  intros. apply fits_lxor; [lia|apply crc64_tab_nth_fits|]. by apply fits_shiftr.
Qed.

Lemma crc64_fits crc s : u64 crc -> u64 (crc64 crc s).
Proof.
  revert crc. induction s as [|b s IH]; intros crc Hc; cbn; [done|].
  by apply IH, crc64_step_fits.
Qed.

Lemma crc64_app_eq crc s t : crc64 crc (s ++ t) = crc64 (crc64 crc s) t.
Proof. apply fold_left_app. Qed.

(** The high [64 - 8k] bits of two registers agree. *)
Definition agree_above (k : Z) (c d : Z) : Prop := Z.shiftr c (8 * k) = Z.shiftr d (8 * k).

Lemma agree_above_0 c d : agree_above 0 c d -> c = d.
Proof. unfold agree_above. by rewrite !Z.shiftr_0_r. Qed.

Lemma shiftr_step k crc byte : 0 <= k ->
  Z.shiftr (crc64_step crc byte) (8 * k) =
  Z.lxor (Z.shiftr (nth (Z.to_nat (Z.lxor (wrap 8 crc) byte)) crc64_tab 0) (8 * k))
         (Z.shiftr crc (8 * (k + 1))).
Proof.
  intros. unfold crc64_step. rewrite Z.shiftr_lxor, Z.shiftr_shiftr by lia.
  by replace (8 + 8 * k) with (8 * (k + 1)) by lia.
Qed.

Lemma agree_above_mono k j c d : 0 <= k <= j -> agree_above k c d -> agree_above j c d.
Proof.
  unfold agree_above. intros Hk H.
  replace (8 * j) with (8 * k + 8 * (j - k)) by lia.
  rewrite <- !Z.shiftr_shiftr by lia. by rewrite H.
Qed.

(** Stepping backwards: from the high bytes of the results one recovers the
    table index and one byte less of the registers. *)
Lemma crc64_step_back k c d b b' :
  0 <= k < 8 -> u64 c -> u64 d -> u8 b -> u8 b' ->
  agree_above k (crc64_step c b) (crc64_step d b') ->
  agree_above (k + 1) c d /\ Z.lxor (wrap 8 c) b = Z.lxor (wrap 8 d) b'.
Proof.
  intros Hk Hc Hd Hb Hb' H.
  assert (Z.lxor (wrap 8 c) b = Z.lxor (wrap 8 d) b') as Hidx.
  { apply crc64_tab_top_inj; [by apply crc_index_u8..|].
    pose proof (agree_above_mono k 7 _ _ ltac:(lia) H) as H7. unfold agree_above in H7.
    rewrite !shiftr_step in H7 by lia.
    by rewrite !(shiftr_high_zero 64), !Z.lxor_0_r in H7 by done. }
  split; [|done]. unfold agree_above in *. rewrite !shiftr_step, Hidx in H by lia.
  apply (f_equal (Z.lxor
    (Z.shiftr (nth (Z.to_nat (Z.lxor (wrap 8 d) b')) crc64_tab 0) (8 * k)))) in H.
  by rewrite <- !Z.lxor_assoc, !Z.lxor_nilpotent, !Z.lxor_0_l in H.
Qed.

Lemma lxor_cancel_l a b c : Z.lxor a b = Z.lxor a c -> b = c.
Proof.
  intros H. apply (f_equal (Z.lxor a)) in H.
  by rewrite <- !Z.lxor_assoc, !Z.lxor_nilpotent, !Z.lxor_0_l in H.
Qed.

Lemma crc64_back w : forall w' k c d,
  length w = length w' -> 0 <= k -> k + zlen w <= 8 ->
  u64 c -> u64 d -> Forall u8 w -> Forall u8 w' ->
  agree_above k (crc64 c w) (crc64 d w') ->
  agree_above (k + zlen w) c d /\ (c = d -> w = w').
Proof.
  induction w as [|b w IH]; intros [|b' w'] k c d Hlen Hk Hk8 Hc Hd Hw Hw' H;
    try discriminate.
  { rewrite zlen_nil, Z.add_0_r. done. }
  rewrite zlen_cons in *. inversion Hw; inversion Hw'; subst. pose proof (zlen_nonneg w).
  apply (IH w' k) in H as [H Hinj]; [|by simplify_eq/=|lia|lia|by apply crc64_step_fits..|done|done].
  apply crc64_step_back in H as [H Hidx]; [|lia|done..].
  replace (k + (1 + zlen w)) with (k + zlen w + 1) by lia. split; [done|].
  intros ->. apply lxor_cancel_l in Hidx as <-. f_equal. by apply Hinj.
Qed.

Lemma crc64_state_inj s c d : u64 c -> u64 d -> Forall u8 s ->
  crc64 c s = crc64 d s -> c = d.
Proof.
  revert c d. induction s as [|b s IH]; intros c d Hc Hd Hs H; cbn in *; [done|].
  inversion Hs; subst.
  apply IH in H; [|by apply crc64_step_fits..|done].
  assert (agree_above 0 (crc64_step c b) (crc64_step d b)) as Ha by by unfold agree_above; rewrite H.
  apply crc64_step_back in Ha as [Ha Hidx]; [|lia|done..].
  rewrite (Z.lxor_comm (wrap 8 c)), (Z.lxor_comm (wrap 8 d)) in Hidx.
  apply lxor_cancel_l in Hidx.
  rewrite (split_low_byte c), (split_low_byte d), Hidx.
  by replace (Z.shiftr c 8) with (Z.shiftr d 8) by (symmetry; exact Ha).
Qed.

(** ** Properties *)

(** C32: the table-driven checksum of src/crc64.c computes the bitwise
    CRC-64-Jones of its header comment, from any register and on any bytes;
    in particular the check value of "123456789" is the documented one. *)
Theorem crc64_is_jones crc s : Forall u8 s -> crc64 crc s = crc64_jones crc s.
Proof.
  revert crc. induction s as [|b s IH]; intros crc Hs; [done|].
  inversion Hs; subst. cbn. rewrite crc64_step_jones by done. by apply IH.
Qed.

Example crc64_is_jones_witness :
  let s := [49; 50; 51; 52; 53; 54; 55; 56; 57] in
  crc64_jones 0 s = 0xe9c6d914c4b8d9ca /\ crc64 0 s = crc64_jones 0 s.
Proof.
  split; [vm_compute; reflexivity|]. apply crc64_is_jones.
  decide_now.
Defined.

(** Error detection. Two messages of the same length that differ only
    inside a window of at most eight consecutive bytes have different
    checksums, so every burst of at most 64 bits is caught. *)
Theorem crc64_detects_burst crc p w w' q :
  u64 crc -> Forall u8 (p ++ w ++ q) -> Forall u8 w' ->
  length w = length w' -> zlen w <= 8 -> w <> w' ->
  crc64 crc (p ++ w ++ q) <> crc64 crc (p ++ w' ++ q).
Proof.
  intros Hc Hall Hw' Hlen Hle Hne Heq.
  apply Forall_app in Hall as [_ Hall]. apply Forall_app in Hall as [Hw Hq].
  rewrite !crc64_app_eq in Heq.
  apply crc64_state_inj in Heq; [|by repeat apply crc64_fits..|done].
  assert (u64 (crc64 crc p)) by by apply crc64_fits.
  eapply Hne, (crc64_back w w' 0 (crc64 crc p) (crc64 crc p)); try done.
Qed.

Example crc64_detects_burst_witness :
  crc64 0 ([1; 2] ++ [3; 4] ++ [5]) <> crc64 0 ([1; 2] ++ [3; 5] ++ [5]).
Proof.
  apply crc64_detects_burst; try reflexivity; try discriminate; decide_now.
Defined.
