(* ===== verification/Limits.v ===== *)
(** * Compile-time limits (src/config.h, src/task.h)

    The constants every component shares. *)

From S2P Require Import Prelude.

(** ** src/config.h *)
Definition MAX_FDS : Z := 1024.
Definition MAX_EVENTS : Z := 64.
Definition MSG_MAX : Z := 4096.
Definition FRAME_HDR_SIZE : Z := 4.
Definition WBUF_SIZE : Z := (MSG_MAX + FRAME_HDR_SIZE) * 2.
Definition CLIENT_TIMEOUT_CHECK_INTERVAL_MS : Z := 100.
Definition MAPREDUCE_PATH_MAX : Z := 1024.

(** ** src/task.h *)
Definition MAX_MAP_TASKS : Z := 256.
Definition MAX_REDUCE_TASKS : Z := 64.
Definition MAX_ATTEMPTS : Z := 3.

(** Unfold the limits for arithmetic. *)
Ltac limits :=
  unfold MAX_FDS, MAX_EVENTS, WBUF_SIZE, MSG_MAX, FRAME_HDR_SIZE,
    CLIENT_TIMEOUT_CHECK_INTERVAL_MS, MAPREDUCE_PATH_MAX,
    MAX_MAP_TASKS, MAX_REDUCE_TASKS, MAX_ATTEMPTS in *.
