(* ===== verification/Util.v ===== *)
(** * I/O helpers and hashing (src/util.c)

    The results of system calls come from a script: each call consumes one
    entry, and a call made after the end of the script succeeds in full. The
    script is universally quantified in the theorems, so they hold for every
    sequence of kernel answers. *)

From S2P Require Import Prelude Limits.

(** ** Kernel answers *)

(** The answer of one [read], [write], [fdatasync] or [malloc]: a transfer of
    at most [S k] bytes, or a failure with the [errno] the code tells apart
    ([EAGAIN] and [EWOULDBLOCK] are one answer). *)
Inductive io : Type :=
  | IoOk (k : nat)
  | IoEintr
  | IoEagain
  | IoErr.

(** The answer of a call that transfers nothing, and the rest of the script:
    [true] is success. *)
Definition io_simple (s : list io) : bool * list io :=
  match s with
  | [] => (true, [])
  | IoOk _ :: s' => (true, s')
  | _ :: s' => (false, s')
  end.

(** ** The code *)

(** [get_hash(key)]: djb2 on a 64-bit [size_t]; [int c = *key++] sign-extends
    a [char], and the sum wraps. *)
Definition char_to_int (b : Z) : Z := if b <? 128 then b else b - 256.

Definition get_hash (key : list Z) : Z :=
  fold_left (fun hash b => wrap 64 (wrap 64 (Z.shiftl hash 5) + hash + char_to_int b)) key 5381.

(** [write_all(fd, buf, len)]: the return value, the bytes the kernel
    accepted, and the rest of the script. *)
Fixpoint write_all_loop (s : list io) (todo : list Z) : bool * list Z * list io :=
  match todo with
  | [] => (true, [], s)
  | _ =>
    match s with
    | [] => (true, todo, [])
    | IoOk k :: s' =>
        let '(ok, acc, s'') := write_all_loop s' (drop (S k) todo) in
        (ok, take (S k) todo ++ acc, s'')
    | IoEintr :: s' => write_all_loop s' todo
    | _ :: s' => (false, [], s')
    end
  end.

Definition write_all (s : list io) (buf : list Z) : Z * list Z * list io :=
  let '(ok, acc, s') := write_all_loop s buf in
  (if ok then zlen acc else -1, acc, s').

(** [read_exact(fd, buf, len)] on a file (or stream) holding [src]: the return
    value is -1, or the number of bytes read, which is short at end of file;
    then come the bytes stored in [buf], the unread rest and the script. *)
Fixpoint read_exact_loop (s : list io) (src : list Z) (len : nat)
    : bool * list Z * list Z * list io :=
  match len with
  | O => (true, [], src, s)
  | _ =>
    match s with
    | [] => (true, take len src, drop len src, [])
    | IoOk k :: s' =>
        match src with
        | [] => (true, [], [], s')
        | _ =>
          let n := Nat.min (S k) (Nat.min len (length src)) in
          let '(ok, got, rest, s'') := read_exact_loop s' (drop n src) (len - n) in
          (ok, take n src ++ got, rest, s'')
        end
    | IoEintr :: s' => read_exact_loop s' src len
    | _ :: s' => (false, [], src, s')
    end
  end.

Definition read_exact (s : list io) (src : list Z) (len : Z) : Z * list Z * list Z * list io :=
  let '(ok, got, rest, s') := read_exact_loop s src (Z.to_nat len) in
  (if ok then zlen got else -1, got, rest, s').

(** [durable_flush(fd)] *)
Definition durable_flush (s : list io) : Z * list io :=
  let '(ok, s') := io_simple s in (if ok then 0 else -1, s').

(** ** Properties of the loops *)

(** A script whose failures are all [EINTR], which the loops retry. *)
Definition retryable_io (a : io) : bool :=
  match a with IoOk _ | IoEintr => true | _ => false end.
Definition retryable (s : list io) : Prop := Forall (fun a => retryable_io a = true) s.
#[export] Instance retryable_dec s : Decision (retryable s).
Proof. unfold retryable. apply _. Defined.

(** A script without failures: transfers may still be short. *)
Definition benign_io (a : io) : bool :=
  match a with IoOk _ => true | _ => false end.
Definition benign (s : list io) : Prop := Forall (fun a => benign_io a = true) s.
#[export] Instance benign_dec s : Decision (benign s).
Proof. unfold benign. apply _. Defined.

Lemma benign_retryable s : benign s -> retryable s.
Proof. intros H. eapply Forall_impl; [exact H|]. by intros []. Qed.

Lemma benign_app s1 s2 : benign (s1 ++ s2) <-> benign s1 /\ benign s2.
Proof. apply Forall_app. Qed.

Lemma write_all_loop_spec s : forall todo ok acc s',
  write_all_loop s todo = (ok, acc, s') ->
  (exists rest, todo = acc ++ rest) /\ (ok = true -> acc = todo) /\
  (exists used, s = used ++ s') /\ (retryable s -> ok = true).
Proof.
  induction s as [|a s IH]; intros [|b todo] ok acc s' H; cbn in H.
  all: try (simplify_eq; split_and!; [by eexists; rewrite ?app_nil_l, ?app_nil_r|done|
    by exists []|done]).
  destruct a as [k| | |].
  - destruct (write_all_loop s (drop k todo)) as [[ok1 acc1] s1] eqn:E. simplify_eq.
    apply IH in E as ([rest Hrest] & Hfull & [used ->] & Hben).
    split_and!.
    + exists rest. cbn. f_equal. by rewrite <- app_assoc, <- Hrest, take_drop.
    + intros Hok. rewrite Hfull by done. cbn. by rewrite take_drop.
    + by exists (IoOk k :: used).
    + intros Hb. apply Hben. by inversion Hb.
  - apply IH in H as (? & ? & [used ->] & Hben). split_and!; try done.
    + by exists (IoEintr :: used).
    + intros Hb. apply Hben. by inversion Hb.
  - simplify_eq. split_and!; [by eexists|done|by exists [IoEagain]|]. by inversion 1.
  - simplify_eq. split_and!; [by eexists|done|by exists [IoErr]|]. by inversion 1.
Qed.

Lemma read_exact_loop_nil src len :
  read_exact_loop [] src len = (true, take len src, drop len src, []).
Proof. by destruct len. Qed.

Lemma read_exact_loop_ok k s b src len :
  read_exact_loop (IoOk k :: s) (b :: src) (S len) =
  let n := Nat.min (S k) (Nat.min (S len) (length (b :: src))) in
  let '(ok, got, rest, s') := read_exact_loop s (drop n (b :: src)) (S len - n) in
  (ok, take n (b :: src) ++ got, rest, s').
Proof. reflexivity. Qed.

Lemma read_exact_loop_spec s : forall src len ok got rest s',
  read_exact_loop s src len = (ok, got, rest, s') ->
  src = got ++ rest /\ (length got <= len)%nat /\
  (ok = true -> got = take len src) /\
  (exists used, s = used ++ s') /\ (retryable s -> ok = true).
Proof.
  induction s as [|a s IH]; intros src len ok got rest s' H.
  { rewrite read_exact_loop_nil in H. simplify_eq.
    split_and!; [by rewrite take_drop|rewrite length_take; lia|done|by exists []|done]. }
  destruct len as [|len].
  { cbn in H. simplify_eq. split_and!; [done|cbn; lia|done|by exists []|done]. }
  destruct a as [k| | |].
  2:{ apply IH in H as (? & ? & ? & [used ->] & Hben). split_and!; try done.
      - by exists (IoEintr :: used).
      - intros Hb. apply Hben. by inversion Hb. }
  2:{ cbn in H. simplify_eq. split_and!; [done|cbn; lia|done|by exists [IoEagain]|].
      by inversion 1. }
  2:{ cbn in H. simplify_eq. split_and!; [done|cbn; lia|done|by exists [IoErr]|].
      by inversion 1. }
  destruct src as [|b src].
  { cbn in H. simplify_eq. split_and!; [done|cbn; lia|done|by exists [IoOk k]|done]. }
  rewrite read_exact_loop_ok in H. cbn zeta in H. revert H.
  set (n := Nat.min (S k) (Nat.min (S len) (length (b :: src)))). intros H.
  destruct (read_exact_loop s (drop n (b :: src)) (S len - n))
    as [[[ok1 got1] rest1] s1] eqn:E.
  simplify_eq. apply IH in E as (Hsrc & Hlen & Hfull & [used ->] & Hben).
  split_and!.
  - by rewrite <- app_assoc, <- Hsrc, take_drop.
  - rewrite length_app, length_take. lia.
  - intros Hok. rewrite Hfull, take_take_drop by done. f_equal. lia.
  - by exists (IoOk k :: used).
  - intros Hb. apply Hben. by inversion Hb.
Qed.

(** [write_all] either fails after a prefix, or writes everything; it fails
    only when some answer is a failure other than [EINTR]. *)
Lemma write_all_spec s buf rc acc s' :
  write_all s buf = (rc, acc, s') ->
  (exists rest, buf = acc ++ rest) /\
  (rc = -1 \/ rc = zlen buf /\ acc = buf) /\
  (retryable s -> rc = zlen buf) /\ (exists used, s = used ++ s').
Proof.
  unfold write_all. destruct (write_all_loop s buf) as [[ok acc'] s1] eqn:E. intros. simplify_eq.
  apply write_all_loop_spec in E as (Hpre & Hfull & Hused & Hben).
  split_and!; [done| | |done].
  - destruct ok; [|by left]. right. by rewrite Hfull.
  - intros Hb. rewrite Hben in * by done. by rewrite Hfull.
Qed.

(** [read_exact] either fails, or reads a prefix that is short only at the end
    of the file. *)
Lemma read_exact_spec s src len rc got rest s' :
  0 <= len -> read_exact s src len = (rc, got, rest, s') ->
  src = got ++ rest /\ zlen got <= len /\
  (rc = -1 \/ rc = zlen got /\ got = take (Z.to_nat len) src) /\
  (retryable s -> rc = zlen got /\ got = take (Z.to_nat len) src) /\
  (exists used, s = used ++ s').
Proof.
  unfold read_exact. intros Hlen.
  destruct (read_exact_loop s src (Z.to_nat len)) as [[[ok g] r] s1] eqn:E. intros. simplify_eq.
  apply read_exact_loop_spec in E as (Hsrc & Hle & Hfull & Hused & Hben).
  split_and!; [done|unfold zlen; lia| | |done].
  - destruct ok; [right|by left]. auto.
  - intros Hb. rewrite Hben in * by done. auto.
Qed.

(** A benign script reads what is there. *)
Lemma read_exact_take s src len : benign s -> 0 <= len ->
  exists s', read_exact s src len =
    (zlen (take (Z.to_nat len) src), take (Z.to_nat len) src, drop (Z.to_nat len) src, s') /\
    benign s'.
Proof.
  intros Hb Hlen. destruct (read_exact s src len) as [[[rc g] r] s'] eqn:E.
  apply read_exact_spec in E as (Hsrc & Hle & _ & Hben & [used ->]); [|done].
  destruct (Hben (benign_retryable _ Hb)) as (-> & ->).
  apply benign_app in Hb as [_ Hb]. exists s'. split; [|done].
  rewrite <- (take_drop (Z.to_nat len) src) in Hsrc at 1. by apply app_inv_head in Hsrc as <-.
Qed.

Lemma read_exact_benign s got rest :
  benign s ->
  exists s', read_exact s (got ++ rest) (zlen got) = (zlen got, got, rest, s') /\ benign s'.
Proof.
  intros Hb. destruct (read_exact_take s (got ++ rest) (zlen got) Hb) as (s' & -> & Hb');
    [apply zlen_nonneg|].
  unfold zlen. rewrite Nat2Z.id, take_app_length, drop_app_length. by exists s'.
Qed.

Lemma read_exact_eof s len : benign s -> 0 <= len ->
  exists s', read_exact s [] len = (0, [], [], s') /\ benign s'.
Proof.
  intros Hb Hlen. destruct (read_exact_take s [] len Hb Hlen) as (s' & -> & Hb').
  rewrite take_nil, drop_nil. by exists s'.
Qed.

Lemma write_all_benign s buf : benign s ->
  exists s', write_all s buf = (zlen buf, buf, s') /\ benign s'.
Proof.
  intros Hb. destruct (write_all s buf) as [[rc acc] s'] eqn:E.
  apply write_all_spec in E as (_ & Hor & Hben & [used ->]).
  pose proof (Hben (benign_retryable _ Hb)) as ->. apply benign_app in Hb as [_ Hb].
  destruct Hor as [H|[_ ->]]; [|by exists s'].
  pose proof (zlen_nonneg buf). lia.
Qed.

Lemma io_simple_benign s : benign s -> exists s', io_simple s = (true, s') /\ benign s'.
Proof.
  destruct s as [|[] s]; intros Hb; inversion Hb; try discriminate.
  - by exists [].
  - by exists s.
Qed.

Lemma durable_flush_benign s : benign s -> exists s', durable_flush s = (0, s') /\ benign s'.
Proof.
  intros Hb. unfold durable_flush. destruct (io_simple_benign s Hb) as (s' & -> & Hb').
  by exists s'.
Qed.

Lemma durable_flush_cases s rc s' :
  durable_flush s = (rc, s') -> rc = 0 \/ rc = -1.
Proof. unfold durable_flush. destruct (io_simple s) as [[] ?]; naive_solver. Qed.

(** ** Clocks *)

Record timespec := mk_timespec { tv_sec : Z; tv_nsec : Z }.

(** What a kernel's clock shows. *)
Definition timespec_ok (tp : timespec) : Prop := 0 <= tv_sec tp < 2 ^ 53 /\ 0 <= tv_nsec tp < 1000000000.

(** [now_ms] and [realtime_ms], given what [clock_gettime] stores: the division
    of C truncates. *)
Definition now_ms (tp : timespec) : Z := tv_sec tp * 1000 + Z.quot (tv_nsec tp) 1000000.
Definition realtime_ms (tp : timespec) : Z := tv_sec tp * 1000 + Z.quot (tv_nsec tp) 1000000.

(** The interval [sleep_ms] of worker.c gives to [nanosleep]. *)
Definition sleep_timespec (ms : Z) : timespec := mk_timespec (ms / 1000) (ms mod 1000 * 1000000).

(** A reading neither overflows an [int64_t] nor runs behind an earlier one. *)
Lemma now_ms_bounds tp : timespec_ok tp -> 0 <= now_ms tp < 2 ^ 63.
Proof.
  intros [Hs Hn]. unfold now_ms. pose proof (Z.quot_pos (tv_nsec tp) 1000000 ltac:(lia) ltac:(lia)).
  pose proof (Z.quot_lt (tv_nsec tp + 1) 1000000 ltac:(lia) ltac:(lia)).
  pose proof (Z.quot_le_mono (tv_nsec tp) (tv_nsec tp + 1) 1000000 ltac:(lia) ltac:(lia)). lia.
Qed.

Lemma now_ms_mono t1 t2 : timespec_ok t1 -> timespec_ok t2 ->
  tv_sec t1 < tv_sec t2 \/ tv_sec t1 = tv_sec t2 /\ tv_nsec t1 <= tv_nsec t2 -> now_ms t1 <= now_ms t2.
Proof.
  intros [_ Hn1] [_ Hn2] Hle. unfold now_ms. rewrite !Z.quot_div_nonneg by lia.
  pose proof (Z.div_lt_upper_bound (tv_nsec t1) 1000000 1000 ltac:(lia) ltac:(lia)).
  pose proof (Z.div_pos (tv_nsec t2) 1000000 ltac:(lia) ltac:(lia)).
  destruct Hle as [?|[-> Hle]]; [lia|]. pose proof (Z.div_le_mono (tv_nsec t1) (tv_nsec t2) 1000000 ltac:(lia) Hle). lia.
Qed.

(** The interval is one [nanosleep] takes, and it lasts as long as it should. *)
Lemma sleep_exact ms : fits 32 ms -> timespec_ok (sleep_timespec ms) /\ now_ms (sleep_timespec ms) = ms.
Proof.
  unfold fits. intros Hms. unfold timespec_ok, now_ms, sleep_timespec; cbn [tv_sec tv_nsec].
  pose proof (Z.mod_pos_bound ms 1000 ltac:(lia)). pose proof (Z.div_pos ms 1000 ltac:(lia) ltac:(lia)).
  pose proof (Z.div_mod ms 1000 ltac:(lia)). rewrite Z.quot_mul by lia. lia.
Qed.

(** ** Properties *)

(** [write_all] on a buffer never reports a short count: under every
    sequence of kernel answers it returns either -1, having written a prefix,
    or the whole length, having written the whole buffer; it returns -1 only
    if some answer was a failure other than [EINTR]. *)
Theorem write_all_total s buf :
  exists rc acc s', write_all s buf = (rc, acc, s') /\
    (exists rest, buf = acc ++ rest) /\
    (rc = -1 \/ rc = zlen buf /\ acc = buf) /\ (rc = -1 -> ~ retryable s).
Proof.
  destruct (write_all s buf) as [[rc acc] s'] eqn:E. exists rc, acc, s'. split; [done|].
  apply write_all_spec in E as (Hpre & Hor & Hret & _). split_and!; [done|done|].
  intros -> Hs. pose proof (Hret Hs). pose proof (zlen_nonneg buf). lia.
Qed.
