(* ===== verification/Rpc.v ===== *)
(** * Wire format (src/rpc.h, src/rpc.c)

    Encoders and decoders of the seven RPC kinds. An encoder takes the
    capacity of its buffer and returns the bytes it stored ([*out_len] is
    their number), or [None] for a return of -1; a decoder takes the body after
    the kind byte and returns the message, or [None] for -1. *)

From S2P Require Import Prelude Limits.

(** ** Data (src/rpc.h) *)

Inductive rpc_kind_t : Type :=
  | RPC_GET_TASK_REQ
  | RPC_TASK_MAP_RESP
  | RPC_TASK_REDUCE_RESP
  | RPC_WAIT_RESP
  | RPC_DONE_RESP
  | RPC_TASK_DONE_REQ
  | RPC_TASK_DONE_ACK.

#[export] Instance rpc_kind_eq_dec : EqDecision rpc_kind_t.
Proof. solve_decision. Defined.

Definition rpc_kind_code (k : rpc_kind_t) : Z :=
  match k with
  | RPC_GET_TASK_REQ => 1
  | RPC_TASK_MAP_RESP => 2
  | RPC_TASK_REDUCE_RESP => 3
  | RPC_WAIT_RESP => 4
  | RPC_DONE_RESP => 5
  | RPC_TASK_DONE_REQ => 6
  | RPC_TASK_DONE_ACK => 7
  end.

(** [input_path] lists the leading bytes of the array; the rest are zero. *)
Record rpc_task_map_resp_t := mk_map_resp {
  map_resp_task_id : Z;
  map_resp_attempt_id : Z;
  map_resp_n_reduce : Z;
  map_resp_input_path_len : Z;
  map_resp_input_path : list Z;
}.

Record rpc_task_reduce_resp_t := mk_reduce_resp {
  reduce_resp_task_id : Z;
  reduce_resp_attempt_id : Z;
  reduce_resp_n_map : Z;
}.

Record rpc_task_done_req_t := mk_done_req {
  done_task_id : Z;
  done_attempt_id : Z;
  done_result : Z;
}.

Record rpc_wait_resp_t := mk_wait_resp { wait_ms : Z }.

(** ** Byte-buffer primitives

    A write cursor is the capacity [end - buf] and the bytes stored so far;
    a read cursor is the list of bytes left before [end]. *)

Record wcursor := mk_wcursor { w_cap : Z; w_out : list Z }.

Definition buf_write (p : wcursor) (bytes : list Z) : option wcursor :=
  if w_cap p - zlen (w_out p) <? zlen bytes then None
  else Some (mk_wcursor (w_cap p) (w_out p ++ bytes)).

Definition buf_write_u8 (p : wcursor) (v : Z) : option wcursor := buf_write p (be_encode 1 v).
Definition buf_write_u16 (p : wcursor) (v : Z) : option wcursor := buf_write p (be_encode 2 v).
Definition buf_write_u32 (p : wcursor) (v : Z) : option wcursor := buf_write p (be_encode 4 v).

(** [memcpy] of [n] bytes of an array whose leading bytes are [src] and whose
    other bytes are zero. *)
Definition array_bytes (src : list Z) (n : Z) : list Z := resize (Z.to_nat n) 0 src.

Definition buf_write_bytes (p : wcursor) (src : list Z) (n : Z) : option wcursor :=
  buf_write p (array_bytes src n).

Definition buf_read (p : list Z) (n : nat) : option (list Z * list Z) :=
  if (length p <? n)%nat then None else Some (take n p, drop n p).

Definition buf_read_u8 (p : list Z) : option (Z * list Z) :=
  '(b, p) ← buf_read p 1; Some (be_decode b, p).
Definition buf_read_u16 (p : list Z) : option (Z * list Z) :=
  '(b, p) ← buf_read p 2; Some (be_decode b, p).
Definition buf_read_u32 (p : list Z) : option (Z * list Z) :=
  '(b, p) ← buf_read p 4; Some (be_decode b, p).
Definition buf_read_bytes (p : list Z) (n : Z) : option (list Z * list Z) :=
  buf_read p (Z.to_nat n).

(** [p != end] after the last field is an error. *)
Definition at_end {A} (p : list Z) (a : A) : option A :=
  match p with [] => Some a | _ => None end.

(** ** Kind peek *)

Definition rpc_kind_of_code (k : Z) : option rpc_kind_t :=
  match k with
  | 1 => Some RPC_GET_TASK_REQ
  | 2 => Some RPC_TASK_MAP_RESP
  | 3 => Some RPC_TASK_REDUCE_RESP
  | 4 => Some RPC_WAIT_RESP
  | 5 => Some RPC_DONE_RESP
  | 6 => Some RPC_TASK_DONE_REQ
  | 7 => Some RPC_TASK_DONE_ACK
  | _ => None
  end.

Definition rpc_peek_kind (buf : list Z) : option rpc_kind_t :=
  match buf with
  | [] => None
  | k :: _ => if (k <? 1) || (7 <? k) then None else rpc_kind_of_code k
  end.

(** ** Encoders *)

Definition wstart (cap : Z) : wcursor := mk_wcursor cap [].

Definition rpc_encode_get_task_req (cap : Z) : option (list Z) :=
  w_out <$> buf_write_u8 (wstart cap) (rpc_kind_code RPC_GET_TASK_REQ).

Definition rpc_encode_task_map_resp (cap : Z) (msg : rpc_task_map_resp_t) : option (list Z) :=
  if MAPREDUCE_PATH_MAX <=? map_resp_input_path_len msg then None
  else
    p ← buf_write_u8 (wstart cap) (rpc_kind_code RPC_TASK_MAP_RESP);
    p ← buf_write_u32 p (map_resp_task_id msg);
    p ← buf_write_u32 p (map_resp_attempt_id msg);
    p ← buf_write_u32 p (map_resp_n_reduce msg);
    p ← buf_write_u16 p (map_resp_input_path_len msg);
    p ← buf_write_bytes p (map_resp_input_path msg) (map_resp_input_path_len msg);
    Some (w_out p).

Definition rpc_encode_task_reduce_resp (cap : Z) (msg : rpc_task_reduce_resp_t) : option (list Z) :=
  p ← buf_write_u8 (wstart cap) (rpc_kind_code RPC_TASK_REDUCE_RESP);
  p ← buf_write_u32 p (reduce_resp_task_id msg);
  p ← buf_write_u32 p (reduce_resp_attempt_id msg);
  p ← buf_write_u32 p (reduce_resp_n_map msg);
  Some (w_out p).

Definition rpc_encode_wait_resp (cap : Z) (msg : rpc_wait_resp_t) : option (list Z) :=
  p ← buf_write_u8 (wstart cap) (rpc_kind_code RPC_WAIT_RESP);
  p ← buf_write_u32 p (wait_ms msg);
  Some (w_out p).

Definition rpc_encode_done_resp (cap : Z) : option (list Z) :=
  w_out <$> buf_write_u8 (wstart cap) (rpc_kind_code RPC_DONE_RESP).

Definition rpc_encode_task_done_req (cap : Z) (msg : rpc_task_done_req_t) : option (list Z) :=
  p ← buf_write_u8 (wstart cap) (rpc_kind_code RPC_TASK_DONE_REQ);
  p ← buf_write_u32 p (done_task_id msg);
  p ← buf_write_u32 p (done_attempt_id msg);
  p ← buf_write_u8 p (done_result msg);
  Some (w_out p).

Definition rpc_encode_task_done_ack (cap : Z) : option (list Z) :=
  w_out <$> buf_write_u8 (wstart cap) (rpc_kind_code RPC_TASK_DONE_ACK).

(** ** Decoders *)

Definition rpc_decode_task_map_resp (buf : list Z) : option rpc_task_map_resp_t :=
  '(task_id, p) ← buf_read_u32 buf;
  '(attempt_id, p) ← buf_read_u32 p;
  '(n_reduce, p) ← buf_read_u32 p;
  '(path_len, p) ← buf_read_u16 p;
  if MAPREDUCE_PATH_MAX <=? path_len then None
  else
    '(path, p) ← buf_read_bytes p path_len;
    at_end p (mk_map_resp task_id attempt_id n_reduce path_len path).

Definition rpc_decode_task_reduce_resp (buf : list Z) : option rpc_task_reduce_resp_t :=
  '(task_id, p) ← buf_read_u32 buf;
  '(attempt_id, p) ← buf_read_u32 p;
  '(n_map, p) ← buf_read_u32 p;
  at_end p (mk_reduce_resp task_id attempt_id n_map).

Definition rpc_decode_wait_resp (buf : list Z) : option rpc_wait_resp_t :=
  '(ms, p) ← buf_read_u32 buf;
  at_end p (mk_wait_resp ms).

Definition rpc_decode_task_done_req (buf : list Z) : option rpc_task_done_req_t :=
  '(task_id, p) ← buf_read_u32 buf;
  '(attempt_id, p) ← buf_read_u32 p;
  '(result, p) ← buf_read_u8 p;
  at_end p (mk_done_req task_id attempt_id result).

(** ** Cursor lemmas *)

(** Two writes in a row are one write. *)
Lemma buf_write_bind {A} p b1 b2 (k : wcursor -> option A) :
  buf_write p b1 ≫= (fun p => buf_write p b2 ≫= k) = buf_write p (b1 ++ b2) ≫= k.
Proof.
  unfold buf_write. rewrite zlen_app.
  destruct (Z.ltb_spec (w_cap p - zlen (w_out p)) (zlen b1)); cbn.
  - pose proof (zlen_nonneg b2). by destruct (Z.ltb_spec (w_cap p - zlen (w_out p)) (zlen b1 + zlen b2)); [|lia].
  - rewrite zlen_app, app_assoc.
    destruct (Z.ltb_spec (w_cap p - (zlen (w_out p) + zlen b1)) (zlen b2)),
      (Z.ltb_spec (w_cap p - zlen (w_out p)) (zlen b1 + zlen b2)); cbn; lia || done.
Qed.

Lemma buf_write_start cap bytes :
  buf_write (wstart cap) bytes ≫= (fun p => Some (w_out p)) =
  if cap <? zlen bytes then None else Some bytes.
Proof.
  unfold buf_write, wstart. cbn [w_cap w_out]. rewrite zlen_nil, Z.sub_0_r.
  by destruct (cap <? zlen bytes).
Qed.

Lemma buf_read_app b r n : n = length b -> buf_read (b ++ r) n = Some (b, r).
Proof.
  intros ->. unfold buf_read. rewrite length_app.
  destruct (Nat.ltb_spec (length b + length r) (length b)); [lia|].
  by rewrite take_app_length, drop_app_length.
Qed.

Lemma buf_read_Some p n b r : buf_read p n = Some (b, r) -> p = b ++ r /\ length b = n.
Proof.
  unfold buf_read. destruct (Nat.ltb_spec (length p) n); intros; simplify_eq.
  rewrite take_drop, length_take. split; [done|lia].
Qed.

(** Reading an [n]-byte big-endian field. *)
Definition read_be (n : nat) (p : list Z) : option (Z * list Z) :=
  '(b, p) ← buf_read p n; Some (be_decode b, p).

Lemma read_be_encode n v r : fits (8 * Z.of_nat n) v ->
  read_be n (be_encode n v ++ r) = Some (v, r).
Proof.
  intros. unfold read_be. rewrite buf_read_app by by rewrite length_be_encode.
  cbn. by rewrite be_decode_encode.
Qed.

Lemma read_be_encode_last n v : fits (8 * Z.of_nat n) v ->
  read_be n (be_encode n v) = Some (v, []).
Proof. intros. rewrite <- (app_nil_r (be_encode n v)). by apply read_be_encode. Qed.

Lemma read_be_Some n p v r : Forall u8 p -> read_be n p = Some (v, r) ->
  p = be_encode n v ++ r /\ fits (8 * Z.of_nat n) v /\ Forall u8 r.
Proof.
  intros Hp. unfold read_be.
  destruct (buf_read p n) as [[b q]|] eqn:E; cbn; intros; simplify_eq.
  apply buf_read_Some in E as [-> <-]. apply Forall_app in Hp as [Hb Hr].
  split_and!; [by rewrite be_encode_decode|by apply be_decode_fits|done].
Qed.

Lemma array_bytes_exact src n : n = zlen src -> array_bytes src n = src.
Proof. intros ->. unfold array_bytes, zlen. rewrite Nat2Z.id. by apply resize_all. Qed.

(** ** The message interface

    What a message with a body promises to the code that sends and receives
    it: the bytes of its body, and the behaviour of its encoder and decoder in
    terms of them. *)

Class WireMessage (M : Type) := {
  msg_kind : rpc_kind_t;
  msg_wf : M -> Prop;
  msg_body : M -> list Z;
  msg_encode : Z -> M -> option (list Z);
  msg_decode : list Z -> option M;
}.

Class WireMessageSpec (M : Type) `{WireMessage M} := {
  msg_encode_spec cap m : msg_wf m ->
    msg_encode cap m =
      if cap <? 1 + zlen (msg_body m) then None
      else Some (rpc_kind_code msg_kind :: msg_body m);
  msg_decode_body m : msg_wf m -> msg_decode (msg_body m) = Some m;
  msg_decode_inv body m : Forall u8 body -> msg_decode body = Some m ->
    msg_wf m /\ body = msg_body m;
  msg_body_max m : msg_wf m -> 1 + zlen (msg_body m) <= MSG_MAX;
}.

#[export] Instance map_resp_wire : WireMessage rpc_task_map_resp_t := {
  msg_kind := RPC_TASK_MAP_RESP;
  msg_wf m := u32 (map_resp_task_id m) /\ u32 (map_resp_attempt_id m) /\
    u32 (map_resp_n_reduce m) /\ map_resp_input_path_len m < MAPREDUCE_PATH_MAX /\
    map_resp_input_path_len m = zlen (map_resp_input_path m);
  msg_body m := be_encode 4 (map_resp_task_id m) ++ be_encode 4 (map_resp_attempt_id m) ++
    be_encode 4 (map_resp_n_reduce m) ++ be_encode 2 (map_resp_input_path_len m) ++
    map_resp_input_path m;
  msg_encode := rpc_encode_task_map_resp;
  msg_decode := rpc_decode_task_map_resp;
}.

#[export] Instance reduce_resp_wire : WireMessage rpc_task_reduce_resp_t := {
  msg_kind := RPC_TASK_REDUCE_RESP;
  msg_wf m := u32 (reduce_resp_task_id m) /\ u32 (reduce_resp_attempt_id m) /\
    u32 (reduce_resp_n_map m);
  msg_body m := be_encode 4 (reduce_resp_task_id m) ++
    be_encode 4 (reduce_resp_attempt_id m) ++ be_encode 4 (reduce_resp_n_map m);
  msg_encode := rpc_encode_task_reduce_resp;
  msg_decode := rpc_decode_task_reduce_resp;
}.

#[export] Instance wait_resp_wire : WireMessage rpc_wait_resp_t := {
  msg_kind := RPC_WAIT_RESP;
  msg_wf m := u32 (wait_ms m);
  msg_body m := be_encode 4 (wait_ms m);
  msg_encode := rpc_encode_wait_resp;
  msg_decode := rpc_decode_wait_resp;
}.

#[export] Instance done_req_wire : WireMessage rpc_task_done_req_t := {
  msg_kind := RPC_TASK_DONE_REQ;
  msg_wf m := u32 (done_task_id m) /\ u32 (done_attempt_id m) /\ u8 (done_result m);
  msg_body m := be_encode 4 (done_task_id m) ++ be_encode 4 (done_attempt_id m) ++
    be_encode 1 (done_result m);
  msg_encode := rpc_encode_task_done_req;
  msg_decode := rpc_decode_task_done_req;
}.

Lemma kind_byte k b : be_encode 1 (rpc_kind_code k) ++ b = rpc_kind_code k :: b.
Proof. by destruct k. Qed.

(** Fold a chain of writes into one. *)
Ltac encode_chain :=
  unfold buf_write_u32, buf_write_u16, buf_write_u8, buf_write_bytes;
  rewrite ?array_bytes_exact by assumption;
  rewrite !buf_write_bind, buf_write_start, <- ?app_assoc, ?kind_byte, ?zlen_cons.

(** Fields are read with [read_be]. *)
Ltac unfold_reads :=
  change buf_read_u32 with (read_be 4); change buf_read_u16 with (read_be 2);
  change buf_read_u8 with (read_be 1).

(** Read the fields of an encoded body back. *)
Ltac decode_chain :=
  unfold_reads;
  repeat (first [rewrite read_be_encode by done | rewrite read_be_encode_last by done];
          cbn [mbind option_bind]).

(** Recover a body from the fields read from it. *)
Ltac decode_inv H :=
  revert H; unfold_reads; intros H;
  repeat match type of H with
  | (read_be ?n ?p ≫= _) = Some _ =>
      let E := fresh "E" in
      destruct (read_be n p) as [[? ?]|] eqn:E; [|discriminate H];
      apply read_be_Some in E as (-> & ? & ?); [|assumption];
      cbn [mbind option_bind] in H
  end.

Ltac at_end_inv H :=
  match type of H with
  | at_end ?p _ = Some _ => destruct p; [|discriminate H]; cbn [at_end] in H; simplify_eq
  end.

#[export] Instance map_resp_spec : WireMessageSpec rpc_task_map_resp_t.
Proof.
  split.
  - intros cap m (H1 & H2 & H3 & H4 & H5). cbn [msg_encode map_resp_wire].
    unfold rpc_encode_task_map_resp.
    destruct (Z.leb_spec MAPREDUCE_PATH_MAX (map_resp_input_path_len m)); [lia|].
    encode_chain. done.
  - intros [] (H1 & H2 & H3 & H4 & H5). cbn [msg_decode msg_body map_resp_wire].
    cbn [map_resp_task_id map_resp_attempt_id map_resp_n_reduce map_resp_input_path_len
         map_resp_input_path] in *.
    assert (u16 map_resp_input_path_len0) by (limits; unfold fits; len).
    unfold rpc_decode_task_map_resp. decode_chain.
    destruct (Z.leb_spec MAPREDUCE_PATH_MAX map_resp_input_path_len0); [lia|].
    rewrite <- (app_nil_r map_resp_input_path0) at 1.
    unfold buf_read_bytes. rewrite buf_read_app by len. done.
  - intros body m Hb H. cbn [msg_decode map_resp_wire] in H.
    unfold rpc_decode_task_map_resp in H. decode_inv H.
    match type of H with
    | context [_ <=? ?n] => destruct (Z.leb_spec MAPREDUCE_PATH_MAX n); [done|]
    end.
    unfold buf_read_bytes in H.
    match type of H with
    | context [buf_read ?p ?n] => destruct (buf_read p n) as [[path rest]|] eqn:E; [|done]
    end.
    apply buf_read_Some in E as [-> Hlen]. cbn [mbind option_bind] in H. at_end_inv H.
    cbn [msg_wf msg_body map_resp_wire map_resp_task_id map_resp_attempt_id
         map_resp_n_reduce map_resp_input_path_len map_resp_input_path].
    rewrite app_nil_r. unfold fits in *. split_and!; try done; len.
  - intros m (_ & _ & _ & H4 & H5). cbn [msg_body map_resp_wire]. rewrite H5 in H4.
    limits. len.
Qed.

#[export] Instance reduce_resp_spec : WireMessageSpec rpc_task_reduce_resp_t.
Proof.
  split.
  - intros cap m (H1 & H2 & H3). cbn [msg_encode reduce_resp_wire].
    unfold rpc_encode_task_reduce_resp. encode_chain. done.
  - intros [] (H1 & H2 & H3). cbn [msg_decode msg_body reduce_resp_wire].
    unfold rpc_decode_task_reduce_resp. decode_chain. done.
  - intros body m Hb H. cbn [msg_decode reduce_resp_wire] in H.
    unfold rpc_decode_task_reduce_resp in H. decode_inv H. at_end_inv H.
    by rewrite app_nil_r.
  - intros m _. cbn [msg_body reduce_resp_wire]. limits. len.
Qed.

#[export] Instance wait_resp_spec : WireMessageSpec rpc_wait_resp_t.
Proof.
  split.
  - intros cap m H1. cbn [msg_encode wait_resp_wire].
    unfold rpc_encode_wait_resp. encode_chain. done.
  - intros [] H1. cbn [msg_decode msg_body wait_resp_wire].
    unfold rpc_decode_wait_resp. decode_chain. done.
  - intros body m Hb H. cbn [msg_decode wait_resp_wire] in H.
    unfold rpc_decode_wait_resp in H. decode_inv H. at_end_inv H.
    by rewrite app_nil_r.
  - intros m _. cbn [msg_body wait_resp_wire]. limits. len.
Qed.

#[export] Instance done_req_spec : WireMessageSpec rpc_task_done_req_t.
Proof.
  split.
  - intros cap m (H1 & H2 & H3). cbn [msg_encode done_req_wire].
    unfold rpc_encode_task_done_req. encode_chain. done.
  - intros [] (H1 & H2 & H3). cbn [msg_decode msg_body done_req_wire].
    unfold rpc_decode_task_done_req. decode_chain. done.
  - intros body m Hb H. cbn [msg_decode done_req_wire] in H.
    unfold rpc_decode_task_done_req in H. decode_inv H. at_end_inv H.
    by rewrite app_nil_r.
  - intros m _. cbn [msg_body done_req_wire]. limits. len.
Qed.

(** ** All seven messages *)

Inductive rpc_message : Type :=
  | GetTaskReq
  | TaskMapResp (m : rpc_task_map_resp_t)
  | TaskReduceResp (m : rpc_task_reduce_resp_t)
  | WaitResp (m : rpc_wait_resp_t)
  | DoneResp
  | TaskDoneReq (m : rpc_task_done_req_t)
  | TaskDoneAck.

Definition message_kind (m : rpc_message) : rpc_kind_t :=
  match m with
  | GetTaskReq => RPC_GET_TASK_REQ
  | TaskMapResp _ => RPC_TASK_MAP_RESP
  | TaskReduceResp _ => RPC_TASK_REDUCE_RESP
  | WaitResp _ => RPC_WAIT_RESP
  | DoneResp => RPC_DONE_RESP
  | TaskDoneReq _ => RPC_TASK_DONE_REQ
  | TaskDoneAck => RPC_TASK_DONE_ACK
  end.

Definition message_wf (m : rpc_message) : Prop :=
  match m with
  | TaskMapResp m => msg_wf m
  | TaskReduceResp m => msg_wf m
  | WaitResp m => msg_wf m
  | TaskDoneReq m => msg_wf m
  | _ => True
  end.

(** The body of a message on the wire; empty for the three bare kinds. *)
Definition message_body (m : rpc_message) : list Z :=
  match m with
  | TaskMapResp m => msg_body m
  | TaskReduceResp m => msg_body m
  | WaitResp m => msg_body m
  | TaskDoneReq m => msg_body m
  | _ => []
  end.

Definition message_bytes (m : rpc_message) : list Z :=
  rpc_kind_code (message_kind m) :: message_body m.

(** The encoder of each kind. *)
Definition rpc_encode (cap : Z) (m : rpc_message) : option (list Z) :=
  match m with
  | GetTaskReq => rpc_encode_get_task_req cap
  | TaskMapResp m => rpc_encode_task_map_resp cap m
  | TaskReduceResp m => rpc_encode_task_reduce_resp cap m
  | WaitResp m => rpc_encode_wait_resp cap m
  | DoneResp => rpc_encode_done_resp cap
  | TaskDoneReq m => rpc_encode_task_done_req cap m
  | TaskDoneAck => rpc_encode_task_done_ack cap
  end.

(** The decoder of each kind that has a body. *)
Definition rpc_decode_body (k : rpc_kind_t) (body : list Z) : option rpc_message :=
  match k with
  | RPC_TASK_MAP_RESP => TaskMapResp <$> rpc_decode_task_map_resp body
  | RPC_TASK_REDUCE_RESP => TaskReduceResp <$> rpc_decode_task_reduce_resp body
  | RPC_WAIT_RESP => WaitResp <$> rpc_decode_wait_resp body
  | RPC_TASK_DONE_REQ => TaskDoneReq <$> rpc_decode_task_done_req body
  | RPC_GET_TASK_REQ => Some GetTaskReq
  | RPC_DONE_RESP => Some DoneResp
  | RPC_TASK_DONE_ACK => Some TaskDoneAck
  end.

Definition has_body (k : rpc_kind_t) : bool :=
  match k with
  | RPC_TASK_MAP_RESP | RPC_TASK_REDUCE_RESP | RPC_WAIT_RESP | RPC_TASK_DONE_REQ => true
  | _ => false
  end.

Lemma rpc_encode_spec cap m : message_wf m ->
  rpc_encode cap m =
    if cap <? zlen (message_bytes m) then None else Some (message_bytes m).
Proof.
  unfold message_bytes. rewrite zlen_cons.
  assert (forall k, w_out <$> buf_write_u8 (wstart cap) (rpc_kind_code k) =
    if cap <? 1 + zlen (@nil Z) then None else Some [rpc_kind_code k]) as Hbare.
  { intros k. rewrite <- (kind_byte k []), app_nil_r. rewrite zlen_nil.
    apply (buf_write_start cap (be_encode 1 (rpc_kind_code k))). }
  destruct m; cbn [rpc_encode message_wf message_kind message_body]; intros Hwf;
    first [apply Hbare | exact (msg_encode_spec cap m Hwf)].
Qed.

Lemma rpc_peek_kind_code k body : rpc_peek_kind (rpc_kind_code k :: body) = Some k.
Proof. by destruct k. Qed.

Lemma rpc_peek_kind_Some buf k : rpc_peek_kind buf = Some k ->
  exists body, buf = rpc_kind_code k :: body.
Proof.
  destruct buf as [|b body]; [done|]. cbn. intros H. exists body. f_equal.
  destruct ((b <? 1) || (7 <? b)); [done|].
  unfold rpc_kind_of_code in H. repeat case_match; by simplify_eq.
Qed.

Lemma rpc_decode_body_bytes m : message_wf m ->
  rpc_decode_body (message_kind m) (message_body m) = Some m.
Proof.
  destruct m; cbn [message_wf message_kind message_body rpc_decode_body]; intros Hwf; try done.
  all: apply fmap_Some; eexists; split; [exact (msg_decode_body m Hwf)|done].
Qed.

Lemma message_bytes_max m : message_wf m -> zlen (message_bytes m) <= MSG_MAX.
Proof.
  unfold message_bytes. rewrite zlen_cons.
  destruct m; cbn [message_wf message_body]; intros Hwf.
  all: first [by apply msg_body_max | limits; len].
Qed.

(** ** Properties *)

(** C31: round trip. For every well-formed message of the seven kinds and every
    buffer of [MSG_MAX] bytes, the encoder succeeds within the buffer, the
    receiver's kind peek names the kind, and the decoder of that kind returns
    the message that was sent. *)
Theorem rpc_roundtrip m : message_wf m ->
  exists bytes, rpc_encode MSG_MAX m = Some bytes /\ zlen bytes <= MSG_MAX /\
    rpc_peek_kind bytes = Some (message_kind m) /\
    rpc_decode_body (message_kind m) (tail bytes) = Some m.
Proof.
  intros Hwf. pose proof (message_bytes_max m Hwf) as Hmax.
  exists (message_bytes m). rewrite rpc_encode_spec by done.
  destruct (Z.ltb_spec MSG_MAX (zlen (message_bytes m))); [lia|].
  split_and!; [done|done|apply rpc_peek_kind_code|by apply rpc_decode_body_bytes].
Qed.

Example rpc_roundtrip_witness :
  let m := TaskMapResp (mk_map_resp 3 2 4 5 [97; 47; 98; 46; 99]) in
  exists bytes, rpc_encode MSG_MAX m = Some bytes /\ zlen bytes <= MSG_MAX /\
    rpc_peek_kind bytes = Some (message_kind m) /\
    rpc_decode_body (message_kind m) (tail bytes) = Some m.
Proof.
  intros m. apply rpc_roundtrip. repeat split; (reflexivity || discriminate).
Defined.

(** C35: the decoders are strict. A body of bytes is accepted only when it is
    the encoding of the message returned, so truncated bodies, trailing bytes
    and over-long paths are all refused and no two bodies decode alike. *)
Theorem rpc_decode_canonical k body m :
  has_body k = true -> Forall u8 body -> rpc_decode_body k body = Some m ->
  message_wf m /\ message_kind m = k /\ body = message_body m.
Proof.
  intros Hk Hb H. destruct k; try discriminate; cbn [rpc_decode_body] in H;
    apply fmap_Some in H as (m' & H & ->);
    pose proof (msg_decode_inv body m' Hb) as Hinv; destruct (Hinv H) as [? ->]; done.
Qed.

Example rpc_decode_canonical_witness :
  let m := TaskDoneReq (mk_done_req 1 2 0) in
  message_wf m /\ message_kind m = RPC_TASK_DONE_REQ /\
  [0; 0; 0; 1; 0; 0; 0; 2; 0] = message_body m.
Proof.
  apply (rpc_decode_canonical RPC_TASK_DONE_REQ); [reflexivity|decide_now|reflexivity].
Defined.

(** Bounds. On a buffer of any capacity an encoder either fails, exactly
    when the encoding does not fit, or stores the encoding; and a map response
    whose path is not shorter than [MAPREDUCE_PATH_MAX] is always refused. *)
Theorem rpc_encode_bounds cap m : message_wf m ->
  (rpc_encode cap m = None <-> cap < zlen (message_bytes m)) /\
  (forall bytes, rpc_encode cap m = Some bytes -> bytes = message_bytes m /\ zlen bytes <= cap) /\
  (forall r, MAPREDUCE_PATH_MAX <= map_resp_input_path_len r ->
     rpc_encode cap (TaskMapResp r) = None).
Proof.
  intros Hwf. rewrite rpc_encode_spec by done.
  split_and!.
  - destruct (Z.ltb_spec cap (zlen (message_bytes m))); split; done || lia.
  - intros bytes. destruct (Z.ltb_spec cap (zlen (message_bytes m))); intros; simplify_eq; done.
  - intros r Hr. cbn [rpc_encode]. unfold rpc_encode_task_map_resp.
    by destruct (Z.leb_spec MAPREDUCE_PATH_MAX (map_resp_input_path_len r)); [|lia].
Qed.

Example rpc_encode_bounds_witness :
  rpc_encode 4 (WaitResp (mk_wait_resp 5000)) = None /\
  rpc_encode 5 (WaitResp (mk_wait_resp 5000)) = Some [4; 0; 0; 19; 136].
Proof.
  assert (message_wf (WaitResp (mk_wait_resp 5000))) as Hwf by (split; [discriminate|reflexivity]).
  split.
  - apply (rpc_encode_bounds 4 _ Hwf). reflexivity.
  - destruct (rpc_encode 5 (WaitResp (mk_wait_resp 5000))) as [b|] eqn:E; [|discriminate E].
    apply (rpc_encode_bounds 5 _ Hwf) in E as [-> _]. reflexivity.
Defined.
