(* ===== verification/Task.v ===== *)
(** * Tasks, job and master state (src/task.h, src/master.h, src/util.c)

    The data the scheduler and the append-only log share, and the two
    operations both of them use: [task_reset_pending] and
    [maybe_advance_phase]. Arrays of tasks are lists of the array's full
    length, so an index outside the array has no element; the per-fd worker
    array is a finite map whose absent entries are the zeroed slot. *)

From S2P Require Import Prelude Limits.

(** ** Enumerations *)

Inductive task_kind_e : Type := TASK_KIND_MAP | TASK_KIND_REDUCE.

Definition task_kind_code (k : task_kind_e) : Z :=
  match k with TASK_KIND_MAP => 1 | TASK_KIND_REDUCE => 2 end.

Inductive task_state_e : Type :=
  | TASK_PENDING
  | TASK_IN_PROGRESS
  | TASK_COMPLETED
  | TASK_FAILED.

Inductive attempt_end_status_e : Type :=
  | ATTEMPT_RUNNING
  | ATTEMPT_SUCCESS
  | ATTEMPT_FAILED
  | ATTEMPT_TIMEOUT
  | ATTEMPT_DISCONNECT.

Inductive job_phase_e : Type := JOB_MAP | JOB_REDUCE | JOB_DONE | JOB_FAILED.

#[export] Instance task_kind_eq_dec : EqDecision task_kind_e.
Proof. solve_decision. Defined.
#[export] Instance task_state_eq_dec : EqDecision task_state_e.
Proof. solve_decision. Defined.
#[export] Instance attempt_end_eq_dec : EqDecision attempt_end_status_e.
Proof. solve_decision. Defined.
#[export] Instance job_phase_eq_dec : EqDecision job_phase_e.
Proof. solve_decision. Defined.

(** ** Records *)

Record attempt_record_t := mk_attempt {
  ar_attempt_id : Z;
  ar_worker_fd : Z;
  ar_started_at_ms : Z;
  ar_ended_at_ms : Z;
  ar_end_status : attempt_end_status_e;
}.

Definition attempt_zero : attempt_record_t := mk_attempt 0 0 0 0 ATTEMPT_RUNNING.

Record task_t := mk_task {
  t_state : task_state_e;
  t_current_attempt : Z;
  t_attempts_count : Z;
  t_owner_fd : Z;
  t_started_at_ms : Z;
  t_input_path : list Z;
  t_input_path_len : Z;
  t_history : list attempt_record_t;
}.

Definition history_zero : list attempt_record_t := replicate (Z.to_nat MAX_ATTEMPTS) attempt_zero.

(** A slot of the zero-initialised global [master]. *)
Definition task_zero : task_t := mk_task TASK_PENDING 0 0 0 0 [] 0 history_zero.

(** [task_reset_pending]: [.state = TASK_PENDING, .owner_fd = -1], the rest zero. *)
Definition task_reset_pending (t : task_t) : task_t :=
  mk_task TASK_PENDING 0 0 (-1) 0 [] 0 history_zero.

Definition set_state (st : task_state_e) (t : task_t) : task_t :=
  mk_task st (t_current_attempt t) (t_attempts_count t) (t_owner_fd t)
    (t_started_at_ms t) (t_input_path t) (t_input_path_len t) (t_history t).

Definition set_input_path (path : list Z) (len : Z) (t : task_t) : task_t :=
  mk_task (t_state t) (t_current_attempt t) (t_attempts_count t) (t_owner_fd t)
    (t_started_at_ms t) path len (t_history t).

Record job_t := mk_job {
  j_M : Z;
  j_R : Z;
  j_phase : job_phase_e;
  j_maps_done : Z;
  j_reduces_done : Z;
  j_task_timeout_ms : Z;
}.

Definition job_zero : job_t := mk_job 0 0 JOB_MAP 0 0 0.

Definition set_phase (p : job_phase_e) (j : job_t) : job_t :=
  mk_job (j_M j) (j_R j) p (j_maps_done j) (j_reduces_done j) (j_task_timeout_ms j).

Definition set_maps_done (n : Z) (j : job_t) : job_t :=
  mk_job (j_M j) (j_R j) (j_phase j) n (j_reduces_done j) (j_task_timeout_ms j).

Definition set_reduces_done (n : Z) (j : job_t) : job_t :=
  mk_job (j_M j) (j_R j) (j_phase j) (j_maps_done j) n (j_task_timeout_ms j).

(** [current_kind] is 0, no kind, in a zeroed slot. *)
Record worker_t := mk_worker {
  wk_connected_at_ms : Z;
  wk_has_task : bool;
  wk_current_kind : option task_kind_e;
  wk_current_task_id : Z;
  wk_current_attempt_id : Z;
}.

Definition worker_zero : worker_t := mk_worker 0 false None 0 0.

(** ** src/master.h *)

(** [aof_path] may be NULL, see [Config.master_config_init]. *)
Record master_config_t := mk_config {
  cfg_port : Z;
  cfg_tcp_backlog : Z;
  cfg_hz : Z;
  cfg_client_timeout_s : Z;
  cfg_n_reduce : Z;
  cfg_task_timeout_ms : Z;
  cfg_input_dir : list Z;
  cfg_aof_path : option (list Z);
}.

(** [master_t] without [server], which the server's own state holds. *)
Record master_t := mk_master {
  m_config : master_config_t;
  m_job : job_t;
  m_maps : list task_t;
  m_reduces : list task_t;
  m_workers : gmap Z worker_t;
  m_now_realtime_ms : Z;
  m_aof_fd : Z;
}.

Definition set_config (c : master_config_t) (m : master_t) : master_t :=
  mk_master c (m_job m) (m_maps m) (m_reduces m) (m_workers m) (m_now_realtime_ms m) (m_aof_fd m).
Definition set_job (j : job_t) (m : master_t) : master_t :=
  mk_master (m_config m) j (m_maps m) (m_reduces m) (m_workers m) (m_now_realtime_ms m) (m_aof_fd m).
Definition set_maps (l : list task_t) (m : master_t) : master_t :=
  mk_master (m_config m) (m_job m) l (m_reduces m) (m_workers m) (m_now_realtime_ms m) (m_aof_fd m).
Definition set_reduces (l : list task_t) (m : master_t) : master_t :=
  mk_master (m_config m) (m_job m) (m_maps m) l (m_workers m) (m_now_realtime_ms m) (m_aof_fd m).
Definition set_workers (w : gmap Z worker_t) (m : master_t) : master_t :=
  mk_master (m_config m) (m_job m) (m_maps m) (m_reduces m) w (m_now_realtime_ms m) (m_aof_fd m).
Definition set_now_realtime_ms (n : Z) (m : master_t) : master_t :=
  mk_master (m_config m) (m_job m) (m_maps m) (m_reduces m) (m_workers m) n (m_aof_fd m).
Definition set_aof_fd (fd : Z) (m : master_t) : master_t :=
  mk_master (m_config m) (m_job m) (m_maps m) (m_reduces m) (m_workers m) (m_now_realtime_ms m) fd.

(** [workers[fd]] *)
Definition get_worker (m : master_t) (fd : Z) : worker_t :=
  default worker_zero (m_workers m !! fd).
Definition put_worker (fd : Z) (w : worker_t) (m : master_t) : master_t :=
  set_workers (<[fd := w]> (m_workers m)) m.

(** The array of a kind: [maps] or [reduces]. *)
Definition get_tasks (k : task_kind_e) (m : master_t) : list task_t :=
  match k with TASK_KIND_MAP => m_maps m | TASK_KIND_REDUCE => m_reduces m end.
Definition put_tasks (k : task_kind_e) (l : list task_t) (m : master_t) : master_t :=
  match k with TASK_KIND_MAP => set_maps l m | TASK_KIND_REDUCE => set_reduces l m end.
(** The number of live slots of a kind: [M] or [R]. *)
Definition n_tasks (k : task_kind_e) (j : job_t) : Z :=
  match k with TASK_KIND_MAP => j_M j | TASK_KIND_REDUCE => j_R j end.
(** [maps_done] or [reduces_done]. *)
Definition n_done (k : task_kind_e) (j : job_t) : Z :=
  match k with TASK_KIND_MAP => j_maps_done j | TASK_KIND_REDUCE => j_reduces_done j end.
Definition set_n_done (k : task_kind_e) (n : Z) (j : job_t) : job_t :=
  match k with TASK_KIND_MAP => set_maps_done n j | TASK_KIND_REDUCE => set_reduces_done n j end.

(** The zero-initialised global, with its configuration. *)
Definition master_zero (c : master_config_t) : master_t :=
  mk_master c job_zero (replicate (Z.to_nat MAX_MAP_TASKS) task_zero)
    (replicate (Z.to_nat MAX_REDUCE_TASKS) task_zero) ∅ 0 0.

(** ** [maybe_advance_phase] (src/util.c) *)

Definition maybe_advance_phase_job (j : job_t) : job_t :=
  let j := if decide (j_phase j = JOB_MAP) then
             if j_maps_done j =? j_M j then set_phase JOB_REDUCE j else j
           else j in
  if decide (j_phase j = JOB_REDUCE) then
    if j_reduces_done j =? j_R j then set_phase JOB_DONE j else j
  else j.

Definition maybe_advance_phase (m : master_t) : master_t :=
  set_job (maybe_advance_phase_job (m_job m)) m.

(** ** Counting completed tasks *)

Definition is_completed (t : task_t) : bool := bool_decide (t_state t = TASK_COMPLETED).

(** How many of the first [n] slots are completed. *)
Definition count_completed (n : Z) (l : list task_t) : Z :=
  zlen (filter (fun t => is_completed t = true) (take (Z.to_nat n) l)).
