(* ===== verification/Aof.v ===== *)
(** * Append-only log of completed tasks (src/aof.h, src/aof.c)

    The file is a list of bytes, or [None] while it does not exist; opened
    for writing it only grows at its end ([O_APPEND]). Each function takes the
    script of kernel answers and returns what is left of it. *)

From S2P Require Import Prelude Limits Crc64 Util Rpc Task.

(** ** Layout constants (src/aof.h) *)

(** "MAPREDUC" *)
Definition AOF_FILE_MAGIC : list Z := [77; 65; 80; 82; 69; 68; 85; 67].
Definition AOF_FILE_MAGIC_LEN : Z := 8.
Definition AOF_FILE_VERSION : Z := 1.
Definition AOF_FILE_VERSION_LEN : Z := 4.
Definition AOF_FILE_CRC_LEN : Z := 8.
Definition AOF_FILE_HEADER_SIZE : Z := 32.
Definition AOF_RECORD_KIND_LEN : Z := 1.
Definition AOF_RECORD_TASK_ID_LEN : Z := 4.
Definition AOF_RECORD_ATTEMPT_ID_LEN : Z := 4.
Definition AOF_RECORD_CRC_LEN : Z := 8.
Definition AOF_RECORD_SIZE : Z :=
  AOF_RECORD_KIND_LEN + AOF_RECORD_TASK_ID_LEN + AOF_RECORD_ATTEMPT_ID_LEN + AOF_RECORD_CRC_LEN.

(** [n] bytes of [buf] at offset [off]. *)
Definition slice (off n : Z) (buf : list Z) : list Z :=
  take (Z.to_nat n) (drop (Z.to_nat off) buf).

(** [aof_job_t] of src/rpc.h *)
Record aof_job_t := mk_aof_job { aj_M : Z; aj_R : Z; aj_buf : list Z }.

(** ** File header *)

(** [aof_write_file_header(fd)] at wall-clock time [created]: the return
    value, the file and the script. *)
Definition aof_write_file_header (s : list io) (file : list Z) (created : Z) : Z * list Z * list io :=
  let hdr := AOF_FILE_MAGIC ++ be_encode 4 AOF_FILE_VERSION ++ be_encode 4 0 ++
             be_encode 8 (wrap 64 created) in
  let crc := crc64 0 hdr in
  let hdr := hdr ++ be_encode 8 crc in
  let '(written_n, acc, s) := write_all s hdr in
  (if written_n =? AOF_FILE_HEADER_SIZE then 0 else -1, file ++ acc, s).

(** [aof_read_file_header(fd)] at the unread bytes [src]. *)
Definition aof_read_file_header (s : list io) (src : list Z) : Z * list Z * list io :=
  let '(n, hdr, src, s) := read_exact s src AOF_FILE_HEADER_SIZE in
  if negb (n =? AOF_FILE_HEADER_SIZE) then (-1, src, s)
  else if negb (bool_decide (slice 0 AOF_FILE_MAGIC_LEN hdr = AOF_FILE_MAGIC)) then (-1, src, s)
  else
    let version := be_decode (slice AOF_FILE_MAGIC_LEN AOF_FILE_VERSION_LEN hdr) in
    if negb (version =? AOF_FILE_VERSION) then (-1, src, s)
    else
      let body_len := AOF_FILE_HEADER_SIZE - AOF_FILE_CRC_LEN in
      let crc_stored := be_decode (slice body_len AOF_FILE_CRC_LEN hdr) in
      let crc_computed := crc64 0 (slice 0 body_len hdr) in
      if negb (crc_stored =? crc_computed) then (-1, src, s) else (0, src, s).

(** ** Records *)

(** The kind byte, [task_id] and [attempt_id] of a record that was read, or
    the clean end of file, or an error: the returns 0, 1 and -1. *)
Inductive record_result : Type :=
  | RecOk (kind task_id attempt_id : Z)
  | RecEof
  | RecErr.

Definition aof_read_record (s : list io) (src : list Z) : record_result * list Z * list io :=
  let '(n, rec, src, s) := read_exact s src AOF_RECORD_SIZE in
  if n =? 0 then (RecEof, src, s)
  else if negb (n =? AOF_RECORD_SIZE) then (RecErr, src, s)
  else
    let off := 0 in
    let kind := be_decode (slice off 1 rec) in
    let off := off + AOF_RECORD_KIND_LEN in
    let task_id := be_decode (slice off AOF_RECORD_TASK_ID_LEN rec) in
    let off := off + AOF_RECORD_TASK_ID_LEN in
    let attempt_id := be_decode (slice off AOF_RECORD_ATTEMPT_ID_LEN rec) in
    let off := off + AOF_RECORD_ATTEMPT_ID_LEN in
    let crc_stored := be_decode (slice off AOF_RECORD_CRC_LEN rec) in
    let off := off + AOF_RECORD_CRC_LEN in
    let crc_computed := crc64 0 (slice 0 (off - AOF_RECORD_CRC_LEN) rec) in
    if negb (crc_stored =? crc_computed) then (RecErr, src, s)
    else (RecOk kind task_id attempt_id, src, s).

(** [aof_write_record(fd, buf, msg, kind)]; [kind] is the enum's value, 0 for
    the kind of a zeroed worker slot. *)
Definition aof_write_record (s : list io) (file : list Z) (msg : rpc_task_done_req_t) (kind : Z)
    : Z * list Z * list io :=
  let buf := be_encode 1 kind ++ be_encode 4 (done_task_id msg) ++
             be_encode 4 (done_attempt_id msg) in
  let crc := crc64 0 buf in
  let buf := buf ++ be_encode 8 crc in
  let '(written_n, acc, s) := write_all s buf in
  (if (written_n =? -1) || negb (written_n =? zlen buf) then -1 else zlen buf, file ++ acc, s).

(** ** Job header *)

(** [read_exact(fd, job_buf + off, len)] into the heap buffer of [size] bytes
    whose first [off] bytes are [buf]: storing past its end is a fault. *)
Definition read_into (s : list io) (src buf : list Z) (size len : Z)
    : outcome (Z * list Z * list Z * list io) :=
  let '(n, got, src, s) := read_exact s src len in
  if size <? zlen buf + zlen got then Fault else Ret (n, buf ++ got, src, s).

(** The loop over the [m] paths of [aof_read_job]; [None] is an error exit. *)
Fixpoint aof_read_paths (m : nat) (s : list io) (src buf : list Z) (size : Z)
    : outcome (option (list Z) * list Z * list io) :=
  match m with
  | O => Ret (Some buf, src, s)
  | S m' =>
      '(path_len_n, buf, src, s) ← read_into s src buf size 2;
      if negb (path_len_n =? 2) then Ret (None, src, s)
      else
        let path_len := be_decode (slice (zlen buf - 2) 2 buf) in
        '(path_n, buf, src, s) ← read_into s src buf size path_len;
        if negb (path_n =? path_len) then Ret (None, src, s)
        else aof_read_paths m' s src buf size
  end.

(** [aof_read_job(fd, out)]: [None] is the return of -1. On the first error
    exit [job_buf] is still indeterminate when [done:] tests it. *)
Definition aof_read_job (s : list io) (src : list Z)
    : outcome (option aof_job_t * list Z * list io) :=
  let job_static_hdr := 8 in
  let '(n, job_hdr, src, s) := read_exact s src job_static_hdr in
  if negb (n =? job_static_hdr) then Fault
  else
    let m := be_decode (slice 0 4 job_hdr) in
    let r := be_decode (slice 4 4 job_hdr) in
    let job_buf_size := 4 + 4 + wrap 32 (m * (2 + MAPREDUCE_PATH_MAX)) + 8 in
    let '(malloc_ok, s) := io_simple s in
    if negb malloc_ok then Ret (None, src, s)
    else
      '(paths, src, s) ← aof_read_paths (Z.to_nat m) s src job_hdr job_buf_size;
      match paths with
      | None => Ret (None, src, s)
      | Some job_buf =>
          '(crc_n, job_buf, src, s) ← read_into s src job_buf job_buf_size 8;
          if negb (crc_n =? 8) then Ret (None, src, s)
          else
            let off := zlen job_buf in
            let crc_stored := be_decode (slice (off - 8) 8 job_buf) in
            let crc_computed := crc64 0 (slice 0 (off - 8) job_buf) in
            if negb (crc_stored =? crc_computed) then Ret (None, src, s)
            else Ret (Some (mk_aof_job m r job_buf), src, s)
      end.

(** The loop of [aof_write_job] over the maps, with the bytes stored so far;
    [None] is the return of -1, an index outside [maps] is a fault. *)
Fixpoint aof_write_paths (i n : nat) (buf : list Z) (buf_sz : Z) (maps : list task_t)
    : outcome (option (list Z)) :=
  match n with
  | O => Ret (Some buf)
  | S n' =>
      t ← or_fault (maps !! i);
      let path_len := t_input_path_len t in
      if buf_sz <? zlen buf + 2 + path_len then Ret None
      else
        let buf := buf ++ be_encode 2 path_len in
        let buf := buf ++ array_bytes (t_input_path t) path_len in
        aof_write_paths (S i) n' buf buf_sz maps
  end.

(** [aof_write_job(fd, buf, buf_sz, M, R, maps)]; the checksum is stored with
    no bounds check. *)
Definition aof_write_job (s : list io) (file : list Z) (buf_sz M R : Z) (maps : list task_t)
    : outcome (Z * list Z * list io) :=
  if buf_sz <? 8 then Ret (-1, file, s)
  else
    paths ← aof_write_paths 0 (Z.to_nat M) (be_encode 4 M ++ be_encode 4 R) buf_sz maps;
    match paths with
    | None => Ret (-1, file, s)
    | Some buf =>
        if buf_sz <? zlen buf + 8 then Fault
        else
          let buf := buf ++ be_encode 8 (crc64 0 buf) in
          let '(written_n, acc, s) := write_all s buf in
          Ret (if (written_n =? -1) || negb (written_n =? zlen buf) then -1 else zlen buf,
               file ++ acc, s)
    end.

(** ** Open and close *)

(** [aof_open(path)] when [open] would answer the descriptor [fd]; the file is
    created when it does not exist. *)
Definition aof_open (s : list io) (file : option (list Z)) (fd : Z) : Z * option (list Z) * list io :=
  let '(ok, s) := io_simple s in
  if ok then (fd, Some (default [] file), s) else (-1, file, s).

Definition aof_close (s : list io) (master : master_t) : Z * master_t * list io :=
  if m_aof_fd master <? 0 then (0, master, s)
  else
    let master := set_aof_fd (-1) master in
    let '(ok, s) := io_simple s in
    (if ok then 0 else -1, master, s).

(** ** Load *)

(** The factory pass: the first [n] slots of an array are reset. *)
Definition reset_slots (n : Z) (l : list task_t) : list task_t :=
  map task_reset_pending (take (Z.to_nat n) l) ++ drop (Z.to_nat n) l.

(** The definition pass over the paths of the job buffer, from offset
    [paths_off] and slot [i]: the slots, and whether every path fits. *)
Fixpoint aof_load_paths (i n : nat) (paths_off : Z) (buf : list Z) (maps : list task_t)
    : bool * list task_t :=
  match n with
  | O => (true, maps)
  | S n' =>
      let path_len := be_decode (slice paths_off 2 buf) in
      let paths_off := paths_off + 2 in
      if MAPREDUCE_PATH_MAX <=? path_len then (false, maps)
      else
        let path := slice paths_off path_len buf in
        aof_load_paths (S i) n' (paths_off + path_len) buf
          (alter (set_input_path path path_len) i maps)
  end.

(** What the replay loop accumulates: the arrays and the two counters. *)
Record replay_t := mk_replay {
  rp_maps : list task_t;
  rp_reduces : list task_t;
  rp_maps_count : Z;
  rp_reduce_count : Z;
}.

(** One record applied; [None] is a task id out of range. A record of any
    other kind is skipped. *)
Definition replay_record (M R kind task_id : Z) (a : replay_t) : option replay_t :=
  if kind =? task_kind_code TASK_KIND_MAP then
    if M <=? task_id then None
    else Some (mk_replay (alter (set_state TASK_COMPLETED) (Z.to_nat task_id) (rp_maps a))
                 (rp_reduces a) (rp_maps_count a + 1) (rp_reduce_count a))
  else if kind =? task_kind_code TASK_KIND_REDUCE then
    if R <=? task_id then None
    else Some (mk_replay (rp_maps a)
                 (alter (set_state TASK_COMPLETED) (Z.to_nat task_id) (rp_reduces a))
                 (rp_maps_count a) (rp_reduce_count a + 1))
  else Some a.

(** The replay loop. Every iteration that goes on consumes a whole record, so
    one more unit of fuel than unread bytes is enough. *)
Fixpoint aof_replay (fuel : nat) (s : list io) (src : list Z) (M R : Z) (a : replay_t)
    : outcome (Z * replay_t * list io) :=
  match fuel with
  | O => Fault
  | S fuel' =>
      let '(rec, src, s) := aof_read_record s src in
      match rec with
      | RecEof => Ret (0, a, s)
      | RecErr => Ret (-1, a, s)
      | RecOk kind task_id _ =>
          match replay_record M R kind task_id a with
          | None => Ret (-1, a, s)
          | Some a' => aof_replay fuel' s src M R a'
          end
      end
  end.

(** [aof_load(master, path)]. When the file header is refused, [aof_job.buf]
    is still indeterminate when [done:] tests it. *)
Definition aof_load (s : list io) (file : option (list Z)) (master : master_t)
    : outcome (Z * master_t * list io) :=
  let '(stat_ok, s) := io_simple s in
  match file with
  | None => Ret (0, master, s)
  | Some bytes =>
    if negb stat_ok || (zlen bytes =? 0) then Ret (0, master, s)
    else if zlen bytes <? AOF_FILE_HEADER_SIZE then Ret (-1, master, s)
    else
      let '(open_ok, s) := io_simple s in
      if negb open_ok then Ret (-1, master, s)
      else
        let '(hdr_rc, src, s) := aof_read_file_header s bytes in
        if negb (hdr_rc =? 0) then Fault
        else
          '(job, src, s) ← aof_read_job s src;
          match job with
          | None => Ret (-1, master, s)
          | Some (mk_aof_job M R buf) =>
            if (MAX_MAP_TASKS <? M) || (MAX_REDUCE_TASKS <? R) then Ret (-1, master, s)
            else
              let j := m_job master in
              let master := set_job (mk_job M R (j_phase j) (j_maps_done j) (j_reduces_done j)
                                       (cfg_task_timeout_ms (m_config master))) master in
              let master := set_maps (reset_slots M (m_maps master)) master in
              let master := set_reduces (reset_slots R (m_reduces master)) master in
              let '(paths_ok, maps) := aof_load_paths 0 (Z.to_nat M) 8 buf (m_maps master) in
              let master := set_maps maps master in
              if negb paths_ok then Ret (-1, master, s)
              else
                '(rc, a, s) ← aof_replay (S (length src)) s src M R
                               (mk_replay (m_maps master) (m_reduces master) 0 0);
                let master := set_reduces (rp_reduces a) (set_maps (rp_maps a) master) in
                if negb (rc =? 0) then Ret (-1, master, s)
                else
                  let j := set_maps_done (wrap 32 (rp_maps_count a)) (m_job master) in
                  let j := set_reduces_done (wrap 32 (rp_reduce_count a)) j in
                  Ret (0, maybe_advance_phase (set_job j master), s)
          end
  end.

(** ** Init and append *)

(** The size [aof_init] allocates for the job header. *)
Fixpoint job_paths_size (i n : nat) (maps : list task_t) : outcome Z :=
  match n with
  | O => Ret 0
  | S n' =>
      t ← or_fault (maps !! i);
      rest ← job_paths_size (S i) n' maps;
      Ret (2 + t_input_path_len t + rest)
  end.

(** [aof_init(master, path)] at wall-clock time [created], when [open] would
    answer [fd]: the return value, the master, the file and the script. *)
Definition aof_init (s : list io) (file : option (list Z)) (fd created : Z) (master : master_t)
    : outcome (Z * master_t * option (list Z) * list io) :=
  let '(fd, file, s) := aof_open s file fd in
  if fd =? -1 then Ret (-1, set_aof_fd (-1) master, file, s)
  else
    let master := set_aof_fd fd master in
    let failed file s := Ret (-1, set_aof_fd (-1) master, file, s) in
    let '(fstat_ok, s) := io_simple s in
    let bytes := default [] file in
    if negb fstat_ok then failed file s
    else if negb (zlen bytes =? 0) then Ret (0, master, file, s)
    else
      let '(rc, bytes, s) := aof_write_file_header s bytes created in
      if rc =? -1 then failed (Some bytes) s
      else
        paths_size ← job_paths_size 0 (Z.to_nat (j_M (m_job master))) (m_maps master);
        let job_buf_size := 4 + 4 + 8 + paths_size in
        let '(malloc_ok, s) := io_simple s in
        if negb malloc_ok then failed (Some bytes) s
        else
          '(rc, bytes, s) ← aof_write_job s bytes job_buf_size
                              (j_M (m_job master)) (j_R (m_job master)) (m_maps master);
          if rc =? -1 then failed (Some bytes) s
          else
            let '(rc, s) := durable_flush s in
            if rc =? -1 then failed (Some bytes) s
            else Ret (0, master, Some bytes, s).

(** [aof_append_completed(master, msg, kind)] on the bytes of the open file. *)
Definition aof_append_completed (s : list io) (file : list Z) (master : master_t)
    (msg : rpc_task_done_req_t) (kind : Z) : Z * list Z * list io :=
  if m_aof_fd master <? 0 then (-1, file, s)
  else
    let '(rc, file, s) := aof_write_record s file msg kind in
    if rc =? -1 then (-1, file, s)
    else
      let '(rc, s) := durable_flush s in
      if rc =? -1 then (-1, file, s) else (0, file, s).

(** ** The log as data

    What the bytes of a log mean: sealed sections (a body and its checksum),
    a header, a job header with the input paths, and completion records. *)

Definition seal (body : list Z) : list Z := body ++ be_encode 8 (crc64 0 body).

Definition header_body (created : Z) : list Z :=
  AOF_FILE_MAGIC ++ be_encode 4 AOF_FILE_VERSION ++ be_encode 4 0 ++ be_encode 8 (wrap 64 created).

Definition path_bytes (path : list Z) : list Z := be_encode 2 (zlen path) ++ path.

Definition job_body (M R : Z) (paths : list (list Z)) : list Z :=
  be_encode 4 M ++ be_encode 4 R ++ concat (map path_bytes paths).

(** A completion: the kind code, the task id and the attempt id. *)
Record completion := mk_completion { cp_kind : Z; cp_task_id : Z; cp_attempt_id : Z }.

Definition completion_body (c : completion) : list Z :=
  be_encode 1 (cp_kind c) ++ be_encode 4 (cp_task_id c) ++ be_encode 4 (cp_attempt_id c).

Definition completion_wf (c : completion) : Prop :=
  u8 (cp_kind c) /\ u32 (cp_task_id c) /\ u32 (cp_attempt_id c).

Definition job_prefix (created M R : Z) (paths : list (list Z)) : list Z :=
  seal (header_body created) ++ seal (job_body M R paths).

#[export] Instance completion_wf_dec c : Decision (completion_wf c).
Proof. unfold completion_wf. apply _. Defined.

Definition records_bytes (cs : list completion) : list Z :=
  concat (map (fun c => seal (completion_body c)) cs).

Definition log_bytes (created M R : Z) (paths : list (list Z)) (cs : list completion) : list Z :=
  job_prefix created M R paths ++ records_bytes cs.

(** The replay of a list of completions. *)
Fixpoint replay_all (M R : Z) (cs : list completion) (a : replay_t) : option replay_t :=
  match cs with
  | [] => Some a
  | c :: cs =>
      a ← replay_record M R (cp_kind c) (cp_task_id c) a;
      replay_all M R cs a
  end.

(** ** Slices *)

Lemma slice_app_l off n a b : 0 <= off -> 0 <= n -> off + n <= zlen a ->
  slice off n (a ++ b) = slice off n a.
Proof.
  unfold slice, zlen. intros. rewrite drop_app_le by lia.
  rewrite take_app_le; [done|]. rewrite length_drop. lia.
Qed.

Lemma slice_app_r off n a b : zlen a <= off -> slice off n (a ++ b) = slice (off - zlen a) n b.
Proof.
  unfold slice, zlen. intros. rewrite drop_app_ge by lia. do 2 f_equal. lia.
Qed.

Lemma slice_all n a : n = zlen a -> slice 0 n a = a.
Proof. intros ->. unfold slice, zlen. rewrite Nat2Z.id. cbn. apply take_ge. lia. Qed.

Lemma slice_prefix n a b : n = zlen a -> slice 0 n (a ++ b) = a.
Proof.
  intros ->. rewrite slice_app_l by (pose proof (zlen_nonneg a); lia). by apply slice_all.
Qed.

Lemma slice_mid off n a b c : off = zlen a -> n = zlen b -> slice off n (a ++ b ++ c) = b.
Proof.
  intros -> ->. rewrite slice_app_r by lia. rewrite Z.sub_diag. by apply slice_prefix.
Qed.

Lemma slice_suffix off n a b : off = zlen a -> n = zlen b -> slice off n (a ++ b) = b.
Proof. intros -> ->. rewrite <- (app_nil_r b) at 2. by apply slice_mid. Qed.

(** ** Bytes of the log *)

Lemma crc64_0_fits s : u64 (crc64 0 s).
Proof. apply crc64_fits. by split. Qed.

Lemma zlen_seal body : zlen (seal body) = zlen body + 8.
Proof. unfold seal. rewrite zlen_app, zlen_be_encode. lia. Qed.

Lemma zlen_header_body created : zlen (header_body created) = 24.
Proof. reflexivity. Qed.

Lemma zlen_completion_body c : zlen (completion_body c) = 9.
Proof. reflexivity. Qed.

Lemma zlen_path_bytes path : zlen (path_bytes path) = 2 + zlen path.
Proof. unfold path_bytes. rewrite zlen_app, zlen_be_encode. lia. Qed.

#[export] Hint Rewrite zlen_seal zlen_header_body zlen_completion_body zlen_path_bytes : mr_len.

Lemma seal_crc body n : n = zlen body ->
  be_decode (slice n 8 (seal body)) = crc64 0 (slice 0 n (seal body)).
Proof.
  intros ->. unfold seal.
  rewrite slice_suffix, slice_prefix by (rewrite ?zlen_be_encode; lia).
  apply be_decode_encode, crc64_0_fits.
Qed.

(** ** Reading back what was written, whatever short or interrupted reads *)

Lemma read_file_header_ok s created rest : benign s ->
  exists s', aof_read_file_header s (seal (header_body created) ++ rest) = (0, rest, s') /\ benign s'.
Proof.
  intros Hb. unfold aof_read_file_header.
  replace AOF_FILE_HEADER_SIZE with (zlen (seal (header_body created))) by reflexivity.
  destruct (read_exact_benign s (seal (header_body created)) rest Hb) as (s' & -> & Hb').
  exists s'. split; [|done]. rewrite Z.eqb_refl. cbn [negb].
  rewrite bool_decide_eq_true_2 by reflexivity. cbn [negb].
  replace (be_decode (slice AOF_FILE_MAGIC_LEN AOF_FILE_VERSION_LEN (seal (header_body created))))
    with AOF_FILE_VERSION by reflexivity.
  rewrite Z.eqb_refl. cbn [negb].
  rewrite zlen_seal, zlen_header_body. change (24 + 8 - AOF_FILE_CRC_LEN) with 24.
  change AOF_FILE_CRC_LEN with 8.
  by rewrite (seal_crc (header_body created) 24), Z.eqb_refl.
Qed.

Lemma read_record_ok s c rest : completion_wf c -> benign s ->
  exists s', aof_read_record s (seal (completion_body c) ++ rest) =
    (RecOk (cp_kind c) (cp_task_id c) (cp_attempt_id c), rest, s') /\ benign s'.
Proof.
  intros (Hk & Ht & Ha) Hb. unfold aof_read_record.
  replace AOF_RECORD_SIZE with (zlen (seal (completion_body c))) by reflexivity.
  destruct (read_exact_benign s (seal (completion_body c)) rest Hb) as (s' & -> & Hb').
  exists s'. split; [|done]. rewrite Z.eqb_refl. rewrite zlen_seal, zlen_completion_body.
  cbn [negb]. change (9 + 8 =? 0) with false. cbv zeta.
  change (0 + AOF_RECORD_KIND_LEN + AOF_RECORD_TASK_ID_LEN + AOF_RECORD_ATTEMPT_ID_LEN +
    AOF_RECORD_CRC_LEN - AOF_RECORD_CRC_LEN) with 9.
  change (0 + AOF_RECORD_KIND_LEN + AOF_RECORD_TASK_ID_LEN + AOF_RECORD_ATTEMPT_ID_LEN) with 9.
  change AOF_RECORD_CRC_LEN with 8.
  rewrite (seal_crc (completion_body c) 9), Z.eqb_refl by done. cbn [negb].
  unfold seal, completion_body. rewrite <- !app_assoc.
  rewrite slice_prefix, slice_mid by done.
  rewrite (app_assoc (be_encode 1 _)), slice_mid by done.
  by rewrite !be_decode_encode.
Qed.

Lemma read_record_eof s : benign s ->
  exists s', aof_read_record s [] = (RecEof, [], s') /\ benign s'.
Proof.
  intros Hb. unfold aof_read_record.
  destruct (read_exact_eof s AOF_RECORD_SIZE Hb) as (s' & -> & Hb'); [done|]. by exists s'.
Qed.

Lemma read_into_ok s got rest buf size : benign s -> zlen buf + zlen got <= size ->
  exists s', read_into s (got ++ rest) buf size (zlen got) =
    Ret (zlen got, buf ++ got, rest, s') /\ benign s'.
Proof.
  intros Hb Hsize. unfold read_into.
  destruct (read_exact_benign s got rest Hb) as (s' & -> & Hb'). exists s'. split; [|done].
  by destruct (Z.ltb_spec size (zlen buf + zlen got)); [lia|].
Qed.

(** Paths the job header can hold. *)
Definition path_ok (path : list Z) : Prop := zlen path < MAPREDUCE_PATH_MAX.

Lemma path_ok_u16 path : path_ok path -> u16 (zlen path).
Proof. unfold path_ok. limits. pose proof (zlen_nonneg path). unfold fits. lia. Qed.

Lemma be_decode_path_len path : path_ok path -> be_decode (be_encode 2 (zlen path)) = zlen path.
Proof. intros. by apply (be_decode_encode 2), path_ok_u16. Qed.

Lemma read_paths_ok paths : forall s buf rest size,
  benign s -> Forall path_ok paths ->
  zlen buf + zlen (concat (map path_bytes paths)) <= size ->
  exists s', aof_read_paths (length paths) s (concat (map path_bytes paths) ++ rest) buf size =
    Ret (Some (buf ++ concat (map path_bytes paths)), rest, s') /\ benign s'.
Proof.
  induction paths as [|p paths IH]; intros s buf rest size Hb Hp Hsize.
  { exists s. cbn. by rewrite app_nil_r. }
  inversion Hp as [|? ? Hp1 Hps]; subst. cbn [length map concat aof_read_paths] in *.
  rewrite zlen_app, zlen_path_bytes in Hsize.
  pose proof (zlen_nonneg p). pose proof (zlen_nonneg (concat (map path_bytes paths))).
  unfold path_bytes at 1. rewrite <- !app_assoc.
  destruct (read_into_ok s (be_encode 2 (zlen p)) (p ++ concat (map path_bytes paths) ++ rest) buf size)
    as (s1 & E1 & Hb1); [done|rewrite zlen_be_encode; lia|].
  rewrite zlen_be_encode in E1. change (Z.of_nat 2) with 2 in E1. rewrite E1.
  cbn [mbind outcome_bind]. rewrite Z.eqb_refl. cbn [negb]. cbv zeta.
  rewrite slice_suffix by (rewrite ?zlen_app, ?zlen_be_encode; lia).
  rewrite be_decode_path_len by done.
  destruct (read_into_ok s1 p (concat (map path_bytes paths) ++ rest) (buf ++ be_encode 2 (zlen p)) size)
    as (s2 & -> & Hb2); [done|rewrite zlen_app, zlen_be_encode; lia|].
  cbn [mbind outcome_bind]. rewrite Z.eqb_refl. cbn [negb]. rewrite <- app_assoc.
  change (be_encode 2 (zlen p) ++ p) with (path_bytes p).
  destruct (IH s2 (buf ++ path_bytes p) rest size) as (s3 & -> & Hb3); [done|done| |].
  { rewrite zlen_app, zlen_path_bytes. lia. }
  exists s3. by rewrite <- app_assoc.
Qed.

Lemma zlen_job_body M R paths : zlen (job_body M R paths) = 8 + zlen (concat (map path_bytes paths)).
Proof. unfold job_body. rewrite !zlen_app, !zlen_be_encode. lia. Qed.

Lemma zlen_paths_bound paths : Forall path_ok paths ->
  zlen (concat (map path_bytes paths)) <= zlen paths * (1 + MAPREDUCE_PATH_MAX).
Proof.
  induction 1 as [|p paths Hp _ IH]; [done|].
  cbn [map concat]. rewrite zlen_app, zlen_path_bytes, zlen_cons. unfold path_ok in Hp. lia.
Qed.

(** The allocation of [aof_read_job] holds every job header with at most
    [MAX_MAP_TASKS] paths. *)
Lemma job_buf_size_enough M paths :
  M = zlen paths -> M <= MAX_MAP_TASKS -> Forall path_ok paths ->
  8 + zlen (concat (map path_bytes paths)) + 8 <=
  4 + 4 + wrap 32 (M * (2 + MAPREDUCE_PATH_MAX)) + 8.
Proof.
  intros HM Hmax Hp. pose proof (zlen_nonneg paths). pose proof (zlen_paths_bound paths Hp).
  rewrite wrap_small by (limits; unfold fits; lia). limits. lia.
Qed.

Lemma read_job_ok s M R paths rest :
  benign s -> M = zlen paths -> M <= MAX_MAP_TASKS -> u32 R -> Forall path_ok paths ->
  exists s', aof_read_job s (seal (job_body M R paths) ++ rest) =
    Ret (Some (mk_aof_job M R (seal (job_body M R paths))), rest, s') /\ benign s'.
Proof.
  intros Hb HM HMmax HR Hp. pose proof (zlen_nonneg paths).
  assert (u32 M) as HMu by (limits; unfold fits; lia).
  pose proof (job_buf_size_enough M paths HM HMmax Hp) as Hsize.
  unfold aof_read_job. set (hd := be_encode 4 M ++ be_encode 4 R).
  assert (job_body M R paths = hd ++ concat (map path_bytes paths)) as Hbody
    by (unfold job_body, hd; by rewrite app_assoc).
  unfold seal at 1. rewrite Hbody, <- !app_assoc, <- Hbody.
  destruct (read_exact_benign s hd (concat (map path_bytes paths) ++
    be_encode 8 (crc64 0 (job_body M R paths)) ++ rest) Hb) as (s1 & E1 & Hb1).
  change (zlen hd) with 8 in E1. rewrite E1. clear E1.
  cbv zeta. change (8 =? 8) with true. cbn [negb].
  replace (be_decode (slice 0 4 hd)) with M
    by (unfold hd; rewrite slice_prefix by done; by rewrite be_decode_encode).
  replace (be_decode (slice 4 4 hd)) with R
    by (unfold hd; rewrite slice_suffix by done; by rewrite be_decode_encode).
  destruct (io_simple_benign s1 Hb1) as (s2 & -> & Hb2). cbn [negb].
  replace (Z.to_nat M) with (length paths) by (unfold zlen in HM; lia).
  destruct (read_paths_ok paths s2 hd (be_encode 8 (crc64 0 (job_body M R paths)) ++ rest)
    (4 + 4 + wrap 32 (M * (2 + MAPREDUCE_PATH_MAX)) + 8)) as (s3 & -> & Hb3); [done|done| |].
  { change (zlen hd) with 8. lia. }
  cbn [mbind outcome_bind]. rewrite <- Hbody.
  destruct (read_into_ok s3 (be_encode 8 (crc64 0 (job_body M R paths))) rest (job_body M R paths)
    (4 + 4 + wrap 32 (M * (2 + MAPREDUCE_PATH_MAX)) + 8)) as (s4 & E4 & Hb4); [done| |].
  { rewrite zlen_job_body, zlen_be_encode. lia. }
  rewrite zlen_be_encode in E4. change (Z.of_nat 8) with 8 in E4. rewrite E4. clear E4.
  cbn [mbind outcome_bind]. change (8 =? 8) with true. cbn [negb]. cbv zeta.
  change (job_body M R paths ++ be_encode 8 (crc64 0 (job_body M R paths)))
    with (seal (job_body M R paths)).
  rewrite (seal_crc (job_body M R paths)) by (rewrite zlen_seal; lia).
  rewrite Z.eqb_refl. cbn [negb]. by exists s4.
Qed.

(** ** Load *)

(** The slot the definition pass leaves for a path. *)
Definition path_task (path : list Z) : task_t :=
  set_input_path path (zlen path) (task_reset_pending task_zero).

Lemma load_paths_ok paths : forall pre cur post front tl,
  Forall path_ok paths -> length cur = length paths ->
  aof_load_paths (length pre) (length paths) (zlen front)
    (front ++ concat (map path_bytes paths) ++ tl) (pre ++ cur ++ post) =
  (true, pre ++ zip_with (fun p t => set_input_path p (zlen p) t) paths cur ++ post).
Proof.
  induction paths as [|p paths IH]; intros pre [|t cur] post front tl Hp Hlen; try done.
  inversion Hp as [|? ? Hp1 Hps]; subst. cbn [length map concat aof_load_paths].
  rewrite <- app_assoc. set (buf := front ++ path_bytes p ++ concat (map path_bytes paths) ++ tl).
  assert (be_decode (slice (zlen front) 2 buf) = zlen p) as ->.
  { unfold buf, path_bytes at 1. rewrite <- !app_assoc, slice_mid by done.
    by apply be_decode_path_len. }
  assert (slice (zlen front + 2) (zlen p) buf = p) as ->.
  { unfold buf, path_bytes at 1. rewrite <- !app_assoc, (app_assoc front).
    apply slice_mid; [|done]. rewrite zlen_app, zlen_be_encode. lia. }
  cbv zeta. destruct (Z.leb_spec MAPREDUCE_PATH_MAX (zlen p)) as [Hle|_];
    [unfold path_ok in Hp1; lia|].
  specialize (IH (pre ++ [set_input_path p (zlen p) t]) cur post (front ++ path_bytes p) tl
    Hps ltac:(by simplify_eq/=)).
  rewrite length_app, <- !app_assoc in IH. cbn [length app] in IH.
  rewrite Nat.add_1_r, zlen_app, zlen_path_bytes in IH. unfold buf.
  rewrite alter_app_r_alt, Nat.sub_diag by lia. cbn [app alter list_alter zip_with].
  rewrite <- Z.add_assoc. exact IH.
Qed.

(** The arrays before the replay: reset slots with their paths. *)
Definition loaded_maps (paths : list (list Z)) (l : list task_t) : list task_t :=
  map path_task paths ++ drop (length paths) l.

Lemma load_maps_ok M R paths maps :
  M = zlen paths -> Forall path_ok paths -> M <= zlen maps ->
  aof_load_paths 0 (Z.to_nat M) 8 (seal (job_body M R paths)) (reset_slots M maps) =
  (true, loaded_maps paths maps).
Proof.
  intros HM Hp Hlen. unfold seal, job_body.
  rewrite (app_assoc (be_encode 4 M)), <- app_assoc.
  replace (Z.to_nat M) with (length paths) by (unfold zlen in HM; lia).
  unfold reset_slots. replace (Z.to_nat M) with (length paths) by (unfold zlen in HM; lia).
  pose proof (load_paths_ok paths [] (map task_reset_pending (take (length paths) maps))
    (drop (length paths) maps) (be_encode 4 M ++ be_encode 4 R)
    (be_encode 8 (crc64 0 ((be_encode 4 M ++ be_encode 4 R) ++ concat (map path_bytes paths)))) Hp) as H.
  cbn [app length] in H. change (zlen (be_encode 4 M ++ be_encode 4 R)) with 8 in H.
  rewrite H by (rewrite length_map, length_take; unfold zlen in *; lia).
  f_equal. unfold loaded_maps. f_equal.
  assert (length paths = length (take (length paths) maps)) as Hl
    by (rewrite length_take; unfold zlen in *; lia).
  revert Hl. generalize (take (length paths) maps). clear. intros l.
  revert l. induction paths as [|p paths IH]; intros [|t l] Hl; try done.
  cbn. f_equal. apply IH. by injection Hl.
Qed.

(** The replay loop over whole records applies them in order. *)
Lemma replay_ok M R cs : forall fuel s a b,
  benign s -> Forall completion_wf cs -> (length (records_bytes cs) < fuel)%nat ->
  replay_all M R cs a = Some b ->
  exists s', aof_replay fuel s (records_bytes cs) M R a = Ret (0, b, s') /\ benign s'.
Proof.
  induction cs as [|c cs IH]; intros fuel s a b Hb Hc Hfuel Hr;
    (destruct fuel as [|fuel]; [lia|]).
  - cbn in Hr. simplify_eq. cbn [records_bytes map concat aof_replay].
    destruct (read_record_eof s Hb) as (s' & -> & Hb'). by exists s'.
  - inversion Hc as [|? ? Hc1 Hcs]; subst. cbn [replay_all] in Hr.
    destruct (replay_record M R (cp_kind c) (cp_task_id c) a) as [a1|] eqn:E; [|done].
    unfold records_bytes. cbn [map concat aof_replay]. fold (records_bytes cs).
    destruct (read_record_ok s c (records_bytes cs) Hc1 Hb) as (s1 & -> & Hb1).
    rewrite E. apply IH; [done|done| |done].
    unfold records_bytes in *. cbn [map concat] in Hfuel. rewrite length_app in Hfuel.
    assert (length (seal (completion_body c)) = 17%nat) by reflexivity. lia.
Qed.

(** The master [aof_load] leaves: the arrays and counters of the replay, and
    the phase the counters imply. *)
Definition loaded_master (M R : Z) (a : replay_t) (m : master_t) : master_t :=
  let j := m_job m in
  maybe_advance_phase
    (set_job (mk_job M R (j_phase j) (wrap 32 (rp_maps_count a)) (wrap 32 (rp_reduce_count a))
                (cfg_task_timeout_ms (m_config m)))
      (set_reduces (rp_reduces a) (set_maps (rp_maps a) m))).

(** What [aof_load] does once both headers are accepted: the replay of the
    bytes after them. *)
Definition load_records (s : list io) (src : list Z) (M R : Z) (paths : list (list Z))
    (m : master_t) : outcome (Z * master_t * list io) :=
  '(rc, a, s) ← aof_replay (S (length src)) s src M R
                 (mk_replay (loaded_maps paths (m_maps m)) (reset_slots R (m_reduces m)) 0 0);
  if negb (rc =? 0) then
    Ret (-1, set_reduces (rp_reduces a) (set_maps (rp_maps a)
       (set_job (mk_job M R (j_phase (m_job m)) (j_maps_done (m_job m)) (j_reduces_done (m_job m))
          (cfg_task_timeout_ms (m_config m))) m)), s)
  else Ret (0, loaded_master M R a m, s).

Lemma load_prefix_ok s created M R paths src m :
  benign s -> M = zlen paths -> M <= MAX_MAP_TASKS -> 0 <= R <= MAX_REDUCE_TASKS ->
  Forall path_ok paths -> M <= zlen (m_maps m) ->
  exists s', aof_load s (Some (job_prefix created M R paths ++ src)) m =
    load_records s' src M R paths m /\ benign s'.
Proof.
  intros Hb HM HMmax HR Hp Hlen.
  assert (u32 R) as HRu by (limits; unfold fits; lia).
  assert (zlen (job_prefix created M R paths ++ src) >= 40) as Hsize.
  { unfold job_prefix. rewrite !zlen_app, !zlen_seal, zlen_header_body, zlen_job_body.
    pose proof (zlen_nonneg (concat (map path_bytes paths))). pose proof (zlen_nonneg src). lia. }
  unfold aof_load. destruct (io_simple_benign s Hb) as (s1 & -> & Hb1). cbn [negb orb].
  destruct (Z.eqb_spec (zlen (job_prefix created M R paths ++ src)) 0); [lia|].
  change AOF_FILE_HEADER_SIZE with 32.
  destruct (Z.ltb_spec (zlen (job_prefix created M R paths ++ src)) 32); [lia|].
  destruct (io_simple_benign s1 Hb1) as (s2 & -> & Hb2). cbn [negb].
  unfold job_prefix. rewrite <- app_assoc.
  destruct (read_file_header_ok s2 created (seal (job_body M R paths) ++ src) Hb2)
    as (s3 & -> & Hb3). change (0 =? 0) with true. cbn [negb].
  destruct (read_job_ok s3 M R paths src) as (s4 & -> & Hb4); [done..|].
  cbn [mbind outcome_bind].
  destruct (Z.ltb_spec MAX_MAP_TASKS M); [lia|]. destruct (Z.ltb_spec MAX_REDUCE_TASKS R); [lia|].
  cbn [orb]. cbv zeta. cbn [m_maps m_reduces m_job set_maps set_reduces set_job].
  rewrite load_maps_ok by done. cbn [negb]. exists s4. split; [|done].
  unfold load_records. cbn [m_maps m_reduces m_job set_maps set_reduces set_job].
  destruct (aof_replay _ _ _ _ _ _) as [[[rc a] s5]| |]; cbn [mbind outcome_bind]; [|done..].
  by destruct m as [cfg [] ? ? ? ? ?], (rc =? 0).
Qed.

Lemma load_log_ok s created M R paths cs m a :
  benign s -> M = zlen paths -> M <= MAX_MAP_TASKS -> 0 <= R <= MAX_REDUCE_TASKS ->
  Forall path_ok paths -> Forall completion_wf cs -> M <= zlen (m_maps m) ->
  replay_all M R cs (mk_replay (loaded_maps paths (m_maps m)) (reset_slots R (m_reduces m)) 0 0) = Some a ->
  exists s', aof_load s (Some (log_bytes created M R paths cs)) m =
    Ret (0, loaded_master M R a m, s') /\ benign s'.
Proof.
  intros Hb HM HMmax HR Hp Hc Hlen Hr.
  destruct (load_prefix_ok s created M R paths (records_bytes cs) m) as (s4 & E & Hb4); try done.
  unfold log_bytes. rewrite E. unfold load_records.
  destruct (replay_ok M R cs (S (length (records_bytes cs))) s4 _ a Hb4 Hc ltac:(lia) Hr)
    as (s5 & -> & Hb5). by exists s5.
Qed.

(** ** Writing *)

(** A slot whose path fits the wire and log formats. *)
Definition task_path_ok (t : task_t) : Prop :=
  t_input_path_len t = zlen (t_input_path t) /\ path_ok (t_input_path t).

Definition task_paths (n : Z) (maps : list task_t) : list (list Z) :=
  map t_input_path (take (Z.to_nat n) maps).

Lemma task_paths_ok n maps : Forall task_path_ok maps -> Forall path_ok (task_paths n maps).
Proof.
  intros H. unfold task_paths. apply Forall_map, Forall_take.
  eapply Forall_impl; [exact H|]. by intros t [].
Qed.

Lemma zlen_task_paths n maps : 0 <= n <= zlen maps -> zlen (task_paths n maps) = n.
Proof. intros. unfold task_paths, zlen. rewrite length_map, length_take. unfold zlen in *. lia. Qed.

Lemma write_file_header_ok s file created : benign s ->
  exists s', aof_write_file_header s file created = (0, file ++ seal (header_body created), s') /\
    benign s'.
Proof.
  intros Hb. unfold aof_write_file_header. cbv zeta.
  change (AOF_FILE_MAGIC ++ be_encode 4 AOF_FILE_VERSION ++ be_encode 4 0 ++
    be_encode 8 (wrap 64 created)) with (header_body created).
  fold (seal (header_body created)).
  destruct (write_all_benign s (seal (header_body created)) Hb) as (s' & -> & Hb').
  change (zlen (seal (header_body created)) =? AOF_FILE_HEADER_SIZE) with true. by exists s'.
Qed.

(** What an append leaves in the file under any kernel answers: a prefix of
    the record, all of it when the call succeeds. *)
Lemma write_record_spec s file msg kind rc file' s' :
  aof_write_record s file msg kind = (rc, file', s') ->
  let rec := seal (completion_body (mk_completion kind (done_task_id msg) (done_attempt_id msg))) in
  exists w rest, file' = file ++ w /\ rec = w ++ rest /\
    (rc = -1 \/ rc = AOF_RECORD_SIZE /\ rest = []) /\ (exists used, s = used ++ s').
Proof.
  unfold aof_write_record. cbv zeta.
  change (be_encode 1 kind ++ be_encode 4 (done_task_id msg) ++ be_encode 4 (done_attempt_id msg))
    with (completion_body (mk_completion kind (done_task_id msg) (done_attempt_id msg))).
  set (c := mk_completion kind (done_task_id msg) (done_attempt_id msg)).
  fold (seal (completion_body c)).
  destruct (write_all s (seal (completion_body c))) as [[n acc] s1] eqn:E. intros H. simplify_eq.
  apply write_all_spec in E as ([rest Hrest] & Hor & _ & Hused).
  exists acc, rest. split_and!; [done|done| |done].
  destruct Hor as [->|[-> ->]]; [by left|]. right. rewrite Z.eqb_refl.
  rewrite <- (app_nil_r (seal _)) in Hrest at 1. apply app_inv_head in Hrest as <-.
  by change (zlen (seal (completion_body c))) with 17.
Qed.

Lemma append_completed_ok s file m msg kind : benign s -> 0 <= m_aof_fd m ->
  exists s', aof_append_completed s file m msg kind =
    (0, file ++ seal (completion_body (mk_completion kind (done_task_id msg) (done_attempt_id msg))), s') /\
    benign s'.
Proof.
  intros Hb Hfd. unfold aof_append_completed.
  destruct (Z.ltb_spec (m_aof_fd m) 0); [lia|]. unfold aof_write_record. cbv zeta.
  change (be_encode 1 kind ++ be_encode 4 (done_task_id msg) ++ be_encode 4 (done_attempt_id msg))
    with (completion_body (mk_completion kind (done_task_id msg) (done_attempt_id msg))).
  set (c := mk_completion kind (done_task_id msg) (done_attempt_id msg)).
  fold (seal (completion_body c)).
  destruct (write_all_benign s (seal (completion_body c)) Hb) as (s1 & -> & Hb1).
  change (zlen (seal (completion_body c))) with 17. cbn [negb orb]. change (17 =? -1) with false.
  change (17 =? 17) with true. cbn [negb orb]. change (17 =? -1) with false.
  destruct (durable_flush_benign s1 Hb1) as (s2 & -> & Hb2). by exists s2.
Qed.

(** The slots of the loops of [aof_init] and [aof_write_job]. *)
Lemma job_paths_size_ok n : forall i maps,
  (i + n <= length maps)%nat -> Forall task_path_ok maps ->
  job_paths_size i n maps =
  Ret (zlen (concat (map path_bytes (map t_input_path (take n (drop i maps)))))).
Proof.
  induction n as [|n IH]; intros i maps Hlen Hp; [done|].
  destruct (lookup_lt_is_Some_2 maps i) as [t Ht]; [lia|].
  cbn [job_paths_size]. rewrite Ht. cbn [or_fault mbind outcome_bind].
  rewrite IH by (done || lia). cbn [mbind outcome_bind].
  rewrite (drop_S maps t i) by done. cbn [take map concat].
  rewrite zlen_app, zlen_path_bytes.
  by rewrite Forall_lookup in Hp; destruct (Hp i t Ht) as [-> _].
Qed.

Lemma write_paths_ok n : forall i buf size maps,
  (i + n <= length maps)%nat -> Forall task_path_ok maps ->
  zlen buf + zlen (concat (map path_bytes (map t_input_path (take n (drop i maps))))) <= size ->
  aof_write_paths i n buf size maps =
  Ret (Some (buf ++ concat (map path_bytes (map t_input_path (take n (drop i maps)))))).
Proof.
  induction n as [|n IH]; intros i buf size maps Hlen Hp Hsize; [by cbn; rewrite app_nil_r|].
  destruct (lookup_lt_is_Some_2 maps i) as [t Ht]; [lia|].
  destruct (proj1 (Forall_lookup _ _) Hp i t Ht) as [Hpl _].
  rewrite (drop_S maps t i) in * by done. cbn [take map concat] in *.
  rewrite zlen_app, zlen_path_bytes in Hsize.
  pose proof (zlen_nonneg (concat (map path_bytes (map t_input_path (take n (drop (S i) maps)))))).
  cbn [aof_write_paths]. rewrite Ht. cbn [or_fault mbind outcome_bind].
  destruct (Z.ltb_spec size (zlen buf + 2 + t_input_path_len t)); [lia|].
  cbv zeta. rewrite array_bytes_exact by done.
  rewrite IH; [|lia|done|rewrite !zlen_app, zlen_be_encode; lia].
  rewrite Hpl, <- !app_assoc. unfold path_bytes at 2. by rewrite <- app_assoc.
Qed.

Lemma write_job_ok s file M R maps :
  benign s -> 0 <= M <= zlen maps -> Forall task_path_ok maps ->
  exists s', aof_write_job s file (16 + zlen (concat (map path_bytes (task_paths M maps)))) M R maps =
    Ret (zlen (seal (job_body M R (task_paths M maps))),
         file ++ seal (job_body M R (task_paths M maps)), s') /\ benign s'.
Proof.
  intros Hb HM Hp. unfold aof_write_job.
  pose proof (zlen_nonneg (concat (map path_bytes (task_paths M maps)))) as Hnn.
  destruct (Z.ltb_spec (16 + zlen (concat (map path_bytes (task_paths M maps)))) 8); [lia|].
  unfold task_paths in *.
  rewrite write_paths_ok; [|unfold zlen in HM; lia|done|]; rewrite drop_0.
  2:{ rewrite zlen_app, !zlen_be_encode. lia. }
  cbn [mbind outcome_bind]. rewrite <- app_assoc.
  change (be_encode 4 M ++ be_encode 4 R ++ concat (map path_bytes (map t_input_path (take (Z.to_nat M) maps))))
    with (job_body M R (task_paths M maps)).
  fold (task_paths M maps) in *.
  destruct (Z.ltb_spec (16 + zlen (concat (map path_bytes (task_paths M maps))))
    (zlen (job_body M R (task_paths M maps)) + 8)) as [Hbad|_]; [rewrite zlen_job_body in Hbad; lia|].
  cbv zeta. fold (seal (job_body M R (task_paths M maps))).
  destruct (write_all_benign s (seal (job_body M R (task_paths M maps))) Hb) as (s' & -> & Hb').
  exists s'. split; [|done]. pose proof (zlen_nonneg (seal (job_body M R (task_paths M maps)))).
  destruct (Z.eqb_spec (zlen (seal (job_body M R (task_paths M maps)))) (-1)); [lia|].
  rewrite Z.eqb_refl. done.
Qed.

(** A first start writes the header and the job header of the master. *)
Lemma aof_init_fresh_ok s file fd created m :
  benign s -> default [] file = [] -> 0 <= fd ->
  0 <= j_M (m_job m) <= zlen (m_maps m) -> Forall task_path_ok (m_maps m) ->
  exists s', aof_init s file fd created m =
    Ret (0, set_aof_fd fd m,
         Some (job_prefix created (j_M (m_job m)) (j_R (m_job m))
                 (task_paths (j_M (m_job m)) (m_maps m))), s') /\ benign s'.
Proof.
  intros Hb Hfile Hfd HM Hp. unfold aof_init, aof_open.
  destruct (io_simple_benign s Hb) as (s1 & -> & Hb1).
  destruct (Z.eqb_spec fd (-1)); [lia|].
  destruct (io_simple_benign s1 Hb1) as (s2 & -> & Hb2). cbn [negb].
  change (default [] (Some (default [] file))) with (default [] file). rewrite Hfile.
  change (zlen []) with 0. change (0 =? 0) with true. cbn [negb].
  destruct (write_file_header_ok s2 [] created Hb2) as (s3 & -> & Hb3).
  change (0 =? -1) with false. cbv iota. cbn [m_job m_maps set_aof_fd app].
  rewrite job_paths_size_ok by (done || (unfold zlen in HM; lia)). cbn [mbind outcome_bind].
  destruct (io_simple_benign s3 Hb3) as (s4 & -> & Hb4). cbn [negb]. rewrite drop_0.
  destruct (write_job_ok s4 (seal (header_body created)) (j_M (m_job m)) (j_R (m_job m)) (m_maps m))
    as (s5 & E5 & Hb5); [done..|].
  unfold task_paths in E5 |- *. change (4 + 4 + 8) with 16. rewrite E5. cbn [mbind outcome_bind].
  set (jb := job_body _ _ _).
  pose proof (zlen_nonneg jb). destruct (Z.eqb_spec (zlen (seal jb)) (-1)) as [Hbad|_];
    [rewrite zlen_seal in Hbad; lia|].
  destruct (durable_flush_benign s5 Hb5) as (s6 & -> & Hb6). change (0 =? -1) with false.
  by exists s6.
Qed.

(** A restart keeps the file as it is. *)
Lemma aof_init_existing_ok s bytes fd created m :
  benign s -> bytes <> [] -> 0 <= fd ->
  exists s', aof_init s (Some bytes) fd created m = Ret (0, set_aof_fd fd m, Some bytes, s') /\
    benign s'.
Proof.
  intros Hb Hbytes Hfd. unfold aof_init, aof_open.
  destruct (io_simple_benign s Hb) as (s1 & -> & Hb1).
  destruct (Z.eqb_spec fd (-1)); [lia|].
  destruct (io_simple_benign s1 Hb1) as (s2 & -> & Hb2). cbn [negb].
  change (default [] (Some (default [] (Some bytes)))) with bytes.
  destruct (Z.eqb_spec (zlen bytes) 0) as [Hz|_]; [by destruct bytes; [|rewrite zlen_cons in Hz; pose proof (zlen_nonneg bytes); lia]|].
  by exists s2.
Qed.

(** ** What a replay computes *)

(** The task indices of the records of a kind, in log order. *)
Definition completed_ids (k : task_kind_e) (cs : list completion) : list nat :=
  map (fun c => Z.to_nat (cp_task_id c)) (filter (fun c => cp_kind c = task_kind_code k) cs).

(** A record of a known kind names a live slot. *)
Definition in_range (M R : Z) (c : completion) : Prop :=
  (cp_kind c = task_kind_code TASK_KIND_MAP -> cp_task_id c < M) /\
  (cp_kind c = task_kind_code TASK_KIND_REDUCE -> cp_task_id c < R).

#[export] Instance in_range_dec M R c : Decision (in_range M R c).
Proof. unfold in_range. apply _. Defined.

(** Mark the slots whose index is in [ids]. *)
Definition mark_completed (ids : list nat) (l : list task_t) : list task_t :=
  imap (fun i t => if decide (i ∈ ids) then set_state TASK_COMPLETED t else t) l.

Lemma mark_completed_nil l : mark_completed [] l = l.
Proof.
  unfold mark_completed. apply list_eq. intros i. rewrite list_lookup_imap.
  destruct (l !! i); cbn; [|done]. by rewrite decide_False by apply not_elem_of_nil.
Qed.

Lemma mark_completed_cons i ids l :
  mark_completed ids (alter (set_state TASK_COMPLETED) i l) = mark_completed (i :: ids) l.
Proof.
  unfold mark_completed. apply list_eq. intros k. rewrite !list_lookup_imap.
  destruct (decide (k = i)) as [->|Hne].
  - rewrite list_lookup_alter_eq. destruct (l !! i); cbn; [|done]. f_equal.
    rewrite (decide_True (P := i ∈ i :: ids)) by apply list_elem_of_here.
    by destruct (decide (i ∈ ids)).
  - rewrite list_lookup_alter_ne by done. destruct (l !! k); cbn; [|done]. f_equal.
    destruct (decide (k ∈ ids)) as [Hin|Hnin].
    + by rewrite decide_True by by apply list_elem_of_further.
    + rewrite decide_False; [done|]. by intros [?|?]%elem_of_cons.
Qed.

Lemma replay_all_spec M R cs : forall a, Forall (in_range M R) cs ->
  replay_all M R cs a =
  Some (mk_replay (mark_completed (completed_ids TASK_KIND_MAP cs) (rp_maps a))
    (mark_completed (completed_ids TASK_KIND_REDUCE cs) (rp_reduces a))
    (rp_maps_count a + zlen (completed_ids TASK_KIND_MAP cs))
    (rp_reduce_count a + zlen (completed_ids TASK_KIND_REDUCE cs))).
Proof.
  induction cs as [|c cs IH]; intros [ms rs mc rc] Hr.
  { unfold completed_ids. rewrite !filter_nil. cbn [replay_all map rp_maps rp_reduces
      rp_maps_count rp_reduce_count].
    by rewrite !mark_completed_nil, zlen_nil, !Z.add_0_r. }
  inversion Hr as [|? ? [Hm Hred] Hrs]; subst. cbn [replay_all].
  unfold replay_record, completed_ids. rewrite !filter_cons.
  cbn [task_kind_code rp_maps rp_reduces rp_maps_count rp_reduce_count] in *.
  destruct (Z.eqb_spec (cp_kind c) 1) as [E1|E1].
  { destruct (Z.leb_spec M (cp_task_id c)); [specialize (Hm E1); lia|].
    rewrite E1. cbn [mbind option_bind].
    rewrite (decide_True (P := 1 = 1)) by done. rewrite (decide_False (P := 1 = 2)) by done.
    rewrite IH by done. cbn [map rp_maps rp_reduces rp_maps_count rp_reduce_count].
    rewrite mark_completed_cons, zlen_cons, <- !Z.add_assoc. reflexivity. }
  rewrite (decide_False (P := cp_kind c = 1)) by done.
  destruct (Z.eqb_spec (cp_kind c) 2) as [E2|E2].
  { destruct (Z.leb_spec R (cp_task_id c)); [specialize (Hred E2); lia|].
    cbn [mbind option_bind]. rewrite IH by done.
    rewrite (decide_True (P := cp_kind c = 2)) by done.
    cbn [map rp_maps rp_reduces rp_maps_count rp_reduce_count].
    rewrite mark_completed_cons, zlen_cons, <- !Z.add_assoc. reflexivity. }
  rewrite (decide_False (P := cp_kind c = 2)) by done.
  cbn [mbind option_bind]. by rewrite IH.
Qed.

(** The appends of a run of the master, in order; it stops at an error. *)
Fixpoint append_all (s : list io) (file : list Z) (m : master_t)
    (l : list (rpc_task_done_req_t * task_kind_e)) : Z * list Z * list io :=
  match l with
  | [] => (0, file, s)
  | (msg, k) :: l =>
      let '(rc, file, s) := aof_append_completed s file m msg (task_kind_code k) in
      if rc =? -1 then (-1, file, s) else append_all s file m l
  end.

Definition completion_of (x : rpc_task_done_req_t * task_kind_e) : completion :=
  mk_completion (task_kind_code x.2) (done_task_id x.1) (done_attempt_id x.1).

Lemma append_all_ok l : forall s file m, benign s -> 0 <= m_aof_fd m ->
  exists s', append_all s file m l = (0, file ++ records_bytes (map completion_of l), s') /\ benign s'.
Proof.
  induction l as [|[msg k] l IH]; intros s file m Hb Hfd.
  { exists s. cbn. by rewrite app_nil_r. }
  cbn [append_all].
  destruct (append_completed_ok s file m msg (task_kind_code k) Hb Hfd) as (s1 & -> & Hb1).
  change (0 =? -1) with false. cbv iota.
  destruct (IH s1 (file ++ seal (completion_body (completion_of (msg, k)))) m Hb1 Hfd) as (s2 & E & Hb2).
  exists s2. split; [|done]. unfold completion_of in E at 1. cbn [fst snd] in E. rewrite E.
  unfold records_bytes. cbn [map concat]. by rewrite <- app_assoc.
Qed.

(** ** Jobs the log can hold *)

Definition job_ok (m : master_t) : Prop :=
  0 <= j_M (m_job m) <= MAX_MAP_TASKS /\ j_M (m_job m) <= zlen (m_maps m) /\
  0 <= j_R (m_job m) <= MAX_REDUCE_TASKS /\ Forall task_path_ok (m_maps m).

Lemma take_mark_completed n ids l :
  take n (mark_completed ids l) = mark_completed ids (take n l).
Proof.
  unfold mark_completed. apply list_eq. intros i. rewrite list_lookup_imap.
  destruct (decide (i < n)%nat).
  - by rewrite !lookup_take_lt, list_lookup_imap by done.
  - by rewrite !lookup_take_ge by lia.
Qed.

Lemma take_reset_slots n l : 0 <= n <= zlen l ->
  take (Z.to_nat n) (reset_slots n l) = replicate (Z.to_nat n) (task_reset_pending task_zero).
Proof.
  intros Hn. unfold reset_slots.
  assert (length (take (Z.to_nat n) l) = Z.to_nat n) as Hlen
    by (rewrite length_take; unfold zlen in Hn; lia).
  rewrite take_app_length' by by rewrite length_map. rewrite <- Hlen at 2.
  generalize (take (Z.to_nat n) l). clear. induction l; [done|]. cbn. by f_equal.
Qed.

Lemma loaded_master_fields M R a m :
  let m' := loaded_master M R a m in
  m_maps m' = rp_maps a /\ m_reduces m' = rp_reduces a /\
  j_M (m_job m') = M /\ j_R (m_job m') = R /\
  j_maps_done (m_job m') = wrap 32 (rp_maps_count a) /\
  j_reduces_done (m_job m') = wrap 32 (rp_reduce_count a).
Proof.
  cbv zeta. unfold loaded_master, maybe_advance_phase, maybe_advance_phase_job. cbn.
  repeat case_decide; repeat case_match; cbn in *; done.
Qed.

(** ** Properties *)

(** C21: crash recovery round trip. Starting a job writes its log; each
    completion appends a record; loading that file into a fresh master, under
    any short reads and writes, gives back the same M, R and input paths, has
    exactly the recorded tasks completed and every other slot pending with no
    owner, and counts the records of each kind. *)
Theorem aof_roundtrip s s' file fd created m m0 l :
  benign s -> benign s' -> default [] file = [] -> 0 <= fd -> job_ok m ->
  j_M (m_job m) <= zlen (m_maps m0) -> j_R (m_job m) <= zlen (m_reduces m0) ->
  Forall (fun x => completion_wf (completion_of x) /\
    in_range (j_M (m_job m)) (j_R (m_job m)) (completion_of x)) l ->
  exists m1 f1 s1 f2 s2 m2 s3,
    aof_init s file fd created m = Ret (0, m1, Some f1, s1) /\
    append_all s1 f1 m1 l = (0, f2, s2) /\
    aof_load s' (Some f2) m0 = Ret (0, m2, s3) /\
    let M := j_M (m_job m) in let R := j_R (m_job m) in
    let ids k := completed_ids k (map completion_of l) in
    j_M (m_job m2) = M /\ j_R (m_job m2) = R /\
    take (Z.to_nat M) (m_maps m2) =
      mark_completed (ids TASK_KIND_MAP) (map path_task (task_paths M (m_maps m))) /\
    take (Z.to_nat R) (m_reduces m2) =
      mark_completed (ids TASK_KIND_REDUCE) (replicate (Z.to_nat R) (task_reset_pending task_zero)) /\
    j_maps_done (m_job m2) = wrap 32 (zlen (ids TASK_KIND_MAP)) /\
    j_reduces_done (m_job m2) = wrap 32 (zlen (ids TASK_KIND_REDUCE)).
Proof.
  intros Hb Hb' Hfile Hfd (HM & HMl & HR & Hp) Hm0 Hr0 Hl.
  destruct (aof_init_fresh_ok s file fd created m) as (s1 & E1 & Hb1); [done..|lia|done|].
  set (f1 := job_prefix _ _ _ _) in E1.
  destruct (append_all_ok l s1 f1 (set_aof_fd fd m) Hb1 Hfd) as (s2 & E2 & Hb2).
  set (M := j_M (m_job m)) in *. set (R := j_R (m_job m)) in *.
  pose proof (zlen_task_paths M (m_maps m) ltac:(lia)) as HlenP.
  assert (Forall completion_wf (map completion_of l)) as Hwf
    by (apply Forall_map; eapply Forall_impl; [exact Hl|]; by intros x []).
  assert (Forall (in_range M R) (map completion_of l)) as Hin
    by (apply Forall_map; eapply Forall_impl; [exact Hl|]; by intros x []).
  pose proof (replay_all_spec M R _ (mk_replay (loaded_maps (task_paths M (m_maps m)) (m_maps m0))
    (reset_slots R (m_reduces m0)) 0 0) Hin) as Hrep.
  cbn [rp_maps rp_reduces rp_maps_count rp_reduce_count] in Hrep.
  match type of Hrep with _ = Some ?a => set (A := a) in Hrep end.
  destruct (load_log_ok s' created M R (task_paths M (m_maps m)) (map completion_of l) m0 A Hb'
    ltac:(lia) ltac:(lia) ltac:(lia) (task_paths_ok M _ Hp) Hwf ltac:(lia) Hrep) as (s3 & E3 & _).
  eexists _, f1, s1, _, s2, _, s3. split_and!; [exact E1|exact E2|exact E3|].
  cbv zeta. destruct (loaded_master_fields M R A m0) as (-> & -> & -> & -> & -> & ->).
  unfold A. cbn [rp_maps rp_reduces rp_maps_count rp_reduce_count].
  rewrite !take_mark_completed, take_reset_slots, !Z.add_0_l by lia.
  split_and!; try done. f_equal. unfold loaded_maps.
  rewrite take_app_length'; [done|]. rewrite length_map. unfold zlen in HlenP. lia.
Qed.

(** A small job for the witnesses: two splits, two partitions. *)
Definition sample_config : master_config_t :=
  mk_config 9999 511 10 300 2 10000 [46] (Some [109; 114]).
Definition sample_master : master_t :=
  set_job (mk_job 2 2 JOB_MAP 0 0 10000)
    (set_maps [path_task [97]; path_task [98; 99]]
      (set_reduces [task_reset_pending task_zero; task_reset_pending task_zero]
        (master_zero sample_config))).

Lemma sample_job_ok : job_ok sample_master.
Proof.
  split_and!; [by vm_compute|by vm_compute|by vm_compute|by vm_compute|by vm_compute|].
  repeat constructor; by vm_compute.
Qed.

Example aof_roundtrip_witness :
  exists m1 f1 s1 f2 s2 m2 s3,
    aof_init [IoOk 3; IoOk 0] None 5 1700000000000 sample_master = Ret (0, m1, Some f1, s1) /\
    append_all s1 f1 m1 [(mk_done_req 1 1 0, TASK_KIND_MAP)] = (0, f2, s2) /\
    aof_load [IoOk 0; IoOk 0; IoOk 6] (Some f2) (master_zero sample_config) = Ret (0, m2, s3) /\
    j_M (m_job m2) = 2 /\ j_maps_done (m_job m2) = 1 /\
    take 2 (m_maps m2) = [path_task [97]; set_state TASK_COMPLETED (path_task [98; 99])].
Proof.
  destruct (aof_roundtrip [IoOk 3; IoOk 0] [IoOk 0; IoOk 0; IoOk 6] None 5 1700000000000
    sample_master (master_zero sample_config) [(mk_done_req 1 1 0, TASK_KIND_MAP)])
    as (m1 & f1 & s1 & f2 & s2 & m2 & s3 & E1 & E2 & E3 & HM & HR & Hmaps & _ & Hd & _).
  - decide_now.
  - decide_now.
  - reflexivity.
  - discriminate.
  - exact sample_job_ok.
  - vm_compute. discriminate.
  - vm_compute. discriminate.
  - decide_now.
  - exists m1, f1, s1, f2, s2, m2, s3. split_and!; [exact E1|exact E2|exact E3|exact HM|exact Hd|].
    exact Hmaps.
Defined.

(** A record whose kind, task id or attempt id bytes are corrupted inside
    any window of at most eight consecutive bytes is never replayed: the read
    reports the corruption and [aof_load] stops there. *)
Theorem aof_record_detects_burst s c p w w' q rest :
  benign s -> completion_body c = p ++ w ++ q -> Forall u8 w' ->
  length w = length w' -> zlen w <= 8 -> w <> w' ->
  exists s', aof_read_record s
    ((p ++ w' ++ q) ++ be_encode 8 (crc64 0 (completion_body c)) ++ rest) = (RecErr, rest, s').
Proof.
  intros Hb Hc Hw' Hlen Hle Hne.
  assert (zlen (p ++ w' ++ q) = 9) as H9.
  { rewrite <- (zlen_completion_body c), Hc, !zlen_app. unfold zlen. lia. }
  assert (Forall u8 (completion_body c)) as Hbytes by (unfold completion_body; auto with mr).
  assert (crc64 0 (completion_body c) <> crc64 0 (p ++ w' ++ q)) as Hcrc.
  { rewrite Hc in Hbytes |- *. by apply crc64_detects_burst. }
  set (body := p ++ w' ++ q) in *. set (tail := be_encode 8 (crc64 0 (completion_body c))).
  unfold aof_read_record. rewrite app_assoc.
  assert (zlen (body ++ tail) = AOF_RECORD_SIZE) as Hsize
    by (unfold tail; rewrite zlen_app, H9, zlen_be_encode; reflexivity).
  destruct (read_exact_benign s (body ++ tail) rest Hb) as (s' & E & _).
  rewrite Hsize in E. rewrite E. exists s'. rewrite Z.eqb_refl. change (AOF_RECORD_SIZE =? 0) with false. cbn [negb]. cbv zeta.
  change (0 + AOF_RECORD_KIND_LEN + AOF_RECORD_TASK_ID_LEN + AOF_RECORD_ATTEMPT_ID_LEN +
    AOF_RECORD_CRC_LEN - AOF_RECORD_CRC_LEN) with 9.
  change (0 + AOF_RECORD_KIND_LEN + AOF_RECORD_TASK_ID_LEN + AOF_RECORD_ATTEMPT_ID_LEN) with 9.
  rewrite (slice_suffix 9), (slice_prefix 9) by done.
  unfold tail. rewrite be_decode_encode by apply crc64_0_fits.
  by destruct (Z.eqb_spec (crc64 0 (completion_body c)) (crc64 0 body)).
Qed.

Example aof_record_detects_burst_witness :
  let c := mk_completion 1 7 2 in
  exists s', aof_read_record []
    (([1] ++ [0; 0; 9; 9] ++ [0; 0; 0; 2]) ++ be_encode 8 (crc64 0 (completion_body c)) ++ []) =
    (RecErr, [], s').
Proof.
  intros c. apply (aof_record_detects_burst [] c [1] [0; 0; 0; 7]); try reflexivity; try discriminate.
  all: decide_now.
Defined.

Lemma read_record_torn s torn : benign s -> 0 < zlen torn < AOF_RECORD_SIZE ->
  exists s', aof_read_record s torn = (RecErr, [], s').
Proof.
  intros Hb Ht. unfold aof_read_record.
  destruct (read_exact_take s torn AOF_RECORD_SIZE Hb) as (s' & -> & _); [done|].
  unfold zlen in Ht.
  rewrite take_ge, drop_ge by lia.
  destruct (Z.eqb_spec (zlen torn) 0); [unfold zlen in *; lia|].
  destruct (Z.eqb_spec (zlen torn) AOF_RECORD_SIZE); [unfold zlen in *; lia|]. by exists s'.
Qed.

Lemma replay_torn M R cs torn : forall fuel s a,
  benign s -> Forall completion_wf cs -> Forall (in_range M R) cs ->
  (length (records_bytes cs ++ torn) < fuel)%nat -> 0 < zlen torn < AOF_RECORD_SIZE ->
  exists b s', aof_replay fuel s (records_bytes cs ++ torn) M R a = Ret (-1, b, s').
Proof.
  induction cs as [|c cs IH]; intros fuel s a Hb Hc Hr Hfuel Ht;
    (destruct fuel as [|fuel]; [lia|]).
  - cbn [records_bytes map concat aof_replay app].
    destruct (read_record_torn s torn Hb Ht) as (s' & ->). eauto.
  - inversion Hc as [|? ? Hc1 Hcs]; inversion Hr as [|? ? Hr1 Hrs]; subst.
    unfold records_bytes in *. cbn [map concat aof_replay] in *. fold (records_bytes cs) in *.
    rewrite <- app_assoc in *.
    destruct (read_record_ok s c (records_bytes cs ++ torn) Hc1 Hb) as (s1 & -> & Hb1).
    pose proof (replay_all_spec M R [c] a ltac:(by constructor)) as Hone. cbn [replay_all] in Hone.
    destruct (replay_record M R (cp_kind c) (cp_task_id c) a) as [a1|]; [|done].
    apply IH; try done.
    rewrite length_app in Hfuel.
    assert (length (seal (completion_body c)) = 17%nat) by reflexivity. lia.
Qed.

(** A torn last record is refused. When a log ends in a proper prefix of
    a record (a crash between the first and the last byte of an append), the
    load fails instead of dropping the tail, whatever completed before it. *)
Theorem aof_load_torn_tail s created M R paths cs torn m :
  benign s -> M = zlen paths -> M <= MAX_MAP_TASKS -> 0 <= R <= MAX_REDUCE_TASKS ->
  Forall path_ok paths -> Forall completion_wf cs -> Forall (in_range M R) cs ->
  M <= zlen (m_maps m) -> 0 < zlen torn < AOF_RECORD_SIZE ->
  exists m' s', aof_load s (Some (log_bytes created M R paths cs ++ torn)) m = Ret (-1, m', s').
Proof.
  intros Hb HM HMmax HR Hp Hc Hin Hlen Ht.
  destruct (load_prefix_ok s created M R paths (records_bytes cs ++ torn) m) as (s4 & E & Hb4); try done.
  unfold log_bytes. rewrite <- app_assoc, E. unfold load_records.
  destruct (replay_torn M R cs torn (S (length (records_bytes cs ++ torn))) s4
    (mk_replay (loaded_maps paths (m_maps m)) (reset_slots R (m_reduces m)) 0 0))
    as (b & s5 & ->); try done; [lia|]. cbn. eauto.
Qed.

Example aof_load_torn_tail_witness :
  exists m' s', aof_load [IoOk 4]
    (Some (log_bytes 0 2 2 [[97]; [98; 99]] [mk_completion 1 0 1] ++ [1; 0; 0])) sample_master =
    Ret (-1, m', s').
Proof.
  apply (aof_load_torn_tail [IoOk 4] 0 2 2 [[97]; [98; 99]] [mk_completion 1 0 1] [1; 0; 0]);
    try reflexivity; try discriminate; try decide_now; try (by vm_compute).
Defined.

(** An append is all or a prefix. Whatever the kernel answers, the log
    only grows, by a prefix of the record being appended; when the call
    reports success the whole record is there and the flush succeeded. *)
Theorem aof_append_prefix s file m msg kind rc file' s' :
  aof_append_completed s file m msg kind = (rc, file', s') ->
  let rec := seal (completion_body (mk_completion kind (done_task_id msg) (done_attempt_id msg))) in
  (rc = 0 \/ rc = -1) /\
  (exists w rest, file' = file ++ w /\ rec = w ++ rest) /\
  (rc = 0 -> file' = file ++ rec).
Proof.
  unfold aof_append_completed. cbv zeta. intros H.
  destruct (m_aof_fd m <? 0).
  { simplify_eq. split_and!; [by right| |done]. exists [], (seal (completion_body
      (mk_completion kind (done_task_id msg) (done_attempt_id msg)))). by rewrite app_nil_r. }
  destruct (aof_write_record s file msg kind) as [[rc1 file1] s1] eqn:E.
  apply write_record_spec in E as (w & rest & -> & Hrec & Hor & _).
  assert (rc1 = -1 \/ rc1 <> -1 /\ rest = []) as [->|[Hne ->]]
    by (destruct Hor as [->|[-> ->]]; [by left|by right]).
  { cbn in H. simplify_eq. split; [by right|]. split; [by eauto|done]. }
  destruct (Z.eqb_spec rc1 (-1)); [done|]. rewrite app_nil_r in Hrec.
  assert ((exists w' rest', file ++ w = file ++ w' /\ seal (completion_body
    (mk_completion kind (done_task_id msg) (done_attempt_id msg))) = w' ++ rest') /\
    file ++ w = file ++ seal (completion_body
    (mk_completion kind (done_task_id msg) (done_attempt_id msg)))) as [Hpre Hall]
    by (rewrite Hrec; split; [exists w, []; by rewrite app_nil_r|done]).
  destruct (durable_flush s1) as [rc2 s2] eqn:E2.
  apply durable_flush_cases in E2 as [->| ->]; injection H as <- <- <-; auto.
Qed.

Example aof_append_prefix_witness :
  exists file' s', aof_append_completed [IoOk 6; IoErr] [] (set_aof_fd 5 sample_master)
    (mk_done_req 1 1 0) 1 = (-1, file', s') /\ zlen file' = 7.
Proof.
  destruct (aof_append_completed [IoOk 6; IoErr] [] (set_aof_fd 5 sample_master)
    (mk_done_req 1 1 0) 1) as [[rc file'] s'] eqn:E.
  destruct (aof_append_prefix _ _ _ _ _ _ _ _ E) as (Hrc & _).
  exists file', s'. vm_compute in E. injection E as <- <- <-. split; reflexivity.
Defined.

(** Memory safety of a first start. For every job within the limits
    [aof_init] never writes outside the buffer it allocates nor reads outside
    the task array, whatever the kernel answers, and it leaves [aof_fd] open
    exactly when it succeeds. *)
Theorem aof_init_safe s file fd created m :
  job_ok m -> 0 <= fd ->
  exists rc m' file' s', aof_init s file fd created m = Ret (rc, m', file', s') /\
    (rc = 0 /\ m' = set_aof_fd fd m \/ rc = -1 /\ m' = set_aof_fd (-1) m).
Proof.
  intros (HM & HMl & HR & Hp) Hfd. unfold aof_init, aof_open.
  destruct (io_simple s) as [[] s1]; [|by eauto 10].
  destruct (Z.eqb_spec fd (-1)); [lia|]. cbv zeta.
  change (set_aof_fd (-1) (set_aof_fd fd m)) with (set_aof_fd (-1) m).
  destruct (io_simple s1) as [[] s2]; cbn [negb]; [|by eauto 10].
  destruct (negb _); [by eauto 10|].
  destruct (aof_write_file_header _ _ _) as [[rc1 bytes] s3].
  destruct (rc1 =? -1); [by eauto 10|]. cbn [m_job m_maps set_aof_fd].
  rewrite job_paths_size_ok by (done || (unfold zlen in HMl; lia)). cbn [mbind outcome_bind].
  destruct (io_simple s3) as [[] s4]; cbn [negb]; [|by eauto 10]. rewrite drop_0.
  unfold aof_write_job. change (4 + 4 + 8) with 16.
  fold (task_paths (j_M (m_job m)) (m_maps m)).
  pose proof (zlen_nonneg (concat (map path_bytes (task_paths (j_M (m_job m)) (m_maps m))))).
  destruct (Z.ltb_spec (16 + zlen (concat (map path_bytes (task_paths (j_M (m_job m)) (m_maps m))))) 8); [lia|].
  rewrite write_paths_ok; [|unfold zlen in HMl; lia|done|]; rewrite drop_0;
    fold (task_paths (j_M (m_job m)) (m_maps m)).
  2:{ rewrite zlen_app, !zlen_be_encode. lia. }
  cbn [mbind outcome_bind].
  rewrite zlen_app, zlen_app, !zlen_be_encode.
  destruct (Z.ltb_spec (16 + zlen (concat (map path_bytes (task_paths (j_M (m_job m)) (m_maps m)))))
    (Z.of_nat 4 + Z.of_nat 4 + zlen (concat (map path_bytes (task_paths (j_M (m_job m)) (m_maps m)))) + 8)); [lia|].
  cbv zeta. destruct (write_all s4 _) as [[wn acc] s5]. cbn [mbind outcome_bind].
  destruct (_ =? -1); [by eauto 10|].
  destruct (durable_flush s5) as [rc2 s6]. destruct (rc2 =? -1); by eauto 10.
Qed.

Example aof_init_safe_witness :
  exists rc m' file' s', aof_init [IoOk 0; IoOk 0; IoErr] None 4 0 sample_master =
    Ret (rc, m', file', s') /\
    (rc = 0 /\ m' = set_aof_fd 4 sample_master \/ rc = -1 /\ m' = set_aof_fd (-1) sample_master).
Proof. apply aof_init_safe; [exact sample_job_ok|discriminate]. Defined.

(** A record that is accepted has been read in full. *)
Lemma read_record_consumes s src kind task att src' s' :
  aof_read_record s src = (RecOk kind task att, src', s') -> zlen src = zlen src' + AOF_RECORD_SIZE.
Proof.
  unfold aof_read_record. destruct (read_exact s src AOF_RECORD_SIZE) as [[[n rec] src1] s1] eqn:E.
  apply read_exact_spec in E as (-> & _ & Hor & _); [|done].
  destruct (_ =? 0); [done|]. destruct (Z.eqb_spec n AOF_RECORD_SIZE) as [->|]; [cbn [negb]|done].
  cbv zeta. destruct (negb _); [done|]. intros [= _ _ _ <- _].
  destruct Hor as [|[-> _]]; [done|]. rewrite zlen_app. lia.
Qed.

Lemma replay_record_count M R kind task a a' : replay_record M R kind task a = Some a' ->
  rp_maps_count a + rp_reduce_count a <= rp_maps_count a' + rp_reduce_count a' <=
    rp_maps_count a + rp_reduce_count a + 1.
Proof.
  unfold replay_record. repeat (destruct (_ =? _); [destruct (_ <=? _); [done|]|]);
    intros [= <-]; cbn; lia.
Qed.

Lemma replay_total fuel : forall s src M R a, (length src < fuel)%nat ->
  exists rc a' s', aof_replay fuel s src M R a = Ret (rc, a', s') /\ (rc = 0 \/ rc = -1) /\
    let n := rp_maps_count a + rp_reduce_count a in
    let n' := rp_maps_count a' + rp_reduce_count a' in
    n <= n' /\ AOF_RECORD_SIZE * (n' - n) <= zlen src.
Proof.
  induction fuel as [|fuel IH]; intros s src M R a Hf; [lia|]. cbn [aof_replay].
  pose proof (zlen_nonneg src).
  destruct (aof_read_record s src) as [[[kind task att| |] src1] s1] eqn:E;
    [|by eexists _, a, s1; split; [done|]; split; [by left|cbn; lia]
     |by eexists _, a, s1; split; [done|]; split; [by right|cbn; lia]].
  apply read_record_consumes in E. change AOF_RECORD_SIZE with 17 in *.
  destruct (replay_record M R kind task a) as [a1|] eqn:Er;
    [|eexists _, a, s1; split; [done|]; split; [by right|cbn; lia]].
  apply replay_record_count in Er.
  destruct (IH s1 src1 M R a1) as (rc & a' & s' & E1 & Hrc & Hn); [unfold zlen in *; lia|].
  exists rc, a', s'. split; [done|]. split; [done|]. cbn zeta in *. lia.
Qed.

(** C37: replay terminates, and its work is bounded by the file. On any bytes
    and under any kernel answers [aof_replay] returns 0 or -1, with the fuel
    [aof_load] gives it; the counters never decrease, and each unit they grew
    by stands for [AOF_RECORD_SIZE] bytes of the log. *)
Theorem aof_replay_terminates s src M R a :
  exists rc a' s', aof_replay (S (length src)) s src M R a = Ret (rc, a', s') /\ (rc = 0 \/ rc = -1) /\
    let n := rp_maps_count a + rp_reduce_count a in
    let n' := rp_maps_count a' + rp_reduce_count a' in
    n <= n' /\ AOF_RECORD_SIZE * (n' - n) <= zlen src.
Proof. apply replay_total. lia. Qed.

(** The tests of [aof_read_file_header] on the 32 bytes of a header. *)
Definition header_valid (hdr : list Z) : bool :=
  bool_decide (slice 0 8 hdr = AOF_FILE_MAGIC) &&
  (be_decode (slice 8 4 hdr) =? AOF_FILE_VERSION) &&
  (be_decode (slice 24 8 hdr) =? crc64 0 (slice 0 24 hdr)).

Lemma read_file_header_benign s bytes : benign s -> AOF_FILE_HEADER_SIZE <= zlen bytes ->
  exists s', aof_read_file_header s bytes =
    (if header_valid (take 32 bytes) then 0 else -1, drop 32 bytes, s') /\ benign s'.
Proof.
  intros Hb Hlen. unfold aof_read_file_header.
  destruct (read_exact_take s bytes AOF_FILE_HEADER_SIZE Hb) as (s' & -> & Hb'); [done|].
  rewrite zlen_take by (pose proof (zlen_nonneg bytes); unfold AOF_FILE_HEADER_SIZE in *; lia).
  rewrite Z.eqb_refl. cbn [negb]. change (Z.to_nat AOF_FILE_HEADER_SIZE) with 32%nat.
  cbv zeta. unfold header_valid.
  change (AOF_FILE_HEADER_SIZE - AOF_FILE_CRC_LEN) with 24.
  change AOF_FILE_MAGIC_LEN with 8. change AOF_FILE_VERSION_LEN with 4. change AOF_FILE_CRC_LEN with 8.
  exists s'. split; [|done].
  destruct (bool_decide _); cbn [negb andb]; [|done].
  destruct (_ =? AOF_FILE_VERSION); cbn [negb andb]; [|done]. by destruct (_ =? _).
Qed.

(** A corrupt file header is undefined behaviour. When the first 32
    bytes are there but fail the magic, version or checksum test, [aof_load]
    reaches [done:] with the pointer [aof_job.buf] never initialised, so the
    clean return of -1 is not guaranteed; a header that passes goes on to the
    job header. *)
Theorem aof_load_bad_header s bytes m :
  benign s -> AOF_FILE_HEADER_SIZE <= zlen bytes ->
  header_valid (take 32 bytes) = false -> aof_load s (Some bytes) m = Fault.
Proof.
  intros Hb Hlen Hbad. unfold aof_load.
  destruct (io_simple_benign s Hb) as (s1 & -> & Hb1). cbn [negb orb].
  destruct (Z.eqb_spec (zlen bytes) 0); [unfold AOF_FILE_HEADER_SIZE in *; lia|].
  destruct (Z.ltb_spec (zlen bytes) AOF_FILE_HEADER_SIZE); [lia|].
  destruct (io_simple_benign s1 Hb1) as (s2 & -> & Hb2). cbn [negb].
  destruct (read_file_header_benign s2 bytes Hb2 Hlen) as (s3 & -> & Hb3). by rewrite Hbad.
Qed.

Example aof_load_bad_header_witness :
  aof_load [] (Some (replicate 40 0)) sample_master = Fault.
Proof.
  apply aof_load_bad_header; [decide_now|vm_compute; discriminate|vm_compute; reflexivity].
Defined.

(** An over-long path overflows the heap. [aof_read_job] sizes its
    buffer for paths of at most [MAPREDUCE_PATH_MAX] bytes but reads the
    length the file announces before any check: one map whose path is longer
    than 1032 bytes is stored past the end of the allocation, before the
    checksum that would have refused the file is looked at. *)
Theorem aof_read_job_overflow s R path rest :
  benign s -> u32 R -> MAPREDUCE_PATH_MAX + 8 < zlen path < 2 ^ 16 ->
  aof_read_job s (be_encode 4 1 ++ be_encode 4 R ++ path_bytes path ++ rest) = Fault.
Proof.
  intros Hb HR Hlen. unfold aof_read_job. rewrite (app_assoc (be_encode 4 1)).
  set (hd := be_encode 4 1 ++ be_encode 4 R).
  destruct (read_exact_benign s hd (path_bytes path ++ rest) Hb) as (s1 & E1 & Hb1).
  change (zlen hd) with 8 in E1. rewrite E1. cbv zeta. change (8 =? 8) with true. cbn [negb].
  replace (be_decode (slice 0 4 hd)) with 1
    by (unfold hd; rewrite slice_prefix by done; by rewrite be_decode_encode by by split).
  change (4 + 4 + wrap 32 (1 * (2 + MAPREDUCE_PATH_MAX)) + 8) with 1042.
  destruct (io_simple_benign s1 Hb1) as (s2 & -> & Hb2). cbn [negb].
  change (Z.to_nat 1) with 1%nat. cbn [aof_read_paths].
  unfold path_bytes. rewrite <- app_assoc.
  destruct (read_into_ok s2 (be_encode 2 (zlen path)) (path ++ rest) hd 1042) as (s3 & E3 & Hb3);
    [done|vm_compute; discriminate|].
  change (zlen (be_encode 2 (zlen path))) with 2 in E3. rewrite E3. cbn [mbind outcome_bind].
  change (2 =? 2) with true. cbn [negb].
  rewrite slice_suffix by (rewrite ?zlen_app, ?zlen_be_encode; lia).
  rewrite (be_decode_encode 2) by (unfold fits; pose proof (zlen_nonneg path); cbn; lia).
  unfold read_into. destruct (read_exact_benign s3 path rest Hb3) as (s4 & -> & _).
  destruct (Z.ltb_spec 1042 (zlen (hd ++ be_encode 2 (zlen path)) + zlen path)) as [_|Hbad]; [done|].
  rewrite zlen_app, zlen_be_encode in Hbad. change (zlen hd) with 8 in Hbad. limits. lia.
Qed.

Example aof_read_job_overflow_witness :
  aof_read_job [] (be_encode 4 1 ++ be_encode 4 2 ++ path_bytes (replicate 1033 65) ++ []) = Fault.
Proof.
  apply aof_read_job_overflow; [decide_now|decide_now|].
  split; vm_compute; reflexivity.
Defined.
