(* ===== verification/EventLoop.v ===== *)
(** * Event loop (src/event_loop.h, src/event_loop.c)

    The handler tables and the dispatch loop over the events the kernel
    reports. Handlers are named by constructors; what they do is the argument
    [call] of the loop, because they belong to the server. *)

From S2P Require Import Prelude Limits Util.

(** The functions the program registers. *)
Inductive el_handler_fn : Type := on_read_h | on_write_h | on_accept_h | on_shutdown_h.

(** [struct event_loop]; an absent entry of a table is a NULL handler, and
    [el_before_sleep_proc] says whether the hook is set. *)
Record event_loop_t := mk_el {
  el_kq : Z;
  el_read_handlers : gmap Z el_handler_fn;
  el_write_handlers : gmap Z el_handler_fn;
  el_before_sleep_proc : bool;
  el_poll_timeout_ms : Z;
  el_stop : bool;
}.

Definition set_read_handlers (h : gmap Z el_handler_fn) (el : event_loop_t) : event_loop_t :=
  mk_el (el_kq el) h (el_write_handlers el) (el_before_sleep_proc el) (el_poll_timeout_ms el) (el_stop el).
Definition set_write_handlers (h : gmap Z el_handler_fn) (el : event_loop_t) : event_loop_t :=
  mk_el (el_kq el) (el_read_handlers el) h (el_before_sleep_proc el) (el_poll_timeout_ms el) (el_stop el).
Definition set_stop (b : bool) (el : event_loop_t) : event_loop_t :=
  mk_el (el_kq el) (el_read_handlers el) (el_write_handlers el) (el_before_sleep_proc el)
    (el_poll_timeout_ms el) b.
Definition set_before_sleep (b : bool) (el : event_loop_t) : event_loop_t :=
  mk_el (el_kq el) (el_read_handlers el) (el_write_handlers el) b (el_poll_timeout_ms el) (el_stop el).

(** [fd < 0 || fd >= MAX_FDS] *)
Definition fd_out_of_range (fd : Z) : bool := (fd <? 0) || (MAX_FDS <=? fd).

(** [el_init(el, poll_timeout_ms)] when [kqueue] would answer [kq]. *)
Definition el_init (s : list io) (kq poll_timeout_ms : Z) (el : event_loop_t)
    : Z * event_loop_t * list io :=
  let el := set_write_handlers ∅ (set_read_handlers ∅ el) in
  let '(ok, s) := io_simple s in
  if ok then
    (0, mk_el kq (el_read_handlers el) (el_write_handlers el) (el_before_sleep_proc el)
          poll_timeout_ms (el_stop el), s)
  else
    (-1, mk_el (-1) (el_read_handlers el) (el_write_handlers el) (el_before_sleep_proc el)
          (el_poll_timeout_ms el) (el_stop el), s).

Definition el_add (s : list io) (el : event_loop_t) (fd : Z) (handler : el_handler_fn)
    : Z * event_loop_t * list io :=
  if fd_out_of_range fd then (-1, el, s)
  else
    let '(ok, s) := io_simple s in
    if ok then (0, set_read_handlers (<[fd := handler]> (el_read_handlers el)) el, s)
    else (-1, el, s).

Definition el_add_write (s : list io) (el : event_loop_t) (fd : Z) (handler : el_handler_fn)
    : Z * event_loop_t * list io :=
  if fd_out_of_range fd then (-1, el, s)
  else
    let '(ok, s) := io_simple s in
    if ok then (0, set_write_handlers (<[fd := handler]> (el_write_handlers el)) el, s)
    else (-1, el, s).

(** The results of the [EV_DELETE] calls are ignored by the code. *)
Definition el_remove (el : event_loop_t) (fd : Z) : event_loop_t :=
  if fd_out_of_range fd then el
  else set_write_handlers (delete fd (el_write_handlers el))
         (set_read_handlers (delete fd (el_read_handlers el)) el).

Definition el_remove_write (el : event_loop_t) (fd : Z) : event_loop_t :=
  if fd_out_of_range fd then el
  else set_write_handlers (delete fd (el_write_handlers el)) el.

(** ** The loop *)

Inductive filter_t : Type := EVFILT_READ | EVFILT_WRITE.

(** One answer of the polling [kevent] call. *)
Inductive kevent_answer (E : Type) : Type :=
  | KEvents (events : list (Z * filter_t * E))
  | KEintr
  | KErr.
Arguments KEvents {E} events.
Arguments KEintr {E}.
Arguments KErr {E}.

Section Loop.
(** The state the handlers act on, where the loop finds its tables; what the
    kernel will answer inside the handler of an event comes with it. *)
Context {S E : Type} (get_el : S -> event_loop_t) (call : el_handler_fn -> Z -> E -> S -> outcome S).

(** The handler an event reaches: the read table for [EVFILT_READ], the
    write table for [EVFILT_WRITE], nothing when the entry is NULL. *)
Definition handler_of (el : event_loop_t) (fd : Z) (f : filter_t) : option el_handler_fn :=
  match f with
  | EVFILT_READ => el_read_handlers el !! fd
  | EVFILT_WRITE => el_write_handlers el !! fd
  end.

(** The [for] loop over a batch; the tables are looked up as it goes. *)
Fixpoint el_dispatch (events : list (Z * filter_t * E)) (st : S) : outcome S :=
  match events with
  | [] => Ret st
  | (fd, f, e) :: events =>
      st ← match handler_of (get_el st) fd f with
           | Some h => call h fd e st
           | None => Ret st
           end;
      el_dispatch events st
  end.

(** [el_run(el)] against the kernel's answers: the return value, or [None]
    when the loop is still polling after the last answer. The hook
    [before_sleep_proc] is tested but its call is commented out. *)
Fixpoint el_run (answers : list (kevent_answer E)) (st : S) : outcome (option Z * S) :=
  if el_stop (get_el st) then Ret (Some 0, st)
  else
    match answers with
    | [] => Ret (None, st)
    | KEintr :: answers => el_run answers st
    | KErr :: _ => Ret (Some (-1), st)
    | KEvents events :: answers =>
        st ← el_dispatch events st;
        el_run answers st
    end.

(** What is assumed of the reported events. *)
Definition events_good (good : Z -> E -> Prop) (a : kevent_answer E) : Prop :=
  match a with
  | KEvents events => Forall (fun '(fd, _, e) => good fd e) events
  | _ => True
  end.

(** A property every handler call keeps is kept by the loop. *)
Lemma el_dispatch_inv (good : Z -> E -> Prop) (P : S -> Prop) :
  (forall h fd e st st', good fd e -> P st -> call h fd e st = Ret st' -> P st') ->
  forall events st st', Forall (fun '(fd, _, e) => good fd e) events ->
    P st -> el_dispatch events st = Ret st' -> P st'.
Proof.
  intros Hcall events. induction events as [|[[fd f] e] events IH]; intros st st' Hg HP H; cbn in H.
  { by simplify_eq. }
  apply Forall_cons in Hg as [Hg1 Hg].
  destruct (handler_of (get_el st) fd f) as [h|]; cbn in H; [|by eauto].
  apply outcome_bind_Ret in H as (st1 & H1 & H2). eauto.
Qed.

Lemma el_run_inv (good : Z -> E -> Prop) (P : S -> Prop) :
  (forall h fd e st st', good fd e -> P st -> call h fd e st = Ret st' -> P st') ->
  forall answers st rc st', Forall (events_good good) answers ->
    P st -> el_run answers st = Ret (rc, st') -> P st'.
Proof.
  intros Hcall answers. induction answers as [|a answers IH]; intros st rc st' Hg HP H; cbn in H;
    destruct (el_stop (get_el st)); try by simplify_eq.
  apply Forall_cons in Hg as [Hg1 Hg].
  destruct a as [events| |]; [|by eauto|by simplify_eq].
  apply outcome_bind_Ret in H as (st1 & H1 & H2).
  eapply IH; [done| |exact H2]. by eapply el_dispatch_inv.
Qed.

Lemma events_good_any answers : Forall (events_good (fun _ _ => True)) answers.
Proof. apply Forall_true. intros [events| |]; [|done|done]. apply Forall_true. by intros [[??]?]. Qed.
End Loop.

(** Two loops whose states are related by [proj]: when the handlers agree from
    states where [P] holds, and keep [P], so do the loops. *)
Section Simulation.
Context {S T E : Type} (get_el : S -> event_loop_t) (proj : T -> S).
Context (call : el_handler_fn -> Z -> E -> S -> outcome S) (call' : el_handler_fn -> Z -> E -> T -> outcome T).
Context (good : Z -> E -> Prop) (P : T -> Prop).
Hypothesis Hcall : forall h fd e x, good fd e -> P x ->
  call h fd e (proj x) = (x' ← call' h fd e x; Ret (proj x')) /\ forall x', call' h fd e x = Ret x' -> P x'.
Abbreviation get_el' := (fun x => get_el (proj x)).

Lemma el_dispatch_sim events : forall x, Forall (fun '(fd, _, e) => good fd e) events -> P x ->
  el_dispatch get_el call events (proj x) = (x' ← el_dispatch get_el' call' events x; Ret (proj x')) /\
  forall x', el_dispatch get_el' call' events x = Ret x' -> P x'.
Proof.
  induction events as [|[[fd f] e] events IH]; intros x Hg HP; cbn [el_dispatch].
  { split; [done|]. by intros x' [= <-]. }
  apply Forall_cons in Hg as [Hg1 Hg]. destruct (handler_of (get_el (proj x)) fd f) as [h|].
  2:{ cbn [mbind outcome_bind]. by apply IH. }
  destruct (Hcall h fd e x Hg1 HP) as [-> Hkeep].
  destruct (call' h fd e x) as [x1| |]; [|by split..]. cbn [mbind outcome_bind]. apply IH; auto.
Qed.

Lemma el_run_sim answers : forall x, Forall (events_good good) answers -> P x ->
  el_run get_el call answers (proj x) = ('(rc, x') ← el_run get_el' call' answers x; Ret (rc, proj x')) /\
  forall rc x', el_run get_el' call' answers x = Ret (rc, x') -> P x'.
Proof.
  induction answers as [|a answers IH]; intros x Hg HP; cbn [el_run]; destruct (el_stop (get_el (proj x)));
    try by (split; [done|]; intros rc x' [= _ <-]).
  apply Forall_cons in Hg as [Hg1 Hg]. destruct a as [events| |]; [|by apply IH|split; [done|by intros rc x' [= _ <-]]].
  destruct (el_dispatch_sim events x Hg1 HP) as [-> Hkeep].
  destruct (el_dispatch get_el' call' events x) as [x1| |]; [|by split..]. cbn [mbind outcome_bind]. apply IH; auto.
Qed.
End Simulation.

(** ** The tables *)

Lemma el_remove_handlers el fd : 0 <= fd < MAX_FDS ->
  el_read_handlers (el_remove el fd) = delete fd (el_read_handlers el) /\
  el_write_handlers (el_remove el fd) = delete fd (el_write_handlers el).
Proof.
  intros Hfd. unfold el_remove, fd_out_of_range.
  destruct (Z.ltb_spec fd 0), (Z.leb_spec MAX_FDS fd); lia || done.
Qed.
