(* ===== verification/Server.v ===== *)
(** * Connections and framing (src/server.h, src/server.c)

    Per-descriptor buffers, length-prefixed frames, and the handlers the event
    loop calls. The application behind the callbacks is a type [A] with the
    classes [ServerCallbacks] and [ServerHandlers]; src/master.c is its one
    instance. *)

From S2P Require Import Prelude Limits Util EventLoop.

(** ** State (src/server.h) *)

(** [buf] and [wbuf] list the bytes in use, so [len] and [wlen] are their
    lengths. *)
Record client_t := mk_client {
  c_active : bool;
  c_last_active_ms : Z;
  c_buf : list Z;
  c_wbuf : list Z;
  c_woff : Z;
}.

Definition client_zero : client_t := mk_client false 0 [] [] 0.

Definition c_set_buf (b : list Z) (c : client_t) : client_t :=
  mk_client (c_active c) (c_last_active_ms c) b (c_wbuf c) (c_woff c).
Definition c_set_wbuf (b : list Z) (off : Z) (c : client_t) : client_t :=
  mk_client (c_active c) (c_last_active_ms c) (c_buf c) b off.
Definition c_set_last_active (t : Z) (c : client_t) : client_t :=
  mk_client (c_active c) t (c_buf c) (c_wbuf c) (c_woff c).

(** [server_t] without its callback pointers, which the classes below hold.
    Absent clients are zeroed slots. *)
Record server_t := mk_server {
  s_listen_fd : Z;
  s_el : event_loop_t;
  s_clients : gmap Z client_t;
  s_clients_count : Z;
  s_pipe : Z * Z;
  s_cronloops : Z;
  s_now_ms : Z;
  s_last_timeout_check_ms : Z;
  s_client_timeout_s : Z;
}.

Definition s_set_el (el : event_loop_t) (s : server_t) : server_t :=
  mk_server (s_listen_fd s) el (s_clients s) (s_clients_count s) (s_pipe s) (s_cronloops s)
    (s_now_ms s) (s_last_timeout_check_ms s) (s_client_timeout_s s).
Definition s_set_clients (cs : gmap Z client_t) (n : Z) (s : server_t) : server_t :=
  mk_server (s_listen_fd s) (s_el s) cs n (s_pipe s) (s_cronloops s)
    (s_now_ms s) (s_last_timeout_check_ms s) (s_client_timeout_s s).
Definition s_set_clock (cron now last : Z) (s : server_t) : server_t :=
  mk_server (s_listen_fd s) (s_el s) (s_clients s) (s_clients_count s) (s_pipe s) cron
    now last (s_client_timeout_s s).

(** The running process: the server, the application, the kernel's script, and
    the bytes the kernel has accepted on each connection. *)
Record sys (A : Type) := mk_sys {
  sv : server_t;
  app : A;
  script : list io;
  net : gmap Z (list Z);
}.
Arguments mk_sys {A} sv app script net.
Arguments sv {A} s.
Arguments app {A} s.
Arguments script {A} s.
Arguments net {A} s.

Definition set_sv {A} (s : server_t) (st : sys A) : sys A := mk_sys s (app st) (script st) (net st).
Definition set_app {A} (a : A) (st : sys A) : sys A := mk_sys (sv st) a (script st) (net st).
Definition set_script {A} (l : list io) (st : sys A) : sys A := mk_sys (sv st) (app st) l (net st).
Definition set_net {A} (n : gmap Z (list Z)) (st : sys A) : sys A := mk_sys (sv st) (app st) (script st) n.

Definition get_client {A} (st : sys A) (fd : Z) : client_t :=
  default client_zero (s_clients (sv st) !! fd).
Definition put_client {A} (fd : Z) (c : client_t) (st : sys A) : sys A :=
  set_sv (s_set_clients (<[fd := c]> (s_clients (sv st))) (s_clients_count (sv st)) (sv st)) st.
(** Bytes accepted by the kernel for [fd]. *)
Definition sent {A} (st : sys A) (fd : Z) : list Z := default [] (net st !! fd).

(** The callbacks that only touch the application. *)
Class ServerCallbacks (A : Type) := {
  on_connect : Z -> Z -> A -> A;      (* fd, server.now_ms *)
  on_disconnect : Z -> A -> A;        (* fd *)
}.

Section Queue.
Context {A : Type} `{ServerCallbacks A}.

(** ** Per-client lifecycle *)

Definition remove_client (fd : Z) (st : sys A) : sys A :=
  let s := sv st in
  let s := s_set_el (el_remove (s_el s) fd) s in
  let s := s_set_clients (<[fd := client_zero]> (s_clients s)) (wrap 64 (s_clients_count s - 1)) s in
  set_app (on_disconnect fd (app st)) (set_sv s st).

(** ** Write queue *)

(** One [write(fd, ...)] of [len] bytes: the number transferred, or the error
    ([true] for [EAGAIN], [EWOULDBLOCK] and [EINTR]). *)
Definition sock_write (s : list io) (len : Z) : (Z + bool) * list io :=
  match s with
  | [] => (inl len, [])
  | IoOk k :: s' => (inl (Z.min (Z.of_nat (S k)) len), s')
  | IoEintr :: s' | IoEagain :: s' => (inr true, s')
  | IoErr :: s' => (inr false, s')
  end.

(** The bytes [off, off + n) of the write buffer go to the kernel. *)
Definition record_sent (fd : Z) (bytes : list Z) (st : sys A) : sys A :=
  set_net (<[fd := sent st fd ++ bytes]> (net st)) st.

Definition add_write_handler (fd : Z) (st : sys A) : sys A :=
  let '(_, el, s) := el_add_write (script st) (s_el (sv st)) fd on_write_h in
  set_script s (set_sv (s_set_el el (sv st)) st).

Definition wlen (c : client_t) : Z := zlen (c_wbuf c).

(** Reclaim the space of the bytes already sent. *)
Definition compact_wbuf (c : client_t) : client_t :=
  c_set_wbuf (drop (Z.to_nat (c_woff c)) (c_wbuf c)) 0 c.

Definition queue_write (fd : Z) (data : list Z) (st : sys A) : bool * sys A :=
  let c := get_client st fd in
  let c := if (WBUF_SIZE <? wlen c + zlen data) && (0 <? c_woff c) then compact_wbuf c else c in
  let st := put_client fd c st in
  if WBUF_SIZE <? wlen c + zlen data then (false, st)
  else
    let buf_was_empty := wlen c =? 0 in
    let c := c_set_wbuf (c_wbuf c ++ data) (c_woff c) c in
    let st := put_client fd c st in
    if buf_was_empty then
      let '(r, s) := sock_write (script st) (wlen c - c_woff c) in
      let st := set_script s st in
      match r with
      | inr false => (false, remove_client fd st)
      | inr true => (true, add_write_handler fd st)
      | inl n =>
          let st := record_sent fd (take (Z.to_nat n) (drop (Z.to_nat (c_woff c)) (c_wbuf c))) st in
          let woff := c_woff c + n in
          if woff =? wlen c then (true, put_client fd (c_set_wbuf [] 0 c) st)
          else (true, add_write_handler fd (put_client fd (c_set_wbuf (c_wbuf c) woff c) st))
      end
    else (true, add_write_handler fd st).

(** ** Framing *)

(** [send_framed]: the frame is built in an array of
    [FRAME_HDR_SIZE + MSG_MAX] bytes; a longer payload overflows it. *)
Definition send_framed (fd : Z) (payload : list Z) (st : sys A) : outcome (bool * sys A) :=
  if MSG_MAX <? zlen payload then Fault
  else Ret (queue_write fd (be_encode 4 (zlen payload) ++ payload) st).

Definition server_send (fd : Z) (payload : list Z) (st : sys A) : outcome (Z * sys A) :=
  '(ok, st) ← send_framed fd payload st;
  Ret (if (ok : bool) then 0 else -1, st).
End Queue.

(** The callbacks that use the server. *)
Class ServerHandlers (A : Type) `{ServerCallbacks A} := {
  on_message : Z -> list Z -> sys A -> outcome (Z * sys A);   (* fd, payload *)
  on_periodic : Z -> server_t -> A -> outcome A;              (* wall clock, server *)
}.

(** What the kernel answers inside an event's handler: the bytes (empty at end
    of stream) or the error of [read] ([true]: [EAGAIN], [EWOULDBLOCK] or
    [EINTR]), and the descriptor of [accept]. *)
Record kernel_data := mk_kernel { k_read : list Z + bool; k_accept : option Z }.

Section Server.
Context {A : Type} `{ServerHandlers A}.

(** The loop of [process_buffer]: each iteration removes a whole frame, so the
    buffer's length is enough fuel. *)
Fixpoint process_frames (fuel : nat) (fd : Z) (st : sys A) : outcome (sys A) :=
  let c := get_client st fd in
  if zlen (c_buf c) <? FRAME_HDR_SIZE then Ret st
  else
    match fuel with
    | O => Fault
    | S fuel' =>
      let payload_len := be_decode (take 4 (c_buf c)) in
      if MSG_MAX <? payload_len then Ret (remove_client fd st)
      else if zlen (c_buf c) <? FRAME_HDR_SIZE + payload_len then Ret st
      else
        let payload := take (Z.to_nat payload_len) (drop 4 (c_buf c)) in
        '(rc, st) ← on_message fd payload st;
        if negb (rc =? 0) then Ret (remove_client fd st)
        else
          let frame_size := FRAME_HDR_SIZE + payload_len in
          let c := get_client st fd in
          if zlen (c_buf c) <? frame_size then Fault
          else
            process_frames fuel' fd
              (put_client fd (c_set_buf (drop (Z.to_nat frame_size) (c_buf c)) c) st)
    end.

Definition process_buffer (fd : Z) (st : sys A) : outcome (sys A) :=
  process_frames (length (c_buf (get_client st fd))) fd st.

(** ** Event-loop callbacks *)

Definition on_write (fd : Z) (st : sys A) : outcome (sys A) :=
  let c := get_client st fd in
  let '(r, s) := sock_write (script st) (wlen c - c_woff c) in
  let st := set_script s st in
  match r with
  | inr true => Ret st
  | inr false => Ret (remove_client fd st)
  | inl n =>
      let st := record_sent fd (take (Z.to_nat n) (drop (Z.to_nat (c_woff c)) (c_wbuf c))) st in
      let woff := c_woff c + n in
      if woff =? wlen c then
        let st := put_client fd (c_set_wbuf [] 0 c) st in
        let st := set_sv (s_set_el (el_remove_write (s_el (sv st)) fd) (sv st)) st in
        process_buffer fd st
      else Ret (put_client fd (c_set_wbuf (c_wbuf c) woff c) st)
  end.

(** The capacity of [buf]. *)
Definition RBUF_SIZE : Z := MSG_MAX + FRAME_HDR_SIZE.

(** [read(fd, c->buf + c->len, sizeof(c->buf) - c->len)] returns at most that
    many bytes, and 0 when asked for none. *)
Definition on_read (fd : Z) (rd : list Z + bool) (st : sys A) : outcome (sys A) :=
  let c := get_client st fd in
  if negb (c_active c) then Ret st
  else
    match rd with
    | inr true => Ret st
    | inr false => Ret (remove_client fd st)
    | inl bytes =>
        let got := take (Z.to_nat (RBUF_SIZE - zlen (c_buf c))) bytes in
        if zlen got =? 0 then Ret (remove_client fd st)
        else
          let c := c_set_last_active (s_now_ms (sv st)) c in
          let c := c_set_buf (c_buf c ++ got) c in
          process_buffer fd (put_client fd c st)
    end.

(** [set_non_blocking(fd)] of src/util.c: two [fcntl] calls. *)
Definition set_non_blocking (s : list io) : Z * list io :=
  let '(ok, s) := io_simple s in
  if ok then let '(ok, s) := io_simple s in (if ok then 0 else -1, s) else (-1, s).

Definition on_accept (acc : option Z) (st : sys A) : sys A :=
  match acc with
  | None => st
  | Some fd =>
      if MAX_FDS <=? fd then st
      else
        let '(rc, s) := set_non_blocking (script st) in
        let st := set_script s st in
        if rc =? -1 then st
        else
          let now := s_now_ms (sv st) in
          let srv := sv st in
          let srv := s_set_clients (<[fd := mk_client true now [] [] 0]> (s_clients srv))
                       (wrap 64 (s_clients_count srv + 1)) srv in
          let '(rc, el, s) := el_add (script st) (s_el srv) fd on_read_h in
          let st := set_net (<[fd := []]> (net st)) (set_script s st) in
          if rc =? -1 then
            set_sv (s_set_clients (<[fd := client_zero]> (s_clients srv))
                      (wrap 64 (s_clients_count srv - 1)) (s_set_el el srv)) st
          else
            set_app (on_connect fd now (app st)) (set_sv (s_set_el el srv) st)
  end.

(** The pipe is drained and the loop is told to stop. *)
Definition on_shutdown (st : sys A) : sys A :=
  set_sv (s_set_el (set_stop true (s_el (sv st))) (sv st)) st.

(** ** Housekeeping *)

(** The loop over the descriptors from [i], with [n] slots to go. *)
Fixpoint check_client_timeouts (i : Z) (n : nat) (found : Z) (st : sys A) : sys A :=
  match n with
  | O => st
  | S n' =>
      if negb (found <? s_clients_count (sv st)) then st
      else
        let c := get_client st i in
        if negb (c_active c) then check_client_timeouts (i + 1) n' found st
        else
          let idle_s := Z.quot (s_now_ms (sv st) - c_last_active_ms c) 1000 in
          let st := if s_client_timeout_s (sv st) <=? idle_s then remove_client i st else st in
          check_client_timeouts (i + 1) n' (found + 1) st
  end.

Definition client_timeouts_cron (st : sys A) : sys A :=
  let s := sv st in
  if s_now_ms s - s_last_timeout_check_ms s <? CLIENT_TIMEOUT_CHECK_INTERVAL_MS then st
  else
    check_client_timeouts 0 (Z.to_nat MAX_FDS) 0
      (set_sv (s_set_clock (s_cronloops s) (s_now_ms s) (s_now_ms s) s) st).

(** [server_before_sleep] at monotonic time [now] and wall-clock time [real]. *)
Definition server_before_sleep (now real : Z) (st : sys A) : outcome (sys A) :=
  let s := sv st in
  let st := set_sv (s_set_clock (s_cronloops s + 1) now (s_last_timeout_check_ms s) s) st in
  let st := client_timeouts_cron st in
  a ← on_periodic real (sv st) (app st);
  Ret (set_app a st).

(** ** Public API *)

(** What a registered handler does with the kernel's answers of its event. *)
Definition call_handler (h : el_handler_fn) (fd : Z) (k : kernel_data) (st : sys A) : outcome (sys A) :=
  match h with
  | on_read_h => on_read fd (k_read k) st
  | on_write_h => on_write fd st
  | on_accept_h => Ret (on_accept (k_accept k) st)
  | on_shutdown_h => Ret (on_shutdown st)
  end.

Definition server_run (answers : list (kevent_answer kernel_data)) (st : sys A)
    : outcome (option Z * sys A) :=
  el_run (fun st => s_el (sv st)) call_handler answers st.
End Server.

(** ** Initialisation *)

(** [create_listener(port, backlog)] when [socket] would answer [fd]. *)
Definition create_listener (s : list io) (fd : Z) : Z * list io :=
  let '(ok, s) := io_simple s in                       (* socket *)
  if negb ok then (-1, s)
  else
    let '(ok, s) := io_simple s in                     (* setsockopt *)
    if negb ok then (-1, s)
    else
      let '(ok, s) := io_simple s in                   (* bind *)
      if negb ok then (-1, s)
      else
        let '(ok, s) := io_simple s in                 (* listen *)
        if negb ok then (-1, s)
        else
          let '(rc, s) := set_non_blocking s in
          (if rc =? -1 then -1 else fd, s).

Definition el_zero : event_loop_t := mk_el 0 ∅ ∅ false 0 false.
Definition server_zero : server_t := mk_server 0 el_zero ∅ 0 (0, 0) 0 0 0 0.

(** The descriptors the kernel would hand out to [server_init]. *)
Record init_fds := mk_init_fds { i_listen : Z; i_kq : Z; i_pipe0 : Z; i_pipe1 : Z }.

(** [server_init] at monotonic time [now]; [hz = 0] divides by zero. *)
Definition server_init (s : list io) (fds : init_fds) (now hz client_timeout_s : Z)
    : outcome (Z * server_t * list io) :=
  let srv := mk_server 0 el_zero ∅ 0 (0, 0) 0 now now client_timeout_s in
  let '(listen_fd, s) := create_listener s (i_listen fds) in
  let srv := mk_server listen_fd (s_el srv) ∅ 0 (0, 0) 0 now now client_timeout_s in
  if listen_fd =? -1 then Ret (-1, srv, s)
  else if hz =? 0 then Fault
  else
    let '(rc, el, s) := el_init s (i_kq fds) (Z.quot 1000 hz) (s_el srv) in
    if rc =? -1 then Ret (-1, s_set_el el srv, s)
    else
      let srv := s_set_el (set_before_sleep true el) srv in
      let '(ok, s) := io_simple s in                   (* pipe *)
      if negb ok then Ret (-1, srv, s)
      else
        let srv := mk_server listen_fd (s_el srv) ∅ 0 (i_pipe0 fds, i_pipe1 fds) 0 now now client_timeout_s in
        let '(rc0, s) := set_non_blocking s in
        if rc0 =? -1 then Ret (-1, srv, s)
        else
          let '(rc1, s) := set_non_blocking s in
          if rc1 =? -1 then Ret (-1, srv, s)
          else
            let '(rc, el, s) := el_add s (s_el srv) (i_pipe0 fds) on_shutdown_h in
            let srv := s_set_el el srv in
            if rc =? -1 then Ret (-1, srv, s)
            else
              let '(rc, el, s) := el_add s (s_el srv) listen_fd on_accept_h in
              Ret (if rc =? -1 then -1 else 0, s_set_el el srv, s).

(** ** Accessor lemmas *)

Section Accessors.
Context {A : Type}.
Implicit Types st : sys A.

Lemma get_put_eq st fd c : get_client (put_client fd c st) fd = c.
Proof. unfold get_client, put_client. cbn. by rewrite lookup_insert_eq. Qed.

Lemma get_put_ne st fd fd' c : fd <> fd' -> get_client (put_client fd c st) fd' = get_client st fd'.
Proof. intros. unfold get_client, put_client. cbn. by rewrite lookup_insert_ne. Qed.

Lemma put_put st fd c c' : put_client fd c (put_client fd c' st) = put_client fd c st.
Proof. unfold put_client, set_sv, s_set_clients. cbn. by rewrite insert_insert_eq. Qed.

Lemma app_put st fd c : app (put_client fd c st) = app st.
Proof. done. Qed.
End Accessors.

(** ** Write queue *)

(** The bytes of a client's write buffer not sent yet. *)
Definition pending (c : client_t) : list Z := drop (Z.to_nat (c_woff c)) (c_wbuf c).

(** All bytes queued for [fd] so far: accepted by the kernel, then pending. *)
Definition stream {A} (st : sys A) (fd : Z) : list Z := sent st fd ++ pending (get_client st fd).

(** The offset is inside the buffer, the buffer within its capacity, and a
    drained buffer is reset. *)
Definition wq_ok (c : client_t) : Prop :=
  0 <= c_woff c /\ wlen c <= WBUF_SIZE /\ (c_woff c < wlen c \/ c_woff c = 0 /\ c_wbuf c = []).

#[export] Instance wq_ok_dec c : Decision (wq_ok c).
Proof. unfold wq_ok. apply _. Defined.

(** What two states share apart from the client [fd]. *)
Definition same_others {A} (fd : Z) (st st' : sys A) : Prop :=
  forall fd', fd' <> fd -> get_client st' fd' = get_client st fd' /\ sent st' fd' = sent st fd'.

Section QueueFacts.
Context {A : Type} `{ServerCallbacks A}.
Implicit Types st : sys A.

Lemma get_remove_eq fd st : get_client (remove_client fd st) fd = client_zero.
Proof. unfold get_client, remove_client. cbn. by rewrite lookup_insert_eq. Qed.

Lemma get_remove_ne fd fd' st : fd <> fd' -> get_client (remove_client fd st) fd' = get_client st fd'.
Proof. intros. unfold get_client, remove_client. cbn. by rewrite lookup_insert_ne. Qed.

Lemma remove_put fd c st : remove_client fd (put_client fd c st) = remove_client fd st.
Proof.
  unfold remove_client, put_client, set_sv, s_set_clients, s_set_el. cbn.
  by rewrite insert_insert_eq.
Qed.

Lemma sent_remove fd fd' st : sent (remove_client fd st) fd' = sent st fd'.
Proof. done. Qed.

Lemma sent_put fd fd' c st : sent (put_client fd c st) fd' = sent st fd'.
Proof. done. Qed.

Lemma sent_record_eq fd b st : sent (record_sent fd b st) fd = sent st fd ++ b.
Proof. unfold sent at 1, record_sent. cbn. by rewrite lookup_insert_eq. Qed.

Lemma sent_record_ne fd fd' b st : fd <> fd' -> sent (record_sent fd b st) fd' = sent st fd'.
Proof. intros. unfold sent at 1, record_sent. cbn. by rewrite lookup_insert_ne. Qed.

Lemma get_add_write fd fd' st : get_client (add_write_handler fd st) fd' = get_client st fd'.
Proof. unfold add_write_handler. by destruct (el_add_write _ _ _ _) as [[??]?]. Qed.

Lemma sent_add_write fd fd' st : sent (add_write_handler fd st) fd' = sent st fd'.
Proof. unfold add_write_handler. by destruct (el_add_write _ _ _ _) as [[??]?]. Qed.

Lemma get_set_script l fd st : get_client (set_script l st) fd = get_client st fd.
Proof. done. Qed.

Lemma sent_set_script l fd st : sent (set_script l st) fd = sent st fd.
Proof. done. Qed.

Lemma get_set_el el fd st : get_client (set_sv (s_set_el el (sv st)) st) fd = get_client st fd.
Proof. done. Qed.

Lemma sent_set_el el fd st : sent (set_sv (s_set_el el (sv st)) st) fd = sent st fd.
Proof. done. Qed.

Lemma sock_write_bound s len n s' :
  0 <= len -> sock_write s len = (inl n, s') -> 0 <= n <= len /\ (0 < len -> 0 < n).
Proof. destruct s as [|[] s]; cbn; intros; simplify_eq; lia. Qed.

(** Sending [n] bytes moves them from the pending side to the sent side. *)
Lemma take_pending n c : 0 <= c_woff c -> 0 <= n ->
  take (Z.to_nat n) (pending c) ++ drop (Z.to_nat (c_woff c + n)) (c_wbuf c) = pending c.
Proof.
  intros. unfold pending. rewrite Z2Nat.inj_add by lia.
  by rewrite <- drop_drop, take_drop.
Qed.

Lemma pending_compact c : pending (compact_wbuf c) = pending c.
Proof. done. Qed.

(** [wq_ok], and everything pending, survive the compaction at the head of
    [queue_write]; after it a buffer that does not fit has nothing to reclaim. *)
Definition make_room (data : list Z) (c : client_t) : client_t :=
  if (WBUF_SIZE <? wlen c + zlen data) && (0 <? c_woff c) then compact_wbuf c else c.

Lemma make_room_ok data c : wq_ok c ->
  let c' := make_room data c in
  wq_ok c' /\ pending c' = pending c /\ c_active c' = c_active c /\
  c_last_active_ms c' = c_last_active_ms c /\ c_buf c' = c_buf c /\
  (wlen c' + zlen data <= WBUF_SIZE <-> zlen (pending c) + zlen data <= WBUF_SIZE).
Proof.
  intros (H0 & Hmax & Hlt). unfold make_room.
  assert (zlen (pending c) = wlen c - c_woff c) as Hp.
  { unfold pending, wlen. apply zlen_drop. unfold wlen in Hlt.
    destruct Hlt as [?|[-> ->]]; [lia|done]. }
  destruct (Z.ltb_spec WBUF_SIZE (wlen c + zlen data)), (Z.ltb_spec 0 (c_woff c)); cbn [andb].
  - assert (wlen (compact_wbuf c) = zlen (pending c)) as Hw by done.
    split.
    { unfold wq_ok. rewrite Hw. cbn [c_woff compact_wbuf c_set_wbuf].
      destruct Hlt as [?|[? ?]]; [|lia]. split; [lia|]. split; [lia|]. left. lia. }
    rewrite Hw, pending_compact. by split_and!.
  - split; [done|]. rewrite Hp. split_and!; (done || lia).
  - split; [done|]. rewrite Hp. split_and!; (done || lia).
  - split; [done|]. rewrite Hp. split_and!; (done || lia).
Qed.
End QueueFacts.

(** Read a client or the sent bytes through the updates of a state. *)
Create Rewrite HintDb srv.
#[export] Hint Rewrite @get_put_eq @get_add_write @get_remove_eq @sent_add_write @sent_put
  @sent_remove @sent_record_eq @get_set_script @sent_set_script
  @get_set_el @sent_set_el : srv.
Ltac srv_simpl := autorewrite with srv.

Section QueueWrite.
Context {A : Type} `{ServerCallbacks A}.
Implicit Types st : sys A.

Lemma same_others_refl fd st : same_others fd st st.
Proof. by intros fd' _. Qed.
Lemma same_others_trans fd st1 st2 st3 :
  same_others fd st1 st2 -> same_others fd st2 st3 -> same_others fd st1 st3.
Proof. intros H12 H23 fd' Hne. destruct (H12 fd' Hne), (H23 fd' Hne). split; congruence. Qed.
Lemma same_others_put fd c st : same_others fd st (put_client fd c st).
Proof. intros fd' Hne. by rewrite get_put_ne. Qed.
Lemma same_others_remove fd st : same_others fd st (remove_client fd st).
Proof. intros fd' Hne. by rewrite get_remove_ne. Qed.
Lemma same_others_record fd b st : same_others fd st (record_sent fd b st).
Proof. intros fd' Hne. by rewrite sent_record_ne. Qed.
Lemma same_others_add_write fd st : same_others fd st (add_write_handler fd st).
Proof. intros fd' Hne. by rewrite get_add_write, sent_add_write. Qed.
Lemma same_others_script fd l st : same_others fd st (set_script l st).
Proof. done. Qed.

(** The send queue of [c] with [data] behind it. *)
Lemma wq_append c data : wq_ok c -> wlen c + zlen data <= WBUF_SIZE -> data <> [] ->
  let c' := c_set_wbuf (c_wbuf c ++ data) (c_woff c) c in
  wq_ok c' /\ pending c' = pending c ++ data.
Proof.
  intros (H0 & Hmax & Hlt) Hfit Hne. unfold wq_ok, wlen, pending in *. cbn [c_woff c_wbuf c_set_wbuf].
  destruct data as [|d data]; [done|]. rewrite zlen_app, zlen_cons in *.
  pose proof (zlen_nonneg data). pose proof (zlen_nonneg (c_wbuf c)).
  assert (c_woff c <= zlen (c_wbuf c)) by lia.
  split; [lia|]. rewrite drop_app_le; [done|]. unfold zlen in *. lia.
Qed.

(** The direct write of [n] bytes from the head of the queue. *)
Lemma wq_sent c n : wq_ok c -> 0 <= n <= wlen c - c_woff c -> c_woff c + n <> wlen c ->
  let c' := c_set_wbuf (c_wbuf c) (c_woff c + n) c in
  wq_ok c' /\ take (Z.to_nat n) (pending c) ++ pending c' = pending c.
Proof.
  intros (H0 & Hmax & Hlt) Hn Hne. unfold wq_ok, wlen in *. cbn [c_woff c_wbuf c_set_wbuf].
  split; [lia|]. apply take_pending; lia.
Qed.

Lemma wq_sent_all c n : wq_ok c -> c_woff c + n = wlen c ->
  take (Z.to_nat n) (pending c) = pending c.
Proof.
  intros (H0 & Hmax & Hlt) Hn. apply take_ge. unfold pending, wlen, zlen in *.
  rewrite length_drop. lia.
Qed.

Lemma wq_drained c : wq_ok (c_set_wbuf [] 0 c).
Proof. split; [done|]. split; [discriminate|by right]. Qed.

(** The client [fd] of [st'] is that of [st] except for its write queue, and
    what was queued is [data] longer. *)
Definition queued (fd : Z) (data : list Z) (st st' : sys A) : Prop :=
  wq_ok (get_client st' fd) /\ stream st' fd = stream st fd ++ data /\
  c_buf (get_client st' fd) = c_buf (get_client st fd) /\
  c_active (get_client st' fd) = c_active (get_client st fd) /\
  c_last_active_ms (get_client st' fd) = c_last_active_ms (get_client st fd).

(** A write touches no other client, whatever the queue holds. *)
Lemma queue_write_others fd data st ok st' : queue_write fd data st = (ok, st') -> same_others fd st st'.
Proof.
  unfold queue_write. fold (make_room data (get_client st fd)). set (c1 := make_room data (get_client st fd)). cbv zeta.
  destruct (WBUF_SIZE <? wlen c1 + zlen data).
  { intros [= <- <-]. apply same_others_put. }
  rewrite put_put. set (c2 := c_set_wbuf _ _ c1).
  assert (same_others fd st (put_client fd c2 st)) as Hput by apply same_others_put.
  destruct (wlen c1 =? 0).
  2:{ intros [= <- <-]. eapply same_others_trans; [exact Hput|apply same_others_add_write]. }
  destruct (sock_write _ _) as [r s']. assert (same_others fd st (set_script s' (put_client fd c2 st))) as Hs by exact Hput.
  destruct r as [n|[]]; [destruct (_ =? _)| |]; intros [= <- <-].
  - eapply same_others_trans; [|apply same_others_put]. eapply same_others_trans; [exact Hs|apply same_others_record].
  - eapply same_others_trans; [|apply same_others_add_write]. eapply same_others_trans; [|apply same_others_put].
    eapply same_others_trans; [exact Hs|apply same_others_record].
  - eapply same_others_trans; [exact Hs|apply same_others_add_write].
  - eapply same_others_trans; [exact Hs|apply same_others_remove].
Qed.

(** The write queue is a FIFO: an accepted frame goes behind everything queued
    before it; a refused one leaves no byte behind, and is refused only when
    it does not fit beside the pending bytes or when the socket fails. *)
Lemma queue_write_spec fd data st ok st' :
  wq_ok (get_client st fd) -> data <> [] -> queue_write fd data st = (ok, st') ->
  same_others fd st st' /\
  (if ok then queued fd data st st'
   else WBUF_SIZE < zlen (pending (get_client st fd)) + zlen data /\ queued fd [] st st' \/
        get_client st' fd = client_zero /\ sent st' fd = sent st fd /\ app st' = on_disconnect fd (app st)).
Proof.
  intros Hwq Hne Hq. split; [by eapply queue_write_others|]. revert Hq.
  unfold queue_write. fold (make_room data (get_client st fd)).
  destruct (make_room_ok data _ Hwq) as (Hwq1 & Hp1 & Ha1 & Ht1 & Hb1 & Hfit1).
  set (c1 := make_room data (get_client st fd)) in *. rewrite put_put.
  assert (app_nil : forall l : list Z, l ++ [] = l) by apply app_nil_r.
  destruct (Z.ltb_spec WBUF_SIZE (wlen c1 + zlen data)) as [Hbig|Hsmall]; intros Hq.
  { injection Hq as <- <-. left. split; [lia|].
    unfold queued, stream. srv_simpl. rewrite Hp1, app_nil. by split_and!. }
  destruct (wq_append c1 data Hwq1) as [Hwq2 Hp2]; [lia|done|].
  set (c2 := c_set_wbuf (c_wbuf c1 ++ data) (c_woff c1) c1) in *.
  assert (c_buf c2 = c_buf (get_client st fd) /\ c_active c2 = c_active (get_client st fd) /\
    c_last_active_ms c2 = c_last_active_ms (get_client st fd)) as Hsame by done. clearbody c2.
  assert (sent st fd ++ pending c2 = (sent st fd ++ pending (get_client st fd)) ++ data) as Hs2
    by by rewrite Hp2, Hp1, app_assoc.
  assert (queued fd data st (add_write_handler fd (put_client fd c2 st))) as Hadd.
  { unfold queued, stream. srv_simpl. by split. }
  destruct (wlen c1 =? 0); [|by injection Hq as <- <-]. revert Hq.
  destruct (sock_write _ _) as [[n|[]] s'] eqn:E.
  2: { intros [= <- <-]. unfold queued, stream. srv_simpl. by split. }
  2: { intros [= <- <-]. right. by srv_simpl. }
  assert (0 <= wlen c2 - c_woff c2) as Hpos.
  { destruct Hwq2 as (? & ? & [?|[H0 Hnil]]); [lia|]. unfold wlen. rewrite H0, Hnil. done. }
  destruct (sock_write_bound _ _ _ _ Hpos E) as [Hn _]. fold (pending c2).
  destruct (Z.eqb_spec (c_woff c2 + n) (wlen c2)) as [Hall|Hpart]; intros [= <- <-].
  - rewrite wq_sent_all by done. unfold queued, stream. srv_simpl.
    rewrite Hp2, Hp1. cbn [pending c_woff c_wbuf c_set_wbuf drop Z.to_nat]. rewrite app_nil, app_assoc.
    split; [apply wq_drained|]. by split.
  - destruct (wq_sent c2 n Hwq2) as [Hwq3 Hp3]; [lia|done|]. unfold queued, stream. srv_simpl.
    rewrite <- !app_assoc, Hp3, Hp2, Hp1. split; [done|]. by split.
Qed.
End QueueWrite.
