(* ===== verification/Framing.v ===== *)
(** * Frames and their delivery (src/server.c)

    The specification of the framing layer: a byte stream as a list of frames,
    the delivery of its messages to the application, and the refinement of
    [process_buffer] and [on_read] to it, against the contract
    [ServerHandlersSpec]. *)

From S2P Require Import Prelude Limits Util EventLoop Server.

(** ** Frames

    What a byte stream means: the whole frames at its head, the incomplete
    rest, and whether the rest announces a payload over [MSG_MAX]. *)

Definition frame (payload : list Z) : list Z := be_encode 4 (zlen payload) ++ payload.

(** The first frame of a buffer. *)
Inductive split_result : Type :=
  | Incomplete
  | Oversized
  | Whole (payload rest : list Z).

Definition split_frame (buf : list Z) : split_result :=
  if zlen buf <? FRAME_HDR_SIZE then Incomplete
  else
    let n := be_decode (take 4 buf) in
    if MSG_MAX <? n then Oversized
    else if zlen buf <? FRAME_HDR_SIZE + n then Incomplete
    else Whole (take (Z.to_nat n) (drop 4 buf)) (drop (Z.to_nat (FRAME_HDR_SIZE + n)) buf).

Fixpoint parse_go (fuel : nat) (buf : list Z) : list (list Z) * list Z * bool :=
  match split_frame buf, fuel with
  | Incomplete, _ => ([], buf, false)
  | Oversized, _ => ([], buf, true)
  | Whole p rest, S fuel =>
      let '(ps, r, o) := parse_go fuel rest in (p :: ps, r, o)
  | Whole _ _, O => ([], buf, false)
  end.

Definition parse_frames (buf : list Z) : list (list Z) * list Z * bool := parse_go (length buf) buf.

Lemma split_frame_Whole buf p rest : Forall u8 buf -> split_frame buf = Whole p rest ->
  buf = frame p ++ rest /\ zlen p <= MSG_MAX.
Proof.
  unfold split_frame, frame. intros Hb. change (FRAME_HDR_SIZE) with 4.
  destruct (Z.ltb_spec (zlen buf) 4) as [|H4]; [done|].
  assert (Forall u8 (take 4 buf)) as Ht by by apply Forall_take.
  assert (length (take 4 buf) = 4%nat) as Hl by (rewrite length_take; unfold zlen in H4; lia).
  pose proof (be_decode_fits _ Ht) as Hn. pose proof (be_encode_decode _ Ht) as Henc.
  rewrite Hl in Henc. set (n := be_decode (take 4 buf)) in *.
  destruct (Z.ltb_spec MSG_MAX n); [done|].
  destruct (Z.ltb_spec (zlen buf) (4 + n)) as [|Hn']; [done|]. intros [= <- <-].
  unfold fits in Hn.
  assert (zlen (take (Z.to_nat n) (drop 4 buf)) = n) as ->
    by (unfold zlen in *; rewrite length_take, length_drop; lia).
  split; [|done]. rewrite Henc, Z2Nat.inj_add by lia. change (Z.to_nat 4) with 4%nat.
  by rewrite <- drop_drop, <- app_assoc, take_drop, take_drop.
Qed.

Lemma split_frame_shorter buf p rest : Forall u8 buf -> split_frame buf = Whole p rest ->
  (length rest < length buf)%nat /\ Forall u8 rest.
Proof.
  intros Hb H. destruct (split_frame_Whole _ _ _ Hb H) as [-> _].
  apply Forall_app in Hb as [_ Hb]. split; [|done].
  unfold frame. rewrite !length_app, length_be_encode. lia.
Qed.

Lemma split_frame_frame p rest : zlen p <= MSG_MAX -> split_frame (frame p ++ rest) = Whole p rest.
Proof.
  intros Hp. unfold split_frame, frame. change FRAME_HDR_SIZE with 4.
  pose proof (zlen_nonneg p). pose proof (zlen_nonneg rest).
  assert (be_decode (take 4 ((be_encode 4 (zlen p) ++ p) ++ rest)) = zlen p) as ->.
  { rewrite <- app_assoc. rewrite (take_app_length' _ _ 4) by by rewrite length_be_encode.
    apply be_decode_encode. limits. unfold fits. change (2 ^ (8 * Z.of_nat 4)) with 4294967296. lia. }
  rewrite !zlen_app, zlen_be_encode. change (Z.of_nat 4) with 4.
  destruct (Z.ltb_spec (4 + zlen p + zlen rest) 4); [lia|].
  destruct (Z.ltb_spec MSG_MAX (zlen p)); [lia|].
  destruct (Z.ltb_spec (4 + zlen p + zlen rest) (4 + zlen p)); [lia|].
  rewrite Z2Nat.inj_add by lia. change (Z.to_nat 4) with 4%nat.
  rewrite <- drop_drop, <- app_assoc, (drop_app_length' _ _ 4) by by rewrite length_be_encode.
  unfold zlen. by rewrite Nat2Z.id, take_app_length, drop_app_length.
Qed.

Lemma split_frame_oversized_app buf tl : split_frame buf = Oversized ->
  split_frame (buf ++ tl) = Oversized.
Proof.
  unfold split_frame. change FRAME_HDR_SIZE with 4. pose proof (zlen_nonneg tl). rewrite zlen_app.
  destruct (Z.ltb_spec (zlen buf) 4); [done|].
  destruct (Z.ltb_spec (zlen buf + zlen tl) 4); [lia|].
  rewrite take_app_le by (unfold zlen in *; lia).
  destruct (MSG_MAX <? be_decode (take 4 buf)); [done|]. by destruct (_ <? _).
Qed.

Lemma split_frame_incomplete buf : split_frame buf = Incomplete -> zlen buf < RBUF_SIZE.
Proof.
  unfold split_frame, RBUF_SIZE. limits.
  destruct (Z.ltb_spec (zlen buf) 4); [lia|].
  destruct (Z.ltb_spec 4096 (be_decode (take 4 buf))); [done|].
  destruct (Z.ltb_spec (zlen buf) (4 + be_decode (take 4 buf))); [lia|done].
Qed.

(** More fuel than bytes changes nothing. *)
Lemma parse_go_fuel : forall fuel fuel' buf, Forall u8 buf ->
  (length buf <= fuel)%nat -> (length buf <= fuel')%nat -> parse_go fuel buf = parse_go fuel' buf.
Proof.
  induction fuel as [|fuel IH]; intros [|fuel'] buf Hb Hf Hf'; cbn [parse_go];
    destruct (split_frame buf) as [| |p rest] eqn:E; try done;
    destruct (split_frame_shorter _ _ _ Hb E) as [Hlt Hrest]; try lia.
  by rewrite (IH fuel') by (done || lia).
Qed.

Lemma parse_frames_eq buf : Forall u8 buf ->
  parse_frames buf =
    match split_frame buf with
    | Incomplete => ([], buf, false)
    | Oversized => ([], buf, true)
    | Whole p rest => let '(ps, r, o) := parse_frames rest in (p :: ps, r, o)
    end.
Proof.
  intros Hb. unfold parse_frames.
  destruct (length buf) as [|n] eqn:Hn; cbn [parse_go];
    destruct (split_frame buf) as [| |p rest] eqn:E; try done;
    destruct (split_frame_shorter _ _ _ Hb E) as [Hlt Hrest]; [lia|].
  by rewrite (parse_go_fuel n (length rest)) by (done || lia).
Qed.

(** Induction on a buffer, a frame at a time. *)
Lemma frames_ind (P : list Z -> Prop) :
  (forall buf, split_frame buf = Incomplete -> P buf) ->
  (forall buf, split_frame buf = Oversized -> P buf) ->
  (forall p rest, Forall u8 (frame p ++ rest) -> Forall u8 rest -> zlen p <= MSG_MAX -> P rest ->
     P (frame p ++ rest)) ->
  forall buf, Forall u8 buf -> P buf.
Proof.
  intros Hinc Hover Hstep buf. remember (length buf) as n eqn:Hn. revert buf Hn.
  induction n as [n IH] using lt_wf_ind. intros buf -> Hb.
  destruct (split_frame buf) as [| |p rest] eqn:E; [auto|auto|].
  destruct (split_frame_shorter _ _ _ Hb E) as [Hlt Hrest].
  destruct (split_frame_Whole _ _ _ Hb E) as [-> Hp]. by eauto.
Qed.

Lemma parse_frames_frame p rest : Forall u8 (frame p ++ rest) -> zlen p <= MSG_MAX ->
  parse_frames (frame p ++ rest) = let '(ps, r, o) := parse_frames rest in (p :: ps, r, o).
Proof. intros Hb Hp. by rewrite parse_frames_eq, split_frame_frame. Qed.

(** What was parsed is a prefix of frames; what is left holds no whole frame
    and, unless it announces too much, is shorter than the read buffer. *)
Lemma parse_frames_sound buf : Forall u8 buf -> forall ps r o, parse_frames buf = (ps, r, o) ->
  buf = concat (map frame ps) ++ r /\ Forall (fun p => zlen p <= MSG_MAX) ps /\
  split_frame r = (if o then Oversized else Incomplete).
Proof.
  intros Hb. pattern buf. revert buf Hb. apply frames_ind.
  - intros buf E ps r o. unfold parse_frames. destruct (length buf); cbn [parse_go]; rewrite E;
      intros [= <- <- <-]; by auto.
  - intros buf E ps r o. unfold parse_frames. destruct (length buf); cbn [parse_go]; rewrite E;
      intros [= <- <- <-]; by auto.
  - intros p rest Hb Hrest Hp IH ps r o. rewrite parse_frames_frame by done.
    destruct (parse_frames rest) as [[ps' r'] o'] eqn:E. intros [= <- <- <-].
    destruct (IH _ _ _ eq_refl) as (-> & Hall & Hs). cbn. rewrite <- app_assoc.
    split_and!; [done|by constructor|done].
Qed.

(** Parsing is incremental: what is left over is parsed with what follows. *)
Lemma parse_frames_app b : Forall u8 b -> forall c, Forall u8 c ->
  parse_frames (b ++ c) =
    let '(ps1, r1, o1) := parse_frames b in
    if (o1 : bool) then (ps1, r1 ++ c, true)
    else let '(ps2, r2, o2) := parse_frames (r1 ++ c) in (ps1 ++ ps2, r2, o2).
Proof.
  intros Hb. pattern b. revert b Hb. apply frames_ind.
  - intros buf E c Hc. assert (parse_frames buf = ([], buf, false)) as ->
      by (unfold parse_frames; destruct (length buf); cbn [parse_go]; by rewrite E).
    cbv beta iota. by destruct (parse_frames (buf ++ c)) as [[??]?].
  - intros buf E c Hc. assert (forall b, split_frame b = Oversized -> parse_frames b = ([], b, true)) as Ho.
    { intros b Eb. unfold parse_frames. destruct (length b); cbn [parse_go]; by rewrite Eb. }
    rewrite (Ho _ E), Ho by by apply split_frame_oversized_app. done.
  - intros p rest Hb Hrest Hp IH c Hc. rewrite <- app_assoc.
    rewrite !parse_frames_frame, IH by (rewrite ?app_assoc; auto with mr).
    destruct (parse_frames rest) as [[ps1 r1] []]; [done|].
    by destruct (parse_frames (r1 ++ c)) as [[??]?].
Qed.

Lemma parse_frames_frames ps rest : Forall (fun p => zlen p <= MSG_MAX /\ Forall u8 p) ps ->
  Forall u8 rest ->
  parse_frames (concat (map frame ps) ++ rest) =
    let '(ms, r, o) := parse_frames rest in (ps ++ ms, r, o).
Proof.
  intros Hps Hrest. induction ps as [|p ps IH]; cbn [map concat app].
  { rewrite app_nil_l. by destruct (parse_frames rest) as [[??]?]. }
  apply Forall_cons in Hps as [[Hp Hpb] Hps]. rewrite <- app_assoc.
  assert (Forall u8 (concat (map frame ps) ++ rest)) as Hb.
  { apply Forall_app_2; [|done].
    clear IH. induction Hps as [|q qs [_ Hq] _ IHq]; [done|]. cbn [map concat].
    apply Forall_app_2; [|done]. unfold frame. auto with mr. }
  rewrite parse_frames_frame, IH; [|done|unfold frame; auto with mr|done].
  by destruct (parse_frames rest) as [[??]?].
Qed.

(** ** The application's contract

    What the framing layer needs from a message handler: it neither reads nor
    moves the read buffer of the descriptor it serves, and leaves the other
    descriptors alone. [forget_rbuf] erases
    that buffer, so two states agree up to it when it maps them to the same
    state. *)

Definition set_rbuf {A} (fd : Z) (b : list Z) (st : sys A) : sys A :=
  put_client fd (c_set_buf b (get_client st fd)) st.
Definition forget_rbuf {A} (fd : Z) (st : sys A) : sys A := set_rbuf fd [] st.
Definition present {A} (fd : Z) (st : sys A) : Prop := is_Some (s_clients (sv st) !! fd).

(** The clock fields of the server. *)
Definition clock_of (s : server_t) : Z * Z * Z := (s_cronloops s, s_now_ms s, s_last_timeout_check_ms s).

Class ServerHandlersSpec (A : Type) `{ServerHandlers A} := {
  on_message_forget fd p (st : sys A) :
    on_message fd p (forget_rbuf fd st) =
    ('(rc, st') ← on_message fd p st; Ret (rc, forget_rbuf fd st'));
  on_message_keeps fd p (st st' : sys A) : on_message fd p st = Ret (0, st') ->
    c_buf (get_client st' fd) = c_buf (get_client st fd) /\
    c_active (get_client st' fd) = c_active (get_client st fd) /\
    c_last_active_ms (get_client st' fd) = c_last_active_ms (get_client st fd);
  on_message_clock fd p (st st' : sys A) rc : on_message fd p st = Ret (rc, st') ->
    clock_of (sv st') = clock_of (sv st);
  on_message_others fd p (st st' : sys A) rc : on_message fd p st = Ret (rc, st') -> same_others fd st st';
}.

Section RbufFacts.
Context {A : Type}.
Implicit Types st : sys A.

Lemma get_set_rbuf fd b st : get_client (set_rbuf fd b st) fd = c_set_buf b (get_client st fd).
Proof. apply get_put_eq. Qed.

Lemma set_set_rbuf fd b b' st : set_rbuf fd b (set_rbuf fd b' st) = set_rbuf fd b st.
Proof. unfold set_rbuf. by rewrite get_put_eq, put_put. Qed.

Lemma forget_set fd b st : forget_rbuf fd (set_rbuf fd b st) = forget_rbuf fd st.
Proof. apply set_set_rbuf. Qed.

Lemma forget_forget fd st : forget_rbuf fd (forget_rbuf fd st) = forget_rbuf fd st.
Proof. apply set_set_rbuf. Qed.

Lemma set_forget fd b st : set_rbuf fd b (forget_rbuf fd st) = set_rbuf fd b st.
Proof. apply set_set_rbuf. Qed.

Lemma put_get fd st : present fd st -> put_client fd (get_client st fd) st = st.
Proof.
  intros [c Hc]. unfold put_client, get_client, set_sv, s_set_clients. rewrite Hc. cbn.
  rewrite insert_id by done. by destruct st as [[] ???].
Qed.

Lemma set_rbuf_id fd st : present fd st -> set_rbuf fd (c_buf (get_client st fd)) st = st.
Proof.
  intros Hp. unfold set_rbuf.
  replace (c_set_buf _ _) with (get_client st fd) by (by destruct (get_client st fd)).
  by apply put_get.
Qed.

Lemma present_put fd c st : present fd (put_client fd c st).
Proof. unfold present, put_client. cbn. by rewrite lookup_insert_eq. Qed.

Lemma remove_forget `{ServerCallbacks A} fd st : remove_client fd (forget_rbuf fd st) = remove_client fd st.
Proof. apply remove_put. Qed.
End RbufFacts.

(** ** Delivery *)

Section Deliver.
Context {A : Type} `{HS : ServerHandlersSpec A}.
Implicit Types st : sys A.

(** The messages of a stream, one call each, up to the first refusal:
    whether the client is still connected, and the state. *)
Fixpoint deliver (fd : Z) (ps : list (list Z)) (st : sys A) : outcome (bool * sys A) :=
  match ps with
  | [] => Ret (true, st)
  | p :: ps =>
      '(rc, st) ← on_message fd p st;
      if negb (rc =? 0) then Ret (false, remove_client fd st) else deliver fd ps st
  end.

(** What the arrival of the bytes [buf] means: the frames are delivered, the
    rest waits, and an announced payload that is too long drops the client. *)
Definition receive (fd : Z) (buf : list Z) (st : sys A) : outcome (sys A) :=
  let '(ps, rest, oversized) := parse_frames buf in
  '(alive, st) ← deliver fd ps (forget_rbuf fd st);
  Ret (if negb alive then st
       else if oversized then remove_client fd st
       else set_rbuf fd rest st).

Lemma bind_bind {B C D} (m : outcome B) (f : B -> outcome C) (g : C -> outcome D) :
  (m ≫= f) ≫= g = m ≫= (fun x => f x ≫= g).
Proof. by destruct m. Qed.

Lemma outcome_bind_ext {B C} (m : outcome B) (f g : B -> outcome C) :
  (forall x, m = Ret x -> f x = g x) -> m ≫= f = m ≫= g.
Proof. destruct m; cbn; auto. Qed.

(** A whole frame at the head of the buffer. *)
Lemma receive_frame fd p rest st : Forall u8 (frame p ++ rest) -> zlen p <= MSG_MAX ->
  receive fd (frame p ++ rest) st =
    ('(rc, st) ← on_message fd p (forget_rbuf fd st);
     if negb (rc =? 0) then Ret (remove_client fd st) else receive fd rest st).
Proof.
  intros Hb Hp. unfold receive. rewrite parse_frames_frame by done.
  destruct (parse_frames rest) as [[ps r] o]. cbn [deliver]. rewrite bind_bind, on_message_forget.
  destruct (on_message fd p st) as [[rc st1]| |]; [|done|done]. cbn.
  destruct (Z.eqb_spec rc 0); [|done]. cbn [negb].
  by rewrite forget_forget.
Qed.

Lemma process_frames_step fuel fd st :
  process_frames (S fuel) fd st =
    match split_frame (c_buf (get_client st fd)) with
    | Incomplete => Ret st
    | Oversized => Ret (remove_client fd st)
    | Whole p rest =>
        '(rc, st') ← on_message fd p st;
        if negb (rc =? 0) then Ret (remove_client fd st')
        else process_frames fuel fd (set_rbuf fd rest st')
    end.
Proof.
  cbn [process_frames]. unfold split_frame. set (buf := c_buf (get_client st fd)).
  destruct (Z.ltb_spec (zlen buf) FRAME_HDR_SIZE); [done|].
  destruct (MSG_MAX <? be_decode (take 4 buf)); [done|].
  destruct (Z.ltb_spec (zlen buf) (FRAME_HDR_SIZE + be_decode (take 4 buf))); [done|].
  apply outcome_bind_ext. intros [rc st'] Hm.
  destruct (Z.eqb_spec rc 0) as [->|]; [|done]. cbn [negb].
  apply on_message_keeps in Hm as (Hbuf & _ & _). rewrite Hbuf. fold buf.
  by destruct (Z.ltb_spec (zlen buf) (FRAME_HDR_SIZE + be_decode (take 4 buf))); [lia|].
Qed.

Lemma process_frames_receive fuel : forall fd st,
  present fd st -> Forall u8 (c_buf (get_client st fd)) ->
  (length (c_buf (get_client st fd)) <= fuel)%nat ->
  process_frames fuel fd st = receive fd (c_buf (get_client st fd)) st.
Proof.
  induction fuel as [|fuel IH]; intros fd st Hpres Hb Hf.
  - assert (c_buf (get_client st fd) = []) as Hnil by (destruct (c_buf _); [done|cbn in Hf; lia]).
    cbn [process_frames]. rewrite Hnil.
    change (Ret st = Ret (set_rbuf fd [] (forget_rbuf fd st))).
    rewrite set_forget, <- Hnil. by rewrite set_rbuf_id.
  - rewrite process_frames_step. set (buf := c_buf (get_client st fd)) in *.
    destruct (split_frame buf) as [| |p rest] eqn:E.
    + unfold receive. rewrite parse_frames_eq, E by done.
      change (Ret st = Ret (set_rbuf fd buf (forget_rbuf fd st))). rewrite set_forget. unfold buf. by rewrite set_rbuf_id.
    + unfold receive. rewrite parse_frames_eq, E by done.
      change (Ret (remove_client fd st) = Ret (remove_client fd (forget_rbuf fd st))).
      by rewrite remove_forget.
    + destruct (split_frame_shorter _ _ _ Hb E) as [Hlt Hrest].
      destruct (split_frame_Whole _ _ _ Hb E) as [Heq Hp]. rewrite Heq in *.
      rewrite receive_frame, on_message_forget, bind_bind by done.
      apply outcome_bind_ext. intros [rc st'] Hm. cbn.
      destruct (Z.eqb_spec rc 0) as [->|]; cbn [negb]; [|by rewrite remove_forget].
      rewrite IH; rewrite ?get_set_rbuf; cbn [c_buf c_set_buf]; [|apply present_put|done|lia].
      unfold receive. destruct (parse_frames rest) as [[ps r] o].
      by rewrite forget_set, forget_forget.
Qed.
End Deliver.

Section DeliverFacts.
Context {A : Type} `{HS : ServerHandlersSpec A}.
Implicit Types st : sys A.

Lemma deliver_app fd ps qs : forall st,
  deliver fd (ps ++ qs) st =
    ('(alive, st) ← deliver fd ps st; if (alive : bool) then deliver fd qs st else Ret (false, st)).
Proof.
  induction ps as [|p ps IH]; intros st; [done|]. cbn [deliver app].
  change ((p :: ps) ++ qs) with (p :: (ps ++ qs)). cbn [deliver]. rewrite bind_bind.
  apply outcome_bind_ext. intros [rc st'] _. by destruct (negb (rc =? 0)).
Qed.

Lemma deliver_forget fd ps : forall st,
  deliver fd ps (forget_rbuf fd st) =
    ('(alive, st) ← deliver fd ps st; Ret (alive, if (alive : bool) then forget_rbuf fd st else st)).
Proof.
  induction ps as [|p ps IH]; intros st; [done|]. cbn [deliver].
  rewrite on_message_forget, !bind_bind. apply outcome_bind_ext. intros [rc st'] _. cbn.
  destruct (negb (rc =? 0)); cbn; [by rewrite remove_forget|apply IH].
Qed.

Lemma deliver_keeps fd ps : forall st st', deliver fd ps st = Ret (true, st') ->
  c_active (get_client st' fd) = c_active (get_client st fd) /\
  c_last_active_ms (get_client st' fd) = c_last_active_ms (get_client st fd) /\
  clock_of (sv st') = clock_of (sv st).
Proof.
  induction ps as [|p ps IH]; intros st st' H1; cbn [deliver] in H1; [by injection H1 as <-|].
  apply outcome_bind_Ret in H1 as ([rc st1] & Hm & H1).
  destruct (Z.eqb_spec rc 0) as [->|]; cbn [negb] in H1; [|done].
  apply IH in H1 as (-> & -> & ->). pose proof (on_message_keeps _ _ _ _ Hm) as (_ & -> & ->).
  by rewrite (on_message_clock _ _ _ _ _ Hm).
Qed.

Lemma deliver_dead fd ps : forall st st', deliver fd ps st = Ret (false, st') ->
  get_client st' fd = client_zero.
Proof.
  induction ps as [|p ps IH]; intros st st' H1; cbn [deliver] in H1; [done|].
  apply outcome_bind_Ret in H1 as ([rc st1] & _ & H1).
  destruct (negb (rc =? 0)); [|by eapply IH]. injection H1 as <-. apply get_remove_eq.
Qed.

Lemma process_buffer_receive fd st :
  present fd st -> Forall u8 (c_buf (get_client st fd)) ->
  process_buffer fd st = receive fd (c_buf (get_client st fd)) st.
Proof. intros. by apply process_frames_receive. Qed.

(** [on_read] on an active client with room for all the bytes read. *)
Definition stamped (fd : Z) (st : sys A) : client_t :=
  c_set_last_active (s_now_ms (sv st)) (get_client st fd).

Lemma on_read_receive fd b st :
  c_active (get_client st fd) = true -> Forall u8 (c_buf (get_client st fd)) -> Forall u8 b ->
  b <> [] -> zlen (c_buf (get_client st fd) ++ b) <= RBUF_SIZE ->
  on_read fd (inl b) st =
    receive fd (c_buf (get_client st fd) ++ b) (put_client fd (stamped fd st) st).
Proof.
  intros Hact Hbuf Hb Hne Hfit. unfold on_read. rewrite Hact. cbn [negb].
  rewrite zlen_app in Hfit.
  rewrite (take_ge b) by (unfold zlen in *; lia).
  destruct (Z.eqb_spec (zlen b) 0) as [Hz|_]; [destruct b; [done|rewrite zlen_cons in Hz; pose proof (zlen_nonneg b); lia]|].
  rewrite process_buffer_receive; rewrite ?get_put_eq; cbn [c_buf c_set_buf c_set_last_active];
    [|apply present_put|by apply Forall_app_2].
  unfold receive. destruct (parse_frames _) as [[ps r] o].
  unfold forget_rbuf, set_rbuf. by rewrite !get_put_eq, !put_put.
Qed.
End DeliverFacts.

(** ** Properties of the framing layer *)

Section FramingProps.
Context {A : Type} `{HS : ServerHandlersSpec A}.
Implicit Types st : sys A.

(** C22: [process_buffer] refines the byte-stream reading of the protocol. For a
    connected client whose buffer holds bytes, it delivers to the application
    the payloads of the complete frames the buffer starts with, in order, stops
    at the first refusal, over-long frame or missing byte, and keeps the
    incomplete rest: it equals [receive] on the buffer. *)
Theorem process_buffer_refines fd st :
  present fd st -> Forall u8 (c_buf (get_client st fd)) ->
  process_buffer fd st = receive fd (c_buf (get_client st fd)) st /\
  (forall st', process_buffer fd st = Ret st' -> zlen (c_buf (get_client st' fd)) < RBUF_SIZE).
Proof.
  intros Hp Hb. rewrite process_buffer_receive by done. split; [done|]. intros st'. unfold receive.
  destruct (parse_frames _) as [[ps r] o] eqn:E.
  apply parse_frames_sound in E as (_ & _ & Hs); [|done]. intros Hr.
  apply outcome_bind_Ret in Hr as ([alive st1] & Hd & Hr). injection Hr as <-.
  destruct alive; cbn [negb]; [destruct o|].
  - by rewrite get_remove_eq.
  - rewrite get_set_rbuf. by apply split_frame_incomplete.
  - by rewrite (deliver_dead _ _ _ _ Hd).
Qed.

(** How the bytes arrive does not matter. When two pieces fit the read
    buffer, [on_read] with both at once gives the same outcome as [on_read] with
    the first and then with the second. *)
Theorem on_read_split fd b1 b2 st :
  c_active (get_client st fd) = true -> Forall u8 (c_buf (get_client st fd) ++ b1 ++ b2) ->
  b1 <> [] -> b2 <> [] -> zlen (c_buf (get_client st fd) ++ b1 ++ b2) <= RBUF_SIZE ->
  on_read fd (inl (b1 ++ b2)) st = (st' ← on_read fd (inl b1) st; on_read fd (inl b2) st').
Proof.
  intros Hact Hb Hne1 Hne2 Hfit.
  apply Forall_app in Hb as (Hb0 & Hb12). pose proof Hb12 as (Hb1 & Hb2)%Forall_app.
  rewrite !on_read_receive; try done; [| | by destruct b1].
  2:{ rewrite !zlen_app in *. pose proof (zlen_nonneg b2). lia. }
  unfold receive. rewrite app_assoc, parse_frames_app by auto with mr.
  set (st0 := put_client fd (stamped fd st) st).
  destruct (parse_frames (_ ++ b1)) as [[ps1 r1] o1] eqn:E1.
  apply parse_frames_sound in E1 as (Hsum & _ & _); [|by apply Forall_app_2].
  rewrite bind_bind. destruct o1.
  { apply outcome_bind_ext. intros [[] s] Hd; cbn; unfold on_read.
    - by rewrite get_remove_eq.
    - by rewrite (deliver_dead _ _ _ _ Hd). }
  destruct (parse_frames (r1 ++ b2)) as [[ps2 r2] o2] eqn:E2.
  rewrite deliver_app, bind_bind. apply outcome_bind_ext. intros [[] s] Hd.
  2:{ cbn. unfold on_read. by rewrite (deliver_dead _ _ _ _ Hd). }
  pose proof Hd as (Hs1 & Hs2 & Hs3)%deliver_keeps.
  pose proof (deliver_forget fd ps1 (forget_rbuf fd st0)) as Hf.
  rewrite forget_forget, Hd in Hf. injection Hf as Hf.
  unfold forget_rbuf in Hs1, Hs2. rewrite get_set_rbuf in Hs1, Hs2.
  unfold st0 in Hs1, Hs2. rewrite get_put_eq in Hs1, Hs2. cbn [c_active c_last_active_ms c_set_buf stamped c_set_last_active] in Hs1, Hs2.
  cbn [negb mbind outcome_bind].
  assert (Forall u8 r1) as Hr1.
  { assert (Forall u8 (c_buf (get_client st fd) ++ b1)) as Hall by by apply Forall_app_2.
    rewrite Hsum in Hall. by apply Forall_app in Hall as [_ ?]. }
  rewrite on_read_receive; rewrite ?get_set_rbuf; cbn [c_buf c_active c_set_buf]; try done.
  3:{ rewrite !zlen_app in *. apply (f_equal zlen) in Hsum. rewrite !zlen_app in Hsum.
      pose proof (zlen_nonneg (concat (map frame ps1))). lia. }
  2:{ rewrite Hs1. exact Hact. }
  unfold receive. rewrite E2.
  assert (forget_rbuf fd (put_client fd (stamped fd (set_rbuf fd r1 s)) (set_rbuf fd r1 s)) = s) as ->; [|done].
  replace (stamped fd (set_rbuf fd r1 s)) with (get_client (set_rbuf fd r1 s) fd).
  { rewrite put_get by apply present_put. by rewrite forget_set. }
  unfold stamped. rewrite get_set_rbuf.
  change (s_now_ms (sv (set_rbuf fd r1 s))) with (s_now_ms (sv s)).
  injection Hs3 as _ Hnow _. rewrite Hnow. change (s_now_ms (sv (forget_rbuf fd st0))) with (s_now_ms (sv st)).
  rewrite <- Hs2. by destruct (get_client s fd).
Qed.
End FramingProps.

(** ** Sending *)

Section SendProps.
Context {A : Type} `{ServerCallbacks A}.
Implicit Types st : sys A.

(** The three ways a send ends. *)
Lemma server_send_spec fd p st : wq_ok (get_client st fd) -> zlen p <= MSG_MAX ->
  exists rc st', server_send fd p st = Ret (rc, st') /\ same_others fd st st' /\
    (rc = 0 /\ queued fd (frame p) st st' \/
     rc = -1 /\ (WBUF_SIZE < zlen (pending (get_client st fd)) + zlen (frame p) /\ queued fd [] st st' \/
                 get_client st' fd = client_zero /\ sent st' fd = sent st fd /\
                 app st' = on_disconnect fd (app st))).
Proof.
  intros Hwq Hp. unfold server_send, send_framed.
  destruct (Z.ltb_spec MSG_MAX (zlen p)); [lia|]. cbn [mbind outcome_bind].
  destruct (queue_write fd (be_encode 4 (zlen p) ++ p) st) as [ok st'] eqn:E.
  apply queue_write_spec in E as [Hso Hq]; [|done|done].
  eexists _, st'. split; [done|]. split; [done|]. destruct ok; [by left|by right].
Qed.

Lemma server_send_others fd p st rc st' : server_send fd p st = Ret (rc, st') -> same_others fd st st'.
Proof.
  unfold server_send, send_framed. destruct (_ <? _); [done|]. cbn [mbind outcome_bind].
  destruct (queue_write _ _ _) as [ok st1] eqn:E. intros [= _ <-]. by eapply queue_write_others.
Qed.

(** A run of sends, all of which must be accepted. *)
Fixpoint send_all (fd : Z) (ps : list (list Z)) (st : sys A) : outcome (bool * sys A) :=
  match ps with
  | [] => Ret (true, st)
  | p :: ps =>
      '(rc, st) ← server_send fd p st;
      if rc =? 0 then send_all fd ps st else Ret (false, st)
  end.

Lemma send_all_stream fd ps : forall st st',
  wq_ok (get_client st fd) -> Forall (fun p => zlen p <= MSG_MAX) ps ->
  send_all fd ps st = Ret (true, st') ->
  wq_ok (get_client st' fd) /\ stream st' fd = stream st fd ++ concat (map frame ps) /\
  same_others fd st st'.
Proof.
  induction ps as [|p ps IH]; intros st st' Hwq Hps Hs; cbn [send_all] in Hs.
  { injection Hs as <-. rewrite app_nil_r. split_and!; [exact Hwq|done|apply same_others_refl]. }
  apply Forall_cons in Hps as [Hp Hps].
  destruct (server_send_spec fd p st Hwq Hp) as (rc & st1 & E & Hso & Hor). rewrite E in Hs.
  cbn [mbind outcome_bind] in Hs. destruct (Z.eqb_spec rc 0) as [->|]; [|done].
  destruct Hor as [[_ (Hwq1 & Hst1 & _)]|[? _]]; [|done].
  destruct (IH st1 st' Hwq1 Hps Hs) as (Hwq' & Hst' & Hso').
  split; [done|]. split; [|by eapply same_others_trans].
  rewrite Hst', Hst1. cbn [map concat]. by rewrite app_assoc.
Qed.

(** C33: no frame is lost, duplicated, reordered or torn on the way out. After
    any number of successful [server_send]s, the bytes the kernel has accepted
    followed by those still queued parse to exactly the payloads sent before,
    then the new ones, with nothing left over; the queue invariant holds again. *)
Theorem server_send_stream fd ps st st' :
  wq_ok (get_client st fd) -> stream st fd = [] ->
  Forall (fun p => zlen p <= MSG_MAX /\ Forall u8 p) ps ->
  send_all fd ps st = Ret (true, st') ->
  parse_frames (sent st' fd ++ pending (get_client st' fd)) = (ps, [], false) /\
  (exists ps1 ps2 r, ps = ps1 ++ ps2 /\ parse_frames (sent st' fd) = (ps1, r, false)) /\
  same_others fd st st'.
Proof.
  intros Hwq Hnil Hps Hs.
  assert (Forall (fun p => zlen p <= MSG_MAX) ps) as Hlen by (eapply Forall_impl; [done|]; by intros ? []).
  destruct (send_all_stream fd ps st st' Hwq Hlen Hs) as (_ & Hst & Hso).
  rewrite Hnil, app_nil_l in Hst. unfold stream in Hst.
  assert (parse_frames (concat (map frame ps)) = (ps, [], false)) as Hparse.
  { pose proof (parse_frames_frames ps [] Hps ltac:(constructor)) as H1. rewrite app_nil_r in H1.
    rewrite H1. change (parse_frames []) with (@nil (list Z), @nil Z, false).
    cbv beta iota. by rewrite app_nil_r. }
  rewrite Hst. split; [done|]. split; [|done].
  assert (Forall u8 (concat (map frame ps))) as Hb.
  { clear Hst Hparse Hs. induction Hps as [|q qs [_ Hq] _ IHq]; [constructor|]. cbn [map concat].
    apply Forall_app_2; [|apply IHq; by inversion Hlen]. unfold frame. auto with mr. }
  rewrite <- Hst in Hb, Hparse. apply Forall_app in Hb as [Hb1 Hb2].
  rewrite parse_frames_app in Hparse by done.
  destruct (parse_frames (sent st' fd)) as [[ps1 r1] o1]. destruct o1; [done|].
  destruct (parse_frames (r1 ++ _)) as [[ps2 r2] o2]. injection Hparse as <- _ _.
  by exists ps1, ps2, r1.
Qed.
End SendProps.

Section WriteProps.
Context {A : Type} `{ServerHandlers A}.
Implicit Types st : sys A.

(** The drain keeps the stream. [on_write] on a well-formed queue either
    sends a prefix of the pending bytes and keeps the rest queued, or drops the
    client, or sends everything, leaves the write table and hands the read
    buffer to [process_buffer]. *)
Theorem on_write_drains fd st :
  wq_ok (get_client st fd) ->
  exists st1, same_others fd st st1 /\
    (on_write fd st = Ret st1 /\ (queued fd [] st st1 \/ get_client st1 fd = client_zero /\ sent st1 fd = sent st fd) \/
     on_write fd st = process_buffer fd st1 /\ queued fd [] st st1 /\ pending (get_client st1 fd) = [] /\
       (0 <= fd < MAX_FDS -> el_write_handlers (s_el (sv st1)) !! fd = None)).
Proof.
  intros Hwq. unfold on_write. set (c := get_client st fd) in *.
  destruct (sock_write (script st) (wlen c - c_woff c)) as [[n|[]] s'] eqn:E.
  3:{ eexists. split; [|left; split; [done|right; by srv_simpl]].
      eapply same_others_trans; [|apply same_others_remove]. apply same_others_script. }
  2:{ eexists. split; [|left; split; [done|left]]; [apply same_others_script|].
      unfold queued, stream. srv_simpl. rewrite app_nil_r. by split. }
  assert (0 <= wlen c - c_woff c) as Hpos.
  { destruct Hwq as (? & ? & [?|[Hz Hnil]]); [lia|]. unfold wlen. rewrite Hz, Hnil. done. }
  destruct (sock_write_bound _ _ _ _ Hpos E) as [Hn _]. fold (pending c).
  assert (forall c b, same_others fd st (put_client fd c (record_sent fd b (set_script s' st)))) as Hso.
  { intros. eapply same_others_trans; [|apply same_others_put]. exact (same_others_record fd b st). }
  destruct (Z.eqb_spec (c_woff c + n) (wlen c)) as [Hall|Hpart].
  - eexists. split; [|right; split; [reflexivity|]]; [exact (Hso _ _)|].
    split; [|split].
    + unfold queued, stream. srv_simpl. rewrite wq_sent_all by done.
      rewrite app_nil_r, app_nil_r. split; [apply wq_drained|]. by split.
    + by srv_simpl.
    + intros Hfd. unfold el_remove_write, fd_out_of_range. cbn.
      destruct (Z.ltb_spec fd 0), (Z.leb_spec MAX_FDS fd); [lia..|]. cbn. apply lookup_delete_eq.
  - eexists. split; [|left; split; [reflexivity|left]]; [apply Hso|].
    destruct (wq_sent c n Hwq) as [Hwq3 Hp3]; [lia|done|].
    unfold queued, stream. srv_simpl. rewrite app_nil_r, <- !app_assoc, Hp3. by split.
Qed.
End WriteProps.

(** ** The clock and the timeouts *)

Section ClockProps.
Context {A : Type} `{HS : ServerHandlersSpec A}.
Implicit Types st : sys A.

Lemma clock_add_write fd st : clock_of (sv (add_write_handler fd st)) = clock_of (sv st).
Proof. unfold add_write_handler. by destruct (el_add_write _ _ _ _) as [[??]?]. Qed.

Lemma process_frames_clock fuel : forall fd st st',
  process_frames fuel fd st = Ret st' -> clock_of (sv st') = clock_of (sv st).
Proof.
  induction fuel as [|fuel IH]; intros fd st st' Hp; cbn [process_frames] in Hp.
  { destruct (_ <? _); [by injection Hp as <-|done]. }
  destruct (_ <? _); [by injection Hp as <-|].
  destruct (_ <? _); [by injection Hp as <-|].
  destruct (_ <? _); [by injection Hp as <-|].
  apply outcome_bind_Ret in Hp as ([rc st1] & Hm & Hp). apply on_message_clock in Hm as <-.
  destruct (negb (rc =? 0)); [by injection Hp as <-|].
  destruct (_ <? _); [done|]. by apply IH in Hp.
Qed.

Lemma call_handler_clock h fd k st st' :
  call_handler h fd k st = Ret st' -> clock_of (sv st') = clock_of (sv st).
Proof.
  destruct h; cbn [call_handler]; intros Hc.
  - unfold on_read in Hc. destruct (negb _); [by injection Hc as <-|].
    destruct (k_read k) as [b|[]]; [|by injection Hc as <-..].
    destruct (_ =? 0); [by injection Hc as <-|]. by apply process_frames_clock in Hc.
  - unfold on_write in Hc. destruct (sock_write _ _) as [[n|[]] s]; [|by injection Hc as <-..].
    destruct (_ =? _); [by apply process_frames_clock in Hc|by injection Hc as <-].
  - injection Hc as <-. unfold on_accept. destruct (k_accept k) as [n|]; [|done].
    destruct (_ <=? _); [done|]. destruct (set_non_blocking _) as [rc s]. destruct (_ =? _); [done|].
    destruct (el_add _ _ _ _) as [[rc' el] s']. by destruct (_ =? _).
  - by injection Hc as <-.
Qed.

(** The server's clock stands still. Because the call of the [before_sleep]
    hook in [el_run] is commented out, no run of the loop, whatever the kernel
    reports, changes [now_ms], [cronloops] or [last_timeout_check_ms]: neither
    the client timeouts nor the application's periodic callback ever run. *)
Theorem server_run_clock_frozen answers st rc st' :
  server_run answers st = Ret (rc, st') ->
  s_now_ms (sv st') = s_now_ms (sv st) /\ s_cronloops (sv st') = s_cronloops (sv st) /\
  s_last_timeout_check_ms (sv st') = s_last_timeout_check_ms (sv st).
Proof.
  intros Hr. assert (clock_of (sv st') = clock_of (sv st)) as E; [|by injection E].
  revert Hr. unfold server_run.
  apply (el_run_inv _ _ (fun _ _ => True) (fun s => clock_of (sv s) = clock_of (sv st)));
    [|apply events_good_any|done].
  intros h fd e s s' _ Hs Hc. rewrite <- Hs. by eapply call_handler_clock.
Qed.
End ClockProps.

Section TimeoutProps.
Context {A : Type} `{ServerCallbacks A}.
Implicit Types st : sys A.

(** The test of [check_client_timeouts]. *)
Definition idle_too_long (st : sys A) (fd : Z) : Prop :=
  s_client_timeout_s (sv st) <= Z.quot (s_now_ms (sv st) - c_last_active_ms (get_client st fd)) 1000.

(** Slots without a client are skipped. *)
Lemma timeouts_skip k : forall i n found st,
  (forall fd, i <= fd < i + Z.of_nat k -> c_active (get_client st fd) = false) ->
  check_client_timeouts i (k + n) found st = check_client_timeouts (i + Z.of_nat k) n found st.
Proof.
  induction k as [|k IH]; intros i n found st Hin; [by rewrite Z.add_0_r|].
  cbn [Nat.add check_client_timeouts].
  destruct (Z.ltb_spec found (s_clients_count (sv st))) as [Hf|Hf]; cbn [negb].
  - rewrite Hin by lia. cbn [negb]. rewrite IH by (intros; apply Hin; lia). f_equal. lia.
  - destruct n; cbn [check_client_timeouts]; [done|].
    by destruct (Z.ltb_spec found (s_clients_count (sv st))); [lia|].
Qed.

Lemma check_timeouts_get n : forall i found st fd,
  get_client (check_client_timeouts i n found st) fd = get_client st fd \/
  i <= fd < i + Z.of_nat n /\ c_active (get_client st fd) = true /\ idle_too_long st fd /\
  get_client (check_client_timeouts i n found st) fd = client_zero.
Proof.
  induction n as [|n IH]; intros i found st fd; cbn [check_client_timeouts]; [by left|].
  destruct (negb (found <? _)); [by left|].
  destruct (c_active (get_client st i)) eqn:Ha; cbn [negb].
  2:{ destruct (IH (i + 1) found st fd) as [?|(? & ?)]; [by left|right]. split; [lia|done]. }
  destruct (Z.leb_spec (s_client_timeout_s (sv st))
    (Z.quot (s_now_ms (sv st) - c_last_active_ms (get_client st i)) 1000)) as [Hidle|Hidle].
  2:{ destruct (IH (i + 1) (found + 1) st fd) as [?|(? & ?)]; [by left|right]. split; [lia|done]. }
  destruct (decide (fd = i)) as [->|Hne].
  - right. split; [lia|]. split; [done|]. split; [exact Hidle|].
    destruct (IH (i + 1) (found + 1) (remove_client i st) i) as [->|(? & ?)]; [apply get_remove_eq|lia].
  - destruct (IH (i + 1) (found + 1) (remove_client i st) fd) as [E|(? & Hact & Hid & E)];
      unfold idle_too_long in *; rewrite get_remove_ne in * by done; [by left|right].
    split; [lia|]. by split_and!.
Qed.

(** The scan for idle clients can stop short. It ends when [found] reaches
    [clients_count], and removing a client lowers that count: with two clients,
    both idle for too long, the first is removed and the second is not even
    looked at. *)
Theorem check_client_timeouts_early st i j :
  0 <= i < j -> j < MAX_FDS ->
  (forall fd, c_active (get_client st fd) = true <-> fd = i \/ fd = j) ->
  s_clients_count (sv st) = 2 -> idle_too_long st i ->
  let st' := check_client_timeouts 0 (Z.to_nat MAX_FDS) 0 st in
  get_client st' i = client_zero /\ get_client st' j = get_client st j /\
  s_clients_count (sv st') = 1.
Proof.
  intros Hij Hj Hact Hcount Hidle.
  assert (forall fd, fd <> i -> fd <> j -> c_active (get_client st fd) = false) as Hno.
  { intros fd ? ?. destruct (c_active (get_client st fd)) eqn:E; [|done]. apply Hact in E. tauto. }
  assert (check_client_timeouts 0 (Z.to_nat MAX_FDS) 0 st = remove_client i st) as ->.
  { replace (Z.to_nat MAX_FDS) with (Z.to_nat i + S (Z.to_nat (MAX_FDS - i - 1)))%nat by lia.
    rewrite timeouts_skip by (intros; apply Hno; lia). rewrite Z.add_0_l, Z2Nat.id by lia.
    cbn [check_client_timeouts]. rewrite Hcount. cbn [Z.ltb Z.compare negb].
    rewrite (proj2 (Hact i)) by auto. cbn [negb].
    destruct (Z.leb_spec (s_client_timeout_s (sv st))
      (Z.quot (s_now_ms (sv st) - c_last_active_ms (get_client st i)) 1000)); [|unfold idle_too_long in *; lia].
    destruct (Z.to_nat (MAX_FDS - i - 1)) as [|n]; cbn [check_client_timeouts]; [done|].
    by rewrite (eq_refl : s_clients_count (sv (remove_client i st)) = wrap 64 (s_clients_count (sv st) - 1)), Hcount. }
  split; [apply get_remove_eq|]. split; [apply get_remove_ne; lia|]. cbn. by rewrite Hcount.
Qed.

(** A client that talked recently is kept. *)
Theorem check_client_timeouts_spares st fd :
  let st' := check_client_timeouts 0 (Z.to_nat MAX_FDS) 0 st in
  get_client st' fd = get_client st fd \/
  0 <= fd < MAX_FDS /\ c_active (get_client st fd) = true /\ idle_too_long st fd /\
  get_client st' fd = client_zero.
Proof. exact (check_timeouts_get _ 0 0 st fd). Qed.

End TimeoutProps.

(** ** Sending and the read buffer

    A send neither reads nor writes the read buffer, so an application that
    only sends meets the contract. *)

Section SendForget.
Context {A : Type} `{ServerCallbacks A}.
Implicit Types st : sys A.

Lemma forget_put_client fd c st :
  put_client fd (c_set_buf [] c) (forget_rbuf fd st) = forget_rbuf fd (put_client fd c st).
Proof. unfold forget_rbuf, set_rbuf. by rewrite get_put_eq, !put_put. Qed.

Lemma forget_add_write fd st :
  add_write_handler fd (forget_rbuf fd st) = forget_rbuf fd (add_write_handler fd st).
Proof.
  unfold add_write_handler. change (script (forget_rbuf fd st)) with (script st).
  change (s_el (sv (forget_rbuf fd st))) with (s_el (sv st)).
  by destruct (el_add_write _ _ _ _) as [[??]?].
Qed.

Lemma forget_remove fd st : forget_rbuf fd (remove_client fd st) = remove_client fd st.
Proof.
  unfold forget_rbuf, set_rbuf, get_client, remove_client, put_client, set_sv, set_app, s_set_clients.
  cbn. rewrite lookup_insert_eq. cbn. by rewrite insert_insert_eq.
Qed.

Lemma queue_write_forget fd data st :
  queue_write fd data (forget_rbuf fd st) =
  let '(ok, st') := queue_write fd data st in (ok, forget_rbuf fd st').
Proof.
  unfold queue_write. fold (make_room data (get_client st fd)).
  fold (make_room data (get_client (forget_rbuf fd st) fd)).
  replace (make_room data (get_client (forget_rbuf fd st) fd))
    with (c_set_buf [] (make_room data (get_client st fd))).
  2:{ unfold forget_rbuf. rewrite get_set_rbuf. unfold make_room.
      change (wlen (c_set_buf [] ?c)) with (wlen c). by destruct (_ && _). }
  set (c := make_room data (get_client st fd)).
  change (wlen (c_set_buf [] c)) with (wlen c). rewrite forget_put_client.
  destruct (WBUF_SIZE <? wlen c + zlen data); [done|].
  change (c_set_wbuf (c_wbuf (c_set_buf [] c) ++ data) (c_woff (c_set_buf [] c)) (c_set_buf [] c))
    with (c_set_buf [] (c_set_wbuf (c_wbuf c ++ data) (c_woff c) c)).
  rewrite forget_put_client. set (c' := c_set_wbuf (c_wbuf c ++ data) (c_woff c) c).
  set (st1 := put_client fd c' (put_client fd c st)).
  destruct (wlen c =? 0); [|by rewrite forget_add_write].
  change (script (forget_rbuf fd st1)) with (script st1).
  change (wlen (c_set_buf [] c') - c_woff (c_set_buf [] c')) with (wlen c' - c_woff c').
  destruct (sock_write _ _) as [[n|[]] s].
  - change (wlen (c_set_buf [] c')) with (wlen c'). change (c_woff (c_set_buf [] c')) with (c_woff c').
    change (c_wbuf (c_set_buf [] c')) with (c_wbuf c').
    destruct (_ =? _); [|change (c_set_wbuf (c_wbuf c') (c_woff c' + n) (c_set_buf [] c'))
      with (c_set_buf [] (c_set_wbuf (c_wbuf c') (c_woff c' + n) c'))].
    + change (c_set_wbuf [] 0 (c_set_buf [] c')) with (c_set_buf [] (c_set_wbuf [] 0 c')).
      f_equal. by rewrite <- forget_put_client.
    + f_equal. rewrite <- forget_add_write. f_equal. by rewrite <- forget_put_client.
  - f_equal. by rewrite <- forget_add_write.
  - f_equal. rewrite forget_remove. change (set_script s (forget_rbuf fd st1)) with (forget_rbuf fd (set_script s st1)).
    apply remove_forget.
Qed.

Lemma server_send_forget fd p st :
  server_send fd p (forget_rbuf fd st) =
  ('(rc, st') ← server_send fd p st; Ret (rc, forget_rbuf fd st')).
Proof.
  unfold server_send, send_framed. destruct (_ <? _); [done|]. cbn [mbind outcome_bind].
  rewrite queue_write_forget. by destruct (queue_write _ _ _) as [[] ?].
Qed.

(** What a send leaves alone, whatever the state of the queue. *)
Lemma server_send_keeps fd p st rc st' : server_send fd p st = Ret (rc, st') ->
  clock_of (sv st') = clock_of (sv st) /\
  (rc = 0 /\ app st' = app st /\ c_buf (get_client st' fd) = c_buf (get_client st fd) /\
     c_active (get_client st' fd) = c_active (get_client st fd) /\
     c_last_active_ms (get_client st' fd) = c_last_active_ms (get_client st fd) \/
   rc = -1 /\ (app st' = app st \/ app st' = on_disconnect fd (app st))).
Proof.
  unfold server_send, send_framed. destruct (_ <? _); [done|]. cbn [mbind outcome_bind].
  unfold queue_write. fold (make_room (be_encode 4 (zlen p) ++ p) (get_client st fd)).
  set (c := make_room _ _).
  assert (c_buf c = c_buf (get_client st fd) /\ c_active c = c_active (get_client st fd) /\
    c_last_active_ms c = c_last_active_ms (get_client st fd)) as (Hb & Ha & Ht)
    by (unfold c, make_room; by destruct (_ && _)).
  assert (Hadd : forall st1, app (add_write_handler fd st1) = app st1 /\
    clock_of (sv (add_write_handler fd st1)) = clock_of (sv st1)).
  { intros st1. unfold add_write_handler. by destruct (el_add_write _ _ _ _) as [[??]?]. }
  clearbody c. destruct (_ <? _).
  { intros [= <- <-]. split; [done|]. right. by auto. }
  destruct (wlen c =? 0).
  2:{ intros [= <- <-]. rewrite !(proj1 (Hadd _)), !(proj2 (Hadd _)). split; [done|left].
      srv_simpl. by cbn. }
  destruct (sock_write _ _) as [[n|[]] s].
  - destruct (_ =? _); intros [= <- <-]; rewrite ?(proj1 (Hadd _)), ?(proj2 (Hadd _));
      (split; [done|left]); srv_simpl; by cbn.
  - intros [= <- <-]. rewrite !(proj1 (Hadd _)), !(proj2 (Hadd _)). split; [done|left].
    srv_simpl. by cbn.
  - intros [= <- <-]. split; [done|right]. by auto.
Qed.

Lemma server_send_total fd p st : zlen p <= MSG_MAX ->
  exists rc st', server_send fd p st = Ret (rc, st').
Proof.
  intros Hp. unfold server_send, send_framed. destruct (Z.ltb_spec MSG_MAX (zlen p)); [lia|].
  destruct (queue_write _ _ _) as [ok st']. cbn. eauto.
Qed.
End SendForget.

(** ** Instances of the properties

    An application that records the messages it gets and refuses an empty
    one. *)

Module Recorder.
Definition log := list (Z * list Z).

#[export] Instance recorder_callbacks : ServerCallbacks log := {
  on_connect _ _ a := a;
  on_disconnect fd a := a ++ [(fd, [])];
}.

#[export] Instance recorder_handlers : ServerHandlers log := {
  on_message fd p st :=
    Ret (match p with [] => -1 | _ => 0 end, set_app (app st ++ [(fd, p)]) st);
  on_periodic _ _ a := Ret a;
}.

#[export] Instance recorder_spec : ServerHandlersSpec log.
Proof.
  split; [done| | |].
  - intros fd p st st' E. by injection E as _ <-.
  - intros fd p st st' rc E. by injection E as _ <-.
  - intros fd p st st' rc E. by injection E as _ <-.
Qed.

(** One connected client, on descriptor 5, with [buf] read but not parsed. *)
Definition sample (buf : list Z) (script : list io) : sys log :=
  mk_sys (mk_server 3 el_zero {[5 := mk_client true 0 buf [] 0]} 1 (6, 7) 0 0 0 300) [] script ∅.
End Recorder.
Import Recorder.

Example process_buffer_refines_witness :
  let st := sample [0; 0; 0; 2; 8; 9; 0; 0] [] in
  process_buffer 5 st = receive 5 [0; 0; 0; 2; 8; 9; 0; 0] st /\
  process_buffer 5 st = Ret (set_app [(5, [8; 9])] (sample [0; 0] [])).
Proof.
  intros st. split; [|reflexivity].
  apply (process_buffer_refines 5 st); [by eexists|decide_now].
Defined.

Example on_read_split_witness :
  let st := sample [0; 0; 0] [] in
  on_read 5 (inl ([2; 8] ++ [9; 0])) st = (st' ← on_read 5 (inl [2; 8]) st; on_read 5 (inl [9; 0]) st') /\
  app <$> (match on_read 5 (inl [2; 8; 9; 0]) st with Ret s => Some s | _ => None end) = Some [(5, [8; 9])].
Proof.
  intros st. split; [|reflexivity].
  apply (on_read_split 5 [2; 8] [9; 0] st); try done. decide_now.
Defined.

Example server_send_stream_witness :
  exists st', send_all 5 [[1]; [2; 3]] (sample [] [IoOk 2]) = Ret (true, st') /\
    parse_frames (sent st' 5 ++ pending (get_client st' 5)) = ([[1]; [2; 3]], [], false).
Proof.
  destruct (send_all 5 [[1]; [2; 3]] (sample [] [IoOk 2])) as [[[] st']| |] eqn:E; try discriminate E.
  exists st'. split; [done|].
  apply (server_send_stream 5 [[1]; [2; 3]] (sample [] [IoOk 2]) st'); [decide_now|done|decide_now|exact E].
Defined.

Example on_write_drains_witness :
  let st := put_client 5 (mk_client true 0 [] [1; 2; 3] 1) (sample [] [IoOk 0]) in
  wq_ok (get_client st 5) /\
  exists st1, same_others 5 st st1 /\
    (on_write 5 st = Ret st1 /\ (queued 5 [] st st1 \/ get_client st1 5 = client_zero /\ sent st1 5 = sent st 5) \/
     on_write 5 st = process_buffer 5 st1 /\ queued 5 [] st st1 /\ pending (get_client st1 5) = [] /\
       (0 <= 5 < MAX_FDS -> el_write_handlers (s_el (sv st1)) !! 5 = None)).
Proof. intros st. assert (wq_ok (get_client st 5)) as Hwq by decide_now. split; [done|by apply on_write_drains]. Defined.

Example server_run_clock_frozen_witness :
  exists st', server_run [KEvents [(5, EVFILT_READ, mk_kernel (inl [1]) None)]; KEintr] (sample [] []) =
    Ret (None, st') /\ s_now_ms (sv st') = 0.
Proof.
  destruct (server_run [KEvents [(5, EVFILT_READ, mk_kernel (inl [1]) None)]; KEintr] (sample [] []))
    as [[rc st']| |] eqn:E; try discriminate E.
  exists st'. destruct (server_run_clock_frozen _ _ _ _ E) as (Hnow & _).
  split; [|exact Hnow]. vm_compute in E. injection E as <- <-. vm_compute. reflexivity.
Defined.

(** Two clients, both idle for 400 seconds. *)
Definition two_idle : sys log :=
  mk_sys (mk_server 3 el_zero {[5 := mk_client true 0 [] [] 0; 6 := mk_client true 0 [] [] 0]} 2 (8, 9)
    1 400000 400000 300) [] [] ∅.

Example check_client_timeouts_early_witness :
  c_active (get_client two_idle 6) = true /\ idle_too_long two_idle 6 /\
  get_client (check_client_timeouts 0 (Z.to_nat MAX_FDS) 0 two_idle) 6 = get_client two_idle 6.
Proof.
  split; [done|]. split; [by vm_compute|].
  apply (check_client_timeouts_early two_idle 5 6); [done|done| |done|by vm_compute].
  intros fd. unfold two_idle, get_client. cbn. destruct (decide (fd = 5)) as [->|].
  - rewrite lookup_insert_eq. cbn. by split; auto.
  - rewrite lookup_insert_ne by done. destruct (decide (fd = 6)) as [->|].
    + rewrite lookup_singleton_eq. cbn. by split; auto.
    + rewrite lookup_singleton_ne by done. cbn. by split; [|intros []].
Defined.
