(* ===== verification/Master.v ===== *)
(** * The scheduler (src/master.c)

    Assignment of tasks to workers, completion and failure of attempts, the
    timeout sweep, and the start of a job, as the application behind the
    server's callbacks. *)

From S2P Require Import Prelude Limits Util Rpc Task Aof EventLoop Server Framing.

(** ** State *)

(** [master] and the bytes of the open log. *)
Record master_app := mk_app { a_master : master_t; a_file : list Z }.

Definition master (st : sys master_app) : master_t := a_master (app st).
Definition set_master (m : master_t) (st : sys master_app) : sys master_app :=
  set_app (mk_app m (a_file (app st))) st.
Definition set_file (f : list Z) (st : sys master_app) : sys master_app :=
  set_app (mk_app (a_master (app st)) f) st.

(** Assignments to the fields of [*t]. *)
Definition set_owner (fd : Z) (t : task_t) : task_t :=
  mk_task (t_state t) (t_current_attempt t) (t_attempts_count t) fd
    (t_started_at_ms t) (t_input_path t) (t_input_path_len t) (t_history t).

(** [t->history[t->attempts_count - 1] = r]: the index is a [uint32_t], and an
    index outside the array is a fault. *)
Definition put_history (r : attempt_record_t) (t : task_t) : outcome task_t :=
  let i := wrap 32 (t_attempts_count t - 1) in
  if i <? zlen (t_history t) then
    Ret (mk_task (t_state t) (t_current_attempt t) (t_attempts_count t) (t_owner_fd t)
           (t_started_at_ms t) (t_input_path t) (t_input_path_len t)
           (<[Z.to_nat i := r]> (t_history t)))
  else Fault.

(** Assignments to the fields of [workers[fd]]. *)
Definition set_has_task (b : bool) (w : worker_t) : worker_t :=
  mk_worker (wk_connected_at_ms w) b (wk_current_kind w) (wk_current_task_id w) (wk_current_attempt_id w).
Definition set_assignment (k : task_kind_e) (task_id attempt_id : Z) (w : worker_t) : worker_t :=
  mk_worker (wk_connected_at_ms w) true (Some k) task_id attempt_id.

(** ** Attempts *)

(** [task_attempt_ended]: the return value, the task and the job. *)
Definition task_attempt_ended (t : task_t) (end_status : attempt_end_status_e) (fd now_ms : Z)
    (j : job_t) : outcome (Z * task_t * job_t) :=
  t ← put_history (mk_attempt (t_current_attempt t) fd 0 now_ms end_status) t;
  let t := set_owner (-1) t in
  if MAX_ATTEMPTS <=? t_attempts_count t then
    Ret (-1, set_state TASK_FAILED t, set_phase JOB_FAILED j)
  else Ret (0, set_state TASK_PENDING t, j).

(** [sweep_timeouts(tasks, n)] from slot [i], with [n] slots to go. *)
Fixpoint sweep_timeouts (i n : nat) (now timeout_ms : Z) (tasks : list task_t) (j : job_t)
    : outcome (list task_t * job_t) :=
  match n with
  | O => Ret (tasks, j)
  | S n' =>
      t ← or_fault (tasks !! i);
      if negb (bool_decide (t_state t = TASK_IN_PROGRESS)) then sweep_timeouts (S i) n' now timeout_ms tasks j
      else if now - t_started_at_ms t <=? timeout_ms then sweep_timeouts (S i) n' now timeout_ms tasks j
      else
        '(rc, t, j) ← task_attempt_ended t ATTEMPT_TIMEOUT (t_owner_fd t) now j;
        let tasks := <[i := t]> tasks in
        if negb (rc =? 0) then Ret (tasks, j) else sweep_timeouts (S i) n' now timeout_ms tasks j
  end.

(** ** GetTask *)

(** The assignment of a pending task to [fd]. *)
Definition start_attempt (fd now_ms : Z) (t : task_t) : outcome task_t :=
  let t := mk_task TASK_IN_PROGRESS (wrap 32 (t_current_attempt t + 1))
             (wrap 32 (t_attempts_count t + 1)) fd now_ms (t_input_path t) (t_input_path_len t)
             (t_history t) in
  put_history (mk_attempt (t_current_attempt t) fd now_ms 0 ATTEMPT_RUNNING) t.

(** The loop of [choose_available_task] from slot [i], with [n] slots to go. *)
Fixpoint choose_loop (i n : nat) (fd now_ms : Z) (kind : task_kind_e) (m : master_t)
    : outcome (Z * master_t) :=
  match n with
  | O => Ret (-1, m)
  | S n' =>
      t ← or_fault (get_tasks kind m !! i);
      if bool_decide (t_state t = TASK_PENDING) then
        t ← start_attempt fd now_ms t;
        let m := put_tasks kind (<[i := t]> (get_tasks kind m)) m in
        let w := set_assignment kind (Z.of_nat i) (t_current_attempt t) (get_worker m fd) in
        Ret (Z.of_nat i, put_worker fd w m)
      else choose_loop (S i) n' fd now_ms kind m
  end.

Definition choose_available_task (fd now_ms : Z) (kind : task_kind_e) (m : master_t)
    : outcome (Z * master_t) :=
  choose_loop 0 (Z.to_nat (n_tasks kind (m_job m))) fd now_ms kind m.

(** The encoded reply, or [None] for a return of -1. *)
Definition wait_for_available_tasks (cap : Z) (kind : task_kind_e) (j : job_t)
    : outcome (option (list Z)) :=
  c_assert (n_done kind j <? n_tasks kind j) ;;
  Ret (rpc_encode_wait_resp cap (mk_wait_resp (wrap 32 (Z.quot (j_task_timeout_ms j) 2)))).

(** The reply to a GetTask in the map and reduce phases: the response for the
    task chosen, or a wait; [None] is a return of -1. *)
Definition get_map_task (cap fd now_ms : Z) (m : master_t) : outcome (option (list Z) * master_t) :=
  '(choosen, m) ← choose_available_task fd now_ms TASK_KIND_MAP m;
  if 0 <=? choosen then
    t ← or_fault (m_maps m !! Z.to_nat choosen);
    if MAPREDUCE_PATH_MAX <? t_input_path_len t then Fault
    else
      Ret (rpc_encode_task_map_resp cap
             (mk_map_resp (wrap 32 choosen) (t_current_attempt t) (j_R (m_job m)) (t_input_path_len t)
                (array_bytes (t_input_path t) (t_input_path_len t))), m)
  else
    r ← wait_for_available_tasks cap TASK_KIND_MAP (m_job m);
    Ret (r, m).

Definition get_reduce_task (cap fd now_ms : Z) (m : master_t) : outcome (option (list Z) * master_t) :=
  '(choosen, m) ← choose_available_task fd now_ms TASK_KIND_REDUCE m;
  if 0 <=? choosen then
    t ← or_fault (m_reduces m !! Z.to_nat choosen);
    Ret (rpc_encode_task_reduce_resp cap
           (mk_reduce_resp (wrap 32 choosen) (t_current_attempt t) (j_M (m_job m))), m)
  else
    r ← wait_for_available_tasks cap TASK_KIND_REDUCE (m_job m);
    Ret (r, m).

(** The switch of [master_handle_get_task]. *)
Definition get_task_reply (cap fd now_ms : Z) (m : master_t) : outcome (option (list Z) * master_t) :=
  match j_phase (m_job m) with
  | JOB_MAP => get_map_task cap fd now_ms m
  | JOB_REDUCE => get_reduce_task cap fd now_ms m
  | JOB_DONE | JOB_FAILED => Ret (rpc_encode_done_resp cap, m)
  end.

Section Handlers.
(** The callbacks [server_send] may run through [remove_client]. *)
Context `{ServerCallbacks master_app}.

Definition master_handle_get_task (fd : Z) (st : sys master_app) : outcome (Z * sys master_app) :=
  '(buf, m) ← get_task_reply MSG_MAX fd (s_now_ms (sv st)) (master st);
  let st := set_master m st in
  match buf with
  | None => Ret (-1, st)
  | Some buf =>
      '(rc, st) ← server_send fd buf st;
      Ret (if negb (rc =? 0) then -1 else 0, st)
  end.

(** ** TaskDone *)

(** [master.workers[fd].has_task = false] *)
Definition clear_has_task (fd : Z) (st : sys master_app) : sys master_app :=
  set_master (put_worker fd (set_has_task false (get_worker (master st) fd)) (master st)) st.

(** The kind whose array the phase selects. *)
Definition phase_kind (p : job_phase_e) : outcome task_kind_e :=
  match p with
  | JOB_MAP => Ret TASK_KIND_MAP
  | JOB_REDUCE => Ret TASK_KIND_REDUCE
  | _ => Aborted
  end.

(** The kind stored with a completion: that of the worker's slot. *)
Definition slot_kind_code (w : worker_t) : Z :=
  match wk_current_kind w with Some k => task_kind_code k | None => 0 end.

(** The branch of [task_done_helper] for a result of 0. *)
Definition task_success (fd : Z) (msg : rpc_task_done_req_t) (kind : task_kind_e) (i : nat)
    (t : task_t) (st : sys master_app) : outcome (sys master_app) :=
  let m := master st in
  t ← put_history (mk_attempt (t_current_attempt t) fd 0 (s_now_ms (sv st)) ATTEMPT_SUCCESS)
        (set_state TASK_COMPLETED (set_owner (-1) t));
  let m := put_tasks kind (<[i := t]> (get_tasks kind m)) m in
  let m := set_job (set_n_done kind (wrap 32 (n_done kind (m_job m) + 1)) (m_job m)) m in
  let '(_, file, s) := aof_append_completed (script st) (a_file (app st)) m msg
                         (slot_kind_code (get_worker m fd)) in
  Ret (set_script s (set_file file (set_master (maybe_advance_phase m) st))).

(** The branch for any other result. *)
Definition task_failure (fd : Z) (kind : task_kind_e) (i : nat) (t : task_t) (st : sys master_app)
    : outcome (sys master_app) :=
  let m := master st in
  '(_, t, j) ← task_attempt_ended t ATTEMPT_FAILED fd (s_now_ms (sv st)) (m_job m);
  Ret (set_master (set_job j (put_tasks kind (<[i := t]> (get_tasks kind m)) m)) st).

Definition task_done_helper (fd : Z) (msg : rpc_task_done_req_t) (st : sys master_app)
    : outcome (Z * sys master_app) :=
  kind ← phase_kind (j_phase (m_job (master st)));
  let i := Z.to_nat (wk_current_task_id (get_worker (master st) fd)) in
  t ← or_fault (get_tasks kind (master st) !! i);
  match rpc_encode_task_done_ack MSG_MAX with
  | None => Ret (-1, st)
  | Some buf =>
      if negb (done_attempt_id msg =? t_current_attempt t) then
        '(rc, st) ← server_send fd buf st;
        if negb (rc =? 0) then Ret (-1, clear_has_task fd st) else Ret (0, st)
      else
        st ← (if done_result msg =? 0 then task_success fd msg kind i t st
              else task_failure fd kind i t st);
        '(rc, st) ← server_send fd buf st;
        if negb (rc =? 0) then Ret (-1, st) else Ret (0, clear_has_task fd st)
  end.

Definition master_handle_task_done (fd : Z) (msg : rpc_task_done_req_t) (st : sys master_app)
    : outcome (Z * sys master_app) :=
  match j_phase (m_job (master st)) with
  | JOB_MAP | JOB_REDUCE => task_done_helper fd msg st
  | JOB_DONE | JOB_FAILED => Ret (-1, st)
  end.

(** ** Callbacks *)

Definition master_on_message (fd : Z) (payload : list Z) (st : sys master_app)
    : outcome (Z * sys master_app) :=
  match rpc_peek_kind payload with
  | Some RPC_GET_TASK_REQ =>
      '(rc, st) ← master_handle_get_task fd st;
      Ret (if negb (rc =? 0) then -1 else 0, st)
  | Some RPC_TASK_DONE_REQ =>
      match rpc_decode_task_done_req (tail payload) with
      | None => Ret (-1, st)
      | Some msg =>
          '(rc, st) ← master_handle_task_done fd msg st;
          Ret (if negb (rc =? 0) then -1 else 0, st)
      end
  | _ => Ret (-1, st)
  end.
End Handlers.

Definition master_on_connect (fd now_ms : Z) (a : master_app) : master_app :=
  mk_app (put_worker fd (mk_worker now_ms false None 0 0) (a_master a)) (a_file a).

(** The slot is cleared; the task is left to the timeout sweep. *)
Definition master_on_disconnect (fd : Z) (a : master_app) : master_app :=
  mk_app (put_worker fd worker_zero (a_master a)) (a_file a).

Definition master_periodic (real : Z) (srv : server_t) (a : master_app) : outcome master_app :=
  let m := set_now_realtime_ms real (a_master a) in
  if negb (Z.rem (s_cronloops srv) 10 =? 0) then Ret (mk_app m (a_file a))
  else
    match j_phase (m_job m) with
    | JOB_MAP =>
        '(tasks, j) ← sweep_timeouts 0 (Z.to_nat (j_M (m_job m))) (s_now_ms srv)
                        (cfg_task_timeout_ms (m_config m)) (m_maps m) (m_job m);
        Ret (mk_app (set_job j (set_maps tasks m)) (a_file a))
    | JOB_REDUCE =>
        '(tasks, j) ← sweep_timeouts 0 (Z.to_nat (j_R (m_job m))) (s_now_ms srv)
                        (cfg_task_timeout_ms (m_config m)) (m_reduces m) (m_job m);
        Ret (mk_app (set_job j (set_reduces tasks m)) (a_file a))
    | JOB_DONE | JOB_FAILED => Ret (mk_app m (a_file a))
    end.

(** [server_set_on_*_cb] with the master's functions. *)
#[export] Instance master_callbacks : ServerCallbacks master_app := {
  on_connect := master_on_connect;
  on_disconnect := master_on_disconnect;
}.

#[export] Instance master_handlers : ServerHandlers master_app := {
  on_message := master_on_message;
  on_periodic := master_periodic;
}.

(** ** Start of a job *)

(** A directory entry, with the answer of [stat] on its path: [None] when it
    fails, otherwise whether it is a regular file. *)
Record dirent := mk_dirent { d_name : list Z; d_stat : option bool }.

Definition input_filter (e : dirent) : bool :=
  match d_name e with c :: _ => negb (c =? 46) | [] => true end.

(** [alphasort] in the C locale: byte order of the names. *)
Fixpoint name_leb (a b : list Z) : bool :=
  match a, b with
  | [], _ => true
  | _ :: _, [] => false
  | x :: a, y :: b => (x <? y) || ((x =? y) && name_leb a b)
  end.
Definition entry_le (a b : dirent) : Prop := name_leb (d_name a) (d_name b) = true.
#[export] Instance entry_le_dec a b : Decision (entry_le a b).
Proof. unfold entry_le. apply _. Defined.

(** [scandir(input_dir, &entries, input_filter, alphasort)] *)
Definition scandir (dir : list dirent) : list dirent :=
  merge_sort entry_le (filter (fun e => input_filter e = true) dir).

(** [snprintf(path, sizeof path, "%s/%s", input_dir, d_name)] *)
Definition entry_path (m : master_t) (e : dirent) : list Z :=
  cfg_input_dir (m_config m) ++ [47] ++ d_name e.

(** The loop over the entries; [None] is an error exit. *)
Fixpoint init_maps (entries : list dirent) (M : Z) (m : master_t) : option Z * master_t :=
  match entries with
  | [] => (Some M, m)
  | e :: entries =>
      let path := entry_path m e in
      if MAPREDUCE_PATH_MAX <=? zlen path then (None, m)
      else
        match d_stat e with
        | None => (None, m)
        | Some false => init_maps entries M m
        | Some true =>
            if MAX_MAP_TASKS <=? M then (None, m)
            else
              init_maps entries (M + 1)
                (set_maps (alter (fun t => set_input_path path (zlen path) (task_reset_pending t))
                             (Z.to_nat M) (m_maps m)) m)
        end
  end.

(** [dir] lists the input directory, or is [None] when [scandir] fails. *)
Definition master_init_job (dir : option (list dirent)) (m : master_t) : Z * master_t :=
  match dir with
  | None => (-1, m)
  | Some dir =>
      match init_maps (scandir dir) 0 m with
      | (None, m) => (-1, m)
      | (Some M, m) =>
          if M =? 0 then (-1, m)
          else
            let R := wrap 32 (cfg_n_reduce (m_config m)) in
            if (R =? 0) || (MAX_REDUCE_TASKS <? R) then (-1, m)
            else
              let m := set_reduces (reset_slots R (m_reduces m)) m in
              (0, set_job (mk_job M R JOB_MAP 0 0 (cfg_task_timeout_ms (m_config m))) m)
      end
  end.

(** [master_bootstrap_job] with the log file [file] (absent or its bytes), when
    opening it would give the descriptor [fd], at wall-clock time [created];
    [mkdir]'s success and [EEXIST] are one answer. *)
Definition master_bootstrap_job (s : list io) (dir : option (list dirent)) (file : option (list Z))
    (fd created : Z) (m : master_t) : outcome (Z * master_t * option (list Z) * list io) :=
  let '(mkdir_ok, s) := io_simple s in
  if negb mkdir_ok then Ret (-1, m, file, s)
  else
    let '(mkdir_ok, s) := io_simple s in
    if negb mkdir_ok then Ret (-1, m, file, s)
    else
      let '(stat_ok, s) := io_simple s in
      let aof_exists := stat_ok && (0 <? zlen (default [] file)) in
      '(rc, m, s) ← (if aof_exists then aof_load s file m
                     else let '(rc, m) := master_init_job dir m in Ret (rc, m, s));
      if negb (rc =? 0) then Ret (-1, m, file, s)
      else
        '(rc, m, file, s) ← aof_init s file fd created m;
        Ret (if negb (rc =? 0) then -1 else 0, m, file, s).

(** [master_init] at wall-clock time [real] and monotonic time [now]. *)
Definition master_init (s : list io) (fds : init_fds) (real now : Z) (m : master_t)
    : outcome (bool * master_t * server_t * list io) :=
  let m := set_now_realtime_ms real m in
  '(rc, srv, s) ← server_init s fds now (cfg_hz (m_config m)) (cfg_client_timeout_s (m_config m));
  Ret (rc =? 0, m, srv, s).

(** ** The master meets the server's contract *)

Lemma handle_get_task_forget fd (st : sys master_app) :
  master_handle_get_task fd (forget_rbuf fd st) =
  ('(rc, st') ← master_handle_get_task fd st; Ret (rc, forget_rbuf fd st')).
Proof.
  unfold master_handle_get_task. change (master (forget_rbuf fd st)) with (master st).
  change (s_now_ms (sv (forget_rbuf fd st))) with (s_now_ms (sv st)).
  rewrite bind_bind. apply outcome_bind_ext. intros [[buf|] m] _; [|done].
  change (set_master m (forget_rbuf fd st)) with (forget_rbuf fd (set_master m st)).
  rewrite server_send_forget, !bind_bind. by apply outcome_bind_ext; intros [rc st'] _.
Qed.

Lemma task_success_forget fd msg k i t (st : sys master_app) :
  task_success fd msg k i t (forget_rbuf fd st) =
  (st' ← task_success fd msg k i t st; Ret (forget_rbuf fd st')).
Proof.
  unfold task_success. change (s_now_ms (sv (forget_rbuf fd st))) with (s_now_ms (sv st)).
  rewrite bind_bind. apply outcome_bind_ext. intros t' _.
  change (script (forget_rbuf fd st)) with (script st).
  change (a_file (app (forget_rbuf fd st))) with (a_file (app st)).
  change (master (forget_rbuf fd st)) with (master st).
  by destruct (aof_append_completed _ _ _ _ _) as [[??]?].
Qed.

Lemma task_failure_forget fd k i t (st : sys master_app) :
  task_failure fd k i t (forget_rbuf fd st) =
  (st' ← task_failure fd k i t st; Ret (forget_rbuf fd st')).
Proof.
  unfold task_failure. change (s_now_ms (sv (forget_rbuf fd st))) with (s_now_ms (sv st)).
  rewrite bind_bind. change (master (forget_rbuf fd st)) with (master st).
  by apply outcome_bind_ext; intros [[??]?] _.
Qed.

Lemma task_done_forget fd msg (st : sys master_app) :
  task_done_helper fd msg (forget_rbuf fd st) =
  ('(rc, st') ← task_done_helper fd msg st; Ret (rc, forget_rbuf fd st')).
Proof.
  unfold task_done_helper. change (master (forget_rbuf fd st)) with (master st).
  rewrite bind_bind. apply outcome_bind_ext. intros k _. rewrite bind_bind.
  apply outcome_bind_ext. intros t _.
  destruct (rpc_encode_task_done_ack MSG_MAX) as [buf|]; [|done].
  destruct (negb (done_attempt_id msg =? t_current_attempt t)).
  - rewrite server_send_forget, !bind_bind. apply outcome_bind_ext. intros [rc st'] _. cbn.
    by destruct (negb (rc =? 0)).
  - rewrite task_success_forget, task_failure_forget.
    destruct (done_result msg =? 0); rewrite !bind_bind; apply outcome_bind_ext; intros st' _; cbn;
      rewrite server_send_forget, !bind_bind; apply outcome_bind_ext; intros [rc st''] _; cbn;
      by destruct (negb (rc =? 0)).
Qed.

(** What a handler's last [server_send] to [fd], from the state [st1], leaves:
    the application as it was, or a client that is about to be removed. *)
Definition after_send (fd : Z) (st1 : sys master_app) (rc : Z) (st' : sys master_app) : Prop :=
  clock_of (sv st') = clock_of (sv st1) /\
  (rc = 0 /\ app st' = app st1 /\ c_buf (get_client st' fd) = c_buf (get_client st1 fd) /\
     c_active (get_client st' fd) = c_active (get_client st1 fd) /\
     c_last_active_ms (get_client st' fd) = c_last_active_ms (get_client st1 fd) \/
   rc = -1 /\ (app st' = app st1 \/ app st' = on_disconnect fd (app st1))).

Lemma after_send_fail fd st1 : after_send fd st1 (-1) st1.
Proof. split; [done|]. right. by auto. Qed.

Lemma server_send_after fd p st1 rc st' : server_send fd p st1 = Ret (rc, st') -> after_send fd st1 rc st'.
Proof. exact (server_send_keeps fd p st1 rc st'). Qed.

Lemma handle_get_task_inv fd st rc st' : master_handle_get_task fd st = Ret (rc, st') ->
  exists buf m1, get_task_reply MSG_MAX fd (s_now_ms (sv st)) (master st) = Ret (buf, m1) /\
    after_send fd (set_master m1 st) rc st'.
Proof.
  unfold master_handle_get_task. intros Hg.
  apply outcome_bind_Ret in Hg as ([buf m1] & E & Hg). exists buf, m1. split; [done|].
  destruct buf as [buf|]; [|injection Hg as <- <-; apply after_send_fail].
  apply outcome_bind_Ret in Hg as ([rc1 st1] & Hs & Hg). apply server_send_after in Hs.
  injection Hg as <- <-. pose proof Hs as [_ [[-> _]|[-> _]]]; exact Hs.
Qed.

(** The record of a TaskDone that is not stale, before the acknowledgement. *)
Definition record_result (fd : Z) (msg : rpc_task_done_req_t) (kind : task_kind_e) (i : nat)
    (t : task_t) (st : sys master_app) : outcome (sys master_app) :=
  if done_result msg =? 0 then task_success fd msg kind i t st else task_failure fd kind i t st.

(** The slot index a TaskDone of [fd] acts on. *)
Definition slot_index (fd : Z) (m : master_t) : nat := Z.to_nat (wk_current_task_id (get_worker m fd)).

Lemma task_done_inv fd msg st rc st' : task_done_helper fd msg st = Ret (rc, st') ->
  exists kind t, phase_kind (j_phase (m_job (master st))) = Ret kind /\
    get_tasks kind (master st) !! slot_index fd (master st) = Some t /\
    ((done_attempt_id msg <> t_current_attempt t /\
        exists st2, after_send fd st rc st2 /\ st' = (if rc =? 0 then st2 else clear_has_task fd st2)) \/
     (done_attempt_id msg = t_current_attempt t /\
        exists st1 st2, record_result fd msg kind (slot_index fd (master st)) t st = Ret st1 /\
          after_send fd st1 rc st2 /\ st' = (if rc =? 0 then clear_has_task fd st2 else st2))).
Proof.
  unfold task_done_helper. intros Hd. apply outcome_bind_Ret in Hd as (kind & Hk & Hd).
  apply outcome_bind_Ret in Hd as (t & Ht & Hd). apply or_fault_Ret in Ht.
  exists kind, t. split; [done|]. split; [done|].
  change (rpc_encode_task_done_ack MSG_MAX) with (Some [7]) in Hd. cbv beta iota in Hd.
  destruct (Z.eqb_spec (done_attempt_id msg) (t_current_attempt t)) as [E|E]; cbn [negb] in Hd.
  - right. split; [done|]. fold (slot_index fd (master st)) in Hd.
    apply outcome_bind_Ret in Hd as (st1 & Hr & Hd). exists st1.
    apply outcome_bind_Ret in Hd as ([rc2 st2] & Hs & Hd). apply server_send_after in Hs.
    exists st2. split; [done|]. pose proof Hs as [_ [[-> _]|[-> _]]]; cbn in Hd; by injection Hd as <- <-.
  - left. split; [done|]. apply outcome_bind_Ret in Hd as ([rc2 st2] & Hs & Hd).
    apply server_send_after in Hs. exists st2.
    pose proof Hs as [_ [[-> _]|[-> _]]]; cbn in Hd; by injection Hd as <- <-.
Qed.

Lemma record_result_shell fd msg k i t st st' : record_result fd msg k i t st = Ret st' ->
  sv st' = sv st.
Proof.
  unfold record_result, task_success, task_failure. destruct (_ =? 0); intros Hr.
  - apply outcome_bind_Ret in Hr as (t' & _ & Hr).
    destruct (aof_append_completed _ _ _ _ _) as [[??]?]. by injection Hr as <-.
  - apply outcome_bind_Ret in Hr as ([[? t'] j] & _ & Hr). by injection Hr as <-.
Qed.

Lemma record_result_net fd msg k i t st st' : record_result fd msg k i t st = Ret st' ->
  net st' = net st.
Proof.
  unfold record_result, task_success, task_failure. destruct (_ =? 0); intros Hr.
  - apply outcome_bind_Ret in Hr as (t' & _ & Hr).
    destruct (aof_append_completed _ _ _ _ _) as [[??]?]. by injection Hr as <-.
  - apply outcome_bind_Ret in Hr as ([[? t'] j] & _ & Hr). by injection Hr as <-.
Qed.

(** What [master_on_message] did, by the message it decoded. *)
Lemma on_message_inv fd p st rc st' : master_on_message fd p st = Ret (rc, st') ->
  (rc = -1 /\ st' = st) \/
  (rpc_peek_kind p = Some RPC_GET_TASK_REQ /\ master_handle_get_task fd st = Ret (rc, st')) \/
  (exists msg, rpc_peek_kind p = Some RPC_TASK_DONE_REQ /\
     rpc_decode_task_done_req (tail p) = Some msg /\ task_done_helper fd msg st = Ret (rc, st')).
Proof.
  unfold master_on_message. destruct (rpc_peek_kind p) as [[]|]; intros Hm;
    try (injection Hm as <- <-; by left).
  - right; left. split; [done|]. apply outcome_bind_Ret in Hm as ([rc1 st1] & Hg & Hm).
    rewrite Hg. apply handle_get_task_inv in Hg as (_ & _ & _ & _ & [[-> _]|[-> _]]);
      cbn in Hm; by injection Hm as <- <-.
  - destruct (rpc_decode_task_done_req (tail p)) as [msg|]; [|injection Hm as <- <-; by left].
    apply outcome_bind_Ret in Hm as ([rc1 st1] & Hg & Hm). unfold master_handle_task_done in Hg.
    destruct (j_phase _); try (injection Hg as <- <-; cbn in Hm; injection Hm as <- <-; by left).
    all: right; right; exists msg; split; [done|]; split; [done|]; rewrite Hg;
      apply task_done_inv in Hg as (k & t & _ & _ & [(_ & st2 & [_ [[-> _]|[-> _]]] & _)
        |(_ & st0 & st2 & _ & [_ [[-> _]|[-> _]]] & _)]); cbn in Hm; by injection Hm as <- <-.
Qed.

(** A message changes no client but its sender's. *)
Lemma message_others fd p st rc st' : master_on_message fd p st = Ret (rc, st') -> same_others fd st st'.
Proof.
  intros [[_ ->]|[[_ Hg]|(msg & _ & _ & Hd)]]%on_message_inv; [apply same_others_refl| |].
  - unfold master_handle_get_task in Hg. apply outcome_bind_Ret in Hg as ([[buf|] m1] & _ & Hg); [|by injection Hg as _ <-].
    apply outcome_bind_Ret in Hg as ([rc1 st1] & Hs & Hg). injection Hg as _ <-. by apply server_send_others in Hs.
  - unfold task_done_helper in Hd. apply outcome_bind_Ret in Hd as (k & _ & Hd).
    apply outcome_bind_Ret in Hd as (t & _ & Hd). change (rpc_encode_task_done_ack MSG_MAX) with (Some [7]) in Hd. cbv beta iota in Hd.
    destruct (negb _).
    + apply outcome_bind_Ret in Hd as ([rc1 st1] & Hs & Hd). apply server_send_others in Hs.
      destruct (negb _); by injection Hd as _ <-.
    + apply outcome_bind_Ret in Hd as (st0 & Hr & Hd). apply outcome_bind_Ret in Hd as ([rc1 st1] & Hs & Hd).
      pose proof (record_result_shell _ _ _ _ _ _ _ Hr) as Esv. pose proof (record_result_net _ _ _ _ _ _ _ Hr) as Enet.
      assert (same_others fd st st0) as H0 by (intros fd' _; unfold get_client, sent; by rewrite Esv, Enet).
      apply server_send_others in Hs. destruct (negb _); injection Hd as _ <-; by eapply same_others_trans.
Qed.

#[export] Instance master_spec : ServerHandlersSpec master_app.
Proof.
  split.
  - intros fd p st. change (on_message fd p ?s) with (master_on_message fd p s).
    unfold master_on_message. destruct (rpc_peek_kind p) as [[]|]; try done.
    + rewrite handle_get_task_forget, !bind_bind. by apply outcome_bind_ext; intros [rc st'] _.
    + destruct (rpc_decode_task_done_req (tail p)) as [msg|]; [|done].
      unfold master_handle_task_done. change (master (forget_rbuf fd st)) with (master st).
      destruct (j_phase _); try done.
      all: rewrite task_done_forget, !bind_bind; by apply outcome_bind_ext; intros [rc st'] _.
  - intros fd p st st' [[? _]|[[_ Hg]|(msg & _ & _ & Hd)]]%on_message_inv; [done| |].
    + apply handle_get_task_inv in Hg as (buf & m1 & _ & _ & [(_ & _ & ? & ? & ?)|[? _]]); done.
    + apply task_done_inv in Hd as (k & t & _ & _ & [(_ & st2 & [_ Hs] & ->)|(_ & st1 & st2 & Hr & [_ Hs] & ->)]);
        (destruct Hs as [(_ & _ & ? & ? & ?)|[? _]]; [|done]); [done|].
      apply record_result_shell in Hr. unfold get_client in *. by rewrite Hr in *.
  - intros fd p st st' rc [[_ ->]|[[_ Hg]|(msg & _ & _ & Hd)]]%on_message_inv; [done| |].
    + by apply handle_get_task_inv in Hg as (buf & m1 & _ & ? & _).
    + apply task_done_inv in Hd as (k & t & _ & _ & [(_ & st2 & [Hc _] & ->)|(_ & st1 & st2 & Hr & [Hc _] & ->)]).
      * by destruct (rc =? 0).
      * apply record_result_shell in Hr. rewrite <- Hr. by destruct (rc =? 0).
  - intros fd p st st' rc. apply message_others.
Qed.
