(* ===== verification/Sched.v ===== *)
(** * The task table (src/master.c, src/task.h)

    The task invariant of src/task.h and what keeps it: assignment, completion,
    failure, the timeout sweep. The master's steps as a relation that the
    server's loop refines; the invariant holds under every message. *)

From S2P Require Import Prelude Limits Util Rpc Task Aof EventLoop Server Framing Master.

(** ** Arrays by kind *)

(** The capacity of the array of a kind. *)
Definition max_tasks (k : task_kind_e) : Z :=
  match k with TASK_KIND_MAP => MAX_MAP_TASKS | TASK_KIND_REDUCE => MAX_REDUCE_TASKS end.

Lemma get_put_tasks k l m : get_tasks k (put_tasks k l m) = l.
Proof. by destruct k. Qed.
Lemma get_put_tasks_ne k k' l m : k <> k' -> get_tasks k (put_tasks k' l m) = get_tasks k m.
Proof. by destruct k, k'. Qed.
Lemma get_tasks_job k j m : get_tasks k (set_job j m) = get_tasks k m.
Proof. by destruct k. Qed.
Lemma get_tasks_worker k fd w m : get_tasks k (put_worker fd w m) = get_tasks k m.
Proof. by destruct k. Qed.
Lemma job_put_tasks k l m : m_job (put_tasks k l m) = m_job m.
Proof. by destruct k. Qed.
Lemma workers_put_tasks k l m : m_workers (put_tasks k l m) = m_workers m.
Proof. by destruct k. Qed.
Lemma n_done_set k n j : n_done k (set_n_done k n j) = n.
Proof. by destruct k. Qed.
Lemma n_done_set_ne k k' n j : k <> k' -> n_done k (set_n_done k' n j) = n_done k j.
Proof. by destruct k, k'. Qed.
Lemma n_tasks_set_done k k' n j : n_tasks k (set_n_done k' n j) = n_tasks k j.
Proof. by destruct k, k'. Qed.
Lemma phase_set_done k n j : j_phase (set_n_done k n j) = j_phase j.
Proof. by destruct k. Qed.
Lemma n_tasks_set_phase k p j : n_tasks k (set_phase p j) = n_tasks k j.
Proof. by destruct k. Qed.
Lemma n_done_set_phase k p j : n_done k (set_phase p j) = n_done k j.
Proof. by destruct k. Qed.

Create Rewrite HintDb sched.
#[export] Hint Rewrite get_put_tasks get_tasks_job get_tasks_worker job_put_tasks workers_put_tasks
  n_done_set n_tasks_set_done phase_set_done n_tasks_set_phase n_done_set_phase : sched.

(** ** Counting *)

Lemma count_completed_cons n t l : 0 < n ->
  count_completed n (t :: l) = Z.b2z (is_completed t) + count_completed (n - 1) l.
Proof.
  intros Hn. unfold count_completed.
  replace (Z.to_nat n) with (S (Z.to_nat (n - 1))) by lia. cbn [take].
  rewrite filter_cons. destruct (is_completed t) eqn:E; case_decide; try done.
  by rewrite zlen_cons.
Qed.

Lemma count_completed_0 n l : n <= 0 -> count_completed n l = 0.
Proof. intros Hn. unfold count_completed. by replace (Z.to_nat n) with 0%nat by lia. Qed.

Lemma count_completed_insert t' l : forall n i t, Z.of_nat i < n -> l !! i = Some t ->
  count_completed n (<[i := t']> l) =
  count_completed n l - Z.b2z (is_completed t) + Z.b2z (is_completed t').
Proof.
  induction l as [|x l IH]; intros n i t Hi Ht; [done|].
  destruct i as [|i]; cbn in Ht.
  - injection Ht as ->. cbn [insert list_insert]. change (<[0%nat := t']> (t :: l)) with (t' :: l).
    rewrite !count_completed_cons by lia. lia.
  - change (<[S i := t']> (x :: l)) with (x :: <[i := t']> l).
    rewrite !count_completed_cons by lia. rewrite (IH (n - 1) i t) by (done || lia). lia.
Qed.

Lemma count_completed_le l : forall n, 0 <= n -> 0 <= count_completed n l <= n.
Proof.
  induction l as [|x l IH]; intros n Hn.
  - assert (count_completed n [] = 0) as -> by (unfold count_completed; by rewrite take_nil). lia.
  - destruct (decide (n = 0)) as [->|]; [by rewrite count_completed_0|].
    rewrite count_completed_cons by lia. specialize (IH (n - 1)). destruct (is_completed x); cbn; lia.
Qed.

Lemma count_completed_all l : forall n, 0 <= n <= zlen l ->
  count_completed n l = n <->
  (forall i t, Z.of_nat i < n -> l !! i = Some t -> t_state t = TASK_COMPLETED).
Proof.
  induction l as [|x l IH]; intros n Hn.
  - assert (n = 0) as -> by (unfold zlen in Hn; cbn in Hn; lia).
    rewrite count_completed_0 by lia. split; [intros _ i t ?; lia|done].
  - rewrite zlen_cons in Hn. destruct (decide (n = 0)) as [->|].
    { rewrite count_completed_0 by lia. split; [intros _ i t ?; lia|done]. }
    rewrite count_completed_cons by lia. specialize (IH (n - 1) ltac:(lia)).
    pose proof (count_completed_le l (n - 1) ltac:(lia)). split.
    + intros Hc. destruct (is_completed x) eqn:E; cbn in Hc; [|lia].
      intros [|i] t Hi Ht; cbn in Ht.
      * injection Ht as <-. by apply bool_decide_eq_true in E.
      * apply (proj1 IH ltac:(lia) i t); [lia|done].
    + intros Hall. assert (is_completed x = true) as -> by (apply bool_decide_eq_true, (Hall 0%nat); [lia|done]).
      assert (count_completed (n - 1) l = n - 1); [|cbn; lia].
      apply IH. intros i t Hi Ht. apply (Hall (S i) t); [lia|done].
Qed.

(** ** The task invariant of src/task.h *)

(** Entries below [attempts_count] are valid: they are numbered from 1, and
    only the last one of a task in progress is still running. *)
Definition history_ok (t : task_t) : Prop :=
  zlen (t_history t) = MAX_ATTEMPTS /\
  forall i r, t_history t !! i = Some r -> Z.of_nat i < t_attempts_count t ->
    ar_attempt_id r = Z.of_nat i + 1 /\
    (ar_end_status r = ATTEMPT_RUNNING <->
     t_state t = TASK_IN_PROGRESS /\ Z.of_nat i + 1 = t_attempts_count t).

Definition task_ok (t : task_t) : Prop :=
  (t_state t = TASK_IN_PROGRESS <-> t_owner_fd t <> -1) /\
  t_current_attempt t = t_attempts_count t /\ 0 <= t_attempts_count t <= MAX_ATTEMPTS /\
  (t_state t = TASK_PENDING -> t_attempts_count t < MAX_ATTEMPTS) /\
  (t_state t = TASK_IN_PROGRESS -> 0 < t_attempts_count t) /\
  (t_state t = TASK_FAILED -> t_attempts_count t = MAX_ATTEMPTS) /\
  history_ok t.

(** [put_history] in range. *)
Definition with_last (r : attempt_record_t) (t : task_t) : task_t :=
  mk_task (t_state t) (t_current_attempt t) (t_attempts_count t) (t_owner_fd t)
    (t_started_at_ms t) (t_input_path t) (t_input_path_len t)
    (<[Z.to_nat (t_attempts_count t - 1) := r]> (t_history t)).

Lemma put_history_ok r t : 0 <= t_attempts_count t <= MAX_ATTEMPTS -> zlen (t_history t) = MAX_ATTEMPTS ->
  put_history r t = if 0 <? t_attempts_count t then Ret (with_last r t) else Fault.
Proof.
  intros Hc Hl. unfold put_history, with_last, wrap. rewrite Hl. limits.
  destruct (Z.ltb_spec 0 (t_attempts_count t)).
  - rewrite Z.mod_small by lia. by destruct (Z.ltb_spec (t_attempts_count t - 1) 3); [|lia].
  - by replace (t_attempts_count t) with 0 by lia.
Qed.

(** The entries of a history after its last one is rewritten. *)
Lemma history_ok_with_last r t st own : 
  history_ok t -> 0 < t_attempts_count t <= MAX_ATTEMPTS -> st <> TASK_IN_PROGRESS ->
  ar_attempt_id r = t_attempts_count t -> ar_end_status r <> ATTEMPT_RUNNING ->
  history_ok (set_state st (set_owner own (with_last r t))).
Proof.
  intros [Hl Hh] Hc Hst Hid Hrun. split; cbn.
  { unfold zlen in *. by rewrite length_insert. }
  intros i r' Hi Hlt. apply list_lookup_insert_Some in Hi as [(<- & <- & _)|[Hne Hi]].
  - split; [lia|]. split; [congruence|by intros []].
  - destruct (Hh i r' Hi Hlt) as [Hi1 Hi2]. split; [done|]. rewrite Hi2. split; [|by intros []].
    intros [_ Heq]. lia.
Qed.

Lemma task_ok_attempts t : task_ok t -> 0 <= t_attempts_count t <= MAX_ATTEMPTS.
Proof. by intros (_ & _ & ? & _). Qed.
Lemma task_ok_history t : task_ok t -> zlen (t_history t) = MAX_ATTEMPTS.
Proof. by intros (_ & _ & _ & _ & _ & _ & ? & _). Qed.

Lemma task_ok_end r t st : task_ok t -> 0 < t_attempts_count t ->
  ar_attempt_id r = t_current_attempt t -> ar_end_status r <> ATTEMPT_RUNNING ->
  st <> TASK_IN_PROGRESS -> (st = TASK_PENDING -> t_attempts_count t < MAX_ATTEMPTS) ->
  (st = TASK_FAILED -> t_attempts_count t = MAX_ATTEMPTS) ->
  task_ok (set_state st (set_owner (-1) (with_last r t))).
Proof.
  intros (Ho & Hcur & Hc & Hp & Hi & Hf & Hh) Hpos Hid Hrun Hst Hpen Hfail.
  unfold task_ok. cbn. split; [split; congruence|]. split; [done|]. split; [done|].
  split; [done|]. split; [done|]. split; [done|].
  apply history_ok_with_last; [done|lia|done|congruence|done].
Qed.

(** Every way a task changes keeps the invariant. *)
Lemma start_attempt_ok fd now t : task_ok t -> t_state t = TASK_PENDING -> 0 <= fd ->
  exists t', start_attempt fd now t = Ret t' /\ task_ok t' /\ t_state t' = TASK_IN_PROGRESS /\
    t_owner_fd t' = fd /\ t_current_attempt t' = t_current_attempt t + 1 /\
    t_input_path t' = t_input_path t /\ t_input_path_len t' = t_input_path_len t.
Proof.
  intros (Ho & Hcur & Hc & Hp & Hi & Hf & Hl & Hh) Hst Hfd. specialize (Hp Hst).
  unfold start_attempt. unfold MAX_ATTEMPTS in *.
  rewrite !wrap_small by (unfold fits; lia). rewrite put_history_ok by (cbn; unfold MAX_ATTEMPTS; lia).
  cbn [t_attempts_count]. destruct (Z.ltb_spec 0 (t_attempts_count t + 1)); [|lia].
  eexists. split; [reflexivity|]. unfold with_last. cbn. split; [|by split_and!].
  unfold task_ok, history_ok, MAX_ATTEMPTS. cbn. split; [split; [lia|done]|]. split; [lia|].
  split; [lia|]. split; [done|]. split; [lia|]. split; [done|]. split.
  { unfold zlen in *. by rewrite length_insert. }
  intros i r Hir Hlt. apply list_lookup_insert_Some in Hir as [(<- & <- & _)|[Hne Hir]]; cbn.
  - split; [lia|]. split; [|done]. split; [done|lia].
  - destruct (Hh i r Hir ltac:(lia)) as [Hi1 Hi2]. split; [done|]. rewrite Hi2, Hst. split; [by intros []|].
    intros [_ ?]. lia.
Qed.

Lemma task_attempt_ended_ok t es fd now j : task_ok t -> 0 < t_attempts_count t -> es <> ATTEMPT_RUNNING ->
  exists rc t', task_attempt_ended t es fd now j =
      Ret (rc, t', if t_attempts_count t <? MAX_ATTEMPTS then j else set_phase JOB_FAILED j) /\
    task_ok t' /\ rc = (if t_attempts_count t <? MAX_ATTEMPTS then 0 else -1) /\
    t_state t' = (if t_attempts_count t <? MAX_ATTEMPTS then TASK_PENDING else TASK_FAILED) /\
    t_attempts_count t' = t_attempts_count t /\
    t_input_path t' = t_input_path t /\ t_input_path_len t' = t_input_path_len t.
Proof.
  intros Hok Hpos Hes. pose proof (task_ok_attempts _ Hok). unfold task_attempt_ended.
  rewrite put_history_ok by by eauto using task_ok_history.
  destruct (Z.ltb_spec 0 (t_attempts_count t)); [|lia]. cbn [mbind outcome_bind].
  change (t_attempts_count (set_owner (-1) (with_last ?r t))) with (t_attempts_count t).
  destruct (Z.leb_spec MAX_ATTEMPTS (t_attempts_count t)), (Z.ltb_spec (t_attempts_count t) MAX_ATTEMPTS);
    try lia; eexists _, _; (split; [reflexivity|]); (split; [|by split_and!]);
    apply task_ok_end; (done || (cbn; lia)).
Qed.

Definition success_record (fd now : Z) (t : task_t) : attempt_record_t :=
  mk_attempt (t_current_attempt t) fd 0 now ATTEMPT_SUCCESS.

(** The task a success leaves. *)
Definition completed_task (fd now : Z) (t : task_t) : task_t :=
  with_last (success_record fd now t) (set_state TASK_COMPLETED (set_owner (-1) t)).

Lemma success_ok fd now t : task_ok t -> 0 < t_attempts_count t ->
  put_history (success_record fd now t) (set_state TASK_COMPLETED (set_owner (-1) t)) =
    Ret (completed_task fd now t) /\ task_ok (completed_task fd now t).
Proof.
  intros Hok Hpos. pose proof (task_ok_attempts _ Hok). split.
  - rewrite put_history_ok by (cbn; by eauto using task_ok_history).
    cbn [t_attempts_count set_state set_owner].
    by destruct (Z.ltb_spec 0 (t_attempts_count t)); [|lia].
  - change (completed_task fd now t) with
      (set_state TASK_COMPLETED (set_owner (-1) (with_last (success_record fd now t) t))).
    by apply task_ok_end.
Qed.

(** A change of a task that keeps its path. *)
Definition same_path (t t' : task_t) : Prop :=
  t_input_path t' = t_input_path t /\ t_input_path_len t' = t_input_path_len t.

Lemma same_path_ok t t' : same_path t t' -> task_path_ok t -> task_path_ok t'.
Proof. intros [Hp Hl]. unfold task_path_ok. by rewrite Hp, Hl. Qed.

(** ** The task table *)

(** Live slots keep the task invariant; the slots beyond [M] or [R] have
    never been assigned. *)
Definition slot_ok (k : task_kind_e) (j : job_t) (i : nat) (t : task_t) : Prop :=
  task_path_ok t /\
  if Z.of_nat i <? n_tasks k j then task_ok t
  else t_attempts_count t = 0 /\ zlen (t_history t) = MAX_ATTEMPTS.

Definition table_ok (m : master_t) : Prop :=
  forall k, zlen (get_tasks k m) = max_tasks k /\ 0 < n_tasks k (m_job m) <= max_tasks k /\
    forall i t, get_tasks k m !! i = Some t -> slot_ok k (m_job m) i t.

Lemma table_ok_lookup m k i t : table_ok m -> get_tasks k m !! i = Some t -> slot_ok k (m_job m) i t.
Proof. intros Hm. apply Hm. Qed.

Lemma table_ok_live m k i t : table_ok m -> get_tasks k m !! i = Some t ->
  Z.of_nat i < n_tasks k (m_job m) -> task_ok t.
Proof.
  intros Hm Ht Hi. apply (table_ok_lookup _ _ _ _ Hm) in Ht as [_ Ht].
  by destruct (Z.ltb_spec (Z.of_nat i) (n_tasks k (m_job m))); [|lia].
Qed.

Lemma table_ok_path m k i t : table_ok m -> get_tasks k m !! i = Some t -> task_path_ok t.
Proof. intros Hm Ht. by apply (table_ok_lookup _ _ _ _ Hm) in Ht as [? _]. Qed.

Lemma table_ok_n m k : table_ok m -> 0 < n_tasks k (m_job m) <= zlen (get_tasks k m).
Proof. intros Hm. destruct (Hm k) as (-> & ? & _). lia. Qed.

Lemma table_ok_get m k i : table_ok m -> Z.of_nat i < n_tasks k (m_job m) ->
  is_Some (get_tasks k m !! i).
Proof.
  intros Hm Hi. apply lookup_lt_is_Some. pose proof (table_ok_n m k Hm). unfold zlen in *. lia.
Qed.

(** Only the arrays and the task counts matter. *)
Lemma table_ok_ext m m' : table_ok m ->
  (forall k, get_tasks k m' = get_tasks k m) ->
  (forall k, n_tasks k (m_job m') = n_tasks k (m_job m)) -> table_ok m'.
Proof.
  intros Hm Ht Hn k. destruct (Hm k) as (H1 & H2 & H3). rewrite Ht, Hn. split; [done|]. split; [done|].
  intros i t. unfold slot_ok. rewrite Hn. apply H3.
Qed.

(** One live slot is replaced. *)
Lemma table_ok_put m k i t t' : table_ok m -> get_tasks k m !! i = Some t ->
  Z.of_nat i < n_tasks k (m_job m) -> task_ok t' -> same_path t t' ->
  table_ok (put_tasks k (<[i := t']> (get_tasks k m)) m).
Proof.
  intros Hm Ht Hi Ht' Hpath k'. destruct (Hm k') as (H1 & H2 & H3). rewrite job_put_tasks.
  destruct (decide (k = k')) as [<-|Hne]; [|by rewrite get_put_tasks_ne].
  rewrite get_put_tasks. split; [unfold zlen in *; by rewrite length_insert|]. split; [done|].
  intros i' t1 Hlk. apply list_lookup_insert_Some in Hlk as [(<- & <- & _)|[_ Hlk]]; [|by apply H3].
  split; [eapply same_path_ok; [done|by eapply table_ok_path]|].
  by destruct (Z.ltb_spec (Z.of_nat i) (n_tasks k (m_job m))); [|lia].
Qed.

(** A slot whose history can be written is live and has been assigned. *)
Lemma table_ok_assigned m k i t r t0 t' : table_ok m -> get_tasks k m !! i = Some t ->
  t_attempts_count t0 = t_attempts_count t -> t_history t0 = t_history t ->
  put_history r t0 = Ret t' ->
  Z.of_nat i < n_tasks k (m_job m) /\ task_ok t /\ 0 < t_attempts_count t.
Proof.
  intros Hm Ht Hc Hh Hput. pose proof (table_ok_lookup _ _ _ _ Hm Ht) as [_ Hs].
  rewrite put_history_ok in Hput.
  2:{ rewrite Hc. destruct (_ <? _); [by apply task_ok_attempts|]. destruct Hs as [-> _]. by vm_compute. }
  2:{ rewrite Hh. destruct (_ <? _); [by apply task_ok_history|]. by destruct Hs. }
  rewrite Hc in Hput. destruct (Z.ltb_spec 0 (t_attempts_count t)); [|done].
  destruct (Z.ltb_spec (Z.of_nat i) (n_tasks k (m_job m))); [done|]. destruct Hs; lia.
Qed.

(** ** The master's updates *)

(** [fd] takes the pending task [i]. *)
Definition assign_master (k : task_kind_e) (i : nat) (fd : Z) (t' : task_t) (m : master_t) : master_t :=
  let m' := put_tasks k (<[i := t']> (get_tasks k m)) m in
  put_worker fd (set_assignment k (Z.of_nat i) (t_current_attempt t') (get_worker m' fd)) m'.

(** Task [i] is completed. *)
Definition complete_master (k : task_kind_e) (i : nat) (t' : task_t) (m : master_t) : master_t :=
  let m' := put_tasks k (<[i := t']> (get_tasks k m)) m in
  maybe_advance_phase
    (set_job (set_n_done k (wrap 32 (n_done k (m_job m') + 1)) (m_job m')) m').

(** The attempt of task [i] ended without success. *)
Definition fail_master (k : task_kind_e) (i : nat) (t' : task_t) (j : job_t) (m : master_t) : master_t :=
  set_job j (put_tasks k (<[i := t']> (get_tasks k m)) m).

Lemma advance_tasks k m : get_tasks k (maybe_advance_phase m) = get_tasks k m.
Proof. by destruct k. Qed.

Lemma advance_workers m : m_workers (maybe_advance_phase m) = m_workers m.
Proof. done. Qed.

Lemma advance_job_fields k j : n_tasks k (maybe_advance_phase_job j) = n_tasks k j /\
  n_done k (maybe_advance_phase_job j) = n_done k j.
Proof.
  unfold maybe_advance_phase_job.
  destruct (decide (j_phase j = JOB_MAP)), (j_maps_done j =? j_M j); cbn;
    repeat case_decide; repeat case_match; by destruct k.
Qed.

Lemma table_ok_assign m k i t t' fd : table_ok m -> get_tasks k m !! i = Some t ->
  Z.of_nat i < n_tasks k (m_job m) -> task_ok t' -> same_path t t' ->
  table_ok (assign_master k i fd t' m).
Proof.
  intros. eapply table_ok_ext; [by eapply (table_ok_put m k i t t')| |]; intros k'; by destruct k'.
Qed.

Lemma table_ok_complete m k i t t' : table_ok m -> get_tasks k m !! i = Some t ->
  Z.of_nat i < n_tasks k (m_job m) -> task_ok t' -> same_path t t' ->
  table_ok (complete_master k i t' m).
Proof.
  intros. eapply table_ok_ext; [by eapply (table_ok_put m k i t t')| |]; intros k'; unfold complete_master.
  - rewrite advance_tasks. by autorewrite with sched.
  - change (m_job (maybe_advance_phase ?x)) with (maybe_advance_phase_job (m_job x)).
    rewrite (proj1 (advance_job_fields _ _)). cbn [m_job set_job]. by rewrite n_tasks_set_done.
Qed.

Lemma table_ok_fail m k i t t' j : table_ok m -> get_tasks k m !! i = Some t ->
  Z.of_nat i < n_tasks k (m_job m) -> task_ok t' -> same_path t t' ->
  (forall k, n_tasks k j = n_tasks k (m_job m)) -> table_ok (fail_master k i t' j m).
Proof.
  intros Hm Ht Hi Hok Hp Hj. eapply table_ok_ext; [by eapply (table_ok_put m k i t t')| |]; intros k'.
  - unfold fail_master. by autorewrite with sched.
  - rewrite job_put_tasks. apply Hj.
Qed.

Lemma table_ok_worker m fd w : table_ok m -> table_ok (put_worker fd w m).
Proof. intros Hm. eapply table_ok_ext; [exact Hm| |]; intros k; by destruct k. Qed.

(** ** Assignment *)

(** No live slot of a kind is pending. *)
Definition no_pending (k : task_kind_e) (m : master_t) : Prop :=
  forall i t, Z.of_nat i < n_tasks k (m_job m) -> get_tasks k m !! i = Some t ->
    t_state t <> TASK_PENDING.

(** The first pending slot of a kind is [i]. *)
Definition first_pending (k : task_kind_e) (m : master_t) (i : nat) (t : task_t) : Prop :=
  Z.of_nat i < n_tasks k (m_job m) /\ get_tasks k m !! i = Some t /\ t_state t = TASK_PENDING /\
  forall i' t', (i' < i)%nat -> get_tasks k m !! i' = Some t' -> t_state t' <> TASK_PENDING.

Lemma choose_loop_ok n : forall i fd now k m, table_ok m -> 0 <= fd ->
  Z.of_nat (i + n) = n_tasks k (m_job m) ->
  (forall i' t', (i' < i)%nat -> get_tasks k m !! i' = Some t' -> t_state t' <> TASK_PENDING) ->
  (no_pending k m /\ choose_loop i n fd now k m = Ret (-1, m)) \/
  (exists i' t t', first_pending k m i' t /\ start_attempt fd now t = Ret t' /\
     choose_loop i n fd now k m = Ret (Z.of_nat i', assign_master k i' fd t' m)).
Proof.
  induction n as [|n IH]; intros i fd now k m Hm Hfd Hn Hbefore; cbn [choose_loop].
  { left. split; [|done]. intros i' t' Hi'. apply Hbefore. lia. }
  destruct (table_ok_get m k i Hm ltac:(lia)) as [t Ht]. rewrite Ht. cbn [or_fault mbind outcome_bind].
  destruct (bool_decide (t_state t = TASK_PENDING)) eqn:E.
  - apply bool_decide_eq_true in E. right.
    assert (task_ok t) as Hok by (eapply table_ok_live; [done..|lia]).
    destruct (start_attempt_ok fd now t Hok E Hfd) as (t' & Hs & _).
    exists i, t, t'. split; [|split; [done|]]; [split_and!; [lia|done|done|done]|].
    rewrite Hs. done.
  - apply bool_decide_eq_false in E. apply IH; [done|done|lia|].
    intros i' t' Hi' Ht'. destruct (decide (i' = i)) as [->|]; [by simplify_eq|].
    apply (Hbefore i' t'); [lia|done].
Qed.

Lemma choose_ok fd now k m : table_ok m -> 0 <= fd ->
  (no_pending k m /\ choose_available_task fd now k m = Ret (-1, m)) \/
  (exists i t t', first_pending k m i t /\ start_attempt fd now t = Ret t' /\
     choose_available_task fd now k m = Ret (Z.of_nat i, assign_master k i fd t' m)).
Proof.
  intros Hm Hfd. apply choose_loop_ok; [done|done| |lia].
  pose proof (table_ok_n m k Hm). lia.
Qed.

(** The response to an assignment. *)
Definition assignment_msg (k : task_kind_e) (i : nat) (t' : task_t) (j : job_t) : rpc_message :=
  match k with
  | TASK_KIND_MAP =>
      TaskMapResp (mk_map_resp (Z.of_nat i) (t_current_attempt t') (j_R j) (t_input_path_len t') (t_input_path t'))
  | TASK_KIND_REDUCE => TaskReduceResp (mk_reduce_resp (Z.of_nat i) (t_current_attempt t') (j_M j))
  end.

Definition wait_msg (j : job_t) : rpc_message :=
  WaitResp (mk_wait_resp (wrap 32 (Z.quot (j_task_timeout_ms j) 2))).

Lemma encode_ok msg : message_wf msg -> rpc_encode MSG_MAX msg = Some (message_bytes msg).
Proof.
  intros Hwf. rewrite rpc_encode_spec by done. pose proof (message_bytes_max _ Hwf).
  by destruct (Z.ltb_spec MSG_MAX (zlen (message_bytes msg))); [lia|].
Qed.

Lemma assignment_msg_wf m k i t' : table_ok m -> Z.of_nat i < n_tasks k (m_job m) -> task_ok t' ->
  task_path_ok t' -> message_wf (assignment_msg k i t' (m_job m)).
Proof.
  intros Hm Hi Hok [Hl Hp].
  pose proof (proj1 (proj2 (Hm TASK_KIND_MAP))). pose proof (proj1 (proj2 (Hm TASK_KIND_REDUCE))).
  pose proof (task_ok_attempts _ Hok). pose proof (proj1 (proj2 Hok)) as Hcur.
  unfold path_ok in Hp. limits. unfold max_tasks in *. limits. cbn [n_tasks] in *.
  destruct k; cbn; unfold fits; rewrite ?Hcur; cbn [n_tasks] in Hi; limits; lia.
Qed.

Lemma wait_msg_wf j : message_wf (wait_msg j).
Proof. by apply wrap_fits. Qed.

Lemma wait_ok k j : wait_for_available_tasks MSG_MAX k j =
  if n_done k j <? n_tasks k j then Ret (Some (message_bytes (wait_msg j))) else Aborted.
Proof.
  unfold wait_for_available_tasks, c_assert. destruct (n_done k j <? n_tasks k j); [|done].
  exact (f_equal Ret (encode_ok _ (wait_msg_wf j))).
Qed.

Lemma start_attempt_path fd now t t' : start_attempt fd now t = Ret t' -> same_path t t'.
Proof. unfold start_attempt, put_history. destruct (_ <? _); intros; by simplify_eq. Qed.

Lemma first_pending_start k m i t fd now t' : table_ok m -> 0 <= fd -> first_pending k m i t ->
  start_attempt fd now t = Ret t' ->
  task_ok t' /\ t_state t' = TASK_IN_PROGRESS /\ t_owner_fd t' = fd /\
  t_current_attempt t' = t_current_attempt t + 1 /\ same_path t t'.
Proof.
  intros Hm Hfd (Hi & Ht & Hst & _) Hs.
  destruct (start_attempt_ok fd now t) as (t'' & Hs' & ? & ? & ? & ? & ? & ?);
    [by eapply table_ok_live|done|done|].
  rewrite Hs in Hs'. injection Hs' as <-. unfold same_path. by split_and?.
Qed.

(** The reply to a GetTask: the first pending task of the phase's kind, a wait
    when there is none, or the end of the job. *)
Lemma get_task_reply_ok fd now m : table_ok m -> 0 <= fd ->
  match phase_kind (j_phase (m_job m)) with
  | Ret k =>
      (no_pending k m /\ get_task_reply MSG_MAX fd now m =
         if n_done k (m_job m) <? n_tasks k (m_job m)
         then Ret (Some (message_bytes (wait_msg (m_job m))), m) else Aborted) \/
      (exists i t t', first_pending k m i t /\ start_attempt fd now t = Ret t' /\
         get_task_reply MSG_MAX fd now m =
           Ret (Some (message_bytes (assignment_msg k i t' (m_job m))), assign_master k i fd t' m))
  | _ => get_task_reply MSG_MAX fd now m = Ret (Some (message_bytes DoneResp), m)
  end.
Proof.
  intros Hm Hfd. unfold get_task_reply. destruct (j_phase (m_job m)) eqn:Hph; cbn [phase_kind]; [| |done|done].
  - unfold get_map_task. destruct (choose_ok fd now TASK_KIND_MAP m Hm Hfd) as [[Hno ->]|(i & t & t' & Hfp & Hs & ->)].
    + left. split; [done|]. cbn [mbind outcome_bind]. change (0 <=? -1) with false. cbv beta iota.
      rewrite wait_ok. by destruct (_ <? _).
    + right. exists i, t, t'. split; [done|]. split; [done|]. cbn [mbind outcome_bind].
      destruct (first_pending_start _ _ _ _ _ _ _ Hm Hfd Hfp Hs) as (Hok & _ & _ & _ & Hpath).
      destruct Hfp as (Hi & Ht & _).
      assert (task_path_ok t') as [Hl Hp] by (eapply same_path_ok; [done|by eapply table_ok_path]).
      assert (m_maps (assign_master TASK_KIND_MAP i fd t' m) !! Z.to_nat (Z.of_nat i) = Some t') as ->.
      { rewrite Nat2Z.id. cbn. apply list_lookup_insert_eq. by eapply lookup_lt_Some. }
      destruct (Z.leb_spec 0 (Z.of_nat i)); [|lia]. cbn [or_fault mbind outcome_bind].
      unfold path_ok in Hp. destruct (Z.ltb_spec MAPREDUCE_PATH_MAX (t_input_path_len t')); [lia|].
      rewrite array_bytes_exact by done.
      pose proof (assignment_msg_wf m TASK_KIND_MAP i t' Hm Hi Hok (conj Hl Hp)) as Hwf.
      rewrite wrap_small by apply Hwf. exact (f_equal (fun o => Ret (o, _)) (encode_ok _ Hwf)).
  - unfold get_reduce_task. destruct (choose_ok fd now TASK_KIND_REDUCE m Hm Hfd) as [[Hno ->]|(i & t & t' & Hfp & Hs & ->)].
    + left. split; [done|]. cbn [mbind outcome_bind]. change (0 <=? -1) with false. cbv beta iota.
      rewrite wait_ok. by destruct (_ <? _).
    + right. exists i, t, t'. split; [done|]. split; [done|]. cbn [mbind outcome_bind].
      destruct (first_pending_start _ _ _ _ _ _ _ Hm Hfd Hfp Hs) as (Hok & _ & _ & _ & Hpath).
      destruct Hfp as (Hi & Ht & _).
      assert (task_path_ok t') as Hp by (eapply same_path_ok; [done|by eapply table_ok_path]).
      assert (m_reduces (assign_master TASK_KIND_REDUCE i fd t' m) !! Z.to_nat (Z.of_nat i) = Some t') as ->.
      { rewrite Nat2Z.id. cbn. apply list_lookup_insert_eq. by eapply lookup_lt_Some. }
      destruct (Z.leb_spec 0 (Z.of_nat i)); [|lia]. cbn [or_fault mbind outcome_bind].
      pose proof (assignment_msg_wf m TASK_KIND_REDUCE i t' Hm Hi Hok Hp) as Hwf.
      rewrite wrap_small by apply Hwf. exact (f_equal (fun o => Ret (o, _)) (encode_ok _ Hwf)).
Qed.

(** ** TaskDone on the master *)

(** What a recorded result does to the master, and to the log. *)
Lemma record_result_inv fd msg k i t st st' : table_ok (master st) ->
  get_tasks k (master st) !! i = Some t -> record_result fd msg k i t st = Ret st' ->
  Z.of_nat i < n_tasks k (m_job (master st)) /\ task_ok t /\ 0 < t_attempts_count t /\
  ((done_result msg = 0 /\
      master st' = complete_master k i (completed_task fd (s_now_ms (sv st)) t) (master st) /\
      (exists rc file s, aof_append_completed (script st) (a_file (app st)) (master st) msg
         (slot_kind_code (get_worker (master st) fd)) = (rc, file, s) /\
         a_file (app st') = file /\ script st' = s)) \/
   (done_result msg <> 0 /\ a_file (app st') = a_file (app st) /\ script st' = script st /\
      exists rc t' j, task_attempt_ended t ATTEMPT_FAILED fd (s_now_ms (sv st)) (m_job (master st)) = Ret (rc, t', j) /\
        master st' = fail_master k i t' j (master st))).
Proof.
  intros Hm Ht. unfold record_result. destruct (Z.eqb_spec (done_result msg) 0) as [E|E]; intros Hr.
  - unfold task_success in Hr. apply outcome_bind_Ret in Hr as (t' & Hput & Hr).
    destruct (table_ok_assigned _ k i t _ _ _ Hm Ht (eq_refl : t_attempts_count (set_state TASK_COMPLETED (set_owner (-1) t)) = _) eq_refl Hput)
      as (Hi & Hok & Hpos).
    split; [done|]. split; [done|]. split; [done|]. left. split; [done|].
    destruct (success_ok fd (s_now_ms (sv st)) t Hok Hpos) as [Hput' _].
    unfold success_record in Hput'. rewrite Hput in Hput'. injection Hput' as ->.
    assert (Hfd : forall j m0, m_aof_fd (set_job j (put_tasks k m0 (master st))) = m_aof_fd (master st)) by (by destruct k).
    assert (Hw : forall j m0, get_worker (set_job j (put_tasks k m0 (master st))) fd = get_worker (master st) fd) by (by destruct k).
    rewrite Hw in Hr. unfold aof_append_completed in *. rewrite Hfd in Hr.
    destruct (m_aof_fd (master st) <? 0); [injection Hr as <-; split; [done|by eexists _, _, _]|].
    destruct (aof_write_record _ _ _ _) as [[rc f] s]. destruct (rc =? -1); [injection Hr as <-; split; [done|by eexists _, _, _]|].
    destruct (durable_flush s) as [rc2 s2]. destruct (rc2 =? -1); injection Hr as <-; (split; [done|by eexists _, _, _]).
  - unfold task_failure in Hr. apply outcome_bind_Ret in Hr as ([[rc t'] j] & He & Hr).
    pose proof He as Hput. unfold task_attempt_ended in Hput. apply outcome_bind_Ret in Hput as (t1 & Hput & _).
    destruct (table_ok_assigned _ k i t _ _ _ Hm Ht eq_refl eq_refl Hput) as (Hi & Hok & Hpos).
    split; [done|]. split; [done|]. split; [done|]. right. injection Hr as <-. split; [done|]. split; [done|].
    split; [done|]. by exists rc, t', j.
Qed.


(** ** The master as a step relation

    What the server does to the application between two events: it delivers a
    message, accepts or drops a client, or only moves bytes. [ok] says which
    messages the clients send. *)

(** One delivered message, with the removal a refusal causes. *)
Definition handle_message (fd : Z) (p : list Z) (st : sys master_app) : outcome (sys master_app) :=
  '(rc, st') ← master_on_message fd p st;
  Ret (if rc =? 0 then st' else remove_client fd st').

(** The rest of a script after some calls. *)
Definition consumed (s s' : list io) : Prop := exists used, s = used ++ s'.

Inductive master_step (ok : Z -> list Z -> sys master_app -> Prop) (st : sys master_app)
    : sys master_app -> Prop :=
  | step_message fd p st' :
      0 <= fd -> ok fd p st -> handle_message fd p st = Ret st' -> master_step ok st st'
  | step_accept acc :
      (forall fd, acc = Some fd -> 0 <= fd) -> master_step ok st (on_accept acc st)
  | step_disconnect fd : 0 <= fd -> master_step ok st (remove_client fd st)
  | step_io st' :
      app st' = app st -> clock_of (sv st') = clock_of (sv st) ->
      consumed (script st) (script st') -> master_step ok st st'.

Definition any_message (fd : Z) (p : list Z) (st : sys master_app) : Prop := True.

Lemma consumed_refl s : consumed s s.
Proof. by exists []. Qed.
#[export] Hint Resolve consumed_refl : mr.

Lemma sock_write_consumed s len r s' : sock_write s len = (r, s') -> consumed s s'.
Proof.
  destruct s as [|[] s]; cbn; intros; simplify_eq; [by exists []|..];
    (eexists [_]; reflexivity).
Qed.

Lemma step_put ok fd c st : master_step ok st (put_client fd c st).
Proof. apply step_io; auto with mr. Qed.

Lemma process_frames_steps fuel : forall fd st st', 0 <= fd ->
  process_frames fuel fd st = Ret st' -> rtc (master_step any_message) st st'.
Proof.
  induction fuel as [|fuel IH]; intros fd st st' Hfd Hp; cbn [process_frames] in Hp.
  { destruct (_ <? _); [injection Hp as <-; done|done]. }
  destruct (_ <? _); [by injection Hp as <-|].
  destruct (_ <? _); [injection Hp as <-; by apply rtc_once, step_disconnect|].
  destruct (_ <? _); [by injection Hp as <-|].
  apply outcome_bind_Ret in Hp as ([rc st1] & Hm & Hp).
  change (on_message fd ?p st) with (master_on_message fd p st) in Hm.
  assert (Hstep : master_step any_message st (if rc =? 0 then st1 else remove_client fd st1)).
  { eapply step_message; [done|done|]. unfold handle_message. by rewrite Hm. }
  destruct (rc =? 0); cbn [negb] in Hp; [|injection Hp as <-; by apply rtc_once].
  destruct (_ <? _); [done|]. eapply rtc_l; [exact Hstep|].
  eapply rtc_l; [apply step_put|]. by eapply IH.
Qed.

(** The descriptors the kernel reports are not negative. *)
Definition fds_good (fd : Z) (k : kernel_data) : Prop :=
  0 <= fd /\ (forall fd', k_accept k = Some fd' -> 0 <= fd').

Lemma call_handler_steps h fd k (st st' : sys master_app) : fds_good fd k ->
  call_handler h fd k st = Ret st' -> rtc (master_step any_message) st st'.
Proof.
  intros [Hfd Hacc]. destruct h; cbn [call_handler]; intros Hc.
  - unfold on_read in Hc. destruct (negb _); [by injection Hc as <-|].
    destruct (k_read k) as [b|[]];
      [|by injection Hc as <-|injection Hc as <-; by apply rtc_once, step_disconnect].
    destruct (_ =? 0); [injection Hc as <-; by apply rtc_once, step_disconnect|].
    eapply rtc_l; [apply step_put|]. by eapply process_frames_steps.
  - unfold on_write in Hc. destruct (sock_write _ _) as [r s] eqn:E. apply sock_write_consumed in E.
    assert (master_step any_message st (set_script s st)) by by apply step_io.
    destruct r as [n|[]]; [|injection Hc as <-; by apply rtc_once
      |injection Hc as <-; eapply rtc_l; [done|]; by apply rtc_once, step_disconnect].
    destruct (_ =? _); [|injection Hc as <-; by apply rtc_once, step_io].
    eapply rtc_l; [|by eapply process_frames_steps; [|exact Hc]]. by apply step_io.
  - injection Hc as <-. by apply rtc_once, step_accept.
  - injection Hc as <-. apply rtc_once, step_io; auto with mr.
Qed.

(** The server's loop makes only steps of the abstract master. Every run of
    [server_run], for any events, bytes and kernel answers, is a sequence of
    abstract steps: a message delivered (with the removal a refusal causes), a
    connection accepted, a client dropped, or bytes moved without touching the
    application. *)
Lemma server_run_refines answers (st st' : sys master_app) rc :
  Forall (events_good fds_good) answers -> server_run answers st = Ret (rc, st') ->
  rtc (master_step any_message) st st'.
Proof.
  intros Hg. apply (el_run_inv _ _ fds_good (fun s => rtc (master_step any_message) st s)); [|done|done].
  intros h fd e s s' Hgood Hs Hc. etrans; [exact Hs|]. by eapply call_handler_steps.
Qed.

(** ** The application's side of a step *)

Lemma disconnect_put fd w m f :
  master_on_disconnect fd (mk_app (put_worker fd w m) f) = master_on_disconnect fd (mk_app m f).
Proof. unfold master_on_disconnect, put_worker, set_workers. cbn. by rewrite insert_insert_eq. Qed.

Lemma disconnect_twice fd a : master_on_disconnect fd (master_on_disconnect fd a) = master_on_disconnect fd a.
Proof. destruct a. apply disconnect_put. Qed.

Lemma disconnect_clear fd st : on_disconnect fd (app (clear_has_task fd st)) = on_disconnect fd (app st).
Proof. destruct (app st) as [m f] eqn:E. unfold clear_has_task, set_master. cbn. rewrite disconnect_put.
  unfold master. by rewrite E. Qed.

(** The message, if any, that takes effect, and the application after it. *)
Inductive message_effect (fd : Z) (p : list Z) (st : sys master_app) : master_app -> Prop :=
  | effect_none : message_effect fd p st (app st)
  | effect_get buf m1 :
      rpc_peek_kind p = Some RPC_GET_TASK_REQ ->
      get_task_reply MSG_MAX fd (s_now_ms (sv st)) (master st) = Ret (buf, m1) ->
      message_effect fd p st (mk_app m1 (a_file (app st)))
  | effect_done msg k t st1 :
      rpc_peek_kind p = Some RPC_TASK_DONE_REQ -> rpc_decode_task_done_req (tail p) = Some msg ->
      phase_kind (j_phase (m_job (master st))) = Ret k ->
      get_tasks k (master st) !! slot_index fd (master st) = Some t ->
      done_attempt_id msg = t_current_attempt t ->
      record_result fd msg k (slot_index fd (master st)) t st = Ret st1 ->
      message_effect fd p st (app (clear_has_task fd st1)).

Lemma app_remove fd st : app (remove_client fd st) = master_on_disconnect fd (app st).
Proof. done. Qed.

Lemma after_send_app fd st1 rc st2 : after_send fd st1 rc st2 ->
  rc = 0 /\ app st2 = app st1 \/
  rc = -1 /\ app (remove_client fd st2) = master_on_disconnect fd (app st1).
Proof.
  intros [_ [(-> & -> & _)|[-> [E|E]]]]; [by left|right..]; rewrite app_remove, E; [done|].
  split; [done|]. apply disconnect_twice.
Qed.

Lemma handle_message_inv fd p st st' : handle_message fd p st = Ret st' ->
  exists a, message_effect fd p st a /\ (app st' = a \/ app st' = master_on_disconnect fd a).
Proof.
  unfold handle_message. intros Hh. apply outcome_bind_Ret in Hh as ([rc st2] & Hm & Hh).
  injection Hh as <-.
  destruct (on_message_inv _ _ _ _ _ Hm) as [[-> ->]|[[Hk Hg]|(msg & Hk & Hdec & Hd)]].
  - exists (app st). split; [apply effect_none|by right].
  - apply handle_get_task_inv in Hg as (buf & m1 & E & Hs).
    exists (mk_app m1 (a_file (app st))). split; [by eapply effect_get|].
    destruct (after_send_app _ _ _ _ Hs) as [[-> E2]|[-> E2]]; [left|right]; exact E2.
  - destruct (task_done_inv _ _ _ _ _ Hd) as (k & t & Hph & Ht & [(Hne & st3 & Hs & ->)|(Heq & st1 & st3 & Hr & Hs & ->)]).
    + exists (app st). split; [apply effect_none|].
      destruct (after_send_app _ _ _ _ Hs) as [[-> E2]|[-> E2]]; [by left|right].
      change (-1 =? 0) with false. cbv beta iota. rewrite app_remove. setoid_rewrite disconnect_clear. exact E2.
    + exists (app (clear_has_task fd st1)). split; [by eapply effect_done|].
      destruct (after_send_app _ _ _ _ Hs) as [[-> E2]|[-> E2]]; cbn [Z.eqb].
      * left. unfold clear_has_task, set_master, master. cbn. by rewrite E2.
      * right. rewrite E2. symmetry. apply disconnect_clear.
Qed.

(** ** The task table under every message *)

Lemma completed_same_path fd now t : same_path t (completed_task fd now t).
Proof. done. Qed.

Lemma table_ok_record fd msg k i t st st1 : table_ok (master st) ->
  get_tasks k (master st) !! i = Some t -> record_result fd msg k i t st = Ret st1 ->
  table_ok (master st1).
Proof.
  intros Hm Ht Hr. destruct (record_result_inv _ _ _ _ _ _ _ Hm Ht Hr) as
    (Hi & Hok & Hpos & [(_ & -> & _)|(_ & _ & _ & rc & t' & j & He & ->)]).
  - destruct (success_ok fd (s_now_ms (sv st)) t Hok Hpos) as [_ Hok'].
    by eapply table_ok_complete.
  - destruct (task_attempt_ended_ok t ATTEMPT_FAILED fd (s_now_ms (sv st)) (m_job (master st)) Hok Hpos)
      as (rc' & t'' & He' & Hok' & _ & _ & _ & Hp1 & Hp2); [done|].
    rewrite He in He'. injection He' as -> -> ->. eapply table_ok_fail; [done..|].
    intros k'. destruct (_ <? _); [done|apply n_tasks_set_phase].
Qed.

Lemma table_ok_effect fd p st a : 0 <= fd -> table_ok (master st) ->
  message_effect fd p st a -> table_ok (a_master a).
Proof.
  intros Hfd Hm [|buf m1 _ Hg|msg k t st1 _ _ _ Ht _ Hr]; [done| |].
  - cbn. pose proof (get_task_reply_ok fd (s_now_ms (sv st)) (master st) Hm Hfd) as Hok.
    destruct (phase_kind (j_phase (m_job (master st)))) as [k| |].
    + destruct Hok as [[_ E]|(i & t & t' & Hfp & Hs & E)]; rewrite E in Hg.
      * destruct (_ <? _); by simplify_eq.
      * injection Hg as _ <-.
        destruct (first_pending_start _ _ _ _ _ _ _ Hm Hfd Hfp Hs) as (Hok' & _ & _ & _ & Hpath).
        destruct Hfp as (Hi & Ht & _). by eapply table_ok_assign.
    + rewrite Hok in Hg. by simplify_eq.
    + rewrite Hok in Hg. by simplify_eq.
  - apply table_ok_worker. by eapply table_ok_record.
Qed.

Lemma on_accept_app acc (st : sys master_app) : app (on_accept acc st) = app st \/
  exists fd, acc = Some fd /\ app (on_accept acc st) = master_on_connect fd (s_now_ms (sv st)) (app st).
Proof.
  unfold on_accept. destruct acc as [fd|]; [|by left]. destruct (_ <=? _); [by left|].
  destruct (set_non_blocking _) as [rc s]. destruct (_ =? _); [by left|].
  destruct (el_add _ _ _ _) as [[rc' el] s']. destruct (_ =? _); [by left|right]. by exists fd.
Qed.

Lemma table_ok_step ok st st' : master_step ok st st' -> table_ok (master st) -> table_ok (master st').
Proof.
  intros [fd p st1 Hfd _ Hh|acc _|fd _|st1 E _ _] Hm.
  - apply handle_message_inv in Hh as (a & He & E). apply (table_ok_effect _ _ _ _ Hfd Hm) in He.
    unfold master. destruct E as [->| ->]; [done|by apply table_ok_worker].
  - unfold master. destruct (on_accept_app acc st) as [->|(fd & _ & ->)]; [done|by apply table_ok_worker].
  - by apply table_ok_worker.
  - unfold master. by rewrite E.
Qed.

(** C17: the invariants of src/task.h hold whatever the clients send. If they
    hold when the loop starts, they hold after any run of it, for arbitrary
    bytes from the clients: a task is IN_PROGRESS exactly if it has an owner,
    its current attempt is its attempt count and at most [MAX_ATTEMPTS], the
    history entries below the count are numbered from 1, and only a task in
    progress has a running one. *)
Theorem task_table_invariant answers (st st' : sys master_app) rc :
  Forall (events_good fds_good) answers -> table_ok (master st) ->
  server_run answers st = Ret (rc, st') -> table_ok (master st').
Proof.
  intros Hg Hm. apply (el_run_inv _ _ fds_good (fun s => table_ok (master s))); [|done|done].
  intros h fd e s s' Hgood Hs Hc. apply (call_handler_steps _ _ _ _ _ Hgood) in Hc.
  induction Hc as [|s1 s2 s3 Hstep _ IH]; [done|]. by apply IH, (table_ok_step _ _ _ Hstep).
Qed.

(** ** The timeout sweep *)

(** The test of [sweep_timeouts]. *)
Definition overdue (now timeout_ms : Z) (t : task_t) : Prop :=
  t_state t = TASK_IN_PROGRESS /\ timeout_ms < now - t_started_at_ms t.

Lemma overdue_ended now timeout t rc t' j j' fd : task_ok t -> overdue now timeout t ->
  task_attempt_ended t ATTEMPT_TIMEOUT fd now j = Ret (rc, t', j') ->
  task_ok t' /\ same_path t t' /\ t_state t' <> TASK_IN_PROGRESS /\
  (rc = 0 /\ j' = j \/ rc = -1 /\ j' = set_phase JOB_FAILED j).
Proof.
  intros Hok [Hst _] He. assert (0 < t_attempts_count t) as Hpos by by apply Hok.
  destruct (task_attempt_ended_ok t ATTEMPT_TIMEOUT fd now j Hok Hpos) as
    (rc' & t'' & He' & Hok' & Hrc & Hst' & _ & Hp); [done|].
  rewrite He in He'. injection He' as -> -> ->. split; [done|]. split; [done|].
  rewrite Hst', Hrc. destruct (_ <? _); by split; auto.
Qed.

(** What a sweep of the slots from [i] to [i + n] may leave: overdue attempts
    are closed and nothing else changes; it stops early only when the job has
    failed. *)
Definition swept (i n : nat) (now timeout : Z) (tasks : list task_t) (j : job_t)
    (tasks' : list task_t) (j' : job_t) : Prop :=
  length tasks' = length tasks /\ (j' = j \/ j' = set_phase JOB_FAILED j) /\
  (forall i' t', tasks' !! i' = Some t' -> exists t, tasks !! i' = Some t /\
     (t' = t \/ (i <= i' < i + n)%nat /\ overdue now timeout t /\ task_ok t' /\ same_path t t' /\
                t_state t' <> TASK_IN_PROGRESS)) /\
  (j' = set_phase JOB_FAILED j \/
   forall i' t', (i <= i' < i + n)%nat -> tasks' !! i' = Some t' -> ~ overdue now timeout t').

(** A slot that is not overdue is skipped. *)
Lemma swept_skip i n now timeout tasks j tasks' j' t :
  tasks !! i = Some t -> ~ overdue now timeout t ->
  swept (S i) n now timeout tasks j tasks' j' -> swept i (S n) now timeout tasks j tasks' j'.
Proof.
  intros Ht Hno (Hl & Hj & Hall & Hdone). split; [done|]. split; [done|]. split.
  - intros i' t' Hi'. destruct (Hall i' t' Hi') as (t1 & Ht1 & [->|(Hr & Ho)]); [by eauto|].
    exists t1. split; [done|]. right. split; [lia|done].
  - destruct Hdone as [?|Hdone]; [by left|right]. intros i' t' Hi' Ht'.
    destruct (decide (i' = i)) as [->|]; [|apply (Hdone i' t'); [lia|done]].
    destruct (Hall i t' Ht') as (t1 & Ht1 & [->|(Hr & _)]); [|lia]. by simplify_eq.
Qed.

Lemma lookup_put (l : list task_t) i t1 i' t' : <[i := t1]> l !! i' = Some t' ->
  i' = i /\ t' = t1 \/ i' <> i /\ l !! i' = Some t'.
Proof. intros H. apply list_lookup_insert_Some in H as [(<- & <- & _)|[? ?]]; auto. Qed.

(** An overdue slot is closed, and the sweep goes on. *)
Lemma swept_end i n now timeout tasks j tasks' j' t t1 :
  tasks !! i = Some t -> overdue now timeout t -> task_ok t1 -> same_path t t1 ->
  t_state t1 <> TASK_IN_PROGRESS ->
  swept (S i) n now timeout (<[i := t1]> tasks) j tasks' j' -> swept i (S n) now timeout tasks j tasks' j'.
Proof.
  intros Ht Hover Hok1 Hp1 Hst1 (Hl & Hj & Hall & Hdone).
  split; [by rewrite Hl, length_insert|]. split; [done|]. split.
  - intros i' t' Hi'. destruct (Hall i' t' Hi') as (t2 & [[-> ->]|[_ Ht2]]%lookup_put & Hor).
    + exists t. split; [done|]. right. split; [lia|]. destruct Hor as [->|(Hr & _)]; [by split|lia].
    + exists t2. split; [done|]. destruct Hor as [->|(Hr & Ho)]; [by left|right]. split; [lia|done].
  - destruct Hdone as [?|Hdone]; [by left|right]. intros i' t' Hi' Ht'.
    destruct (decide (i' = i)) as [->|]; [|apply (Hdone i' t'); [lia|done]].
    destruct (Hall i t' Ht') as (t2 & [[_ ->]|[? _]]%lookup_put & [->|(Hr & _)]); [|lia|done|lia].
    by intros [? _].
Qed.

Lemma sweep_ok n : forall i now timeout tasks j,
  (i + n <= length tasks)%nat ->
  (forall i' t, (i <= i' < i + n)%nat -> tasks !! i' = Some t -> task_ok t) ->
  exists tasks' j', sweep_timeouts i n now timeout tasks j = Ret (tasks', j') /\
    swept i n now timeout tasks j tasks' j'.
Proof.
  induction n as [|n IH]; intros i now timeout tasks j Hlen Hok; cbn [sweep_timeouts].
  { exists tasks, j. split; [done|]. split_and!; [done|by left|by eauto|right; lia]. }
  destruct (lookup_lt_is_Some_2 tasks i ltac:(lia)) as [t Ht]. rewrite Ht. cbn [or_fault mbind outcome_bind].
  assert (Hskip : ~ overdue now timeout t -> exists tasks' j',
    sweep_timeouts (S i) n now timeout tasks j = Ret (tasks', j') /\ swept i (S n) now timeout tasks j tasks' j').
  { intros Hno. destruct (IH (S i) now timeout tasks j) as (tasks' & j' & E & Hs);
      [lia|intros i' t' Hi'; apply Hok; lia|].
    exists tasks', j'. split; [done|]. by eapply swept_skip. }
  destruct (bool_decide (t_state t = TASK_IN_PROGRESS)) eqn:Est; cbn [negb].
  2:{ apply Hskip. apply bool_decide_eq_false in Est. by intros []. }
  apply bool_decide_eq_true in Est.
  destruct (Z.leb_spec (now - t_started_at_ms t) timeout) as [Hle|Hgt].
  { apply Hskip. intros [_ ?]. lia. }
  assert (Hover : overdue now timeout t) by by split. assert (Htok : task_ok t) by (apply (Hok i); [lia|done]).
  destruct (task_attempt_ended t ATTEMPT_TIMEOUT (t_owner_fd t) now j) as [[[rc t1] j1]| |] eqn:He.
  2,3: destruct (task_attempt_ended_ok t ATTEMPT_TIMEOUT (t_owner_fd t) now j Htok) as (? & ? & He' & _);
    [by apply Htok|done|]; by rewrite He in He'.
  destruct (overdue_ended _ _ _ _ _ _ _ _ Htok Hover He) as (Hok1 & Hp1 & Hst1 & [[-> ->]|[-> ->]]);
    cbn [mbind outcome_bind negb Z.eqb].
  - destruct (IH (S i) now timeout (<[i := t1]> tasks) j) as (tasks' & j' & E & Hs).
    { rewrite length_insert. lia. }
    { intros i' t' Hi' [[-> ->]|[_ Ht']]%lookup_put; [lia|]. apply (Hok i'); [lia|done]. }
    exists tasks', j'. split; [done|]. by eapply swept_end.
  - exists (<[i := t1]> tasks), (set_phase JOB_FAILED j). split; [done|]. split; [by rewrite length_insert|].
    split; [by right|]. split; [|by left]. intros i' t' [[-> ->]|[_ Ht']]%lookup_put; [|by eauto].
    exists t. split; [done|]. right. split; [lia|]. by split.
Qed.

Lemma table_ok_swept m k n now timeout tasks j :
  table_ok m -> Z.of_nat n = n_tasks k (m_job m) ->
  swept 0 n now timeout (get_tasks k m) (m_job m) tasks j -> table_ok (set_job j (put_tasks k tasks m)).
Proof.
  intros Hm Hn (Hl & Hj & Hall & _) k'. destruct (Hm k') as (H1 & H2 & H3).
  rewrite get_tasks_job. cbn [m_job set_job].
  assert (n_tasks k' j = n_tasks k' (m_job m)) as Hn'
    by (destruct Hj as [->| ->]; [done|apply n_tasks_set_phase]). unfold slot_ok. rewrite Hn'.
  destruct (decide (k = k')) as [<-|Hne]; [|by rewrite get_put_tasks_ne].
  rewrite get_put_tasks. split; [by unfold zlen in *; rewrite Hl|]. split; [done|].
  intros i t' Ht'. destruct (Hall i t' Ht') as (t & Ht & [->|(Hi & _ & Hok & Hp & _)]); [by apply H3|].
  split; [eapply same_path_ok; [done|by eapply table_ok_path]|].
  by destruct (Z.ltb_spec (Z.of_nat i) (n_tasks k (m_job m))); [|lia].
Qed.

(** One tick of the periodic callback, were it called. Every tenth time, in
    the map or reduce phase, it returns with the task table well formed and the
    log unchanged; only overdue tasks have changed, and they are no longer in
    progress; and either the job has failed or it is unchanged and no overdue
    task of the phase is left. *)
Theorem master_periodic_sweeps real srv a k :
  table_ok (a_master a) -> phase_kind (j_phase (m_job (a_master a))) = Ret k ->
  Z.rem (s_cronloops srv) 10 = 0 ->
  let late := overdue (s_now_ms srv) (cfg_task_timeout_ms (m_config (a_master a))) in
  exists a', master_periodic real srv a = Ret a' /\ table_ok (a_master a') /\ a_file a' = a_file a /\
    (forall i t', get_tasks k (a_master a') !! i = Some t' -> exists t,
       get_tasks k (a_master a) !! i = Some t /\ (t' = t \/ late t /\ t_state t' <> TASK_IN_PROGRESS)) /\
    (j_phase (m_job (a_master a')) = JOB_FAILED \/
     m_job (a_master a') = m_job (a_master a) /\
     forall i t', Z.of_nat i < n_tasks k (m_job (a_master a)) ->
       get_tasks k (a_master a') !! i = Some t' -> ~ late t').
Proof.
  intros Hm Hk Hcron late. set (m := set_now_realtime_ms real (a_master a)).
  assert (Hm' : table_ok m) by (eapply table_ok_ext; [exact Hm|..]; intros []; done).
  pose proof (table_ok_n m k Hm') as Hn.
  destruct (sweep_ok (Z.to_nat (n_tasks k (m_job m))) 0 (s_now_ms srv)
    (cfg_task_timeout_ms (m_config m)) (get_tasks k m) (m_job m)) as (tasks & j & E & Hs).
  { unfold zlen in Hn. lia. }
  { intros i t Hi Ht. eapply table_ok_live; [done..|lia]. }
  exists (mk_app (set_job j (put_tasks k tasks m)) (a_file a)). split.
  { unfold master_periodic. rewrite Hcron. fold m.
    destruct (j_phase (m_job m)) eqn:Hph; unfold m in Hph; cbn in Hph; rewrite Hph in Hk; cbn in Hk; try discriminate Hk;
      injection Hk as <-; cbn [negb Z.eqb]; change (j_M (m_job m)) with (n_tasks TASK_KIND_MAP (m_job m));
      change (j_R (m_job m)) with (n_tasks TASK_KIND_REDUCE (m_job m)); cbn [get_tasks] in E; by rewrite E. }
  split; [eapply table_ok_swept; [exact Hm'| |exact Hs]; lia|]. split; [done|].
  cbn [a_master]. rewrite get_tasks_job, get_put_tasks. destruct Hs as (_ & Hj & Hall & Hdone). split.
  - intros i t' Ht'. destruct (Hall i t' Ht') as (t & Ht & Hor). exists t.
    split; [by destruct k|]. destruct Hor as [->|(_ & Ho & _ & _ & Hst)]; [by left|right]. by split.
  - cbn [m_job set_job]. destruct Hdone as [->|Hdone]; [by left|].
    destruct Hj as [->| ->]; [right|by left]. split; [done|].
    intros i t' Hi. apply Hdone. change (m_job m) with (m_job (a_master a)). lia.
Qed.

(** ** A job that has just started *)

(** [M] map tasks with their paths and [R] reduce tasks, all pending. *)
Definition fresh_master (cfg : master_config_t) (paths : list (list Z)) (R : Z) : master_t :=
  set_job (mk_job (zlen paths) R JOB_MAP 0 0 (cfg_task_timeout_ms cfg))
    (set_reduces (reset_slots R (m_reduces (master_zero cfg)))
      (set_maps (loaded_maps paths (m_maps (master_zero cfg))) (master_zero cfg))).

Definition job_size_ok (paths : list (list Z)) (R : Z) : Prop :=
  0 < zlen paths <= MAX_MAP_TASKS /\ 0 < R <= MAX_REDUCE_TASKS /\ Forall path_ok paths.

#[export] Instance job_size_ok_dec paths R : Decision (job_size_ok paths R).
Proof. unfold job_size_ok, path_ok. apply _. Defined.

Lemma reset_task_ok t : task_ok (task_reset_pending t) /\ t_state (task_reset_pending t) = TASK_PENDING.
Proof.
  split; [|done]. unfold task_ok, history_ok. cbn. split; [split; done|]. split; [done|].
  split; [by vm_compute|]. split; [by vm_compute|]. do 2 (split; [done|]). split; [by vm_compute|].
  intros i r _ Hi. lia.
Qed.

Lemma path_task_ok p : task_ok (path_task p) /\ t_state (path_task p) = TASK_PENDING.
Proof. exact (reset_task_ok (path_task p)). Qed.

(** The slots of a fresh array: those of the job, then never-used ones. *)
Lemma fresh_lookup (front : list task_t) n max i t : length front = n ->
  (front ++ drop n (replicate max task_zero)) !! i = Some t ->
  (i < n)%nat /\ t ∈ front \/ (n <= i)%nat /\ t = task_zero.
Proof.
  intros Hl [H|[Hge H]]%lookup_app_Some.
  - left. split; [rewrite <- Hl; by eapply lookup_lt_Some|]. by eapply list_elem_of_lookup_2.
  - right. rewrite lookup_drop in H. apply lookup_replicate_1 in H as [-> _]. by rewrite <- Hl.
Qed.

Lemma fresh_reduces cfg R i t : 0 <= R <= MAX_REDUCE_TASKS ->
  reset_slots R (m_reduces (master_zero cfg)) !! i = Some t ->
  Z.of_nat i < R /\ t = task_reset_pending task_zero \/ R <= Z.of_nat i /\ t = task_zero.
Proof.
  intros HR H. apply fresh_lookup in H as [[Hi H]|[Hi ->]].
  - left. split; [lia|]. apply list_elem_of_fmap in H as (t0 & -> & H).
    assert (t0 = task_zero) as ->; [|done]. revert t0 H. apply Forall_forall.
    apply Forall_take. by apply Forall_replicate.
  - right. split; [lia|done].
  - rewrite length_map, length_take. cbn [m_reduces master_zero]. rewrite length_replicate. lia.
Qed.

Lemma fresh_maps cfg paths i t : zlen paths <= MAX_MAP_TASKS ->
  loaded_maps paths (m_maps (master_zero cfg)) !! i = Some t ->
  Z.of_nat i < zlen paths /\ (exists p, p ∈ paths /\ t = path_task p) \/ zlen paths <= Z.of_nat i /\ t = task_zero.
Proof.
  intros HM H. unfold zlen in *. apply fresh_lookup in H as [[Hi H]|[Hi ->]].
  - left. split; [lia|]. apply list_elem_of_fmap in H as (p & -> & H). by exists p.
  - right. split; [lia|done].
  - by rewrite length_map.
Qed.

Lemma fresh_lengths cfg paths R : job_size_ok paths R ->
  zlen (loaded_maps paths (m_maps (master_zero cfg))) = MAX_MAP_TASKS /\
  zlen (reset_slots R (m_reduces (master_zero cfg))) = MAX_REDUCE_TASKS.
Proof.
  intros (HM & HR & _). unfold zlen, loaded_maps, reset_slots in *. cbn [m_maps m_reduces master_zero].
  rewrite !length_app, !length_map, !length_drop, length_take, !length_replicate. limits. lia.
Qed.

Lemma fresh_table_ok cfg paths R : job_size_ok paths R -> table_ok (fresh_master cfg paths R).
Proof.
  intros Hsize. pose proof (fresh_lengths cfg paths R Hsize) as [Hl1 Hl2].
  destruct Hsize as (HM & HR & Hp). intros k.
  assert (Hz : task_path_ok task_zero /\ t_attempts_count task_zero = 0 /\ zlen (t_history task_zero) = MAX_ATTEMPTS)
    by (split_and!; by vm_compute).
  destruct k; cbn [get_tasks max_tasks n_tasks fresh_master m_maps m_reduces m_job set_job set_maps set_reduces j_M j_R].
  - split; [done|]. split; [done|]. intros i t H. unfold slot_ok. cbn [n_tasks j_M].
    apply fresh_maps in H as [(Hi & p & Hin & ->)|[Hi ->]]; [| |lia].
    + split; [split; [done|exact (proj1 (Forall_forall _ _) Hp p Hin)]|].
      destruct (Z.ltb_spec (Z.of_nat i) (zlen paths)); [apply path_task_ok|lia].
    + split; [apply Hz|]. destruct (Z.ltb_spec (Z.of_nat i) (zlen paths)); [lia|apply Hz].
  - split; [done|]. split; [done|]. intros i t H. unfold slot_ok. cbn [n_tasks j_R].
    apply fresh_reduces in H as [[Hi ->]|[Hi ->]]; [| |lia].
    + split; [by vm_compute|]. destruct (Z.ltb_spec (Z.of_nat i) R); [apply reset_task_ok|lia].
    + split; [apply Hz|]. destruct (Z.ltb_spec (Z.of_nat i) R); [lia|apply Hz].
Qed.

(** ** Witnesses: a job of two splits and two partitions *)

Definition demo_config : master_config_t := mk_config 9999 511 10 300 2 10000 [105] (Some [109; 114]).
Definition demo_paths : list (list Z) := [[105; 47; 97]; [105; 47; 98]].
(** The listener on descriptor 3, two workers on 5 and 6. *)
Definition demo_server : server_t :=
  mk_server 3 (mk_el 7 {[3 := on_accept_h; 5 := on_read_h; 6 := on_read_h]} ∅ false 100 false)
    {[5 := mk_client true 0 [] [] 0; 6 := mk_client true 0 [] [] 0]} 2 (8, 9) 0 0 0 300.
Definition demo : sys master_app :=
  mk_sys demo_server (mk_app (set_aof_fd 4 (fresh_master demo_config demo_paths 2)) []) [] ∅.

Definition get_task_bytes : list Z := message_bytes GetTaskReq.

(** Worker 5 asks for a task; its request arrives in two pieces, and worker 9
    connects in between. *)
Definition demo_events : list (kevent_answer kernel_data) :=
  [KEvents [(5, EVFILT_READ, mk_kernel (inl [0; 0; 0]) None); (3, EVFILT_READ, mk_kernel (inr true) (Some 9))];
   KEintr; KEvents [(5, EVFILT_READ, mk_kernel (inl [1; 1]) None)]].

Lemma demo_events_good : Forall (events_good fds_good) demo_events.
Proof.
  apply Forall_cons_2; [|apply Forall_cons_2; [done|apply Forall_cons_2; [|apply Forall_nil_2]]];
    cbn [events_good]; repeat first [apply Forall_nil_2|apply Forall_cons_2]; (split; [lia|]);
    intros fd' E; cbn in E; try discriminate E. injection E as <-. lia.
Qed.

Lemma demo_table : table_ok (master demo).
Proof.
  eapply table_ok_ext; [apply (fresh_table_ok demo_config demo_paths 2); decide_now|..]; by intros [].
Qed.

Example server_run_refines_witness :
  exists st', server_run demo_events demo = Ret (None, st') /\ rtc (master_step any_message) demo st' /\
    wk_current_task_id (get_worker (master st') 5) = 0 /\ wk_has_task (get_worker (master st') 5) = true.
Proof.
  destruct (server_run demo_events demo) as [[rc st']| |] eqn:E; [|vm_compute in E; discriminate E..].
  pose proof (server_run_refines demo_events demo st' rc demo_events_good E) as Hr.
  exists st'. vm_compute in E. injection E as <- <-. split; [reflexivity|]. split; [exact Hr|].
  split; vm_compute; reflexivity.
Defined.

Example task_table_invariant_witness :
  exists st', server_run demo_events demo = Ret (None, st') /\ table_ok (master st') /\
    t_state <$> take 2 (m_maps (master st')) = [TASK_IN_PROGRESS; TASK_PENDING].
Proof.
  destruct (server_run demo_events demo) as [[rc st']| |] eqn:E; [|vm_compute in E; discriminate E..].
  pose proof (task_table_invariant demo_events demo st' rc demo_events_good demo_table E) as Hr.
  exists st'. vm_compute in E. injection E as <- <-. split; [reflexivity|]. split; [exact Hr|].
  vm_compute. reflexivity.
Defined.

(** Worker 5 took the first map task at time 0. *)
Definition demo_taken : task_t :=
  match start_attempt 5 0 (path_task [105; 47; 97]) with Ret t => t | _ => task_zero end.
Definition demo_late : master_app :=
  mk_app (assign_master TASK_KIND_MAP 0 5 demo_taken (fresh_master demo_config demo_paths 2)) [].

Lemma demo_late_table : table_ok (a_master demo_late).
Proof.
  destruct (start_attempt_ok 5 0 (path_task [105; 47; 97])) as (t' & E & Hok & _);
    [apply path_task_ok|done|done|].
  assert (demo_taken = t') as <- by (unfold demo_taken; by rewrite E).
  apply (table_ok_assign _ _ _ (path_task [105; 47; 97])); [|done|done|done|done].
  apply fresh_table_ok. decide_now.
Qed.

Example master_periodic_sweeps_witness :
  let srv := s_set_clock 10 10001 0 demo_server in
  exists a', master_periodic 77 srv demo_late = Ret a' /\ table_ok (a_master a') /\
    t_state <$> take 2 (m_maps (a_master a')) = [TASK_PENDING; TASK_PENDING].
Proof.
  intros srv. destruct (master_periodic_sweeps 77 srv demo_late TASK_KIND_MAP demo_late_table eq_refl eq_refl)
    as (a' & E & Htab & _).
  exists a'. split; [exact E|]. split; [exact Htab|]. vm_compute in E. injection E as <-. vm_compute. reflexivity.
Defined.
