(* ===== verification/Sessions.v ===== *)
(** * Connections over a whole run (src/server.c, src/event_loop.c)

    What the server promises to the application about the bytes that arrive: a
    server without read buffers, which remembers of each connection everything
    received on it, and hands over each message of that stream as soon as it is
    whole. [server_run] refines it. *)

From S2P Require Import Prelude Limits Util Task EventLoop Server Framing Master Sched.

(** ** A stream and its messages *)

(** The bytes received on each connection since it was accepted. *)
Abbreviation history := (gmap Z (list Z)).

Definition received (h : history) (fd : Z) : list Z := default [] (h !! fd).

(** The messages of a stream, the bytes of an unfinished one, and whether these
    announce more than [MSG_MAX]. *)
Definition messages (stream : list Z) : list (list Z) := (parse_frames stream).1.1.
Definition leftover (stream : list Z) : list Z := (parse_frames stream).1.2.
Definition oversized (stream : list Z) : bool := (parse_frames stream).2.

(** ** The specification *)

Section Spec.
Context {A : Type} `{ServerHandlers A}.

(** The connection ends, and its history with it. *)
Definition spec_drop (fd : Z) (h : history) (st : sys A) : history * sys A := (delete fd h, remove_client fd st).

(** Bytes arrive: the messages they complete go to the application, in order,
    each once. The connection ends when the application refuses one, or when
    the next one is announced too long. *)
Definition spec_receive (fd : Z) (got : list Z) (h : history) (st : sys A) : outcome (history * sys A) :=
  let before := received h fd in
  let stream := before ++ got in
  let fresh := drop (length (messages before)) (messages stream) in
  '(alive, st) ← deliver fd fresh (forget_rbuf fd (put_client fd (stamped fd st) st));
  Ret (if negb alive then (delete fd h, st)
       else if oversized stream then spec_drop fd h st
       else (<[fd := stream]> h, set_rbuf fd (leftover stream) st)).

(** A read event, with what [read] answers when asked for the free space. *)
Definition spec_read (fd : Z) (rd : list Z + bool) (h : history) (st : sys A) : outcome (history * sys A) :=
  if negb (c_active (get_client st fd)) then Ret (h, st)
  else
    match rd with
    | inr true => Ret (h, st)
    | inr false => Ret (spec_drop fd h st)
    | inl bytes =>
        match take (Z.to_nat (RBUF_SIZE - zlen (leftover (received h fd)))) bytes with
        | [] => Ret (spec_drop fd h st)
        | got => spec_receive fd got h st
        end
    end.

(** A write event moves bytes of the write queue, and delivers nothing. *)
Definition spec_write (fd : Z) (h : history) (st : sys A) : outcome (history * sys A) :=
  let c := get_client st fd in
  let '(r, s) := sock_write (script st) (wlen c - c_woff c) in
  let st := set_script s st in
  Ret match r with
      | inr true => (h, st)
      | inr false => spec_drop fd h st
      | inl n =>
          let st := record_sent fd (take (Z.to_nat n) (pending c)) st in
          if c_woff c + n =? wlen c then
            let st := put_client fd (c_set_wbuf [] 0 c) st in
            (h, set_sv (s_set_el (el_remove_write (s_el (sv st)) fd) (sv st)) st)
          else (h, put_client fd (c_set_wbuf (c_wbuf c) (c_woff c + n) c) st)
      end.

(** A new connection starts with no history. *)
Definition spec_accept (acc : option Z) (h : history) (st : sys A) : history * sys A :=
  (match acc with
   | Some fd => if (MAX_FDS <=? fd) || ((set_non_blocking (script st)).1 =? -1) then h else delete fd h
   | None => h
   end, on_accept acc st).

Definition spec_handler (f : el_handler_fn) (fd : Z) (k : kernel_data) (x : history * sys A) : outcome (history * sys A) :=
  let '(h, st) := x in
  match f with
  | on_read_h => spec_read fd (k_read k) h st
  | on_write_h => spec_write fd h st
  | on_accept_h => Ret (spec_accept (k_accept k) h st)
  | on_shutdown_h => Ret (h, on_shutdown st)
  end.

Definition spec_run (answers : list (kevent_answer kernel_data)) (x : history * sys A) : outcome (option Z * (history * sys A)) :=
  el_run (fun x => s_el (sv x.2)) spec_handler answers x.

(** Every read buffer holds the unfinished message of its connection, and
    nothing else. *)
Definition sessions_ok (h : history) (st : sys A) : Prop := forall fd,
  Forall u8 (received h fd) /\ c_buf (get_client st fd) = leftover (received h fd) /\ oversized (received h fd) = false.
End Spec.

(** ** Refinement *)

Lemma received_insert_eq h fd b : received (<[fd := b]> h) fd = b.
Proof. unfold received. by rewrite lookup_insert_eq. Qed.

Lemma received_insert_ne h fd fd' b : fd <> fd' -> received (<[fd := b]> h) fd' = received h fd'.
Proof. intros. unfold received. by rewrite lookup_insert_ne. Qed.

Lemma received_delete_eq h fd : received (delete fd h) fd = [].
Proof. unfold received. by rewrite lookup_delete_eq. Qed.

Lemma received_delete_ne h fd fd' : fd <> fd' -> received (delete fd h) fd' = received h fd'.
Proof. intros. unfold received. by rewrite lookup_delete_ne. Qed.

Lemma leftover_u8 stream : Forall u8 stream -> Forall u8 (leftover stream).
Proof.
  intros Hs. unfold leftover. destruct (parse_frames stream) as [[ps r] o] eqn:E. cbn.
  destruct (parse_frames_sound _ Hs _ _ _ E) as (E2 & _ & _). rewrite E2 in Hs. by apply Forall_app in Hs as [_ ?].
Qed.

Lemma leftover_incomplete stream : Forall u8 stream -> oversized stream = false -> split_frame (leftover stream) = Incomplete.
Proof.
  intros Hs. unfold leftover, oversized. destruct (parse_frames stream) as [[ps r] o] eqn:E. cbn.
  intros ->. by destruct (parse_frames_sound _ Hs _ _ _ E) as (_ & _ & ->).
Qed.

(** What arrives after a stream completes the messages of its leftover. *)
Lemma parse_more stream got : Forall u8 stream -> Forall u8 got -> oversized stream = false ->
  parse_frames (leftover stream ++ got) =
    (drop (length (messages stream)) (messages (stream ++ got)), leftover (stream ++ got), oversized (stream ++ got)).
Proof.
  intros Hs Hg. unfold messages, leftover, oversized. rewrite (parse_frames_app stream Hs got Hg).
  destruct (parse_frames stream) as [[ps r] o]. cbn [fst snd]. intros ->.
  destruct (parse_frames (r ++ got)) as [[ps2 r2] o2]. cbn [fst snd]. by rewrite drop_app_length.
Qed.

Section Refinement.
Context {A : Type} `{HS : ServerHandlersSpec A}.
Implicit Types st : sys A.

(** The specification of a handler, from [h]. *)
Definition refines (c : outcome (sys A)) (s : outcome (history * sys A)) : Prop :=
  c = ('(_, st') ← s; Ret st') /\ forall h' st', s = Ret (h', st') -> sessions_ok h' st'.

Lemma refines_ret h st : sessions_ok h st -> refines (Ret st) (Ret (h, st)).
Proof. intros Hok. split; [done|]. by intros h' st' [= <- <-]. Qed.

(** An event of [fd] leaves the other connections alone. *)
Lemma sessions_update fd h h' st st' : sessions_ok h st -> same_others fd st st' ->
  (forall fd', fd <> fd' -> received h' fd' = received h fd') ->
  Forall u8 (received h' fd) -> c_buf (get_client st' fd) = leftover (received h' fd) -> oversized (received h' fd) = false ->
  sessions_ok h' st'.
Proof.
  intros Hok Hso Hh Hu Hb Ho fd'. destruct (decide (fd' = fd)) as [->|Hne]; [done|].
  rewrite Hh by done. destruct (Hso fd' Hne) as [-> _]. apply Hok.
Qed.

Lemma sessions_clear fd h st st' : sessions_ok h st -> same_others fd st st' -> c_buf (get_client st' fd) = [] ->
  sessions_ok (delete fd h) st'.
Proof.
  intros Hok Hso Hb. eapply sessions_update; [exact Hok|exact Hso|intros; by apply received_delete_ne|..];
    by rewrite received_delete_eq.
Qed.

Lemma sessions_drop fd h st : sessions_ok h st -> sessions_ok (delete fd h) (remove_client fd st).
Proof. intros Hok. eapply sessions_clear; [exact Hok|apply same_others_remove|]. by rewrite get_remove_eq. Qed.

(** A change of the client that keeps its read buffer. *)
Lemma sessions_same fd h st st' : sessions_ok h st -> same_others fd st st' ->
  c_buf (get_client st' fd) = c_buf (get_client st fd) -> sessions_ok h st'.
Proof. intros Hok Hso Hb. eapply sessions_update; [exact Hok|exact Hso|done|..]; rewrite ?Hb; apply Hok. Qed.

Lemma deliver_others fd ps : forall st alive st', deliver fd ps st = Ret (alive, st') -> same_others fd st st'.
Proof.
  induction ps as [|p ps IH]; intros st alive st' Hd; cbn [deliver] in Hd.
  { injection Hd as _ <-. apply same_others_refl. }
  apply outcome_bind_Ret in Hd as ([rc st1] & Hm & Hd). apply on_message_others in Hm.
  destruct (negb _); [injection Hd as _ <-|apply IH in Hd]; (eapply same_others_trans; [exact Hm|]); [apply same_others_remove|done].
Qed.

Lemma receive_refines fd got h st : sessions_ok h st -> Forall u8 got ->
  refines (process_buffer fd (put_client fd (c_set_buf (c_buf (get_client st fd) ++ got) (stamped fd st)) st))
    (spec_receive fd got h st).
Proof.
  intros Hok Hgot. destruct (Hok fd) as (Hu & Hb & Ho).
  rewrite process_buffer_receive; rewrite ?get_put_eq; cbn [c_buf c_set_buf]; [|apply present_put|].
  2:{ rewrite Hb. apply Forall_app_2; [by apply leftover_u8|done]. }
  unfold receive, spec_receive. rewrite Hb, parse_more by done.
  assert (forall b, forget_rbuf fd (put_client fd (c_set_buf b (stamped fd st)) st) = forget_rbuf fd (put_client fd (stamped fd st) st)) as ->.
  { intros b. unfold forget_rbuf, set_rbuf. by rewrite !get_put_eq, !put_put. }
  destruct (deliver _ _ _) as [[alive st1]| |] eqn:Ed; [|by split..]. cbn [mbind outcome_bind].
  assert (same_others fd st st1) as Hso.
  { apply deliver_others in Ed. eapply same_others_trans; [|exact Ed]. unfold forget_rbuf, set_rbuf.
    eapply same_others_trans; [apply (same_others_put fd (stamped fd st))|apply same_others_put]. }
  split; [by destruct alive; [destruct (oversized (received h fd ++ got))|]|]. intros h' st'. destruct alive; cbn [negb].
  - unfold spec_drop. destruct (oversized (received h fd ++ got)) eqn:Eo; intros [= <- <-].
    + eapply sessions_clear; [exact Hok| |by rewrite get_remove_eq]. eapply same_others_trans; [exact Hso|apply same_others_remove].
    + eapply sessions_update; [exact Hok| |intros; by apply received_insert_ne|..]; rewrite ?received_insert_eq; [|by apply Forall_app_2| |done].
      * eapply same_others_trans; [exact Hso|apply same_others_put].
      * by rewrite get_set_rbuf.
  - intros [= <- <-]. eapply sessions_clear; [exact Hok|exact Hso|]. by rewrite (deliver_dead _ _ _ _ Ed).
Qed.

Lemma on_read_refines fd rd h st : sessions_ok h st -> (forall b, rd = inl b -> Forall u8 b) ->
  refines (on_read fd rd st) (spec_read fd rd h st).
Proof.
  intros Hok Hrd. unfold on_read, spec_read. destruct (negb _); [by apply refines_ret|].
  destruct rd as [bytes|[]]; [|by apply refines_ret|by apply refines_ret, sessions_drop].
  pose proof (Hok fd) as (_ & Hb & _). rewrite Hb.
  assert (Forall u8 (take (Z.to_nat (RBUF_SIZE - zlen (leftover (received h fd)))) bytes)) as Hu by by apply Forall_take, Hrd.
  destruct (take _ bytes) as [|x got]; [by apply refines_ret, sessions_drop|].
  destruct (Z.eqb_spec (zlen (x :: got)) 0) as [E|_]; [by rewrite zlen_cons in E; pose proof (zlen_nonneg got); lia|].
  cbn [c_buf c_set_last_active]. by apply receive_refines.
Qed.

(** No whole message is left in a read buffer, so there is nothing to process
    when a write queue has drained. *)
Lemma process_buffer_idle fd st : split_frame (c_buf (get_client st fd)) = Incomplete -> process_buffer fd st = Ret st.
Proof.
  intros E. unfold process_buffer. destruct (length _) as [|n] eqn:El; [|by rewrite process_frames_step, E].
  cbn [process_frames]. by destruct (c_buf (get_client st fd)).
Qed.

Lemma on_write_refines fd h st : sessions_ok h st -> refines (on_write fd st) (spec_write fd h st).
Proof.
  intros Hok. destruct (Hok fd) as (Hu & Hb & Ho). unfold on_write, spec_write. fold (pending (get_client st fd)).
  destruct (sock_write _ _) as [r s]. destruct r as [n|[]]; [|by apply refines_ret|by apply refines_ret, (sessions_drop fd h (set_script s st))].
  assert (forall c b, c_buf c = c_buf (get_client st fd) -> sessions_ok h (put_client fd c (record_sent fd b (set_script s st)))) as Hput.
  { intros c b Hc. eapply (sessions_same fd); [exact Hok| |by rewrite get_put_eq].
    eapply same_others_trans; [exact (same_others_record fd b (set_script s st))|apply same_others_put]. }
  destruct (_ =? _); [|by apply refines_ret, Hput].
  rewrite process_buffer_idle; [by apply refines_ret, Hput|].
  unfold get_client at 1. cbn. rewrite lookup_insert_eq. cbn. rewrite Hb. by apply leftover_incomplete.
Qed.

Lemma on_accept_refines acc h st : sessions_ok h st -> refines (Ret (on_accept acc st)) (Ret (spec_accept acc h st)).
Proof.
  intros Hok. apply refines_ret. unfold on_accept. destruct acc as [fd|]; [|done]. destruct (_ <=? _); [done|].
  destruct (set_non_blocking (script st)) as [rc s]. cbn [fst orb]. destruct (rc =? -1); [done|].
  destruct (el_add _ _ _ _) as [[rc2 el] s2].
  destruct (rc2 =? -1); (eapply sessions_clear; [exact Hok| |unfold get_client; cbn; by rewrite lookup_insert_eq]);
    intros fd' Hne; unfold get_client, sent; cbn; by rewrite !lookup_insert_ne.
Qed.

(** What [read] stores are bytes. *)
Definition reads_bytes (fd : Z) (k : kernel_data) : Prop := forall b, k_read k = inl b -> Forall u8 b.

Lemma handler_refines f fd k h st : reads_bytes fd k -> sessions_ok h st ->
  refines (call_handler f fd k st) (spec_handler f fd k (h, st)).
Proof.
  intros Hk Hok. destruct f; [by apply on_read_refines|by apply on_write_refines|by apply on_accept_refines|].
  apply refines_ret. by apply (sessions_same 0 h st); [|intros|].
Qed.

(** C20: over whole runs of the event loop, each message of each connection is
    delivered once, in order, as soon as it is whole. From a state whose read
    buffers hold just the unfinished ends of what was received (as at the start,
    when nothing was), and for any events and answers of the kernel in which
    what is read are bytes, [server_run] does what [spec_run] does, a server
    without read buffers: it remembers every byte received on a connection
    since it was accepted, and after each read hands to the application exactly
    the messages of that stream that are complete now and were not before. It
    drops the connection when the application refuses a message, when a length
    over MSG_MAX is announced, or when the socket is closed or fails, and
    delivers nothing on other events. Afterwards the read buffer of each
    connection holds exactly the unfinished end of its stream. *)
Theorem server_run_sessions answers h st :
  Forall (events_good reads_bytes) answers -> sessions_ok h st ->
  server_run answers st = ('(rc, (_, st')) ← spec_run answers (h, st); Ret (rc, st')) /\
  forall rc h' st', spec_run answers (h, st) = Ret (rc, (h', st')) -> sessions_ok h' st'.
Proof.
  intros Hg Hok.
  destruct (el_run_sim (fun st => s_el (sv st)) (fun x : history * sys A => x.2) call_handler spec_handler reads_bytes
    (fun x => sessions_ok x.1 x.2)) with (answers := answers) (x := (h, st)) as [E Hkeep]; [|done|done|].
  { intros f fd e [h1 st1] Hge Hok1. destruct (handler_refines f fd e h1 st1 Hge Hok1) as [E Hk]. split.
    - cbn [snd]. rewrite E. apply outcome_bind_ext. by intros [].
    - intros [h2 st2] E2. by apply (Hk h2 st2). }
  cbn [snd] in E. split; [|intros rc h' st' Es; by apply (Hkeep rc (h', st'))].
  unfold server_run, spec_run. rewrite E. apply outcome_bind_ext. by intros [rc []].
Qed.
End Refinement.

(** ** Example: a GetTask in two pieces, the second with the start of the next message *)

Definition split_events : list (kevent_answer kernel_data) :=
  [KEvents [(5, EVFILT_READ, mk_kernel (inl [0; 0; 0]) None); (3, EVFILT_READ, mk_kernel (inr true) (Some 9))];
   KEintr; KEvents [(5, EVFILT_READ, mk_kernel (inl [1; 1; 0; 0]) None); (9, EVFILT_READ, mk_kernel (inr false) None)]].

Lemma demo_sessions : sessions_ok ∅ demo.
Proof.
  intros fd. split; [constructor|]. split; [|done]. unfold get_client, demo. cbn.
  destruct (decide (fd = 5)) as [->|]; [done|]. rewrite lookup_insert_ne by done.
  destruct (decide (fd = 6)) as [->|]; [done|]. by rewrite lookup_singleton_ne.
Qed.

Lemma split_events_bytes : Forall (events_good reads_bytes) split_events.
Proof.
  repeat first [apply Forall_nil_2|apply Forall_cons_2]; cbn [events_good]; try done;
    repeat first [apply Forall_nil_2|apply Forall_cons_2]; intros b [= <-]; decide_now.
Qed.

(** How that run ends: the histories of two connections, and whether worker 5
    was given a task. *)
Definition split_view : option (option Z * list Z * list Z * bool) :=
  match spec_run split_events (∅, demo) with
  | Ret (rc, (h, st)) => Some (rc, received h 5, received h 9, wk_has_task (get_worker (master st) 5))
  | _ => None
  end.

Example server_run_sessions_witness :
  exists h' st', spec_run split_events (∅, demo) = Ret (None, (h', st')) /\ server_run split_events demo = Ret (None, st') /\
    received h' 5 = [0; 0; 0; 1; 1; 0; 0] /\ received h' 9 = [] /\ c_buf (get_client st' 5) = [0; 0] /\
    wk_has_task (get_worker (master st') 5) = true.
Proof.
  destruct (server_run_sessions split_events ∅ demo split_events_bytes demo_sessions) as [E Hok].
  assert (split_view = Some (None, [0; 0; 0; 1; 1; 0; 0], [], true)) as Ev by (vm_compute; reflexivity). unfold split_view in Ev.
  destruct (spec_run split_events (∅, demo)) as [[rc [h' st']]| |]; [|discriminate Ev..]. injection Ev as -> H5 H9 Hw.
  destruct (Hok None h' st' eq_refl 5) as (_ & Hb & _). exists h', st'. rewrite H5 in Hb. by split_and!.
Defined.
