(* ===== verification/Job.v ===== *)
(** * The job (src/master.c, src/util.c)

    The job invariant (counters, phase barrier, one owner per task), kept
    while workers only report the task they hold; the runs of the master from
    the start of a job, and what they never do. *)

From S2P Require Import Prelude Limits Util Rpc Task Aof EventLoop Server Framing Master Sched.

(** ** The job invariant

    While workers report only the task they hold: the counters count the
    completed tasks, no reduce task starts before the last map completes, and
    a worker's slot names the task in progress it owns. *)

(** Every live slot of a kind satisfies [P]. *)
Definition all_tasks (k : task_kind_e) (P : task_t -> Prop) (m : master_t) : Prop :=
  forall i t, Z.of_nat i < n_tasks k (m_job m) -> get_tasks k m !! i = Some t -> P t.

Definition counts_ok (m : master_t) : Prop :=
  forall k, n_done k (m_job m) = count_completed (n_tasks k (m_job m)) (get_tasks k m).

Definition phase_ok (m : master_t) : Prop :=
  let j := m_job m in
  match j_phase j with
  | JOB_MAP => j_maps_done j < j_M j /\ all_tasks TASK_KIND_REDUCE (fun t => t_state t = TASK_PENDING) m
  | JOB_REDUCE => j_maps_done j = j_M j /\ j_reduces_done j < j_R j
  | JOB_DONE => j_maps_done j = j_M j /\ j_reduces_done j = j_R j
  | JOB_FAILED =>
      (exists k i t, get_tasks k m !! i = Some t /\ t_state t = TASK_FAILED) /\
      (j_maps_done j = j_M j \/ all_tasks TASK_KIND_REDUCE (fun t => t_state t = TASK_PENDING) m)
  end.

(** A task fails only together with its job. *)
Definition failed_ok (m : master_t) : Prop :=
  j_phase (m_job m) <> JOB_FAILED -> forall k, all_tasks k (fun t => t_state t <> TASK_FAILED) m.

(** [fd]'s slot names task [i] of kind [k], in progress and owned by [fd]. *)
Definition holds_task (m : master_t) (fd : Z) (k : task_kind_e) (i : nat) (t : task_t) : Prop :=
  let w := get_worker m fd in
  wk_current_kind w = Some k /\ wk_current_task_id w = Z.of_nat i /\
  wk_current_attempt_id w = t_current_attempt t /\ Z.of_nat i < n_tasks k (m_job m) /\
  get_tasks k m !! i = Some t /\ t_state t = TASK_IN_PROGRESS /\ t_owner_fd t = fd.

Definition workers_ok (except : option Z) (m : master_t) : Prop :=
  forall fd k, except <> Some fd -> phase_kind (j_phase (m_job m)) = Ret k ->
    wk_has_task (get_worker m fd) = true -> exists i t, holds_task m fd k i t.

Definition job_inv_but (except : option Z) (m : master_t) : Prop :=
  table_ok m /\ counts_ok m /\ phase_ok m /\ failed_ok m /\ workers_ok except m.

Abbreviation job_inv := (job_inv_but None).

Lemma job_inv_weaken fd m : job_inv m -> job_inv_but (Some fd) m.
Proof.
  intros (H1 & H2 & H3 & H4 & H5). do 4 (split; [done|]). intros fd' k _. by apply H5.
Qed.

Lemma get_worker_put_eq fd w m : get_worker (put_worker fd w m) fd = w.
Proof. unfold get_worker, put_worker. cbn. by rewrite lookup_insert_eq. Qed.
Lemma get_worker_put_ne fd fd' w m : fd <> fd' -> get_worker (put_worker fd w m) fd' = get_worker m fd'.
Proof. intros. unfold get_worker, put_worker. cbn. by rewrite lookup_insert_ne. Qed.

(** A slot that holds no task completes the invariant. *)
Lemma job_inv_slot fd w m : job_inv_but (Some fd) m -> wk_has_task w = false -> job_inv (put_worker fd w m).
Proof.
  intros (H1 & H2 & H3 & H4 & H5) Hw.
  split; [by apply table_ok_worker|]. do 3 (split; [done|]).
  intros fd' k _ Hk Ht. destruct (decide (fd = fd')) as [<-|Hne].
  { by rewrite get_worker_put_eq, Hw in Ht. }
  rewrite get_worker_put_ne in Ht by done.
  destruct (H5 fd' k ltac:(congruence) Hk Ht) as (i & t & Hh). exists i, t.
  unfold holds_task in *. rewrite get_worker_put_ne by done. by destruct k.
Qed.

Lemma phase_kind_phase p k : phase_kind p = Ret k ->
  p = JOB_MAP /\ k = TASK_KIND_MAP \/ p = JOB_REDUCE /\ k = TASK_KIND_REDUCE.
Proof. destruct p; cbn; intros [= <-]; auto. Qed.

(** ** One slot changes *)

Section Put.
Context (m : master_t) (k : task_kind_e) (i : nat) (t t' : task_t).
Hypothesis Ht : get_tasks k m !! i = Some t.
Hypothesis Hi : Z.of_nat i < n_tasks k (m_job m).
Let m' := put_tasks k (<[i := t']> (get_tasks k m)) m.

Lemma put_lookup k' i' t1 : get_tasks k' m' !! i' = Some t1 ->
  k' = k /\ i' = i /\ t1 = t' \/ (k' <> k \/ i' <> i) /\ get_tasks k' m !! i' = Some t1.
Proof.
  unfold m'. destruct (decide (k = k')) as [<-|Hne].
  - rewrite get_put_tasks. intros [[-> ->]|[? ?]]%lookup_put; auto.
  - rewrite get_put_tasks_ne by done. right. split; [left; congruence|done].
Qed.

Lemma put_lookup_ne k' i' : k' <> k \/ i' <> i -> get_tasks k' m' !! i' = get_tasks k' m !! i'.
Proof.
  unfold m'. destruct (decide (k = k')) as [<-|Hne]; [|by rewrite get_put_tasks_ne].
  rewrite get_put_tasks. intros [?|?]; [done|]. by rewrite list_lookup_insert_ne.
Qed.

Lemma put_count k' : count_completed (n_tasks k' (m_job m)) (get_tasks k' m') =
  count_completed (n_tasks k' (m_job m)) (get_tasks k' m) +
  (if decide (k' = k) then Z.b2z (is_completed t') - Z.b2z (is_completed t) else 0).
Proof.
  unfold m'. destruct (decide (k' = k)) as [->|Hne].
  - rewrite get_put_tasks, (count_completed_insert _ _ _ _ t) by done. lia.
  - rewrite get_put_tasks_ne by done. lia.
Qed.

Lemma put_all k' (P : task_t -> Prop) : all_tasks k' P m -> P t' -> all_tasks k' P m'.
Proof.
  intros Hall HP i' t1 Hi' Hlk. unfold m' in Hi'. rewrite job_put_tasks in Hi'.
  apply put_lookup in Hlk as [(_ & _ & ->)|[_ Hlk]]; [done|by eapply Hall].
Qed.

Lemma put_worker_same fd : get_worker m' fd = get_worker m fd.
Proof. clear Ht Hi. subst m'. by destruct k. Qed.

(** The other workers keep their tasks. *)
Lemma put_holds fd k' i' t1 : holds_task m fd k' i' t1 -> k' <> k \/ i' <> i ->
  holds_task m' fd k' i' t1.
Proof.
  intros (H1 & H2 & H3 & H4 & H5 & H6 & H7) Hne. unfold holds_task.
  rewrite put_worker_same, put_lookup_ne by done. unfold m'. rewrite job_put_tasks. by split_and!.
Qed.
End Put.

(** ** The three updates keep the invariant *)

Lemma job_inv_assign m k i t t' fd now : job_inv m -> 0 <= fd -> phase_kind (j_phase (m_job m)) = Ret k ->
  first_pending k m i t -> start_attempt fd now t = Ret t' -> job_inv (assign_master k i fd t' m).
Proof.
  intros (Hm & Hc & Hp & Hf & Hw) Hfd Hk Hfp Hs.
  destruct (first_pending_start _ _ _ _ _ _ _ Hm Hfd Hfp Hs) as (Hok & Hst & Hown & Hatt & Hpath).
  destruct Hfp as (Hi & Ht & Hpend & _).
  assert (is_completed t = false /\ is_completed t' = false) as [Hct Hct']
    by (unfold is_completed; by rewrite Hpend, Hst).
  unfold assign_master. set (m1 := put_tasks k (<[i := t']> (get_tasks k m)) m).
  assert (Hj : m_job m1 = m_job m) by apply job_put_tasks.
  split; [|split; [|split; [|split]]].
  - by eapply table_ok_assign.
  - intros k'. cbn [m_job put_worker set_workers]. rewrite get_tasks_worker, Hj. unfold m1.
    rewrite (put_count m k i t t' Ht Hi), Hct, Hct', <- Hc. destruct (decide _); cbn; lia.
  - unfold phase_ok. cbn [m_job put_worker set_workers]. rewrite Hj.
    unfold phase_ok in Hp. destruct (phase_kind_phase _ _ Hk) as [[E ->]|[E ->]]; rewrite E in *; [|exact Hp].
    split; [apply Hp|]. exact (proj2 Hp).
  - intros _ k' i' t1 Hi' Hlk. rewrite get_tasks_worker in Hlk. cbn [m_job put_worker set_workers] in Hi'.
    rewrite Hj in Hi'. apply put_lookup in Hlk as [(_ & _ & ->)|[_ Hlk]]; [by rewrite Hst|].
    eapply Hf; [|done..]. intros E. by rewrite E in Hk.
  - intros fd' k' _ Hk' Hht. cbn [m_job put_worker set_workers] in Hk'. rewrite Hj, Hk in Hk'. injection Hk' as <-.
    destruct (decide (fd = fd')) as [<-|Hne].
    + exists i, t'. unfold holds_task. rewrite get_worker_put_eq, get_tasks_worker. cbn.
      change (m_job (put_worker _ _ m1)) with (m_job m1). rewrite Hj. unfold m1. rewrite get_put_tasks.
      split_and!; try done. apply list_lookup_insert_eq. by eapply lookup_lt_Some.
    + rewrite get_worker_put_ne in Hht by done. unfold m1 in Hht. rewrite put_worker_same in Hht.
      destruct (Hw fd' k ltac:(done) Hk Hht) as (i' & t1 & Hh). exists i', t1.
      assert (i' <> i) as Hi'. { intros ->. destruct Hh as (_ & _ & _ & _ & Ht1 & Hst1 & _). congruence. }
      apply (put_holds m k i t') in Hh; [|by right]. unfold holds_task in *.
      rewrite get_worker_put_ne, get_tasks_worker by done. exact Hh.
Qed.

Lemma job_inv_fail m k i t now fd rc t' j : job_inv m -> phase_kind (j_phase (m_job m)) = Ret k ->
  holds_task m fd k i t -> task_attempt_ended t ATTEMPT_FAILED fd now (m_job m) = Ret (rc, t', j) ->
  job_inv_but (Some fd) (fail_master k i t' j m).
Proof.
  intros (Hm & Hc & Hp & Hf & Hw) Hk (_ & _ & _ & Hi & Ht & Hst & Hown) He.
  assert (Hok : task_ok t) by by eapply table_ok_live.
  assert (Hpos : 0 < t_attempts_count t) by by apply Hok.
  destruct (task_attempt_ended_ok t ATTEMPT_FAILED fd now (m_job m) Hok Hpos) as
    (rc' & t'' & He' & Hok' & Hrc & Hst' & _ & Hpath); [done|].
  rewrite He in He'. injection He' as -> -> ->.
  assert (is_completed t = false /\ is_completed t'' = false) as [Hct Hct']
    by (unfold is_completed; rewrite Hst, Hst'; by destruct (_ <? _)).
  set (j' := if t_attempts_count t <? MAX_ATTEMPTS then m_job m else set_phase JOB_FAILED (m_job m)) in *.
  assert (Hn : forall k', n_tasks k' j' = n_tasks k' (m_job m) /\ n_done k' j' = n_done k' (m_job m)).
  { intros k'. unfold j'. destruct (_ <? _); [done|]. by rewrite n_tasks_set_phase, n_done_set_phase. }
  unfold fail_master. split; [|split; [|split; [|split]]].
  - eapply table_ok_fail; [done..|]. apply Hn.
  - intros k'. rewrite get_tasks_job. cbn [m_job set_job]. rewrite (proj1 (Hn k')), (proj2 (Hn k')).
    rewrite (put_count m k i t t'' Ht Hi), Hct, Hct', <- Hc. destruct (decide _); cbn; lia.
  - unfold phase_ok, j' in *. cbn [m_job set_job]. destruct (_ <? _).
    + destruct (phase_kind_phase _ _ Hk) as [[E ->]|[E ->]]; rewrite E in *; exact Hp.
    + split.
      * exists k, i, t''. split; [|done]. rewrite get_tasks_job, get_put_tasks.
        apply list_lookup_insert_eq. by eapply lookup_lt_Some.
      * destruct (phase_kind_phase _ _ Hk) as [[E ->]|[E ->]]; rewrite E in Hp; [right; exact (proj2 Hp)|left; apply Hp].
  - unfold failed_ok. cbn [m_job set_job]. intros Hph k' i' t1 Hi' Hlk. rewrite get_tasks_job in Hlk.
    cbn [m_job set_job] in Hi'. rewrite (proj1 (Hn k')) in Hi'.
    unfold j' in Hph. destruct (_ <? _); [|done].
    apply put_lookup in Hlk as [(_ & _ & ->)|[_ Hlk]]; [by rewrite Hst'|by eapply Hf].
  - intros fd' k' Hne Hk' Hht. cbn [m_job set_job] in Hk'. unfold j' in *. destruct (_ <? _); [|done].
    rewrite Hk in Hk'. injection Hk' as <-.
    change (get_worker (set_job _ ?x) fd') with (get_worker x fd') in Hht. rewrite put_worker_same in Hht.
    destruct (Hw fd' k ltac:(done) Hk Hht) as (i' & t1 & Hh). exists i', t1.
    assert (i' <> i) as Hi'. { intros ->. destruct Hh as (_ & _ & _ & _ & Ht1 & _ & Hown1). congruence. }
    apply (put_holds m k i t'') in Hh; [|by right]. unfold holds_task in *. rewrite get_tasks_job.
    by rewrite job_put_tasks in Hh.
Qed.

(** ** Completion and the phase *)

Lemma counts_all m k : table_ok m -> counts_ok m ->
  n_done k (m_job m) <= n_tasks k (m_job m) /\
  (n_done k (m_job m) = n_tasks k (m_job m) <-> all_tasks k (fun t => t_state t = TASK_COMPLETED) m).
Proof.
  intros Hm Hc. pose proof (table_ok_n m k Hm). rewrite Hc.
  split; [apply count_completed_le; lia|]. rewrite count_completed_all by lia. done.
Qed.

(** The phase [maybe_advance_phase] leaves in the map and reduce phases. *)
Lemma advance_map j : j_phase j = JOB_MAP ->
  maybe_advance_phase_job j =
    if j_maps_done j =? j_M j then
      if j_reduces_done j =? j_R j then set_phase JOB_DONE j else set_phase JOB_REDUCE j
    else j.
Proof.
  destruct j as [M R p md rd to]. cbn. intros ->. cbv -[Z.eqb].
  destruct (md =? M); [by destruct (rd =? R)|done].
Qed.

Lemma advance_reduce j : j_phase j = JOB_REDUCE ->
  maybe_advance_phase_job j = if j_reduces_done j =? j_R j then set_phase JOB_DONE j else j.
Proof. destruct j as [M R p md rd to]. cbn. intros ->. by cbv -[Z.eqb]. Qed.

(** The invariant before the phase advances: it may still name the phase whose
    last task has just completed. *)
Definition phase_lag (m : master_t) : Prop :=
  let j := m_job m in
  match j_phase j with
  | JOB_MAP => all_tasks TASK_KIND_REDUCE (fun t => t_state t = TASK_PENDING) m
  | JOB_REDUCE => j_maps_done j = j_M j
  | _ => False
  end.

Lemma all_tasks_advance k P m : all_tasks k P m -> all_tasks k P (maybe_advance_phase m).
Proof.
  intros Hall i t. change (m_job (maybe_advance_phase m)) with (maybe_advance_phase_job (m_job m)).
  rewrite (proj1 (advance_job_fields _ _)), advance_tasks. apply Hall.
Qed.

(** The job after the phase advances. *)
Lemma phase_advance m : table_ok m -> counts_ok m -> phase_lag m ->
  phase_ok (maybe_advance_phase m) /\ j_phase (m_job (maybe_advance_phase m)) <> JOB_FAILED /\
  (j_phase (m_job (maybe_advance_phase m)) = j_phase (m_job m) \/
   (forall k, phase_kind (j_phase (m_job m)) = Ret k -> n_done k (m_job m) = n_tasks k (m_job m))).
Proof.
  intros Hm Hc Hlag. unfold phase_ok. change (m_job (maybe_advance_phase m)) with (maybe_advance_phase_job (m_job m)).
  destruct (counts_all m TASK_KIND_MAP Hm Hc) as [Hle Hall]. destruct (counts_all m TASK_KIND_REDUCE Hm Hc) as [Hle2 Hall2].
  cbn [n_done n_tasks] in *. unfold phase_lag in Hlag.
  destruct (j_phase (m_job m)) eqn:E; try done.
  - rewrite advance_map by done. destruct (Z.eqb_spec (j_maps_done (m_job m)) (j_M (m_job m))) as [Heq|Hne].
    + destruct (Z.eqb_spec (j_reduces_done (m_job m)) (j_R (m_job m))) as [Heq2|Hne2]; cbn.
      * split; [done|]. split; [done|]. right. intros k [= <-]. done.
      * split; [split; [done|lia]|]. split; [done|]. right. by intros k [= <-].
    + rewrite E. split; [split; [lia|by apply all_tasks_advance]|]. split; [done|]. by left.
  - rewrite advance_reduce by done. destruct (Z.eqb_spec (j_reduces_done (m_job m)) (j_R (m_job m))) as [Heq|Hne]; cbn.
    + split; [done|]. split; [done|]. right. by intros k [= <-].
    + rewrite E. split; [split; [done|lia]|]. split; [done|]. by left.
Qed.

(** A completion before the phase advances. *)
Section Complete.
Context (m : master_t) (k : task_kind_e) (i : nat) (t : task_t) (now fd : Z).
Hypothesis Hinv : job_inv m.
Hypothesis Hk : phase_kind (j_phase (m_job m)) = Ret k.
Hypothesis Hh : holds_task m fd k i t.
Let t' := completed_task fd now t.
Let m1 := put_tasks k (<[i := t']> (get_tasks k m)) m.
Let m2 := set_job (set_n_done k (wrap 32 (n_done k (m_job m1) + 1)) (m_job m1)) m1.

Lemma completing_job : m_job m2 = set_n_done k (n_done k (m_job m) + 1) (m_job m).
Proof.
  destruct Hinv as (Hm & Hc & _). unfold m2, m1. cbn [m_job set_job]. rewrite job_put_tasks.
  rewrite wrap_small; [done|]. pose proof (table_ok_n m k Hm) as Hn.
  pose proof (count_completed_le (get_tasks k m) (n_tasks k (m_job m)) ltac:(lia)) as Hle.
  pose proof (proj2 (proj1 (proj2 (Hm k)))) as Hmax. unfold fits. rewrite Hc.
  assert (max_tasks k <= 256) by (destruct k; cbn; limits; lia). lia.
Qed.

Lemma completing_fields k' : n_tasks k' (m_job m2) = n_tasks k' (m_job m).
Proof. rewrite completing_job. apply n_tasks_set_done. Qed.

Lemma completing_table : table_ok m2.
Proof.
  pose proof Hinv as (Hm & _). destruct Hh as (_ & _ & _ & Hi & Ht & Hst & _).
  assert (Hok : task_ok t) by by eapply table_ok_live.
  eapply table_ok_ext; [|intros k'; apply get_tasks_job|intros k'; rewrite completing_fields; unfold m1; by rewrite job_put_tasks].
  eapply table_ok_put; [done..| |done]. apply success_ok; [done|by apply Hok].
Qed.

Lemma completing_counts : counts_ok m2.
Proof.
  pose proof Hinv as (_ & Hc & _). destruct Hh as (_ & _ & _ & Hi & Ht & Hst & _).
  intros k'. rewrite completing_fields, completing_job. unfold m2. rewrite get_tasks_job.
  assert (is_completed t = false /\ is_completed t' = true) as [Hct Hct'] by (unfold is_completed; by rewrite Hst).
  unfold m1. rewrite (put_count m k i t t' Ht Hi), Hct, Hct', <- Hc.
  destruct (decide (k' = k)) as [->|Hne]; [rewrite n_done_set; cbn; lia|rewrite n_done_set_ne by done; lia].
Qed.

Lemma completing_lag : phase_lag m2 /\ forall k', all_tasks k' (fun t => t_state t <> TASK_FAILED) m2.
Proof.
  destruct Hinv as (_ & _ & Hp & Hf & _). split.
  - unfold phase_lag, phase_ok in *. rewrite completing_job, phase_set_done. cbn zeta in Hp.
    destruct (phase_kind_phase _ _ Hk) as [[E Ek]|[E Ek]]; rewrite E in *; subst k; [exact (proj2 Hp)|exact (proj1 Hp)].
  - intros k' i' t1 Hi' Hlk. rewrite completing_fields in Hi'. unfold m2 in Hlk. rewrite get_tasks_job in Hlk.
    apply put_lookup in Hlk as [(_ & _ & ->)|[_ Hlk]]; [done|]. eapply Hf; [|done..]. intros E. by rewrite E in Hk.
Qed.

(** The workers on other tasks of the phase still hold them, unless the phase
    is over, and then there are none. *)
Lemma completing_workers : workers_ok (Some fd) (maybe_advance_phase m2).
Proof.
  pose proof Hinv as (_ & _ & _ & _ & Hw). pose proof Hh as (_ & _ & _ & _ & Ht & _ & Hown).
  destruct completing_lag as [Hlag _].
  destruct (phase_advance m2 completing_table completing_counts Hlag) as (_ & _ & Hsame).
  assert (Hph2 : j_phase (m_job m2) = j_phase (m_job m)) by (rewrite completing_job; apply phase_set_done).
  intros fd' k' Hne Hk' Hht. change (get_worker (maybe_advance_phase m2) fd') with (get_worker m1 fd') in Hht.
  unfold m1 in Hht. rewrite put_worker_same in Hht.
  destruct (Hw fd' k ltac:(done) Hk Hht) as (i' & t1 & Hh1).
  assert (i' <> i) as Hi'. { intros ->. destruct Hh1 as (_ & _ & _ & _ & Ht1 & _ & Hown1). congruence. }
  assert (holds_task m2 fd' k i' t1) as Hh2.
  { apply (put_holds m k i t') in Hh1; [|by right]. unfold holds_task in *. rewrite completing_fields.
    rewrite job_put_tasks in Hh1. unfold m2. by rewrite get_tasks_job. }
  destruct Hsame as [Hsame|Hall].
  - rewrite Hsame, Hph2, Hk in Hk'. injection Hk' as <-. exists i', t1. unfold holds_task in *.
    change (m_job (maybe_advance_phase m2)) with (maybe_advance_phase_job (m_job m2)).
    by rewrite (proj1 (advance_job_fields _ _)), advance_tasks.
  - exfalso. specialize (Hall k ltac:(by rewrite Hph2)).
    apply (counts_all m2 k completing_table completing_counts) in Hall.
    destruct Hh2 as (_ & _ & _ & Hlt & Hlk & Hst1 & _). specialize (Hall i' t1 Hlt Hlk). cbn in Hall. congruence.
Qed.

Lemma job_inv_complete : job_inv_but (Some fd) (complete_master k i t' m).
Proof.
  change (complete_master k i t' m) with (maybe_advance_phase m2). destruct completing_lag as [Hlag Hf].
  destruct (phase_advance m2 completing_table completing_counts Hlag) as (Hp & _ & _).
  assert (Hfields : forall k', n_tasks k' (m_job (maybe_advance_phase m2)) = n_tasks k' (m_job m2) /\
    n_done k' (m_job (maybe_advance_phase m2)) = n_done k' (m_job m2)) by (intros; apply advance_job_fields).
  split; [|split; [|split; [done|split; [|apply completing_workers]]]].
  - eapply table_ok_ext; [apply completing_table|intros; apply advance_tasks|intros; apply Hfields].
  - intros k'. rewrite (proj1 (Hfields k')), (proj2 (Hfields k')), advance_tasks. apply completing_counts.
  - intros _ k' i' t1 Hi'. rewrite (proj1 (Hfields k')) in Hi'. rewrite advance_tasks. by apply Hf.
Qed.
End Complete.

(** ** Runs with honest workers *)

(** While the job runs, a TaskDone names the task and attempt the worker
    holds. Any other message, well formed or not, is allowed. *)
Definition honest (fd : Z) (p : list Z) (st : sys master_app) : Prop :=
  forall msg k, rpc_peek_kind p = Some RPC_TASK_DONE_REQ ->
    rpc_decode_task_done_req (tail p) = Some msg ->
    phase_kind (j_phase (m_job (master st))) = Ret k ->
    let w := get_worker (master st) fd in
    wk_has_task w = true /\ done_task_id msg = wk_current_task_id w /\
    done_attempt_id msg = wk_current_attempt_id w.

Lemma honest_holds fd p st msg k : job_inv (master st) -> honest fd p st ->
  rpc_peek_kind p = Some RPC_TASK_DONE_REQ -> rpc_decode_task_done_req (tail p) = Some msg ->
  phase_kind (j_phase (m_job (master st))) = Ret k ->
  exists i t, holds_task (master st) fd k i t /\ wk_has_task (get_worker (master st) fd) = true /\
    slot_index fd (master st) = i /\ done_task_id msg = Z.of_nat i /\ done_attempt_id msg = t_current_attempt t.
Proof.
  intros (_ & _ & _ & _ & Hw) Hh Hp Hd Hk. destruct (Hh msg k Hp Hd Hk) as (Hht & Hid & Hatt).
  destruct (Hw fd k ltac:(done) Hk Hht) as (i & t & Hhold). exists i, t. split; [done|]. split; [done|].
  destruct Hhold as (_ & Hwid & Hwatt & _). unfold slot_index. rewrite Hwid, Nat2Z.id in *.
  split; [done|]. split; congruence.
Qed.

(** The effect of an honest message. *)
Inductive honest_effect (fd : Z) (st : sys master_app) : master_app -> Prop :=
  | honest_none : honest_effect fd st (app st)
  | honest_assign k i t t' now :
      phase_kind (j_phase (m_job (master st))) = Ret k ->
      first_pending k (master st) i t -> start_attempt fd now t = Ret t' ->
      honest_effect fd st (mk_app (assign_master k i fd t' (master st)) (a_file (app st)))
  | honest_complete k i t now rc file s s' msg :
      phase_kind (j_phase (m_job (master st))) = Ret k -> holds_task (master st) fd k i t ->
      wk_has_task (get_worker (master st) fd) = true ->
      done_task_id msg = Z.of_nat i -> done_attempt_id msg = t_current_attempt t -> s = script st ->
      aof_append_completed s (a_file (app st)) (master st) msg (task_kind_code k) = (rc, file, s') ->
      honest_effect fd st
        (let m := complete_master k i (completed_task fd now t) (master st) in
         mk_app (put_worker fd (set_has_task false (get_worker m fd)) m) file)
  | honest_fail k i t now rc t' j :
      phase_kind (j_phase (m_job (master st))) = Ret k -> holds_task (master st) fd k i t ->
      wk_has_task (get_worker (master st) fd) = true ->
      task_attempt_ended t ATTEMPT_FAILED fd now (m_job (master st)) = Ret (rc, t', j) ->
      honest_effect fd st
        (let m := fail_master k i t' j (master st) in
         mk_app (put_worker fd (set_has_task false (get_worker m fd)) m) (a_file (app st))).

Lemma app_eta (st : sys master_app) : mk_app (master st) (a_file (app st)) = app st.
Proof. unfold master. by destruct (app st). Qed.

Lemma message_effect_honest fd p st a : job_inv (master st) -> 0 <= fd -> honest fd p st ->
  message_effect fd p st a -> honest_effect fd st a.
Proof.
  intros Hinv Hfd Hh [|buf m1 _ Hg|msg k t st1 Hp Hd Hk Ht Hatt Hr].
  - apply honest_none.
  - pose proof (get_task_reply_ok fd (s_now_ms (sv st)) (master st) (proj1 Hinv) Hfd) as Hok.
    destruct (phase_kind (j_phase (m_job (master st)))) as [k| |] eqn:Hk.
    + destruct Hok as [[_ E]|(i & t & t' & Hfp & Hs & E)]; rewrite E in Hg.
      * destruct (_ <? _); [|done]. injection Hg as _ <-. rewrite app_eta. apply honest_none.
      * injection Hg as _ <-. by eapply honest_assign.
    + rewrite Hok in Hg. injection Hg as _ <-. rewrite app_eta. apply honest_none.
    + rewrite Hok in Hg. injection Hg as _ <-. rewrite app_eta. apply honest_none.
  - destruct (honest_holds _ _ _ _ _ Hinv Hh Hp Hd Hk) as (i & t0 & Hhold & Hht & Hi & Hid & Hatt').
    rewrite Hi in *. assert (t0 = t) as -> by (destruct Hhold as (_ & _ & _ & _ & ? & _); congruence).
    destruct (record_result_inv _ _ _ _ _ _ _ (proj1 Hinv) Ht Hr) as (_ & _ & _ & Hor).
    assert (app (clear_has_task fd st1) = mk_app (put_worker fd (set_has_task false (get_worker (master st1) fd)) (master st1))
      (a_file (app st1))) as -> by done.
    destruct Hor as [(_ & Em & rc & file & s & Ha & Ef & _)|(_ & Ef & _ & rc & t' & j & He & Em)]; rewrite Em, Ef.
    + eapply honest_complete; try done. destruct Hhold as (Hkind & _).
      unfold slot_kind_code in Ha. by rewrite Hkind in Ha.
    + by eapply honest_fail.
Qed.

Lemma job_inv_effect fd st a : job_inv (master st) -> 0 <= fd -> honest_effect fd st a -> job_inv (a_master a).
Proof.
  intros Hinv Hfd [|k i t t' now Hk Hfp Hs|k i t now rc file s s' msg Hk Hh _ _ _ _ _|k i t now rc t' j Hk Hh _ He];
    cbn [a_master].
  - done.
  - by eapply job_inv_assign.
  - apply job_inv_slot; [|done]. by apply job_inv_complete.
  - apply job_inv_slot; [|done]. by eapply job_inv_fail.
Qed.

Lemma job_inv_disconnect fd m : job_inv m -> job_inv (put_worker fd worker_zero m).
Proof. intros Hinv. apply job_inv_slot; [by apply job_inv_weaken|done]. Qed.

Lemma job_inv_step st st' : master_step honest st st' -> job_inv (master st) -> job_inv (master st').
Proof.
  intros [fd p st1 Hfd Hh Hm|acc _|fd _|st1 E _ _] Hinv.
  - apply handle_message_inv in Hm as (a & He & E).
    apply (message_effect_honest _ _ _ _ Hinv Hfd Hh) in He.
    apply (job_inv_effect _ _ _ Hinv Hfd) in He.
    unfold master. destruct E as [->| ->]; [done|by apply job_inv_disconnect].
  - unfold master. destruct (on_accept_app acc st) as [->|(fd & _ & ->)]; [done|].
    apply job_inv_slot; [by apply job_inv_weaken|done].
  - by apply job_inv_disconnect.
  - unfold master. by rewrite E.
Qed.

Lemma job_inv_steps st st' : rtc (master_step honest) st st' -> job_inv (master st) -> job_inv (master st').
Proof. induction 1 as [|s1 s2 s3 Hstep _ IH]; [done|]. intros Hinv. by apply IH, (job_inv_step _ _ Hstep). Qed.

(** A running job always has an encodable reply to a GetTask. *)
Lemma get_task_encoded fd st : job_inv (master st) -> 0 <= fd -> exists msg m1, message_wf msg /\
  get_task_reply MSG_MAX fd (s_now_ms (sv st)) (master st) = Ret (Some (message_bytes msg), m1).
Proof.
  intros Hinv Hfd.
  pose proof (get_task_reply_ok fd (s_now_ms (sv st)) (master st) (proj1 Hinv) Hfd) as Hok.
  destruct (phase_kind (j_phase (m_job (master st)))) as [k| |] eqn:Hk; [|by eexists DoneResp, _..].
  destruct Hok as [[Hno E]|(i & t & t' & Hfp & Hs & E)]; rewrite E.
  - destruct Hinv as (_ & _ & Hph & _). unfold phase_ok in Hph.
    destruct (phase_kind_phase _ _ Hk) as [[Eph ->]|[Eph ->]]; rewrite Eph in Hph;
      [destruct (Z.ltb_spec (n_done TASK_KIND_MAP (m_job (master st))) (n_tasks TASK_KIND_MAP (m_job (master st))))
      |destruct (Z.ltb_spec (n_done TASK_KIND_REDUCE (m_job (master st))) (n_tasks TASK_KIND_REDUCE (m_job (master st))))];
      cbn in *; try lia; eexists _, _; (split; [apply wait_msg_wf|done]).
  - destruct (first_pending_start _ _ _ _ _ _ _ (proj1 Hinv) Hfd Hfp Hs) as (Hok' & _ & _ & _ & Hpath).
    destruct Hfp as (Hi & Ht & _). eexists _, _. split; [|done].
    eapply assignment_msg_wf; [apply Hinv|done|done|eapply same_path_ok; [done|]].
    eapply table_ok_path; [apply Hinv|done].
Qed.

(** Honest messages never hit an [assert] or undefined behaviour. *)
Lemma get_task_total fd st : job_inv (master st) -> 0 <= fd ->
  exists rc st', master_handle_get_task fd st = Ret (rc, st').
Proof.
  intros Hinv Hfd. destruct (get_task_encoded fd st Hinv Hfd) as (msg & m1 & Hwf & E).
  unfold master_handle_get_task. rewrite E. cbn [mbind outcome_bind].
  destruct (server_send_total fd (message_bytes msg) (set_master m1 st)) as (rc & st' & ->);
    [by apply message_bytes_max|]. cbn. eauto.
Qed.

Lemma record_result_total fd msg k i t st : task_ok t -> 0 < t_attempts_count t ->
  exists st1, record_result fd msg k i t st = Ret st1.
Proof.
  intros Hok Hpos. unfold record_result. destruct (done_result msg =? 0).
  - destruct (success_ok fd (s_now_ms (sv st)) t Hok Hpos) as [Hput _]. unfold success_record in Hput.
    unfold task_success. rewrite Hput. cbn [mbind outcome_bind].
    destruct (aof_append_completed _ _ _ _ _) as [[??]?]. eauto.
  - destruct (task_attempt_ended_ok t ATTEMPT_FAILED fd (s_now_ms (sv st)) (m_job (master st)) Hok Hpos)
      as (rc & t' & He & _); [done|]. unfold task_failure. rewrite He. cbn. eauto.
Qed.

Lemma task_done_total fd msg k i t st : table_ok (master st) ->
  phase_kind (j_phase (m_job (master st))) = Ret k -> slot_index fd (master st) = i ->
  Z.of_nat i < n_tasks k (m_job (master st)) -> get_tasks k (master st) !! i = Some t ->
  0 < t_attempts_count t -> exists rc st', task_done_helper fd msg st = Ret (rc, st').
Proof.
  intros Hm Hk Hi Hlt Ht Hpos. assert (Hok : task_ok t) by by eapply table_ok_live.
  unfold task_done_helper. rewrite Hk. cbn [mbind outcome_bind]. fold (slot_index fd (master st)).
  rewrite Hi, Ht. cbn [or_fault mbind outcome_bind].
  change (rpc_encode_task_done_ack MSG_MAX) with (Some [7]). cbv beta iota.
  destruct (negb (done_attempt_id msg =? t_current_attempt t)).
  - destruct (server_send_total fd [7] st) as (rc & st' & ->); [by vm_compute|]. cbn.
    destruct (negb (rc =? 0)); eauto.
  - destruct (record_result_total fd msg k i t st Hok Hpos) as (st1 & Hr).
    unfold record_result in Hr. rewrite Hr. cbn [mbind outcome_bind].
    destruct (server_send_total fd [7] st1) as (rc & st' & ->); [by vm_compute|]. cbn.
    destruct (negb (rc =? 0)); eauto.
Qed.

Lemma handle_message_total fd p st : job_inv (master st) -> 0 <= fd -> honest fd p st ->
  exists st', handle_message fd p st = Ret st'.
Proof.
  intros Hinv Hfd Hh. cut (exists rc st', master_on_message fd p st = Ret (rc, st')).
  { intros (rc & st' & E). unfold handle_message. rewrite E. cbn. eauto. }
  unfold master_on_message. destruct (rpc_peek_kind p) as [[]|] eqn:Hp; eauto.
  - destruct (get_task_total fd st Hinv Hfd) as (rc & st' & ->). cbn. eauto.
  - destruct (rpc_decode_task_done_req (tail p)) as [msg|] eqn:Hd; [|eauto].
    unfold master_handle_task_done.
    destruct (phase_kind (j_phase (m_job (master st)))) as [k| |] eqn:Hk.
    2,3: destruct (j_phase (m_job (master st))); cbn; eauto; done.
    destruct (honest_holds _ _ _ _ _ Hinv Hh Hp Hd Hk) as (i & t & Hhold & _ & Hi & _).
    destruct Hhold as (_ & _ & _ & Hlt & Ht & Hst & _).
    assert (0 < t_attempts_count t) as Hpos.
    { assert (task_ok t) as Hok by (eapply table_ok_live; [apply Hinv|done..]). by apply Hok. }
    destruct (task_done_total fd msg k i t st (proj1 Hinv) Hk Hi Hlt Ht Hpos) as (rc & st' & ->).
    destruct (j_phase (m_job (master st))); cbn; eauto.
Qed.

(** ** The start of a job *)

Lemma count_completed_none n l : (forall i t, Z.of_nat i < n -> l !! i = Some t -> is_completed t = false) ->
  count_completed n l = 0.
Proof.
  revert n. induction l as [|x l IH]; intros n Hno.
  { unfold count_completed. by rewrite take_nil. }
  destruct (decide (n <= 0)); [by apply count_completed_0|]. rewrite count_completed_cons by lia.
  rewrite (Hno 0%nat x) by (done || lia). rewrite IH; [done|].
  intros i t Hi Ht. apply (Hno (S i)); [lia|done].
Qed.

Lemma fresh_pending cfg paths R k : job_size_ok paths R ->
  all_tasks k (fun t => t_state t = TASK_PENDING) (fresh_master cfg paths R).
Proof.
  intros (HM & HR & Hp) i t Hi Ht. destruct k; cbn in Hi, Ht.
  - apply (fresh_maps cfg) in Ht as [(_ & p & _ & ->)|[? _]]; [done|lia|lia].
  - apply (fresh_reduces cfg) in Ht as [[_ ->]|[? _]]; [done|lia|lia].
Qed.

Lemma fresh_job_inv cfg paths R : job_size_ok paths R -> job_inv (fresh_master cfg paths R).
Proof.
  intros Hsize. split; [by apply fresh_table_ok|]. split; [|split; [|split]].
  - intros k. symmetry. rewrite count_completed_none; [by destruct k|].
    intros i t Hi Ht. unfold is_completed. by rewrite (fresh_pending cfg paths R k Hsize i t Hi Ht).
  - split; [cbn; apply Hsize|]. by apply fresh_pending.
  - intros _ k i t Hi Ht. by rewrite (fresh_pending cfg paths R k Hsize i t Hi Ht).
  - intros fd k _ _ Hht. unfold get_worker in Hht. cbn in Hht. by rewrite lookup_empty in Hht.
Qed.

(** The regular files among the entries, as paths. *)
Definition regular_paths (m : master_t) (entries : list dirent) : list (list Z) :=
  map (entry_path m) (filter (fun e => d_stat e = Some true) entries).

(** What the loop accepts: paths that fit, and no failing [stat]. *)
Definition entry_good (m : master_t) (e : dirent) : Prop :=
  zlen (entry_path m e) < MAPREDUCE_PATH_MAX /\ d_stat e <> None.

#[export] Instance entry_good_dec m e : Decision (entry_good m e).
Proof. unfold entry_good. apply _. Defined.

Lemma alter_at {B} (f : B -> B) l i x : l !! i = Some x ->
  alter f i l = take i l ++ f x :: drop (S i) l.
Proof.
  revert i. induction l as [|y l IH]; intros [|i] Hx; try done; cbn in Hx.
  - by injection Hx as ->.
  - cbn [take drop]. change (alter f (S i) (y :: l)) with (y :: alter f i l). by rewrite IH.
Qed.

(** What the loop makes of the entries it accepts. *)
Definition entries_ok (m : master_t) (M : Z) (entries : list dirent) : Prop :=
  Forall (entry_good m) entries /\ M + zlen (regular_paths m entries) <= MAX_MAP_TASKS.

#[export] Instance entries_ok_dec m M entries : Decision (entries_ok m M entries).
Proof. unfold entries_ok. apply _. Defined.

Definition with_paths (m : master_t) (M : Z) (paths : list (list Z)) : master_t :=
  set_maps (take (Z.to_nat M) (m_maps m) ++ map path_task paths ++
            drop (Z.to_nat (M + zlen paths)) (m_maps m)) m.

(** One more path. *)
Lemma with_paths_cons m M p paths : 0 <= M < zlen (m_maps m) ->
  let m' := set_maps (alter (fun t => set_input_path p (zlen p) (task_reset_pending t)) (Z.to_nat M) (m_maps m)) m in
  with_paths m' (M + 1) paths = with_paths m M (p :: paths) /\ zlen (m_maps m') = zlen (m_maps m).
Proof.
  intros Hlt m'. unfold zlen in Hlt.
  destruct (lookup_lt_is_Some_2 (m_maps m) (Z.to_nat M)) as [t Ht]; [lia|].
  assert (Hm' : m_maps m' = take (Z.to_nat M) (m_maps m) ++ path_task p :: drop (S (Z.to_nat M)) (m_maps m)).
  { unfold m'. cbn [m_maps set_maps]. by rewrite (alter_at _ _ _ t). }
  assert (length (take (Z.to_nat M) (m_maps m)) = Z.to_nat M) as Hlt' by (rewrite length_take; lia).
  pose proof (zlen_nonneg paths). split.
  - unfold with_paths. rewrite Hm', zlen_cons. unfold m', set_maps. cbn [m_config m_job m_reduces m_workers
      m_now_realtime_ms m_aof_fd m_maps]. f_equal.
    rewrite take_app, drop_app, Hlt'. rewrite take_ge by (rewrite Hlt'; lia).
    rewrite (drop_ge (take _ _)) by (rewrite Hlt'; lia). rewrite app_nil_l.
    replace (Z.to_nat (M + 1) - Z.to_nat M)%nat with 1%nat by lia.
    replace (Z.to_nat (M + 1 + zlen paths) - Z.to_nat M)%nat with (S (Z.to_nat (zlen paths))) by lia.
    rewrite <- app_assoc. f_equal. cbn [take drop map]. rewrite drop_drop.
    change ((path_task p :: map path_task paths) ++ ?l) with ([path_task p] ++ map path_task paths ++ l).
    do 3 f_equal. lia.
  - unfold zlen. rewrite Hm', length_app. cbn [length]. rewrite length_drop, Hlt'. lia.
Qed.

Lemma init_maps_spec entries : forall M m, 0 <= M <= MAX_MAP_TASKS -> zlen (m_maps m) = MAX_MAP_TASKS ->
  (entries_ok m M entries ->
     init_maps entries M m = (Some (M + zlen (regular_paths m entries)), with_paths m M (regular_paths m entries))) /\
  (~ entries_ok m M entries -> (init_maps entries M m).1 = None).
Proof.
  induction entries as [|e entries IH]; intros M m HM Hl; cbn [init_maps]; unfold entries_ok.
  { change (regular_paths m []) with (@nil (list Z)). rewrite zlen_nil, Z.add_0_r. split.
    - intros _. unfold with_paths. rewrite zlen_nil, Z.add_0_r. cbn [map].
      rewrite app_nil_l, take_drop. by destruct m.
    - intros []. split; [apply Forall_nil_2|lia]. }
  rewrite Forall_cons. unfold entry_good at 1 3. pose proof (zlen_nonneg (regular_paths m entries)).
  destruct (Z.leb_spec MAPREDUCE_PATH_MAX (zlen (entry_path m e))) as [Hlong|Hshort].
  { split; [intros [[[? _] _] _]; lia|done]. }
  unfold regular_paths. rewrite filter_cons. fold (regular_paths m entries).
  destruct (d_stat e) as [[]|] eqn:Es.
  3:{ split; [by intros [[[_ ?] _] _]|done]. }
  2:{ rewrite decide_False by done. fold (regular_paths m entries).
      destruct (IH M m HM Hl) as [IH1 IH2]. unfold entries_ok in IH1, IH2. split.
      - intros [[_ ?] ?]. by apply IH1.
      - intros Hn. apply IH2. intros []. apply Hn. by repeat split. }
  rewrite decide_True by done. cbn [map]. rewrite zlen_cons. fold (regular_paths m entries).
  destruct (Z.leb_spec MAX_MAP_TASKS M) as [Hfull|Hroom].
  { split; [intros [_ ?]; lia|done]. }
  destruct (with_paths_cons m M (entry_path m e) (regular_paths m entries)) as [Hw Hl']; [lia|].
  set (m' := set_maps _ m) in *. destruct (IH (M + 1) m' ltac:(lia) ltac:(lia)) as [IH1 IH2].
  unfold entries_ok in IH1, IH2. change (entry_good m') with (entry_good m) in *.
  change (regular_paths m' entries) with (regular_paths m entries) in *. split.
  - intros [[_ Hall] Hsz]. rewrite IH1 by (split; [done|lia]). rewrite Hw. do 2 f_equal. lia.
  - intros Hn. apply IH2. intros [Hall Hsz]. apply Hn. split; [|lia]. by repeat split.
Qed.

(** [scandir] sorts. *)
Lemma name_leb_total a b : name_leb a b = true \/ name_leb b a = true.
Proof.
  revert b. induction a as [|x a IH]; intros [|y b]; cbn; try (by auto).
  destruct (Z.ltb_spec x y), (Z.ltb_spec y x), (Z.eqb_spec x y), (Z.eqb_spec y x); cbn; auto; lia.
Qed.

#[export] Instance entry_le_total : Total entry_le.
Proof. intros a b. apply name_leb_total. Qed.

Lemma scandir_spec dir :
  Sorted entry_le (scandir dir) /\ scandir dir ≡ₚ filter (fun e => input_filter e = true) dir.
Proof. split; [apply Sorted_merge_sort, _|apply merge_sort_Permutation]. Qed.

(** ** Runs from the start of a job *)

(** The log has been opened and the wall clock read, nothing else has
    happened. *)
Definition starts (cfg : master_config_t) (paths : list (list Z)) (R : Z) (st : sys master_app) : Prop :=
  job_size_ok paths R /\ exists fd real, master st = set_now_realtime_ms real (set_aof_fd fd (fresh_master cfg paths R)).

Lemma job_inv_aof fd m : job_inv m -> job_inv (set_aof_fd fd m).
Proof.
  intros (H1 & H2 & H3 & H4 & H5).
  assert (Ht : forall k, get_tasks k (set_aof_fd fd m) = get_tasks k m) by (by intros []).
  split; [eapply table_ok_ext; [exact H1|exact Ht|done]|].
  split; [intros k; rewrite Ht; apply H2|]. split; [exact H3|]. split; [|].
  - intros Hp k i t. rewrite Ht. by apply H4.
  - intros fd' k Hne Hk Hh. destruct (H5 fd' k Hne Hk Hh) as (i & t & Hhold). exists i, t.
    unfold holds_task in *. by rewrite Ht.
Qed.

Lemma starts_inv cfg paths R st : starts cfg paths R st -> job_inv (master st).
Proof.
  intros [Hsize (fd & real & ->)]. change (job_inv (set_aof_fd fd (fresh_master cfg paths R))). by apply job_inv_aof, fresh_job_inv.
Qed.

Lemma run_inv cfg paths R st st' : starts cfg paths R st -> rtc (master_step honest) st st' ->
  job_inv (master st').
Proof. intros Hs Hr. eapply job_inv_steps; [exact Hr|by eapply starts_inv]. Qed.

(** ** Properties *)

(** When the start of a job succeeds, and what it leaves. *)
Lemma init_job_spec dir cfg :
  let m0 := master_zero cfg in
  let paths := regular_paths m0 (scandir dir) in
  let R := wrap 32 (cfg_n_reduce cfg) in
  ((master_init_job (Some dir) m0).1 = 0 <->
     entries_ok m0 0 (scandir dir) /\ 0 < zlen paths /\ 0 < R <= MAX_REDUCE_TASKS) /\
  ((master_init_job (Some dir) m0).1 = 0 ->
     (master_init_job (Some dir) m0).2 = fresh_master cfg paths R /\ job_size_ok paths R).
Proof.
  intros m0 paths R. unfold master_init_job.
  destruct (init_maps_spec (scandir dir) 0 m0 ltac:(limits; lia) ltac:(by vm_compute)) as [Hok Hbad].
  fold paths in Hok. pose proof (zlen_nonneg paths) as Hp0.
  destruct (decide (entries_ok m0 0 (scandir dir))) as [Hgood|Hno].
  2:{ specialize (Hbad Hno). destruct (init_maps (scandir dir) 0 m0) as [[M|] m]; cbn in *; [done|].
      split; [split; [done|by intros [? _]]|done]. }
  rewrite (Hok Hgood). rewrite Z.add_0_l.
  change (cfg_n_reduce (m_config (with_paths m0 0 paths))) with (cfg_n_reduce cfg). fold R.
  assert (0 <= R) by (apply wrap_fits; lia).
  destruct (Z.eqb_spec (zlen paths) 0) as [Hz|Hz]; cbn [fst snd].
  { split; [split; [done|lia]|done]. }
  destruct (Z.eqb_spec R 0) as [HR0|HR0], (Z.ltb_spec MAX_REDUCE_TASKS R) as [HR1|HR1]; cbn [orb fst snd];
    try (split; [split; [done|lia]|done]).
  split; [split; [intros _; split_and!; try done; lia|done]|]. intros _.
  assert (job_size_ok paths R) as Hsize.
  { destruct Hgood as [Hall Hsz]. split; [fold paths in Hsz; lia|]. split; [lia|].
    apply Forall_forall. intros p (e & -> & [_ He]%list_elem_of_filter)%list_elem_of_fmap.
    exact (proj1 (proj1 (Forall_forall _ _) Hall e He)). }
  split; [|done].
  unfold fresh_master, with_paths, set_job, set_reduces, set_maps, loaded_maps. cbn [m_config m_job m_maps m_reduces m_workers m_now_realtime_ms m_aof_fd].
  f_equal. unfold zlen. by rewrite Z.add_0_l, Nat2Z.id.
Qed.

(** C34: the first start. [master_init_job] succeeds exactly when every visible
    entry has a path that fits and a working [stat], there are between 1 and
    [MAX_MAP_TASKS] regular files, and [n_reduce] is between 1 and
    [MAX_REDUCE_TASKS]; it then leaves one pending map task per regular file, in
    the order of the sorted directory, and [n_reduce] pending reduce tasks,
    nothing completed. *)
Theorem master_init_job_spec dir cfg :
  let m0 := master_zero cfg in
  let paths := regular_paths m0 (scandir dir) in
  let R := wrap 32 (cfg_n_reduce cfg) in
  let m := (master_init_job (Some dir) m0).2 in
  ((master_init_job (Some dir) m0).1 = 0 <->
     entries_ok m0 0 (scandir dir) /\ 0 < zlen paths /\ 0 < R <= MAX_REDUCE_TASKS) /\
  ((master_init_job (Some dir) m0).1 = 0 ->
     m = fresh_master cfg paths R /\ (forall k, all_tasks k (fun t => t_state t = TASK_PENDING) m) /\
     Sorted entry_le (scandir dir) /\ scandir dir ≡ₚ filter (fun e => input_filter e = true) dir).
Proof.
  intros m0 paths R m. destruct (init_job_spec dir cfg) as [Hiff Hres]. split; [exact Hiff|].
  intros H0. destruct (Hres H0) as [E Hsize]. split; [exact E|]. split; [|apply scandir_spec].
  intros k. unfold m, m0. rewrite E. by apply fresh_pending.
Qed.

(** C7: the job invariant. After any run of honest workers from the start of a
    job, with connections made and lost at any moment and any kernel behaviour,
    the task table is well formed, both counters equal the number of COMPLETED
    tasks, every slot that claims a task of the current phase names a task in
    progress that it owns, and no task is FAILED unless the job is. *)
Theorem job_invariant cfg paths R st st' :
  starts cfg paths R st -> rtc (master_step honest) st st' ->
  let m := master st' in
  table_ok m /\
  (forall k, n_done k (m_job m) = count_completed (n_tasks k (m_job m)) (get_tasks k m)) /\
  (forall fd k, phase_kind (j_phase (m_job m)) = Ret k -> wk_has_task (get_worker m fd) = true ->
     exists i t, holds_task m fd k i t) /\
  (j_phase (m_job m) <> JOB_FAILED -> forall k, all_tasks k (fun t => t_state t <> TASK_FAILED) m).
Proof.
  intros Hs Hr. destruct (run_inv _ _ _ _ _ Hs Hr) as (H1 & H2 & _ & H4 & H5).
  split_and!; [done|done| |done]. intros fd k. by apply H5.
Qed.

(** C14: the barrier between the phases, when the workers are honest: while the
    job runs, a TaskDone is sent only for the task and the attempt that the slot
    of its sender holds ([honest]). In every state a run with such workers
    reaches, if some reduce task is no longer PENDING then every map task is
    COMPLETED. A worker that repeats a report can break this. *)
Theorem reduces_wait_for_maps cfg paths R st st' i t :
  starts cfg paths R st -> rtc (master_step honest) st st' ->
  Z.of_nat i < j_R (m_job (master st')) -> m_reduces (master st') !! i = Some t ->
  t_state t <> TASK_PENDING ->
  all_tasks TASK_KIND_MAP (fun t => t_state t = TASK_COMPLETED) (master st').
Proof.
  intros Hs Hr Hi Ht Hst. destruct (run_inv _ _ _ _ _ Hs Hr) as (H1 & H2 & H3 & _).
  apply (counts_all _ TASK_KIND_MAP H1 H2). unfold phase_ok in H3. cbn [n_done n_tasks].
  destruct (j_phase (m_job (master st'))); [|by destruct H3..|].
  - destruct H3 as [_ Hall]. by destruct Hst; apply (Hall i t).
  - destruct H3 as [_ [?|Hall]]; [done|]. by destruct Hst; apply (Hall i t).
Qed.

(** C15: at most one worker holds a task of the current phase, when the workers
    are honest: while the job runs, a TaskDone is sent only for the task and the
    attempt that the slot of its sender holds ([honest]). In every state a run
    with such workers reaches, two descriptors whose slots claim the same task
    of the phase the job is in are the same descriptor. A worker that reports
    a failure with the current attempt of a task it no longer holds can break
    this. *)
Theorem one_worker_per_task cfg paths R st st' fd1 fd2 k :
  starts cfg paths R st -> rtc (master_step honest) st st' ->
  phase_kind (j_phase (m_job (master st'))) = Ret k ->
  let w1 := get_worker (master st') fd1 in
  let w2 := get_worker (master st') fd2 in
  wk_has_task w1 = true -> wk_has_task w2 = true ->
  wk_current_task_id w1 = wk_current_task_id w2 -> fd1 = fd2.
Proof.
  intros Hs Hr Hk w1 w2 Hw1 Hw2 Heq. destruct (run_inv _ _ _ _ _ Hs Hr) as (_ & _ & _ & _ & H5).
  destruct (H5 fd1 k ltac:(done) Hk Hw1) as (i1 & t1 & _ & Hi1 & _ & _ & Ht1 & _ & Ho1).
  destruct (H5 fd2 k ltac:(done) Hk Hw2) as (i2 & t2 & _ & Hi2 & _ & _ & Ht2 & _ & Ho2).
  fold w1 in Hi1. fold w2 in Hi2. assert (i1 = i2) as -> by lia. congruence.
Qed.

(** C16: the job is done exactly when everything is, when the workers are honest:
    while the job runs, a TaskDone is sent only for the task and the attempt
    that the slot of its sender holds ([honest]). In every state a run with such
    workers reaches, the phase is JOB_DONE if and only if the job has not failed
    and every map and every reduce task is COMPLETED. A worker that repeats a
    report can bring the job to JOB_DONE with tasks left. *)
Theorem job_done_complete cfg paths R st st' :
  starts cfg paths R st -> rtc (master_step honest) st st' ->
  j_phase (m_job (master st')) = JOB_DONE <->
  (j_phase (m_job (master st')) <> JOB_FAILED /\
   forall k, all_tasks k (fun t => t_state t = TASK_COMPLETED) (master st')).
Proof.
  intros Hs Hr. destruct (run_inv _ _ _ _ _ Hs Hr) as (H1 & H2 & H3 & _).
  pose proof (counts_all _ TASK_KIND_MAP H1 H2) as [_ HM].
  pose proof (counts_all _ TASK_KIND_REDUCE H1 H2) as [_ HR]. cbn [n_done n_tasks] in *.
  unfold phase_ok in H3. split.
  - intros E. rewrite E in H3. destruct H3 as [E1 E2]. split; [by rewrite E|]. intros []; [by apply HM|by apply HR].
  - intros [Hnf Hall]. pose proof (proj2 HM (Hall TASK_KIND_MAP)). pose proof (proj2 HR (Hall TASK_KIND_REDUCE)).
    destruct (j_phase (m_job (master st'))); [lia|lia|done|done].
Qed.

(** C19: honest workers never crash the master. In every state an honest run
    reaches, handling a message of an honest worker returns: no [assert] fails,
    no array is indexed out of its bounds, no buffer overflows. *)
Theorem honest_message_safe cfg paths R st st' fd p :
  starts cfg paths R st -> rtc (master_step honest) st st' -> 0 <= fd -> honest fd p st' ->
  exists st'', handle_message fd p st' = Ret st''.
Proof. intros Hs Hr. apply handle_message_total. by eapply run_inv. Qed.

(** A finished or failed job is final. From JOB_DONE or JOB_FAILED, no
    sequence of messages (honest or not), connections and disconnections changes
    the job, a task or the log. *)
Theorem terminal_phase_final st st' :
  phase_kind (j_phase (m_job (master st))) = Aborted -> rtc (master_step any_message) st st' ->
  m_job (master st') = m_job (master st) /\ (forall k, get_tasks k (master st') = get_tasks k (master st)) /\
  a_file (app st') = a_file (app st).
Proof.
  intros Hk Hr. revert Hk. induction Hr as [|s1 s2 s3 Hstep _ IH]; intros Hk; [done|].
  cut (m_job (master s2) = m_job (master s1) /\ (forall k, get_tasks k (master s2) = get_tasks k (master s1)) /\
    a_file (app s2) = a_file (app s1)).
  { intros (E1 & E2 & E3). destruct IH as (F1 & F2 & F3); [by rewrite E1|].
    split_and!; [congruence| |congruence]. intros k. by rewrite F2. }
  clear IH. destruct Hstep as [fd p s2 Hfd _ Hm|acc _|fd _|s2 E _ _].
  - apply handle_message_inv in Hm as (a & He & E).
    assert (m_job (a_master a) = m_job (master s1) /\
      (forall k, get_tasks k (a_master a) = get_tasks k (master s1)) /\ a_file a = a_file (app s1)) as Ha.
    { destruct He as [|buf m1 _ Hg|msg k t st1 _ _ Hk' _ _ _]; [done| |by rewrite Hk in Hk'].
      unfold get_task_reply in Hg. destruct (j_phase (m_job (master s1))); try done; by injection Hg as _ <-. }
    destruct Ha as (E1 & E2 & E3). unfold master. destruct E as [->| ->]; [done|].
    split; [done|]. split; [|done]. intros k. cbn. rewrite get_tasks_worker. apply E2.
  - unfold master. destruct (on_accept_app acc s1) as [->|(fd & _ & ->)]; [done|].
    split; [done|]. split; [|done]. intros []; done.
  - split; [done|]. split; [|done]. intros []; done.
  - unfold master. by rewrite E.
Qed.

(** C36: a stale report changes nothing. A TaskDone whose attempt id is not the
    current attempt of the task the worker's slot names leaves the job, all
    tasks and the log as they were. *)
Theorem stale_report_dropped fd p msg k t st st' :
  rpc_peek_kind p = Some RPC_TASK_DONE_REQ -> rpc_decode_task_done_req (tail p) = Some msg ->
  phase_kind (j_phase (m_job (master st))) = Ret k ->
  get_tasks k (master st) !! slot_index fd (master st) = Some t ->
  done_attempt_id msg <> t_current_attempt t ->
  handle_message fd p st = Ret st' ->
  m_job (master st') = m_job (master st) /\ (forall k, get_tasks k (master st') = get_tasks k (master st)) /\
  a_file (app st') = a_file (app st).
Proof.
  intros Hp Hd Hk Ht Hne Hm. apply handle_message_inv in Hm as (a & He & E).
  assert (a = app st) as ->.
  { destruct He as [|buf m1 Hp' _|msg' k' t' st1 Hp' Hd' Hk' Ht' Hatt _]; [done|congruence|].
    rewrite Hd in Hd'. injection Hd' as <-. rewrite Hk in Hk'. injection Hk' as <-.
    rewrite Ht in Ht'. by injection Ht' as <-. }
  unfold master. destruct E as [->| ->]; [done|]. split; [done|]. split; [|done]. by intros [].
Qed.

(** ** Witnesses: a job of two splits and two partitions *)

Lemma demo_starts : starts demo_config demo_paths 2 demo.
Proof. split; [decide_now|by exists 4, 0]. Defined.

Definition done_bytes (task attempt result : Z) : list Z :=
  message_bytes (TaskDoneReq (mk_done_req task attempt result)).

(** [honest], computed. *)
Definition honestb (fd : Z) (p : list Z) (st : sys master_app) : bool :=
  match rpc_peek_kind p, rpc_decode_task_done_req (tail p), phase_kind (j_phase (m_job (master st))) with
  | Some RPC_TASK_DONE_REQ, Some msg, Ret _ =>
      let w := get_worker (master st) fd in
      wk_has_task w && (done_task_id msg =? wk_current_task_id w) &&
      (done_attempt_id msg =? wk_current_attempt_id w)
  | _, _, _ => true
  end.

Lemma honestb_ok fd p st : honestb fd p st = true -> honest fd p st.
Proof.
  unfold honestb. intros Hb msg k Hp Hd Hk. rewrite Hp, Hd, Hk in Hb.
  apply andb_true_iff in Hb as [[? ?]%andb_true_iff ?]. by repeat split; [..|apply Z.eqb_eq|apply Z.eqb_eq].
Qed.

(** The run of a script of honest messages. *)
Fixpoint play (l : list (Z * list Z)) (st : sys master_app) : option (sys master_app) :=
  match l with
  | [] => Some st
  | (fd, p) :: l =>
      if (0 <=? fd) && honestb fd p st then
        match handle_message fd p st with Ret st' => play l st' | _ => None end
      else None
  end.

Lemma play_run l : forall st st', play l st = Some st' -> rtc (master_step honest) st st'.
Proof.
  induction l as [|[fd p] l IH]; intros st st' H; cbn in H; [by injection H as <-|].
  destruct ((0 <=? fd) && honestb fd p st) eqn:E; [|done].
  apply andb_true_iff in E as [Hfd%Z.leb_le Hh%honestb_ok].
  destruct (handle_message fd p st) as [st1| |] eqn:E; [|done..].
  eapply rtc_l; [by eapply step_message|by apply IH].
Qed.

(** The state after a script, for scripts that run to their end. *)
Definition played (l : list (Z * list Z)) : sys master_app := default demo (play l demo).

Lemma played_run l : is_Some (play l demo) -> rtc (master_step honest) demo (played l).
Proof. intros [st E]. unfold played. rewrite E. cbn. by eapply play_run. Qed.

(** Both maps done by one worker, the first reduce taken by another. *)
Definition demo_maps : list (Z * list Z) :=
  [(5, get_task_bytes); (5, done_bytes 0 1 0); (5, get_task_bytes); (5, done_bytes 1 1 0)].
Definition demo_reduce : list (Z * list Z) := demo_maps ++ [(6, get_task_bytes)].
Definition demo_all : list (Z * list Z) :=
  demo_reduce ++ [(6, done_bytes 0 1 0); (6, get_task_bytes); (6, done_bytes 1 1 0)].

Ltac run_demo := apply played_run; vm_compute; by eexists.

Example master_init_job_spec_witness :
  let dir := [mk_dirent [98] (Some true); mk_dirent [46; 120] None; mk_dirent [97] (Some true);
              mk_dirent [100] (Some false)] in
  (master_init_job (Some dir) (master_zero demo_config)).1 = 0 /\
  (master_init_job (Some dir) (master_zero demo_config)).2 = fresh_master demo_config demo_paths 2.
Proof.
  intros dir. destruct (master_init_job_spec dir demo_config) as [_ H].
  split; [vm_compute; reflexivity|]. apply H. vm_compute. reflexivity.
Defined.

Example job_invariant_witness :
  let m := master (played demo_maps) in
  table_ok m /\ n_done TASK_KIND_MAP (m_job m) = count_completed (n_tasks TASK_KIND_MAP (m_job m)) (get_tasks TASK_KIND_MAP m) /\ j_maps_done (m_job m) = 2.
Proof.
  destruct (job_invariant demo_config demo_paths 2 demo (played demo_maps) demo_starts ltac:(run_demo)) as (H1 & H2 & _).
  split; [exact H1|]. split; [exact (H2 TASK_KIND_MAP)|vm_compute; reflexivity].
Defined.

Example reduces_wait_for_maps_witness :
  exists t, m_reduces (master (played demo_reduce)) !! 0%nat = Some t /\ t_state t = TASK_IN_PROGRESS /\
  all_tasks TASK_KIND_MAP (fun t => t_state t = TASK_COMPLETED) (master (played demo_reduce)).
Proof.
  destruct (m_reduces (master (played demo_reduce)) !! 0%nat) as [t|] eqn:E; [|vm_compute in E; discriminate E].
  assert (t_state t = TASK_IN_PROGRESS) as Hst by (vm_compute in E; by injection E as <-).
  exists t. split; [done|]. split; [done|].
  apply (reduces_wait_for_maps demo_config demo_paths 2 demo (played demo_reduce) 0 t demo_starts ltac:(run_demo)).
  - vm_compute. reflexivity.
  - exact E.
  - rewrite Hst. discriminate.
Defined.

Example one_worker_per_task_witness :
  let st := played [(5, get_task_bytes); (6, get_task_bytes)] in
  wk_has_task (get_worker (master st) 5) = true /\ wk_has_task (get_worker (master st) 6) = true /\
  wk_current_task_id (get_worker (master st) 5) <> wk_current_task_id (get_worker (master st) 6).
Proof.
  intros st. split; [vm_compute; reflexivity|]. split; [vm_compute; reflexivity|]. intros Heq.
  assert (5 = 6) as Hbad; [|discriminate Hbad].
  apply (one_worker_per_task demo_config demo_paths 2 demo st 5 6 TASK_KIND_MAP demo_starts ltac:(run_demo));
    [vm_compute; reflexivity..|exact Heq].
Defined.

Example job_done_complete_witness :
  j_phase (m_job (master (played demo_all))) = JOB_DONE /\
  forall k, all_tasks k (fun t => t_state t = TASK_COMPLETED) (master (played demo_all)).
Proof.
  assert (j_phase (m_job (master (played demo_all))) = JOB_DONE) as E by (vm_compute; reflexivity).
  split; [done|].
  by apply (job_done_complete demo_config demo_paths 2 demo (played demo_all) demo_starts ltac:(run_demo)).
Defined.

Example honest_message_safe_witness :
  exists st'', handle_message 6 (done_bytes 0 1 1) (played demo_reduce) = Ret st''.
Proof.
  apply (honest_message_safe demo_config demo_paths 2 demo (played demo_reduce) 6 (done_bytes 0 1 1)
    demo_starts ltac:(run_demo)); [discriminate|]. apply honestb_ok. vm_compute. reflexivity.
Defined.

Example terminal_phase_final_witness :
  exists st', handle_message 5 (done_bytes 0 1 0) (played demo_all) = Ret st' /\
    m_job (master st') = m_job (master (played demo_all)).
Proof.
  destruct (handle_message 5 (done_bytes 0 1 0) (played demo_all)) as [st'| |] eqn:E;
    [|vm_compute in E; discriminate E..].
  exists st'. split; [done|]. apply (terminal_phase_final (played demo_all) st'); [vm_compute; reflexivity|].
  apply rtc_once. by apply (step_message _ _ 5 (done_bytes 0 1 0)).
Defined.

Example stale_report_dropped_witness :
  exists st', handle_message 6 (done_bytes 0 7 0) (played demo_reduce) = Ret st' /\
    m_job (master st') = m_job (master (played demo_reduce)).
Proof.
  destruct (handle_message 6 (done_bytes 0 7 0) (played demo_reduce)) as [st'| |] eqn:E;
    [|vm_compute in E; discriminate E..].
  exists st'. split; [done|].
  destruct (get_tasks TASK_KIND_REDUCE (master (played demo_reduce)) !! slot_index 6 (master (played demo_reduce)))
    as [t|] eqn:Et; [|vm_compute in Et; discriminate Et].
  apply (stale_report_dropped 6 (done_bytes 0 7 0) (mk_done_req 0 7 0) TASK_KIND_REDUCE t (played demo_reduce) st');
    [reflexivity|reflexivity|vm_compute; reflexivity|exact Et| |exact E].
  vm_compute in Et. injection Et as <-. discriminate.
Defined.
