(* ===== verification/Recovery.v ===== *)
(** * Crash recovery (src/master.c, src/aof.c)

    The log of a running master records exactly its completed tasks, so a
    restart from it resumes the job where it stopped, any number of times. *)

From S2P Require Import Prelude Limits Util Rpc Task Aof EventLoop Server Framing Master Sched Job.

(** ** Scripts are consumed *)

Lemma consumed_trans s1 s2 s3 : consumed s1 s2 -> consumed s2 s3 -> consumed s1 s3.
Proof. intros [u1 ->] [u2 ->]. exists (u1 ++ u2). by rewrite app_assoc. Qed.

Lemma consumed_benign s s' : consumed s s' -> benign s -> benign s'.
Proof. intros [u ->] [_ ?]%benign_app. done. Qed.

Lemma io_simple_consumed s ok s' : io_simple s = (ok, s') -> consumed s s'.
Proof. destruct s as [|[] s]; cbn; intros; simplify_eq; [by exists []|..]; (by eexists [_]). Qed.

Lemma add_write_consumed {A} fd (st : sys A) : consumed (script st) (script (add_write_handler fd st)).
Proof.
  unfold add_write_handler, el_add_write. destruct (fd_out_of_range fd); [apply consumed_refl|].
  destruct (io_simple (script st)) as [[] s] eqn:E; cbn; by eapply io_simple_consumed.
Qed.

Lemma queue_write_consumed {A} `{ServerCallbacks A} fd data (st : sys A) :
  consumed (script st) (script (queue_write fd data st).2).
Proof.
  unfold queue_write. fold (make_room data (get_client st fd)). set (c := make_room _ _).
  destruct (_ <? _); [apply consumed_refl|]. destruct (wlen c =? 0);
    [|exact (add_write_consumed fd (put_client fd (c_set_wbuf (c_wbuf c ++ data) (c_woff c) c) (put_client fd c st)))].
  destruct (sock_write _ _) as [[n|[]] s] eqn:E; apply sock_write_consumed in E; cbn [script] in E;
    change (script (put_client ?f ?c ?x)) with (script x) in E.
  - destruct (_ =? _); [exact E|]. cbn [snd]. eapply consumed_trans; [exact E|].
    apply (add_write_consumed fd (put_client fd _ (record_sent fd _ (set_script s _)))).
  - eapply consumed_trans; [exact E|]. apply (add_write_consumed fd (set_script s _)).
  - exact E.
Qed.

Lemma server_send_consumed {A} `{ServerCallbacks A} fd p (st : sys A) rc st' :
  server_send fd p st = Ret (rc, st') -> consumed (script st) (script st').
Proof.
  unfold server_send, send_framed. destruct (_ <? _); [done|]. cbn [mbind outcome_bind].
  pose proof (queue_write_consumed fd (be_encode 4 (zlen p) ++ p) st) as Hc.
  destruct (queue_write _ _ _) as [ok st1]. cbn in *. intros [= _ <-]. done.
Qed.

Lemma append_consumed s f m msg k rc f' s' : aof_append_completed s f m msg k = (rc, f', s') -> consumed s s'.
Proof.
  unfold aof_append_completed. destruct (_ <? 0); [intros [= _ _ <-]; apply consumed_refl|].
  destruct (aof_write_record s f msg k) as [[rc1 f1] s1] eqn:E.
  destruct (write_record_spec _ _ _ _ _ _ _ E) as (_ & _ & _ & _ & _ & Hc).
  destruct (rc1 =? -1); [by intros [= _ _ <-]|].
  unfold durable_flush. destruct (io_simple s1) as [ok s2] eqn:E2. apply io_simple_consumed in E2.
  destruct (_ =? -1); intros [= _ _ <-]; by eapply consumed_trans.
Qed.

Lemma on_message_consumed fd p st rc st' : table_ok (master st) ->
  master_on_message fd p st = Ret (rc, st') -> consumed (script st) (script st').
Proof.
  intros Hm Hmsg. destruct (on_message_inv _ _ _ _ _ Hmsg) as [[_ ->]|[[_ Hg]|(msg & _ & _ & Hd)]].
  - apply consumed_refl.
  - unfold master_handle_get_task in Hg. apply outcome_bind_Ret in Hg as ([buf m1] & _ & Hg).
    destruct buf as [buf|]; [|injection Hg as _ <-; apply consumed_refl].
    apply outcome_bind_Ret in Hg as ([rc1 st1] & Hs & Hg). injection Hg as _ <-.
    by apply server_send_consumed in Hs.
  - unfold task_done_helper in Hd. apply outcome_bind_Ret in Hd as (k & _ & Hd).
    apply outcome_bind_Ret in Hd as (t & Ht & Hd). apply or_fault_Ret in Ht.
    change (rpc_encode_task_done_ack MSG_MAX) with (Some [7]) in Hd. cbv beta iota in Hd.
    destruct (negb _).
    + apply outcome_bind_Ret in Hd as ([rc1 st1] & Hs & Hd). apply server_send_consumed in Hs.
      destruct (negb _); by injection Hd as _ <-.
    + apply outcome_bind_Ret in Hd as (st0 & Hr & Hd). apply outcome_bind_Ret in Hd as ([rc1 st1] & Hs & Hd).
      apply server_send_consumed in Hs.
      assert (consumed (script st) (script st0)) as H0.
      { apply (record_result_inv fd msg k _ t st st0 Hm Ht) in Hr
          as (_ & _ & _ & [(_ & _ & rc2 & f & s & Ha & _ & ->)|(_ & _ & -> & _)]);
          [by eapply append_consumed|apply consumed_refl]. }
      destruct (negb _); injection Hd as _ <-; by eapply consumed_trans.
Qed.

Lemma step_consumed ok st st' : table_ok (master st) -> master_step ok st st' ->
  consumed (script st) (script st').
Proof.
  intros Hm [fd p st1 _ _ Hh|acc _|fd _|st1 _ _ Hc]; [| |apply consumed_refl|done].
  - unfold handle_message in Hh. apply outcome_bind_Ret in Hh as ([rc st2] & Hmsg & Hh).
    apply on_message_consumed in Hmsg; [|done]. injection Hh as <-. by destruct (rc =? 0).
  - unfold on_accept. destruct acc as [fd|]; [|apply consumed_refl].
    destruct (_ <=? _); [apply consumed_refl|]. unfold set_non_blocking.
    destruct (io_simple (script st)) as [[] s1] eqn:E1; apply io_simple_consumed in E1; [|exact E1].
    destruct (io_simple s1) as [[] s2] eqn:E2; apply io_simple_consumed in E2;
      [|by eapply consumed_trans]. change (0 =? -1) with false. cbv beta iota zeta.
    unfold el_add. change (script (set_script s2 st)) with s2.
    assert (consumed (script st) s2) by by eapply consumed_trans.
    destruct (fd_out_of_range fd); [done|].
    destruct (io_simple s2) as [[] s3] eqn:E3; apply io_simple_consumed in E3; by eapply consumed_trans.
Qed.

(** ** The log of a running master *)

(** Task [i] of kind [k] is completed. *)
Definition completed_in (m : master_t) (k : task_kind_e) (i : nat) : Prop :=
  Z.of_nat i < n_tasks k (m_job m) /\
  exists t, get_tasks k m !! i = Some t /\ t_state t = TASK_COMPLETED.

(** The open log holds the job and one record per completed task. *)
Definition log_ok (created : Z) (paths : list (list Z)) (a : master_app) : Prop :=
  let m := a_master a in
  let M := j_M (m_job m) in
  let R := j_R (m_job m) in
  0 <= m_aof_fd m /\ M = zlen paths /\ Forall path_ok paths /\ task_paths M (m_maps m) = paths /\
  exists cs, a_file a = log_bytes created M R paths cs /\
    Forall completion_wf cs /\ Forall (in_range M R) cs /\
    forall k, n_done k (m_job m) = zlen (completed_ids k cs) /\
      forall i, i ∈ completed_ids k cs <-> completed_in m k i.

(** A master the log can bring back. *)
Definition durable (created : Z) (paths : list (list Z)) (a : master_app) : Prop :=
  job_inv (a_master a) /\ log_ok created paths a.

Lemma completed_ids_snoc k cs k' i att :
  completed_ids k (cs ++ [mk_completion (task_kind_code k') (Z.of_nat i) att]) =
  completed_ids k cs ++ (if decide (k = k') then [i] else []).
Proof.
  unfold completed_ids. rewrite filter_app, map_app. f_equal.
  rewrite filter_cons. cbn [cp_kind]. destruct (decide (k = k')) as [->|Hne].
  - rewrite decide_True by done. cbn. by rewrite Nat2Z.id.
  - rewrite decide_False by by destruct k, k'. done.
Qed.

Lemma log_bytes_snoc created M R paths cs c :
  log_bytes created M R paths (cs ++ [c]) = log_bytes created M R paths cs ++ seal (completion_body c).
Proof.
  unfold log_bytes, records_bytes. rewrite map_app, concat_app. cbn [map concat]. by rewrite app_nil_r, app_assoc.
Qed.

Lemma task_paths_put n l i t t' : l !! i = Some t -> same_path t t' ->
  task_paths n (<[i := t']> l) = task_paths n l.
Proof.
  intros Ht [Hp _]. unfold task_paths. apply list_eq. intros i'.
  rewrite !list_lookup_fmap, !lookup_take.
  destruct (decide (i' < Z.to_nat n)%nat).
  - destruct (decide (i' = i)) as [->|]; [|by rewrite list_lookup_insert_ne].
    rewrite list_lookup_insert_eq by by eapply lookup_lt_Some. rewrite Ht. cbn. by rewrite Hp.
  - done.
Qed.

Lemma log_ok_ext created paths a a' : log_ok created paths a ->
  m_aof_fd (a_master a') = m_aof_fd (a_master a) -> a_file a' = a_file a ->
  (forall k, n_tasks k (m_job (a_master a')) = n_tasks k (m_job (a_master a)) /\
             n_done k (m_job (a_master a')) = n_done k (m_job (a_master a))) ->
  (forall n, task_paths n (m_maps (a_master a')) = task_paths n (m_maps (a_master a))) ->
  (forall k i, completed_in (a_master a') k i <-> completed_in (a_master a) k i) ->
  log_ok created paths a'.
Proof.
  intros (Hfd & HM & Hp & Htp & cs & Hf & Hwf & Hr & Hk) Efd Ef En Ep Ec.
  pose proof (proj1 (En TASK_KIND_MAP)) as EM. pose proof (proj1 (En TASK_KIND_REDUCE)) as ER. cbn [n_tasks] in *.
  unfold log_ok. rewrite Efd, Ef, EM, ER, Ep. split_and!; try done. exists cs. split_and!; try done.
  intros k. destruct (Hk k) as [Hn Hi]. rewrite (proj2 (En k)). split; [done|]. intros i. by rewrite Ec.
Qed.

Lemma log_ok_worker created paths m f fd w : log_ok created paths (mk_app m f) ->
  log_ok created paths (mk_app (put_worker fd w m) f).
Proof.
  intros H. eapply log_ok_ext; [exact H|done..|]. intros k i. unfold completed_in. cbn. by rewrite get_tasks_worker.
Qed.

(** One live slot changes; the job fields are those of [j']. *)
Section LogPut.
Context (m : master_t) (k : task_kind_e) (i : nat) (t t' : task_t) (j' : job_t).
Hypothesis Ht : get_tasks k m !! i = Some t.
Hypothesis Hi : Z.of_nat i < n_tasks k (m_job m).
Hypothesis Hn : forall k, n_tasks k j' = n_tasks k (m_job m).
Let m' := set_job j' (put_tasks k (<[i := t']> (get_tasks k m)) m).

Lemma completed_in_put k' i' : completed_in m' k' i' <->
  (k' = k /\ i' = i /\ t_state t' = TASK_COMPLETED) \/ ((k' <> k \/ i' <> i) /\ completed_in m k' i').
Proof.
  unfold completed_in, m'. cbn [m_job set_job]. rewrite Hn, get_tasks_job. split.
  - intros [Hi' (t1 & [(-> & -> & ->)|[Hne Hl]]%put_lookup & Hs)]; [by left|right]. split; [done|]. eauto.
  - intros [(-> & -> & Hs)|(Hne & Hi' & t1 & Hl & Hs)].
    + split; [done|]. exists t'. split; [|done]. rewrite get_put_tasks. apply list_lookup_insert_eq.
      by eapply lookup_lt_Some.
    + split; [done|]. exists t1. by rewrite put_lookup_ne.
Qed.

Lemma completed_in_put_same k' i' : t_state t <> TASK_COMPLETED -> t_state t' <> TASK_COMPLETED ->
  completed_in m' k' i' <-> completed_in m k' i'.
Proof.
  intros Hs Hs'. rewrite completed_in_put. split; [by intros [(_ & _ & ?)|[_ ?]]|]. intros Hc. right. split; [|done].
  destruct (decide (k' = k)) as [->|]; [|by left]. right. intros ->.
  destruct Hc as (_ & t1 & Ht1 & ?). congruence.
Qed.

(** One more completed task, one more record. *)
Lemma completed_in_snoc cs att k' i' : t_state t' = TASK_COMPLETED ->
  (i' ∈ completed_ids k' cs <-> completed_in m k' i') ->
  i' ∈ completed_ids k' (cs ++ [mk_completion (task_kind_code k) (Z.of_nat i) att]) <-> completed_in m' k' i'.
Proof.
  intros Hs Hiff. rewrite completed_ids_snoc, elem_of_app, Hiff, completed_in_put.
  destruct (decide (k' = k)) as [->|Hne]; [rewrite list_elem_of_singleton|rewrite elem_of_nil].
  - destruct (decide (i' = i)) as [->|Hne'].
    + split; intros _; [by left|by right].
    + split; [intros [?|?]; [by right; auto|done]|intros [(_ & ? & _)|[_ ?]]; [done|by left]].
  - split; [intros [?|[]]; by right; auto|intros [(? & _)|[_ ?]]; [done|by left]].
Qed.

Lemma task_paths_put_m n : same_path t t' -> task_paths n (m_maps m') = task_paths n (m_maps m).
Proof.
  intros Hp. unfold m'. destruct k; cbn [m_maps set_job put_tasks set_maps set_reduces]; [|done].
  by eapply task_paths_put.
Qed.

Lemma aof_fd_put : m_aof_fd m' = m_aof_fd m.
Proof. clear. subst m'. by destruct k. Qed.
End LogPut.

Lemma log_ok_slot created paths m f k i t t' j' :
  log_ok created paths (mk_app m f) -> get_tasks k m !! i = Some t -> Z.of_nat i < n_tasks k (m_job m) ->
  (forall k, n_tasks k j' = n_tasks k (m_job m) /\ n_done k j' = n_done k (m_job m)) -> same_path t t' ->
  t_state t <> TASK_COMPLETED -> t_state t' <> TASK_COMPLETED ->
  log_ok created paths (mk_app (set_job j' (put_tasks k (<[i := t']> (get_tasks k m)) m)) f).
Proof.
  intros Hlog Ht Hi Hj Hp Hs Hs'. eapply log_ok_ext; [exact Hlog|by destruct k|done|exact Hj| |].
  - intros n. by eapply (task_paths_put_m m k i t t' j' Ht).
  - intros k' i'. apply (completed_in_put_same m k i t t' j' Ht Hi); [apply Hj|done|done].
Qed.

Lemma log_ok_complete created paths m f k i t now fd msg s rc f' s' :
  table_ok m -> log_ok created paths (mk_app m f) -> get_tasks k m !! i = Some t ->
  Z.of_nat i < n_tasks k (m_job m) -> t_state t = TASK_IN_PROGRESS ->
  n_done k (m_job m) < n_tasks k (m_job m) ->
  done_task_id msg = Z.of_nat i -> done_attempt_id msg = t_current_attempt t -> benign s ->
  aof_append_completed s f m msg (task_kind_code k) = (rc, f', s') ->
  log_ok created paths (mk_app (complete_master k i (completed_task fd now t) m) f').
Proof.
  intros Hm (Hfd & HM & Hp & Htp & cs & Hf & Hwf & Hr & Hk) Ht Hi Hst Hlt Hid Hatt Hb Ha.
  destruct (append_completed_ok s f m msg (task_kind_code k) Hb Hfd) as (s1 & E & _).
  rewrite Ha in E. injection E as _ -> _. clear Ha.
  cbn [a_master a_file] in *. subst f. rewrite Hid, Hatt. set (t' := completed_task fd now t).
  unfold complete_master. rewrite job_put_tasks.
  pose proof (table_ok_n m k Hm) as Hn. pose proof (proj2 (proj1 (proj2 (Hm k)))) as Hmax.
  assert (0 <= n_done k (m_job m) < 256) as Hd.
  { rewrite (proj1 (Hk k)) in *. pose proof (zlen_nonneg (completed_ids k cs)).
    destruct k; cbn in *; limits; lia. }
  rewrite wrap_small by (unfold fits; lia).
  set (j2 := set_n_done k (n_done k (m_job m) + 1) (m_job m)).
  assert (Hn2 : forall k', n_tasks k' j2 = n_tasks k' (m_job m)) by (intros; apply n_tasks_set_done).
  set (m2 := set_job j2 (put_tasks k (<[i := t']> (get_tasks k m)) m)).
  assert (Hfields : forall k', n_tasks k' (m_job (maybe_advance_phase m2)) = n_tasks k' (m_job m) /\
    n_done k' (m_job (maybe_advance_phase m2)) = n_done k' j2).
  { intros k'. destruct (advance_job_fields k' j2) as [E1 E2]. split; [by rewrite <- Hn2|done]. }
  pose proof (proj1 (Hfields TASK_KIND_MAP)) as EM. pose proof (proj1 (Hfields TASK_KIND_REDUCE)) as ER.
  cbn [n_tasks] in EM, ER. unfold log_ok. cbn [a_master a_file]. rewrite EM, ER.
  change (m_aof_fd (maybe_advance_phase m2)) with (m_aof_fd m2).
  change (m_maps (maybe_advance_phase m2)) with (m_maps m2).
  unfold m2. rewrite (aof_fd_put m k i t' j2), (task_paths_put_m m k i t t' j2 Ht) by done. fold m2.
  split_and!; [done|done|done|done|].
  exists (cs ++ [mk_completion (task_kind_code k) (Z.of_nat i) (t_current_attempt t)]).
  rewrite log_bytes_snoc. split; [done|].
  assert (Hok : task_ok t) by by eapply table_ok_live.
  pose proof (task_ok_attempts _ Hok) as Hat. pose proof (proj1 (proj2 Hok)) as Hcur.
  split; [apply Forall_app_2; [done|]; constructor; [|constructor]|].
  { unfold completion_wf, fits. cbn. limits. destruct k; cbn in *; limits; lia. }
  split; [apply Forall_app_2; [done|]; constructor; [|constructor]|].
  { unfold in_range. cbn. destruct k; cbn in *; split; intros; lia || done. }
  intros k'. rewrite (proj2 (Hfields k')). destruct (Hk k') as [Hn' Hiff]. split.
  - rewrite completed_ids_snoc. unfold j2. destruct (decide (k' = k)) as [->|Hne].
    + rewrite n_done_set, zlen_app, <- Hn'. done.
    + by rewrite n_done_set_ne, app_nil_r.
  - intros i'. rewrite (completed_in_snoc m k i t t' j2) by done.
    unfold completed_in. rewrite (proj1 (Hfields k')), advance_tasks. fold m2. unfold m2 at 1. cbn [m_job set_job].
    by rewrite Hn2.
Qed.

(** Every honest effect keeps the log in step with the tasks. *)
Lemma log_ok_effect created paths fd st a : durable created paths (app st) -> 0 <= fd ->
  benign (script st) -> honest_effect fd st a -> log_ok created paths a.
Proof.
  intros [Hinv Hlog] Hfd Hb. pose proof Hinv as (Hm & Hc & Hph & _).
  rewrite <- (app_eta st) in Hlog.
  intros [|k i t t' now Hk Hfp Hs|k i t now rc file s s' msg Hk Hh _ Hid Hatt -> Ha|k i t now rc t' j Hk Hh _ He].
  - by rewrite app_eta in Hlog.
  - destruct (first_pending_start _ _ _ _ _ _ _ Hm Hfd Hfp Hs) as (_ & Hst' & _ & _ & Hpath).
    destruct Hfp as (Hi & Ht & Hst & _).
    apply (log_ok_worker _ _ _ _ fd). change (m_job (master st)) with (m_job (a_master (app st))) in *.
    eapply (log_ok_ext created paths (mk_app (set_job (m_job (master st))
      (put_tasks k (<[i := t']> (get_tasks k (master st))) (master st))) (a_file (app st))));
      [|by destruct k|done|intros k'; by destruct k|by destruct k|].
    + eapply (log_ok_slot _ _ _ _ k i t t'); [exact Hlog|done|done|done|done| |]; congruence.
    + intros k' i'. unfold completed_in. by destruct k, k'.
  - destruct Hh as (_ & _ & _ & Hi & Ht & Hst & _). apply (log_ok_worker _ _ _ _ fd).
    eapply log_ok_complete; try done.
    unfold phase_ok in Hph. destruct (phase_kind_phase _ _ Hk) as [[E ->]|[E ->]];
      change (master st) with (a_master (app st)) in E; rewrite E in Hph; apply Hph.
  - destruct Hh as (_ & _ & _ & Hi & Ht & Hst & _). apply (log_ok_worker _ _ _ _ fd).
    assert (Hok : task_ok t) by by eapply table_ok_live.
    destruct (task_attempt_ended_ok t ATTEMPT_FAILED fd now (m_job (master st)) Hok) as
      (rc' & t'' & He' & _ & _ & Hst' & _ & Hpath); [by apply Hok|done|].
    rewrite He in He'. injection He' as -> -> ->.
    eapply (log_ok_slot _ _ _ _ k i t t''); [exact Hlog|done|done| |done|congruence|].
    + intros k'. destruct (_ <? _); [done|]. by rewrite n_tasks_set_phase, n_done_set_phase.
    + rewrite Hst'. by destruct (_ <? _).
Qed.

Lemma durable_worker created paths m f fd w : durable created paths (mk_app m f) -> wk_has_task w = false ->
  durable created paths (mk_app (put_worker fd w m) f).
Proof. intros [H1 H2] Hw. split; [apply job_inv_slot; [by apply job_inv_weaken|done]|by apply log_ok_worker]. Qed.

Lemma durable_step created paths st st' : master_step honest st st' -> benign (script st) ->
  durable created paths (app st) -> durable created paths (app st').
Proof.
  intros Hstep Hb Hd. pose proof (proj1 Hd) as Hinv.
  destruct Hstep as [fd p st' Hfd Hh Hm|acc _|fd _|st' E _ _].
  - apply handle_message_inv in Hm as (a & He & E).
    apply (message_effect_honest _ _ _ _ Hinv Hfd Hh) in He.
    pose proof (job_inv_effect _ _ _ Hinv Hfd He) as Hinv'. pose proof (log_ok_effect _ _ _ _ _ Hd Hfd Hb He) as Hlog'.
    destruct E as [->| ->]; [by split|]. destruct a as [m f]. by apply durable_worker.
  - destruct (on_accept_app acc st) as [->|(fd & _ & ->)]; [done|]. rewrite <- (app_eta st) in *. by apply durable_worker.
  - rewrite app_remove. rewrite <- (app_eta st) in *. by apply durable_worker.
  - by rewrite E.
Qed.

Lemma durable_steps created paths st st' : rtc (master_step honest) st st' -> benign (script st) ->
  durable created paths (app st) -> durable created paths (app st').
Proof.
  induction 1 as [|s1 s2 s3 Hstep _ IH]; [done|]. intros Hb Hd. apply IH; [|by eapply durable_step].
  eapply consumed_benign; [|exact Hb]. eapply step_consumed; [apply Hd|done].
Qed.

(** ** Loading it *)

(** The master [aof_load] builds from the log of [m], in a process with
    configuration [cfg]. *)
Definition recovered (cfg : master_config_t) (paths : list (list Z)) (m : master_t) (cs : list completion) : master_t :=
  let R := j_R (m_job m) in
  loaded_master (j_M (m_job m)) R
    (mk_replay (mark_completed (completed_ids TASK_KIND_MAP cs) (loaded_maps paths (m_maps (master_zero cfg))))
       (mark_completed (completed_ids TASK_KIND_REDUCE cs) (reset_slots R (m_reduces (master_zero cfg))))
       (zlen (completed_ids TASK_KIND_MAP cs)) (zlen (completed_ids TASK_KIND_REDUCE cs))) (master_zero cfg).

Lemma mark_completed_lookup ids l i t : mark_completed ids l !! i = Some t ->
  exists t0, l !! i = Some t0 /\ t = if decide (i ∈ ids) then set_state TASK_COMPLETED t0 else t0.
Proof. unfold mark_completed. rewrite list_lookup_imap. destruct (l !! i); cbn; [|done]. intros [= <-]. eauto. Qed.

Lemma reset_completed_ok t0 : task_ok (set_state TASK_COMPLETED (task_reset_pending t0)).
Proof.
  unfold task_ok, history_ok. cbn. split; [done|]. split; [done|].
  split; [by vm_compute|]. do 3 (split; [done|]). split; [by vm_compute|]. intros i r _ Hi. lia.
Qed.

Lemma recovered_tasks cfg paths m cs k : 
  get_tasks k (recovered cfg paths m cs) = mark_completed (completed_ids k cs) (get_tasks k (fresh_master cfg paths (j_R (m_job m)))).
Proof. unfold recovered, loaded_master. rewrite advance_tasks. by destruct k. Qed.

Lemma mark_completed_length ids l : length (mark_completed ids l) = length l.
Proof. apply length_imap. Qed.

(** Arrays with the same completed slots have the same count. *)
Lemma count_completed_ext n l l' : length l = length l' ->
  (forall i t t', Z.of_nat i < n -> l !! i = Some t -> l' !! i = Some t' -> is_completed t = is_completed t') ->
  count_completed n l = count_completed n l'.
Proof.
  revert n l'. induction l as [|t l IH]; intros n [|t' l'] Hlen Hsame; try done.
  destruct (decide (n <= 0)); [by rewrite !count_completed_0|].
  rewrite !count_completed_cons by lia. rewrite (Hsame 0%nat t t') by (done || lia).
  rewrite (IH (n - 1) l'); [done|by injection Hlen|].
  intros i u u' Hi Hu Hu'. apply (Hsame (S i)); [lia|done|done].
Qed.

Section Recovered.
Context (cfg : master_config_t) (created : Z) (paths : list (list Z)) (m : master_t) (cs : list completion).
Hypothesis Hinv : job_inv m.
Hypothesis HM : j_M (m_job m) = zlen paths.
Hypothesis Hp : Forall path_ok paths.
Hypothesis Hk : forall k, n_done k (m_job m) = zlen (completed_ids k cs) /\
  forall i, i ∈ completed_ids k cs <-> completed_in m k i.
Let m2 := recovered cfg paths m cs.

Lemma recovered_size : job_size_ok paths (j_R (m_job m)).
Proof.
  destruct Hinv as (Hm & _). pose proof (proj1 (proj2 (Hm TASK_KIND_MAP))) as H1.
  pose proof (proj1 (proj2 (Hm TASK_KIND_REDUCE))) as H2. cbn in H1, H2. rewrite HM in H1.
  unfold job_size_ok. limits. split; [lia|]. split; [lia|done].
Qed.

Lemma recovered_done k : 0 <= n_done k (m_job m) < 2 ^ 32.
Proof.
  destruct Hinv as (Hm & Hc & _). destruct (counts_all m k Hm Hc) as [Hle _].
  pose proof (proj2 (proj1 (proj2 (Hm k)))) as Hmax. rewrite (proj1 (Hk k)) in *.
  pose proof (zlen_nonneg (completed_ids k cs)). destruct k; cbn in *; limits; lia.
Qed.

(** The job fields before the phase advances. *)
Definition recovered_job : job_t :=
  mk_job (j_M (m_job m)) (j_R (m_job m)) JOB_MAP (j_maps_done (m_job m)) (j_reduces_done (m_job m))
    (cfg_task_timeout_ms cfg).

Lemma recovered_job_eq : m_job m2 = maybe_advance_phase_job recovered_job.
Proof.
  pose proof (recovered_done TASK_KIND_MAP) as H1. pose proof (recovered_done TASK_KIND_REDUCE) as H2.
  cbn [n_done] in H1, H2. unfold m2, recovered, loaded_master.
  change (m_job (maybe_advance_phase ?x)) with (maybe_advance_phase_job (m_job x)).
  cbn [m_job set_job rp_maps_count rp_reduce_count j_phase master_zero job_zero m_config].
  pose proof (proj1 (Hk TASK_KIND_MAP)) as E1. pose proof (proj1 (Hk TASK_KIND_REDUCE)) as E2. cbn [n_done] in E1, E2.
  rewrite <- E1, <- E2, !wrap_small by (unfold fits; lia). done.
Qed.

Lemma recovered_fields k : n_tasks k (m_job m2) = n_tasks k (m_job m) /\ n_done k (m_job m2) = n_done k (m_job m).
Proof. rewrite recovered_job_eq. destruct (advance_job_fields k recovered_job) as [-> ->]. by destruct k. Qed.

(** A live slot is completed if the log says so, and pending otherwise. *)
Lemma recovered_slot k i t2 : get_tasks k m2 !! i = Some t2 ->
  (Z.of_nat i < n_tasks k (m_job m) /\ exists p, path_ok p /\
     t2 = if decide (i ∈ completed_ids k cs) then set_state TASK_COMPLETED (path_task p) else path_task p) \/
  n_tasks k (m_job m) <= Z.of_nat i /\ t2 = task_zero.
Proof.
  unfold m2. rewrite recovered_tasks. intros (t0 & Ht0 & ->)%mark_completed_lookup.
  destruct recovered_size as (HM' & HR' & _).
  assert (Z.of_nat i < n_tasks k (m_job m) /\ (exists p, path_ok p /\ t0 = path_task p) \/
          n_tasks k (m_job m) <= Z.of_nat i /\ t0 = task_zero) as [(Hi & p & Hpok & ->)|[Hi ->]].
  { destruct k; cbn [n_tasks].
    - rewrite HM. apply (fresh_maps cfg) in Ht0 as [(Hi & p & Hin & ->)|[Hi ->]]; [| |lia].
      + left. split; [done|]. exists p. split; [exact (proj1 (Forall_forall _ _) Hp p Hin)|done].
      + right. by split.
    - apply (fresh_reduces cfg) in Ht0 as [[Hi ->]|[Hi ->]]; [| |lia].
      + left. split; [done|]. by exists [].
      + right. by split. }
  - left. split; [done|]. by exists p.
  - right. split; [done|]. rewrite decide_False; [done|]. rewrite (proj2 (Hk k)). intros [? _]. lia.
Qed.

Lemma recovered_table : table_ok m2.
Proof.
  intros k. destruct (fresh_table_ok cfg paths (j_R (m_job m)) recovered_size k) as (Hl & _ & _).
  split. { unfold m2. rewrite recovered_tasks. unfold zlen in *. by rewrite mark_completed_length. }
  rewrite (proj1 (recovered_fields k)). split; [apply Hinv|].
  intros i t2 Ht2. unfold slot_ok. rewrite (proj1 (recovered_fields k)).
  destruct (recovered_slot k i t2 Ht2) as [(Hi & p & Hpok & ->)|[Hi ->]];
    destruct (Z.ltb_spec (Z.of_nat i) (n_tasks k (m_job m))); try lia.
  - destruct (decide _); (split; [by split|]); [exact (reset_completed_ok (path_task p))|apply path_task_ok].
  - split; by vm_compute.
Qed.

(** The recovered tasks are those of [m], those not completed starting over. *)
Lemma recovered_state k i t t2 : get_tasks k m !! i = Some t -> get_tasks k m2 !! i = Some t2 ->
  Z.of_nat i < n_tasks k (m_job m) ->
  t_state t2 = (if decide (t_state t = TASK_COMPLETED) then TASK_COMPLETED else TASK_PENDING).
Proof.
  intros Ht Ht2 Hi. destruct (recovered_slot k i t2 Ht2) as [(_ & p & _ & ->)|[? _]]; [|lia].
  assert (i ∈ completed_ids k cs <-> t_state t = TASK_COMPLETED) as Hiff.
  { rewrite (proj2 (Hk k)). split; [intros (_ & t1 & ? & ?); congruence|]. intros. by split; [|exists t]. }
  destruct (decide (t_state t = TASK_COMPLETED)) as [E|E].
  - by rewrite decide_True by by apply Hiff.
  - by rewrite decide_False by by rewrite Hiff.
Qed.

Lemma recovered_counts : counts_ok m2.
Proof.
  intros k. rewrite (proj1 (recovered_fields k)), (proj2 (recovered_fields k)).
  destruct Hinv as (Hm & Hc & _). rewrite Hc. apply count_completed_ext.
  - destruct (Hm k) as (Hl & _). destruct (recovered_table k) as (Hl2 & _). unfold zlen in *. lia.
  - intros i t t2 Hi Ht Ht2. unfold is_completed. rewrite (recovered_state k i t t2 Ht Ht2 Hi).
    by destruct (decide (t_state t = TASK_COMPLETED)) as [->|]; case_bool_decide.
Qed.

Lemma recovered_lookup k i t2 : Z.of_nat i < n_tasks k (m_job m) -> get_tasks k m2 !! i = Some t2 ->
  exists t, get_tasks k m !! i = Some t.
Proof. intros Hi _. destruct Hinv as (Hm & _). by destruct (table_ok_get m k i Hm Hi) as [t Ht]; exists t. Qed.

(** The phase is that of [m], or the one a failed job had reached. *)
Lemma recovered_phase :
  phase_ok m2 /\ j_phase (m_job m2) <> JOB_FAILED /\
  (j_phase (m_job m) <> JOB_FAILED -> j_phase (m_job m2) = j_phase (m_job m)).
Proof.
  destruct Hinv as (Hm & Hc & Hph & _).
  destruct (counts_all m TASK_KIND_MAP Hm Hc) as [HleM _]. destruct (counts_all m TASK_KIND_REDUCE Hm Hc) as [HleR _].
  cbn [n_done n_tasks] in HleM, HleR.
  assert (Hpend : all_tasks TASK_KIND_REDUCE (fun t => t_state t = TASK_PENDING) m ->
    all_tasks TASK_KIND_REDUCE (fun t => t_state t = TASK_PENDING) m2).
  { intros Hall i t2 Hi Ht2. rewrite (proj1 (recovered_fields _)) in Hi.
    destruct (recovered_lookup TASK_KIND_REDUCE i t2 Hi Ht2) as [t Ht].
    rewrite (recovered_state _ _ _ _ Ht Ht2 Hi). by rewrite (Hall i t Hi Ht). }
  assert (HR0 : 0 < j_R (m_job m)) by apply (proj1 (proj2 (Hm TASK_KIND_REDUCE))).
  assert (Hnopend : all_tasks TASK_KIND_REDUCE (fun t => t_state t = TASK_PENDING) m -> j_reduces_done (m_job m) <> j_R (m_job m)).
  { intros Hall Heq. apply (counts_all m TASK_KIND_REDUCE Hm Hc) in Heq.
    destruct (table_ok_get m TASK_KIND_REDUCE 0 Hm ltac:(cbn; lia)) as [t Ht].
    pose proof (Heq 0%nat t ltac:(cbn; lia) Ht). pose proof (Hall 0%nat t ltac:(cbn; lia) Ht). congruence. }
  unfold phase_ok in *. cbn zeta. rewrite recovered_job_eq, advance_map by done. cbn [recovered_job j_maps_done j_M j_reduces_done j_R].
  destruct (Z.eqb_spec (j_maps_done (m_job m)) (j_M (m_job m))) as [E1|E1];
    [destruct (Z.eqb_spec (j_reduces_done (m_job m)) (j_R (m_job m))) as [E2|E2]|]; cbn;
    destruct (j_phase (m_job m)) eqn:Ep; split_and?; try done; try lia; try tauto.
Qed.

Lemma recovered_inv : job_inv m2.
Proof.
  split; [exact recovered_table|]. split; [exact recovered_counts|].
  destruct recovered_phase as (H1 & H2 & _). split; [exact H1|]. split.
  - intros _ k i t2 Hi Ht2. rewrite (proj1 (recovered_fields k)) in Hi.
    destruct (recovered_lookup k i t2 Hi Ht2) as [t Ht]. rewrite (recovered_state _ _ _ _ Ht Ht2 Hi).
    by destruct (decide _).
  - intros fd k _ _ Hht. unfold get_worker in Hht. cbn in Hht. by rewrite lookup_empty in Hht.
Qed.

Lemma recovered_paths : task_paths (zlen paths) (m_maps m2) = paths.
Proof.
  change (m_maps m2) with (get_tasks TASK_KIND_MAP m2). unfold m2. rewrite recovered_tasks. unfold task_paths.
  rewrite take_mark_completed. cbn [get_tasks fresh_master m_maps set_job set_reduces set_maps].
  unfold loaded_maps, zlen. rewrite Nat2Z.id.
  rewrite take_app_le by by rewrite length_map. rewrite take_ge by by rewrite length_map.
  apply list_eq. intros i. rewrite list_lookup_fmap. unfold mark_completed. rewrite list_lookup_imap, list_lookup_fmap.
  destruct (paths !! i); cbn; [|done]. by destruct (decide _).
Qed.

(** The same tasks are completed. *)
Lemma recovered_completed k i : completed_in m2 k i <-> completed_in m k i.
Proof.
  unfold completed_in. rewrite (proj1 (recovered_fields k)). split.
  - intros (Hi & t2 & Ht2 & Hst). split; [done|]. destruct (table_ok_get m k i (proj1 Hinv) Hi) as [t Ht].
    exists t. split; [done|]. rewrite (recovered_state k i t t2 Ht Ht2 Hi) in Hst. by destruct (decide _).
  - intros (Hi & t & Ht & Hst). split; [done|].
    destruct (table_ok_get m2 k i recovered_table) as [t2 Ht2]; [by rewrite (proj1 (recovered_fields k))|].
    exists t2. split; [done|]. rewrite (recovered_state k i t t2 Ht Ht2 Hi). by rewrite decide_True.
Qed.
End Recovered.

Lemma load_durable created paths a cfg s : durable created paths a -> benign s ->
  exists cs s', aof_load s (Some (a_file a)) (master_zero cfg) = Ret (0, recovered cfg paths (a_master a) cs, s') /\
    benign s' /\ a_file a <> [] /\
    a_file a = log_bytes created (j_M (m_job (a_master a))) (j_R (m_job (a_master a))) paths cs /\
    Forall completion_wf cs /\ Forall (in_range (j_M (m_job (a_master a))) (j_R (m_job (a_master a)))) cs /\
    forall k, n_done k (m_job (a_master a)) = zlen (completed_ids k cs) /\
      forall i, i ∈ completed_ids k cs <-> completed_in (a_master a) k i.
Proof.
  intros [Hinv (Hfd & HM & Hp & Htp & cs & Hf & Hwf & Hr & Hk)] Hb. set (m := a_master a) in *.
  destruct (recovered_size paths m Hinv HM Hp) as (HMs & HRs & _).
  destruct (load_log_ok s created (j_M (m_job m)) (j_R (m_job m)) paths cs (master_zero cfg)
    (mk_replay (mark_completed (completed_ids TASK_KIND_MAP cs) (loaded_maps paths (m_maps (master_zero cfg))))
       (mark_completed (completed_ids TASK_KIND_REDUCE cs) (reset_slots (j_R (m_job m)) (m_reduces (master_zero cfg))))
       (zlen (completed_ids TASK_KIND_MAP cs)) (zlen (completed_ids TASK_KIND_REDUCE cs)))) as (s' & E & Hb'); try done.
  - lia.
  - lia.
  - change (zlen (m_maps (master_zero cfg))) with MAX_MAP_TASKS. lia.
  - by rewrite replay_all_spec.
  - exists cs, s'. rewrite Hf. split; [exact E|]. split; [done|]. split; [|done].
    unfold log_bytes, job_prefix, seal, header_body. done.
Qed.

Lemma fresh_task_paths cfg paths R : task_paths (zlen paths) (m_maps (fresh_master cfg paths R)) = paths.
Proof.
  unfold task_paths. cbn [fresh_master m_maps set_job set_reduces set_maps]. unfold loaded_maps, zlen.
  rewrite Nat2Z.id, take_app_le by by rewrite length_map. rewrite take_ge by by rewrite length_map.
  rewrite map_map. apply map_id.
Qed.

(** The log of a job that has just started. *)
Lemma fresh_durable cfg created paths R fd : job_size_ok paths R -> 0 <= fd ->
  durable created paths (mk_app (set_aof_fd fd (fresh_master cfg paths R)) (job_prefix created (zlen paths) R paths)).
Proof.
  intros Hsize Hfd. split; [by apply job_inv_aof, fresh_job_inv|].
  unfold log_ok. cbn [a_master a_file m_aof_fd set_aof_fd].
  change (j_M (m_job (set_aof_fd fd (fresh_master cfg paths R)))) with (zlen paths).
  change (j_R (m_job (set_aof_fd fd (fresh_master cfg paths R)))) with R.
  change (m_maps (set_aof_fd fd (fresh_master cfg paths R))) with (m_maps (fresh_master cfg paths R)).
  rewrite fresh_task_paths. split_and!; [done|done|apply Hsize|done|].
  exists []. split; [unfold log_bytes; by rewrite app_nil_r|].
  split; [apply Forall_nil_2|]. split; [apply Forall_nil_2|]. intros k. split; [by destruct k|].
  intros i. split; [by intros ?%elem_of_nil|]. intros (Hi & t & Ht & Hst).
  pose proof (fresh_pending cfg paths R k Hsize i t) as Hpend.
  destruct k; rewrite Hpend in Hst; done.
Qed.

Lemma bootstrap_first s dir file fd created cfg :
  let paths := regular_paths (master_zero cfg) (scandir dir) in
  let R := wrap 32 (cfg_n_reduce cfg) in
  benign s -> default [] file = [] -> 0 <= fd ->
  entries_ok (master_zero cfg) 0 (scandir dir) -> 0 < zlen paths -> 0 < R <= MAX_REDUCE_TASKS ->
  exists f s', master_bootstrap_job s (Some dir) file fd created (master_zero cfg) =
      Ret (0, set_aof_fd fd (fresh_master cfg paths R), Some f, s') /\ benign s' /\
    durable created paths (mk_app (set_aof_fd fd (fresh_master cfg paths R)) f).
Proof.
  intros paths R Hb Hfile Hfd Hent Hpos HR. unfold master_bootstrap_job.
  destruct (io_simple_benign s Hb) as (s1 & -> & Hb1). destruct (io_simple_benign s1 Hb1) as (s2 & -> & Hb2).
  destruct (io_simple_benign s2 Hb2) as (s3 & -> & Hb3). cbn [negb]. rewrite Hfile.
  change (true && (0 <? zlen [])) with false. cbv beta iota zeta.
  destruct (init_job_spec dir cfg) as [Hiff Hres]. fold paths R in Hiff, Hres.
  assert ((master_init_job (Some dir) (master_zero cfg)).1 = 0) as H0 by by apply Hiff.
  destruct (Hres H0) as (Hm & Hsize). destruct (master_init_job (Some dir) (master_zero cfg)) as [rc m].
  cbn [fst snd] in H0, Hm. subst rc m. cbn [mbind outcome_bind]. change (negb (0 =? 0)) with false. cbv beta iota.
  destruct (fresh_lengths cfg paths R Hsize) as [HlM _].
  destruct (aof_init_fresh_ok s3 file fd created (fresh_master cfg paths R)) as (s4 & -> & Hb4); [done|done|done| |..].
  { cbn [fresh_master m_job m_maps set_job set_reduces set_maps j_M]. rewrite HlM. destruct Hsize; lia. }
  { apply Forall_lookup. intros i t Ht.
    exact (table_ok_path _ TASK_KIND_MAP i t (fresh_table_ok cfg paths R Hsize) Ht). }
  cbn [mbind outcome_bind]. change (negb (0 =? 0)) with false. cbv beta iota.
  change (j_M (m_job (fresh_master cfg paths R))) with (zlen paths).
  change (j_R (m_job (fresh_master cfg paths R))) with R. rewrite fresh_task_paths.
  eexists _, s4. split; [reflexivity|]. split; [done|]. by apply fresh_durable.
Qed.

(** The first start of a job writes the log it can be recovered from.
    Without a log, and with a usable input directory, [master_bootstrap_job]
    succeeds, leaves the fresh job with the log open, and this state is durable:
    its log holds the job and no completion. *)
Theorem bootstrap_fresh s dir file fd created cfg :
  let paths := regular_paths (master_zero cfg) (scandir dir) in
  let R := wrap 32 (cfg_n_reduce cfg) in
  benign s -> default [] file = [] -> 0 <= fd ->
  entries_ok (master_zero cfg) 0 (scandir dir) -> 0 < zlen paths -> 0 < R <= MAX_REDUCE_TASKS ->
  exists f s', master_bootstrap_job s (Some dir) file fd created (master_zero cfg) =
      Ret (0, set_aof_fd fd (fresh_master cfg paths R), Some f, s') /\ benign s' /\
    durable created paths (mk_app (set_aof_fd fd (fresh_master cfg paths R)) f).
Proof. apply bootstrap_first. Qed.

(** What comes back is durable again. *)
Lemma recovered_durable cfg created paths m f cs fd : job_inv m -> j_M (m_job m) = zlen paths ->
  Forall path_ok paths -> 0 <= fd -> f = log_bytes created (j_M (m_job m)) (j_R (m_job m)) paths cs ->
  Forall completion_wf cs -> Forall (in_range (j_M (m_job m)) (j_R (m_job m))) cs ->
  (forall k, n_done k (m_job m) = zlen (completed_ids k cs) /\
     forall i, i ∈ completed_ids k cs <-> completed_in m k i) ->
  durable created paths (mk_app (set_aof_fd fd (recovered cfg paths m cs)) f).
Proof.
  intros Hinv HM Hp Hfd Hf Hwf Hr Hk. set (m2 := recovered cfg paths m cs).
  pose proof (recovered_fields cfg paths m cs Hinv Hk) as Hfields. fold m2 in Hfields.
  pose proof (recovered_paths cfg paths m cs) as Hpaths. fold m2 in Hpaths.
  split; [apply job_inv_aof; by apply recovered_inv|].
  unfold log_ok. cbn [a_master a_file m_aof_fd set_aof_fd].
  change (m_job (set_aof_fd fd m2)) with (m_job m2). change (m_maps (set_aof_fd fd m2)) with (m_maps m2).
  pose proof (proj1 (Hfields TASK_KIND_MAP)) as EM. pose proof (proj1 (Hfields TASK_KIND_REDUCE)) as ER.
  cbn [n_tasks] in EM, ER. rewrite EM, ER, HM, Hpaths. split_and!; [done..|].
  exists cs. rewrite <- HM. split_and!; [done..|]. intros k. rewrite (proj2 (Hfields k)).
  split; [apply Hk|]. intros i. rewrite (proj2 (Hk k)).
  rewrite <- (recovered_completed cfg paths m cs Hinv HM Hp Hk k i). fold m2. unfold completed_in.
  by replace (get_tasks k (set_aof_fd fd m2)) with (get_tasks k m2) by by destruct k.
Qed.

(** A restart loads the log and opens it again. *)
Lemma bootstrap_restart created paths a s dir fd created' cfg : durable created paths a -> benign s -> 0 <= fd ->
  exists cs s', master_bootstrap_job s dir (Some (a_file a)) fd created' (master_zero cfg) =
      Ret (0, set_aof_fd fd (recovered cfg paths (a_master a) cs), Some (a_file a), s') /\ benign s' /\
    durable created paths (mk_app (set_aof_fd fd (recovered cfg paths (a_master a) cs)) (a_file a)) /\
    forall k, n_done k (m_job (a_master a)) = zlen (completed_ids k cs) /\
      forall i, i ∈ completed_ids k cs <-> completed_in (a_master a) k i.
Proof.
  intros Hd Hb Hfd. pose proof Hd as [Hinv (_ & HM & Hp & _)]. unfold master_bootstrap_job.
  destruct (io_simple_benign s Hb) as (s1 & -> & Hb1). destruct (io_simple_benign s1 Hb1) as (s2 & -> & Hb2).
  destruct (io_simple_benign s2 Hb2) as (s3 & -> & Hb3). cbn [negb default].
  destruct (load_durable created paths a cfg s3 Hd Hb3) as (cs & s4 & E & Hb4 & Hne & Hf & Hwf & Hr & Hk).
  assert ((0 <? zlen (a_file a)) = true) as Hlen.
  { apply Z.ltb_lt. destruct (a_file a) as [|x f]; [done|]. rewrite zlen_cons. pose proof (zlen_nonneg f). lia. }
  cbn [from_option id]. rewrite Hlen. cbn [andb]. cbv beta iota. rewrite E. cbn [mbind outcome_bind].
  change (negb (0 =? 0)) with false. cbv beta iota.
  destruct (aof_init_existing_ok s4 (a_file a) fd created' (recovered cfg paths (a_master a) cs) Hb4 Hne Hfd) as (s5 & -> & Hb5).
  cbn [mbind outcome_bind]. change (negb (0 =? 0)) with false. cbv beta iota.
  exists cs, s5. split; [done|]. split; [done|]. split; [by apply recovered_durable|exact Hk].
Qed.

(** C4: crash recovery. Take a master whose log records its completed tasks,
    let honest workers run it for any number of steps without write errors, and
    stop it between two steps. [master_bootstrap_job] on the log file then
    succeeds with the same M, R, input paths and counters; a task is COMPLETED
    after the restart exactly if it was COMPLETED before, every other task is
    PENDING, the job invariant holds, and the log again records the completed
    tasks, so this can be repeated any number of times. *)
Theorem crash_recovery created paths st st' s dir fd created' cfg :
  durable created paths (app st) -> benign (script st) -> rtc (master_step honest) st st' ->
  benign s -> 0 <= fd ->
  let m := master st' in
  let f := a_file (app st') in
  exists m2 s', master_bootstrap_job s dir (Some f) fd created' (master_zero cfg) = Ret (0, m2, Some f, s') /\
    durable created paths (mk_app m2 f) /\
    (forall k, n_tasks k (m_job m2) = n_tasks k (m_job m) /\ n_done k (m_job m2) = n_done k (m_job m)) /\
    task_paths (zlen paths) (m_maps m2) = paths /\
    (j_phase (m_job m) <> JOB_FAILED -> j_phase (m_job m2) = j_phase (m_job m)) /\
    forall k i t t2, Z.of_nat i < n_tasks k (m_job m) ->
      get_tasks k m !! i = Some t -> get_tasks k m2 !! i = Some t2 ->
      t_state t2 = (if decide (t_state t = TASK_COMPLETED) then TASK_COMPLETED else TASK_PENDING).
Proof.
  intros Hd0 Hb0 Hrun Hb Hfd m f. pose proof (durable_steps _ _ _ _ Hrun Hb0 Hd0) as Hd.
  pose proof Hd as [Hinv (_ & HM & Hp & _)]. fold m in Hinv, HM.
  destruct (bootstrap_restart created paths (app st') s dir fd created' cfg Hd Hb Hfd) as (cs & s' & E & _ & Hd' & Hk).
  fold f m in E, Hk, Hd'. change (a_master (app st')) with m in *.
  exists (set_aof_fd fd (recovered cfg paths m cs)), s'. split; [done|]. split; [done|].
  split; [exact (recovered_fields cfg paths m cs Hinv Hk)|].
  split; [exact (recovered_paths cfg paths m cs)|].
  split; [by apply (recovered_phase cfg paths m cs Hinv HM Hp Hk)|].
  intros k i t t2 Hi Ht Ht2. apply (recovered_state cfg paths m cs Hinv HM Hp Hk k i); [done| |done].
  by destruct k.
Qed.

(** ** Witnesses *)

(** The demonstration job with its log open. *)
Definition demo_logged : sys master_app := set_file (job_prefix 7 2 2 demo_paths) demo.

Lemma demo_logged_durable : durable 7 demo_paths (app demo_logged).
Proof. apply (fresh_durable demo_config 7 demo_paths 2 4); [decide_now|discriminate]. Defined.

Example bootstrap_fresh_witness :
  exists f s', master_bootstrap_job [IoOk 0; IoOk 0; IoOk 0; IoOk 0; IoOk 0; IoOk 2]
      (Some [mk_dirent [98] (Some true); mk_dirent [97] (Some true)]) None 4 7 (master_zero demo_config) =
    Ret (0, set_aof_fd 4 (fresh_master demo_config demo_paths 2), Some f, s').
Proof.
  destruct (bootstrap_fresh [IoOk 0; IoOk 0; IoOk 0; IoOk 0; IoOk 0; IoOk 2]
    [mk_dirent [98] (Some true); mk_dirent [97] (Some true)] None 4 7 demo_config) as (f & s' & E & _).
  - decide_now.
  - reflexivity.
  - discriminate.
  - decide_now.
  - vm_compute. reflexivity.
  - split; vm_compute; [reflexivity|discriminate].
  - exists f, s'. exact E.
Defined.

(** One task completed and another in progress, then a crash. *)
Definition crash_script : list (Z * list Z) :=
  [(5, get_task_bytes); (5, done_bytes 0 1 0); (6, get_task_bytes)].
Definition crashed : sys master_app := default demo_logged (play crash_script demo_logged).

Example crash_recovery_witness :
  exists m2 s', master_bootstrap_job [] None (Some (a_file (app crashed))) 4 9 (master_zero demo_config) =
      Ret (0, m2, Some (a_file (app crashed)), s') /\
    n_done TASK_KIND_MAP (m_job m2) = n_done TASK_KIND_MAP (m_job (master crashed)) /\
    n_done TASK_KIND_MAP (m_job (master crashed)) = 1.
Proof.
  assert (rtc (master_step honest) demo_logged crashed) as Hrun.
  { unfold crashed. destruct (play crash_script demo_logged) as [st|] eqn:E.
    - exact (play_run _ _ _ E).
    - vm_compute in E. discriminate E. }
  destruct (crash_recovery 7 demo_paths demo_logged crashed [] None 4 9 demo_config demo_logged_durable
    ltac:(decide_now) Hrun ltac:(decide_now) ltac:(discriminate)) as (m2 & s' & E & _ & Hn & _).
  exists m2, s'. split; [exact E|]. split; [apply (Hn TASK_KIND_MAP)|vm_compute; reflexivity].
Defined.
