(* ===== verification/Liveness.v ===== *)
(** * A job finishes (src/master.c, src/server.c)

    One worker that asks, works and reports, against a kernel that transfers
    whole buffers, brings the job from any state without assigned tasks to its
    end in as many rounds as there are tasks left. *)

From S2P Require Import Prelude Limits Util Rpc Task Aof EventLoop Server Framing Master Sched Job Recovery.

(** ** An idle connection *)

(** Every kernel call succeeds in full, and nothing waits for [fd]. *)
Definition idle (fd : Z) (st : sys master_app) : Prop :=
  script st = [] /\ c_wbuf (get_client st fd) = [] /\ c_woff (get_client st fd) = 0.

Lemma server_send_idle fd p st : idle fd st -> zlen p <= MSG_MAX ->
  exists st', server_send fd p st = Ret (0, st') /\ app st' = app st /\ idle fd st' /\
    sent st' fd = sent st fd ++ frame p.
Proof.
  intros (Hs & Hw & Ho) Hp. unfold server_send, send_framed.
  destruct (Z.ltb_spec MSG_MAX (zlen p)); [lia|]. cbn [mbind outcome_bind]. fold (frame p).
  set (c := get_client st fd) in *.
  assert (wlen c = 0) as Hl by (unfold wlen; by rewrite Hw).
  assert (0 < zlen (frame p) <= WBUF_SIZE) as Hf.
  { unfold frame. rewrite zlen_app, zlen_be_encode. pose proof (zlen_nonneg p). limits. lia. }
  unfold queue_write. fold c. rewrite Ho, Hl. change (0 <? 0) with false. rewrite andb_false_r, Hl.
  destruct (Z.ltb_spec WBUF_SIZE (0 + zlen (frame p))); [lia|]. change (0 =? 0) with true. cbv beta iota zeta.
  rewrite Hw. change ([] ++ frame p) with (frame p).
  set (c' := c_set_wbuf (frame p) (c_woff c) c). change (c_woff c') with (c_woff c). rewrite Ho.
  change (wlen c') with (zlen (frame p)). rewrite Z.sub_0_r.
  change (script (put_client fd c' (put_client fd c st))) with (script st). rewrite Hs. cbn [sock_write].
  rewrite Z.add_0_l, Z.eqb_refl. eexists. split; [reflexivity|]. split; [done|].
  split; [split; [done|by srv_simpl]|]. srv_simpl. change (c_wbuf c') with (frame p).
  change (drop (Z.to_nat 0) (frame p)) with (frame p). by rewrite take_ge by (unfold zlen; lia).
Qed.

(** ** The worker *)

(** The message in the bytes [fd] received between two states. *)
Definition worker_reply (fd : Z) (st st1 : sys master_app) : option rpc_message :=
  match parse_frames (drop (length (sent st fd)) (sent st1 fd)) with
  | ([p], [], false) => k ← rpc_peek_kind p; rpc_decode_body k (tail p)
  | _ => None
  end.

(** One round: ask for a task, and report it done. *)
Definition worker_round (fd : Z) (st : sys master_app) : outcome (sys master_app) :=
  st1 ← handle_message fd get_task_bytes st;
  match worker_reply fd st st1 with
  | Some (TaskMapResp r) => handle_message fd (done_bytes (map_resp_task_id r) (map_resp_attempt_id r) 0) st1
  | Some (TaskReduceResp r) => handle_message fd (done_bytes (reduce_resp_task_id r) (reduce_resp_attempt_id r) 0) st1
  | _ => Ret st1
  end.

Fixpoint worker_rounds (n : nat) (fd : Z) (st : sys master_app) : outcome (sys master_app) :=
  match n with
  | O => Ret st
  | S n' => st ← worker_round fd st; worker_rounds n' fd st
  end.

(** The tasks left. *)
Definition remaining (j : job_t) : Z := (j_M j - j_maps_done j) + (j_R j - j_reduces_done j).

(** No task is assigned. *)
Definition quiet (m : master_t) : Prop :=
  forall k, all_tasks k (fun t => t_state t = TASK_PENDING \/ t_state t = TASK_COMPLETED) m.

(** ** One round *)

Lemma parse_one_frame p : zlen p <= MSG_MAX -> parse_frames (frame p) = ([p], [], false).
Proof.
  intros Hp. unfold parse_frames. destruct (length (frame p)) as [|n] eqn:El; [done|]. cbn [parse_go].
  rewrite <- (app_nil_r (frame p)), split_frame_frame by done.
  assert (parse_go n [] = ([], [], false)) as -> by by destruct n. done.
Qed.

Lemma worker_reply_frame fd st st1 msg : message_wf msg ->
  sent st1 fd = sent st fd ++ frame (message_bytes msg) -> worker_reply fd st st1 = Some msg.
Proof.
  intros Hwf Hs. unfold worker_reply. rewrite Hs, drop_app_length.
  rewrite parse_one_frame by by apply message_bytes_max.
  unfold message_bytes. rewrite rpc_peek_kind_code. cbn [mbind option_bind tail].
  by apply rpc_decode_body_bytes.
Qed.

(** The master takes the message and keeps the connection. *)
Definition accepted (fd : Z) (p : list Z) (st st1 : sys master_app) : Prop :=
  master_on_message fd p st = Ret (0, st1).

Lemma accepted_handle fd p st st1 : accepted fd p st st1 -> handle_message fd p st = Ret st1.
Proof. unfold accepted, handle_message. by intros ->. Qed.

(** A GetTask on an idle connection. *)
Lemma reply_round fd st buf m1 : idle fd st -> zlen buf <= MSG_MAX ->
  get_task_reply MSG_MAX fd (s_now_ms (sv st)) (master st) = Ret (Some buf, m1) ->
  exists st1, accepted fd get_task_bytes st st1 /\
    app st1 = mk_app m1 (a_file (app st)) /\ idle fd st1 /\ sent st1 fd = sent st fd ++ frame buf.
Proof.
  intros Hidle Hlen E. destruct (server_send_idle fd buf (set_master m1 st)) as
    (st1 & Hsend & Happ & Hidle1 & Hsent); [done|done|].
  exists st1. split; [|split; [by rewrite Happ|split; [done|exact Hsent]]].
  unfold accepted, master_on_message. change (rpc_peek_kind get_task_bytes) with (Some RPC_GET_TASK_REQ).
  cbv beta iota. unfold master_handle_get_task. rewrite E. cbn [mbind outcome_bind]. by rewrite Hsend.
Qed.

(** With a task pending. *)
Lemma get_round fd st k i t t' : idle fd st -> table_ok (master st) -> 0 <= fd ->
  phase_kind (j_phase (m_job (master st))) = Ret k -> first_pending k (master st) i t ->
  start_attempt fd (s_now_ms (sv st)) t = Ret t' ->
  exists st1, accepted fd get_task_bytes st st1 /\
    app st1 = mk_app (assign_master k i fd t' (master st)) (a_file (app st)) /\ idle fd st1 /\
    sent st1 fd = sent st fd ++ frame (message_bytes (assignment_msg k i t' (m_job (master st)))).
Proof.
  intros Hidle Hm Hfd Hk Hfp Hs.
  pose proof (get_task_reply_ok fd (s_now_ms (sv st)) (master st) Hm Hfd) as Hok. rewrite Hk in Hok.
  pose proof Hfp as (Hi & Ht & Hpend & Hfirst).
  destruct Hok as [[Hno _]|(i1 & t1 & t1' & (Hi1 & Ht1 & Hpend1 & Hfirst1) & Hs1 & E)]; [by destruct (Hno i t Hi Ht)|].
  assert (i1 = i) as ->.
  { destruct (decide (i1 < i)%nat); [by destruct (Hfirst i1 t1)|].
    destruct (decide (i < i1)%nat); [by destruct (Hfirst1 i t)|lia]. }
  rewrite Ht in Ht1. injection Ht1 as <-. rewrite Hs in Hs1. injection Hs1 as <-.
  destruct (first_pending_start _ _ _ _ _ _ _ Hm Hfd Hfp Hs) as (Hok' & _ & _ & _ & Hpath).
  assert (message_wf (assignment_msg k i t' (m_job (master st)))) as Hwf.
  { eapply assignment_msg_wf; [done..|eapply same_path_ok; [done|by eapply table_ok_path]]. }
  apply reply_round; [done|by apply message_bytes_max|exact E].
Qed.

(** A report for the current attempt of the task [fd]'s slot names, on a
    connection whose acknowledgement goes out at once. *)
Lemma report_round fd st k i t task result st0 :
  c_wbuf (get_client st fd) = [] -> c_woff (get_client st fd) = 0 ->
  phase_kind (j_phase (m_job (master st))) = Ret k -> slot_index fd (master st) = i ->
  get_tasks k (master st) !! i = Some t ->
  let msg := mk_done_req task (t_current_attempt t) result in
  msg_wf msg -> record_result fd msg k i t st = Ret st0 -> script st0 = [] ->
  exists st1, accepted fd (message_bytes (TaskDoneReq msg)) st st1 /\ idle fd st1 /\
    sent st1 fd = sent st fd ++ frame [7] /\ app st1 = app (clear_has_task fd st0).
Proof.
  intros Hw Ho Hk Hslot Ht msg Hwf Hr Hs0.
  assert (sent st0 fd = sent st fd) as Hsent0 by (unfold sent; by rewrite (record_result_net _ _ _ _ _ _ _ Hr)).
  assert (idle fd st0) as Hidle0.
  { apply record_result_shell in Hr. unfold idle, get_client in *. by rewrite Hs0, Hr. }
  destruct (server_send_idle fd [7] st0) as (st1 & Hsend & Happ & Hidle1 & Hsent1); [done|by vm_compute|].
  exists (clear_has_task fd st1). split; [|split; [exact Hidle1|split]].
  - unfold accepted, master_on_message.
    unfold message_bytes. rewrite rpc_peek_kind_code. cbn [message_kind tail].
    assert (rpc_decode_task_done_req (message_body (TaskDoneReq msg)) = Some msg) as ->
      by exact (msg_decode_body msg Hwf).
    unfold master_handle_task_done.
    assert (task_done_helper fd msg st = Ret (0, clear_has_task fd st1)) as Hd.
    { unfold task_done_helper. rewrite Hk. cbn [mbind outcome_bind]. fold (slot_index fd (master st)).
      rewrite Hslot, Ht. cbn [or_fault mbind outcome_bind].
      change (rpc_encode_task_done_ack MSG_MAX) with (Some [7]). cbv beta iota. cbn [done_attempt_id msg].
      rewrite Z.eqb_refl. cbn [negb]. fold (record_result fd msg k i t st). rewrite Hr. cbn [mbind outcome_bind].
      rewrite Hsend. done. }
    rewrite Hd. destruct (phase_kind_phase _ _ Hk) as [[-> _]|[-> _]]; done.
  - change (sent (clear_has_task fd st1) fd) with (sent st1 fd). by rewrite Hsent1, Hsent0.
  - unfold clear_has_task, set_master, master. cbn [app set_app]. by rewrite Happ.
Qed.

Lemma report_msg_wf t task result : task_ok t -> u32 task -> u8 result ->
  msg_wf (mk_done_req task (t_current_attempt t) result).
Proof.
  intros Hok Hu Hr. pose proof (task_ok_attempts _ Hok). pose proof (proj1 (proj2 Hok)).
  split; [done|]. split; [|done]. unfold fits. cbn. limits. lia.
Qed.

(** A success report. Neither the task's state, nor the slot's kind, nor the
    task named in the message is looked at. *)
Lemma success_round fd st k i t task rc f : table_ok (master st) ->
  c_wbuf (get_client st fd) = [] -> c_woff (get_client st fd) = 0 ->
  phase_kind (j_phase (m_job (master st))) = Ret k -> slot_index fd (master st) = i ->
  get_tasks k (master st) !! i = Some t -> Z.of_nat i < n_tasks k (m_job (master st)) ->
  0 < t_attempts_count t -> u32 task ->
  aof_append_completed (script st) (a_file (app st)) (master st) (mk_done_req task (t_current_attempt t) 0)
    (slot_kind_code (get_worker (master st) fd)) = (rc, f, []) ->
  exists st1, accepted fd (done_bytes task (t_current_attempt t) 0) st st1 /\ idle fd st1 /\
    sent st1 fd = sent st fd ++ frame [7] /\ a_file (app st1) = f /\
    master st1 = (let m := complete_master k i (completed_task fd (s_now_ms (sv st)) t) (master st) in
                  put_worker fd (set_has_task false (get_worker m fd)) m).
Proof.
  intros Hm Hw Ho Hk Hslot Ht Hi Hpos Hu Ha.
  assert (Hok : task_ok t) by by eapply table_ok_live.
  set (msg := mk_done_req task (t_current_attempt t) 0) in *.
  destruct (record_result_total fd msg k i t st Hok Hpos) as (st0 & Hr).
  destruct (record_result_inv fd msg k i t st st0 Hm Ht Hr) as
    (_ & _ & _ & [(_ & Em & rc' & f' & s' & Ha' & Ef & Es)|[Hbad _]]); [|done].
  rewrite Ha in Ha'. injection Ha' as <- <- <-.
  destruct (report_round fd st k i t task 0 st0 Hw Ho Hk Hslot Ht) as (st1 & E & Hidle & Hsent & Happ);
    [by apply report_msg_wf|done|done|].
  exists st1. split; [exact E|]. split; [done|]. split; [done|]. unfold master. rewrite Happ.
  split; [exact Ef|]. unfold clear_has_task, set_master. cbn [app set_app a_master]. by rewrite Em.
Qed.

(** A failure report. *)
Lemma failure_round fd st k i t task result rc t' j : table_ok (master st) -> idle fd st ->
  phase_kind (j_phase (m_job (master st))) = Ret k -> slot_index fd (master st) = i ->
  get_tasks k (master st) !! i = Some t -> task_ok t -> u32 task -> u8 result -> result <> 0 ->
  task_attempt_ended t ATTEMPT_FAILED fd (s_now_ms (sv st)) (m_job (master st)) = Ret (rc, t', j) ->
  exists st1, accepted fd (done_bytes task (t_current_attempt t) result) st st1 /\ idle fd st1 /\
    sent st1 fd = sent st fd ++ frame [7] /\ a_file (app st1) = a_file (app st) /\
    master st1 = (let m := fail_master k i t' j (master st) in
                  put_worker fd (set_has_task false (get_worker m fd)) m).
Proof.
  intros Hm (Hs & Hw & Ho) Hk Hslot Ht Hok Hu Hu8 Hres He.
  set (msg := mk_done_req task (t_current_attempt t) result) in *.
  assert (exists st0, record_result fd msg k i t st = Ret st0) as (st0 & Hr).
  { unfold record_result, task_failure. cbn [done_result msg].
    destruct (Z.eqb_spec result 0); [done|]. rewrite He. cbn. eauto. }
  destruct (record_result_inv fd msg k i t st st0 Hm Ht Hr) as
    (_ & _ & _ & [[Hbad _]|(_ & Ef & Es & rc' & t1 & j' & He' & Em)]); [done|].
  rewrite He in He'. injection He' as <- <- <-.
  destruct (report_round fd st k i t task result st0 Hw Ho Hk Hslot Ht) as (st1 & E & Hidle & Hsent & Happ);
    [by apply report_msg_wf|done|by rewrite Es|].
  exists st1. split; [exact E|]. split; [done|]. split; [done|]. unfold master. rewrite Happ.
  split; [exact Ef|]. unfold clear_has_task, set_master. cbn [app set_app a_master]. by rewrite Em.
Qed.

(** The report of the task a worker holds, on an idle connection. *)
Lemma done_round fd st k i t : idle fd st -> table_ok (master st) ->
  phase_kind (j_phase (m_job (master st))) = Ret k -> holds_task (master st) fd k i t ->
  u32 (Z.of_nat i) ->
  exists st1, accepted fd (done_bytes (Z.of_nat i) (t_current_attempt t) 0) st st1 /\ idle fd st1 /\
    sent st1 fd = sent st fd ++ frame [7] /\
    master st1 = (let m := complete_master k i (completed_task fd (s_now_ms (sv st)) t) (master st) in
                  put_worker fd (set_has_task false (get_worker m fd)) m).
Proof.
  intros (Hs & Hw & Ho) Hm Hk (_ & Hwid & _ & Hi & Ht & Hst & _) Hu.
  destruct (aof_append_completed (script st) (a_file (app st)) (master st)
    (mk_done_req (Z.of_nat i) (t_current_attempt t) 0) (slot_kind_code (get_worker (master st) fd)))
    as [[rc f] s'] eqn:Ha.
  assert (s' = []) as ->.
  { pose proof (append_consumed _ _ _ _ _ _ _ _ Ha) as [u Hu']. rewrite Hs in Hu'.
    symmetry in Hu'. by apply app_nil in Hu' as [_ ->]. }
  assert (0 < t_attempts_count t) by (assert (task_ok t) as Hok by (by eapply table_ok_live); by apply Hok).
  destruct (success_round fd st k i t (Z.of_nat i) rc f Hm Hw Ho Hk ltac:(unfold slot_index; rewrite Hwid; lia) Ht Hi
    ltac:(done) Hu Ha) as (st1 & E & Hidle & Hsent & _ & Em). by exists st1.
Qed.

Lemma advance_not_failed j : j_phase j <> JOB_FAILED -> j_phase (maybe_advance_phase_job j) <> JOB_FAILED.
Proof.
  intros Hnf. destruct (j_phase j) eqn:E; [rewrite advance_map by done|rewrite advance_reduce by done| |done].
  - destruct (_ =? _); [by destruct (_ =? _)|by rewrite E].
  - destruct (_ =? _); [done|by rewrite E].
  - destruct j as [M R p md rd to]. cbn in E. subst p. by cbv -[Z.eqb].
Qed.

(** The first pending slot of a kind that is not finished. *)
Lemma quiet_pending k m : table_ok m -> counts_ok m -> quiet m ->
  n_done k (m_job m) < n_tasks k (m_job m) -> exists i t, first_pending k m i t.
Proof.
  intros Hm Hc Hq Hlt. destruct (choose_ok 0 0 k m Hm ltac:(lia)) as [[Hno _]|(i & t & t' & Hfp & _)]; [|by eauto].
  exfalso. destruct (counts_all m k Hm Hc) as [_ Hall].
  assert (n_done k (m_job m) = n_tasks k (m_job m)); [|lia]. apply Hall. intros i t Hi Ht.
  destruct (Hq k i t Hi Ht) as [Hp|]; [|done]. by destruct (Hno i t Hi Ht).
Qed.

Lemma phase_unfinished m k : phase_ok m -> phase_kind (j_phase (m_job m)) = Ret k ->
  n_done k (m_job m) < n_tasks k (m_job m).
Proof.
  unfold phase_ok. cbn zeta. intros Hp Hk.
  destruct (phase_kind_phase _ _ Hk) as [[E ->]|[E ->]]; rewrite E in Hp; apply Hp.
Qed.

Lemma holds_assigned k m i fd t' : get_tasks k m !! i <> None -> Z.of_nat i < n_tasks k (m_job m) ->
  t_state t' = TASK_IN_PROGRESS -> t_owner_fd t' = fd -> holds_task (assign_master k i fd t' m) fd k i t'.
Proof.
  intros Hsome Hi Hst Hown. unfold holds_task, assign_master. rewrite get_worker_put_eq, get_tasks_worker, get_put_tasks.
  change (m_job (put_worker _ _ ?x)) with (m_job x). rewrite job_put_tasks. split_and!; try done.
  apply list_lookup_insert_eq. destruct (get_tasks k m !! i) eqn:E; [by eapply lookup_lt_Some|done].
Qed.

(** The job after a completion: one task fewer. *)
Lemma complete_progress k m i t t' : table_ok m -> counts_ok m -> n_done k (m_job m) < n_tasks k (m_job m) ->
  remaining (m_job (complete_master k i t m)) = remaining (m_job m) - 1 /\
  (j_phase (m_job m) <> JOB_FAILED -> j_phase (m_job (complete_master k i t' m)) <> JOB_FAILED).
Proof.
  intros Hm Hc Hlt. pose proof (proj2 (proj1 (proj2 (Hm k)))) as Hmax.
  assert (0 <= n_done k (m_job m)) as H0 by (rewrite Hc; apply count_completed_le; pose proof (table_ok_n m k Hm); lia).
  assert (n_tasks k (m_job m) <= 256) as Hmax' by (destruct k; cbn in *; limits; lia).
  unfold complete_master. rewrite !job_put_tasks, wrap_small by (unfold fits; lia).
  change (m_job (maybe_advance_phase (set_job ?j ?m))) with (maybe_advance_phase_job j).
  set (j2 := set_n_done k (n_done k (m_job m) + 1) (m_job m)). split.
  - destruct (advance_job_fields TASK_KIND_MAP j2) as [E1 E2]. destruct (advance_job_fields TASK_KIND_REDUCE j2) as [E3 E4].
    cbn [n_tasks n_done] in *. unfold remaining. rewrite E1, E2, E3, E4. unfold j2. destruct k; cbn; lia.
  - intros Hnf. apply advance_not_failed. unfold j2. by rewrite phase_set_done.
Qed.

(** The master after an assignment, and after the report that follows. *)
Definition reported_master (k : task_kind_e) (i : nat) (fd now : Z) (t' : task_t) (m : master_t) : master_t :=
  let m' := complete_master k i (completed_task fd now t') m in
  put_worker fd (set_has_task false (get_worker m' fd)) m'.

Section Round.
Context (fd now now' : Z) (m : master_t) (k : task_kind_e) (i : nat) (t t' : task_t).
Hypothesis (Hinv : job_inv m) (Hq : quiet m) (Hfd : 0 <= fd) (Hk : phase_kind (j_phase (m_job m)) = Ret k).
Hypothesis (Hfp : first_pending k m i t) (Hs : start_attempt fd now t = Ret t').
Let m1 := assign_master k i fd t' m.
Let m2 := reported_master k i fd now' t' m1.

Lemma round_assigned : job_inv m1 /\ m_job m1 = m_job m /\ holds_task m1 fd k i t' /\ u32 (Z.of_nat i) /\
  message_wf (assignment_msg k i t' (m_job m)) /\ same_path t t'.
Proof.
  pose proof Hinv as (Hm & _). pose proof Hfp as (Hi & Ht & _).
  destruct (first_pending_start _ _ _ _ _ _ _ Hm Hfd Hfp Hs) as (Hok' & Hst' & Hown' & _ & Hpath).
  split; [by eapply job_inv_assign|]. split; [by destruct k|].
  split; [apply holds_assigned; [by rewrite Ht|done|done|done]|]. split.
  { pose proof (proj2 (proj1 (proj2 (Hm k)))). unfold fits. destruct k; cbn in *; limits; lia. }
  split; [|done]. eapply assignment_msg_wf; [done..|eapply same_path_ok; [done|by eapply table_ok_path]].
Qed.

(** Task [i] is completed, the others are as before. *)
Lemma round_tasks k' i' t1 : get_tasks k' m2 !! i' = Some t1 ->
  k' = k /\ i' = i /\ t1 = completed_task fd now' t' \/ ~ (k' = k /\ i' = i) /\ get_tasks k' m !! i' = Some t1.
Proof.
  unfold m2, reported_master. cbn zeta. rewrite get_tasks_worker. unfold complete_master.
  rewrite advance_tasks, get_tasks_job. intros [(-> & -> & ->)|[Hne Ht1]]%put_lookup; [by left|right].
  split; [intros [-> ->]; by destruct Hne|]. unfold m1, assign_master in Ht1. rewrite get_tasks_worker in Ht1.
  apply put_lookup in Ht1 as [(-> & -> & _)|[_ Ht1]]; [by destruct Hne|done].
Qed.

Lemma round_n k' : n_tasks k' (m_job m2) = n_tasks k' (m_job m).
Proof.
  unfold m2, reported_master, complete_master. cbn zeta. cbn [m_job put_worker set_workers].
  change (m_job (maybe_advance_phase ?x)) with (maybe_advance_phase_job (m_job x)).
  rewrite (proj1 (advance_job_fields _ _)). cbn [m_job set_job].
  rewrite n_tasks_set_done, job_put_tasks. by rewrite (proj1 (proj2 round_assigned)).
Qed.

Lemma round_completed : job_inv m2 /\ quiet m2 /\ remaining (m_job m2) = remaining (m_job m) - 1 /\
  j_phase (m_job m2) <> JOB_FAILED.
Proof.
  destruct round_assigned as (Hinv1 & Hj1 & Hholds & _). pose proof Hk as Hk1. rewrite <- Hj1 in Hk1.
  destruct (complete_progress k m1 i (completed_task fd now' t') (completed_task fd now' t') (proj1 Hinv1) (proj1 (proj2 Hinv1))
    (phase_unfinished _ _ (proj1 (proj2 (proj2 Hinv1))) Hk1)) as [Hrem Hnf].
  split; [|split; [|split]].
  - apply job_inv_slot; [by apply job_inv_complete|done].
  - intros k' i' t1 Hi' Ht1. rewrite round_n in Hi'. apply round_tasks in Ht1 as [(_ & _ & ->)|[_ Ht1]]; [by right|by eapply Hq].
  - unfold m2, reported_master. cbn zeta. cbn [m_job put_worker set_workers]. by rewrite Hrem, Hj1.
  - unfold m2, reported_master. cbn zeta. cbn [m_job put_worker set_workers]. apply Hnf. intros E. by rewrite E in Hk1.
Qed.
End Round.

(** A pending task of the phase, and its next attempt. *)
Lemma next_task fd now m k : job_inv m -> quiet m -> 0 <= fd -> phase_kind (j_phase (m_job m)) = Ret k ->
  exists i t t', first_pending k m i t /\ start_attempt fd now t = Ret t'.
Proof.
  intros Hinv Hq Hfd Hk. pose proof Hinv as (Hm & Hc & Hph & _).
  destruct (quiet_pending k m Hm Hc Hq (phase_unfinished _ _ Hph Hk)) as (i & t & Hfp). pose proof Hfp as (Hi & Ht & Hpend & _).
  destruct (start_attempt_ok fd now t) as (t' & Hs & _); [by eapply table_ok_live|done|done|]. eauto.
Qed.

Lemma round_progress fd st k : idle fd st -> job_inv (master st) -> quiet (master st) -> 0 <= fd ->
  phase_kind (j_phase (m_job (master st))) = Ret k ->
  exists st2, worker_round fd st = Ret st2 /\ idle fd st2 /\ job_inv (master st2) /\ quiet (master st2) /\
    remaining (m_job (master st2)) = remaining (m_job (master st)) - 1 /\
    j_phase (m_job (master st2)) <> JOB_FAILED.
Proof.
  intros Hidle Hinv Hq Hfd Hk.
  destruct (next_task fd (s_now_ms (sv st)) (master st) k Hinv Hq Hfd Hk) as (i & t & t' & Hfp & Hs).
  destruct (get_round fd st k i t t' Hidle (proj1 Hinv) Hfd Hk Hfp Hs) as (st1 & E1%accepted_handle & Happ1 & Hidle1 & Hsent1).
  assert (Hm1 : master st1 = assign_master k i fd t' (master st)) by (unfold master at 1; by rewrite Happ1).
  destruct (round_assigned fd (s_now_ms (sv st)) (s_now_ms (sv st1)) (master st) k i t t' Hinv Hfd Hk Hfp Hs) as (Hinv1 & Hj1 & Hholds & Hu & Hwf & _).
  destruct (round_completed fd (s_now_ms (sv st)) (s_now_ms (sv st1)) (master st) k i t t' Hinv Hq Hfd Hk Hfp Hs) as (H1 & H2 & H3 & H4).
  rewrite <- Hm1 in Hinv1, Hj1, Hholds, H1, H2, H3, H4. pose proof Hk as Hk1. rewrite <- Hj1 in Hk1.
  destruct (done_round fd st1 k i t' Hidle1 (proj1 Hinv1) Hk1 Hholds Hu) as (st2 & E2%accepted_handle & Hidle2 & _ & Hm2).
  exists st2. split; [|split; [done|]].
  - unfold worker_round. rewrite E1. cbn [mbind outcome_bind].
    rewrite (worker_reply_frame fd st st1 _ Hwf Hsent1). by destruct k.
  - rewrite Hm2. by split_and!.
Qed.

(** C12: a job finishes. From any consistent state without assigned tasks, one
    worker that repeats the round of asking, working and reporting success,
    against a kernel that transfers whole buffers, brings the job to JOB_DONE
    with every task COMPLETED in exactly as many rounds as tasks were left. *)
Theorem single_worker_finishes fd st :
  idle fd st -> job_inv (master st) -> quiet (master st) -> 0 <= fd ->
  j_phase (m_job (master st)) <> JOB_FAILED ->
  exists st', worker_rounds (Z.to_nat (remaining (m_job (master st)))) fd st = Ret st' /\
    j_phase (m_job (master st')) = JOB_DONE /\
    forall k, all_tasks k (fun t => t_state t = TASK_COMPLETED) (master st').
Proof.
  intros Hidle Hinv Hq Hfd Hnf. remember (Z.to_nat (remaining (m_job (master st)))) as n eqn:Hn.
  revert st Hidle Hinv Hq Hnf Hn. induction n as [|n IH]; intros st Hidle Hinv Hq Hnf Hn; cbn [worker_rounds].
  - exists st. split; [done|]. pose proof Hinv as (Hm & Hc & Hph & _).
    destruct (counts_all (master st) TASK_KIND_MAP Hm Hc) as [HM HMa].
    destruct (counts_all (master st) TASK_KIND_REDUCE Hm Hc) as [HR HRa]. cbn [n_done n_tasks] in *.
    unfold remaining in Hn. split; [|intros []; [apply HMa|apply HRa]; lia].
    unfold phase_ok in Hph. cbn zeta in Hph. destruct (j_phase (m_job (master st))); [lia|lia|done|done].
  - destruct (phase_kind (j_phase (m_job (master st)))) as [k| |] eqn:Hk.
    + destruct (round_progress fd st k Hidle Hinv Hq Hfd Hk) as (st2 & E & Hidle2 & Hinv2 & Hq2 & Hrem & Hnf2).
      rewrite E. cbn [mbind outcome_bind]. apply IH; [done|done|done|done|lia].
    + exfalso. pose proof Hinv as (_ & _ & Hph & _). unfold phase_ok, remaining in *. cbn zeta in Hph.
      destruct (j_phase (m_job (master st))); try done. lia.
    + by destruct (j_phase (m_job (master st))).
Qed.

Lemma fresh_quiet cfg paths R fd : job_size_ok paths R -> quiet (set_aof_fd fd (fresh_master cfg paths R)).
Proof.
  intros Hsize k i t Hi Ht. left. apply (fresh_pending cfg paths R k Hsize i t Hi).
  by destruct k.
Qed.

Example single_worker_finishes_witness :
  exists st', worker_rounds 4 5 demo = Ret st' /\ j_phase (m_job (master st')) = JOB_DONE.
Proof.
  destruct (single_worker_finishes 5 demo) as (st' & E & Hdone & _).
  - by vm_compute.
  - eapply starts_inv, demo_starts.
  - apply fresh_quiet. decide_now.
  - discriminate.
  - discriminate.
  - exists st'. split; [exact E|exact Hdone].
Defined.
