(* ===== verification/Protocol.v ===== *)
(** * What each message does (src/master.c, src/aof.c)

    The effect of one message on an idle connection, for every branch of the
    handlers, and the reports the handlers do not check. *)

From S2P Require Import Prelude Limits Util Rpc Task Aof EventLoop Server Framing Master Sched Job Recovery Liveness.

(** ** Requests and reports *)

(** Every slot but [i] of kind [k] is the same. *)
Definition other_tasks (k : task_kind_e) (i : nat) (m m' : master_t) : Prop :=
  forall k' i', k' <> k \/ i' <> i -> get_tasks k' m' !! i' = get_tasks k' m !! i'.

Lemma start_attempt_started fd now t t' : start_attempt fd now t = Ret t' -> t_started_at_ms t' = now.
Proof. unfold start_attempt, put_history. destruct (_ <? _); intros; by simplify_eq. Qed.

Lemma assign_others k i fd t' m : other_tasks k i m (assign_master k i fd t' m).
Proof. intros k' i' Hne. unfold assign_master. rewrite get_tasks_worker. by apply put_lookup_ne. Qed.

Lemma complete_others k i t' m : other_tasks k i m (complete_master k i t' m).
Proof.
  intros k' i' Hne. unfold complete_master. rewrite advance_tasks, get_tasks_job. by apply put_lookup_ne.
Qed.

Lemma fail_others k i t' j m : other_tasks k i m (fail_master k i t' j m).
Proof. intros k' i' Hne. unfold fail_master. rewrite get_tasks_job. by apply put_lookup_ne. Qed.

(** C28: a request for a task, on an idle connection of a consistent job. In
    the map and reduce phases the first PENDING task of the phase's kind goes to
    the worker: its attempt number grows by one, it starts now, the worker's
    slot names it, no other task changes and the reply describes it. Without a
    PENDING task the reply is a wait and nothing changes; after the end of the
    job it is DONE. *)
Theorem get_task_assigns fd st : idle fd st -> job_inv (master st) -> 0 <= fd ->
  let m := master st in
  exists st1 msg, handle_message fd get_task_bytes st = Ret st1 /\
    sent st1 fd = sent st fd ++ frame (message_bytes msg) /\ a_file (app st1) = a_file (app st) /\
    match phase_kind (j_phase (m_job m)) with
    | Ret k =>
        (exists i t t', first_pending k m i t /\ msg = assignment_msg k i t' (m_job m) /\
           t_current_attempt t' = t_current_attempt t + 1 /\ t_started_at_ms t' = s_now_ms (sv st) /\
           holds_task (master st1) fd k i t' /\ wk_has_task (get_worker (master st1) fd) = true /\
           other_tasks k i m (master st1)) \/
        (no_pending k m /\ msg = wait_msg (m_job m) /\ master st1 = m)
    | _ => msg = DoneResp /\ master st1 = m
    end.
Proof.
  intros Hidle Hinv Hfd m. pose proof Hinv as (Hm & Hc & Hph & _). fold m in Hm, Hph.
  pose proof (get_task_reply_ok fd (s_now_ms (sv st)) m Hm Hfd) as Hok.
  destruct (phase_kind (j_phase (m_job m))) as [k| |] eqn:Hk.
  2,3: destruct (reply_round fd st _ _ Hidle (message_bytes_max DoneResp I) Hok) as (st1 & E%accepted_handle & Ea & _ & Hs);
    exists st1, DoneResp; unfold master; rewrite Ea; by split_and!.
  destruct Hok as [[Hno E]|(i & t & t' & Hfp & Hst & E)].
  - pose proof (phase_unfinished m k Hph Hk) as Hlt. destruct (Z.ltb_spec (n_done k (m_job m)) (n_tasks k (m_job m))); [|lia].
    destruct (reply_round fd st _ _ Hidle (message_bytes_max _ (wait_msg_wf (m_job m))) E) as (st1 & E1%accepted_handle & Ea & _ & Hs).
    exists st1, (wait_msg (m_job m)). split; [done|]. split; [done|].
    assert (master st1 = m) as -> by (unfold master at 1; by rewrite Ea). rewrite Ea.
    split; [done|]. by right.
  - destruct (get_round fd st k i t t' Hidle Hm Hfd Hk Hfp Hst) as (st1 & E1%accepted_handle & Ea & _ & Hs).
    destruct (first_pending_start _ _ _ _ _ _ _ Hm Hfd Hfp Hst) as (_ & Hst' & Hown' & Hatt & _).
    exists st1, (assignment_msg k i t' (m_job m)). split; [done|]. split; [done|].
    assert (master st1 = assign_master k i fd t' m) as -> by (unfold master at 1; by rewrite Ea).
    rewrite Ea. split; [done|]. left. exists i, t, t'. pose proof Hfp as (Hi & Ht & _).
    split; [done|]. split; [done|]. split; [done|]. split; [by eapply start_attempt_started|].
    split; [apply holds_assigned; [by rewrite Ht|done..]|]. split; [|apply assign_others].
    unfold assign_master. by rewrite get_worker_put_eq.
Qed.

Lemma complete_lookup k i t t' m : get_tasks k m !! i = Some t ->
  get_tasks k (complete_master k i t' m) !! i = Some t'.
Proof.
  intros Ht. unfold complete_master. rewrite advance_tasks, get_tasks_job, get_put_tasks.
  apply list_lookup_insert_eq. by eapply lookup_lt_Some.
Qed.

Lemma fail_lookup k i t t' j m : get_tasks k m !! i = Some t ->
  get_tasks k (fail_master k i t' j m) !! i = Some t'.
Proof.
  intros Ht. unfold fail_master. rewrite get_tasks_job, get_put_tasks.
  apply list_lookup_insert_eq. by eapply lookup_lt_Some.
Qed.

(** The counters after a completion. *)
Lemma complete_count k i t t' m : table_ok m -> get_tasks k m !! i = Some t ->
  Z.of_nat i < n_tasks k (m_job m) -> 0 <= n_done k (m_job m) < 2 ^ 32 - 1 ->
  let m' := complete_master k i t' m in
  (forall k', n_tasks k' (m_job m') = n_tasks k' (m_job m)) /\
  n_done k (m_job m') = n_done k (m_job m) + 1 /\
  count_completed (n_tasks k (m_job m)) (get_tasks k m') =
    count_completed (n_tasks k (m_job m)) (get_tasks k m) + Z.b2z (is_completed t') - Z.b2z (is_completed t).
Proof.
  intros Hm Ht Hi Hn m'. unfold m', complete_master. rewrite !job_put_tasks, wrap_small by (unfold fits; lia).
  set (j2 := set_n_done k (n_done k (m_job m) + 1) (m_job m)).
  change (m_job (maybe_advance_phase (set_job j2 ?x))) with (maybe_advance_phase_job j2). split; [|split].
  - intros k'. rewrite (proj1 (advance_job_fields k' j2)). apply n_tasks_set_done.
  - rewrite (proj2 (advance_job_fields k j2)). apply n_done_set.
  - rewrite advance_tasks, get_tasks_job, get_put_tasks, (count_completed_insert _ _ _ _ t) by done. lia.
Qed.

(** A held task is live, and has been attempted. *)
Lemma holds_live fd k i t m : table_ok m -> holds_task m fd k i t ->
  slot_index fd m = i /\ task_ok t /\ 0 < t_attempts_count t /\ u32 (Z.of_nat i) /\ slot_kind_code (get_worker m fd) = task_kind_code k.
Proof.
  intros Hm (Hkind & Hid & _ & Hi & Ht & Hst & _). assert (Hok : task_ok t) by by eapply table_ok_live.
  split; [unfold slot_index; rewrite Hid; lia|]. split; [done|]. split; [by apply Hok|].
  split; [|unfold slot_kind_code; by rewrite Hkind].
  pose proof (proj2 (proj1 (proj2 (Hm k)))). unfold fits. destruct k; cbn in *; limits; lia.
Qed.

(** C27: a completion is on disk before it is acknowledged. When a worker
    reports success for the task it holds and the kernel accepts all writes, the
    log grows by exactly the record of that task and attempt, the task is
    COMPLETED without owner, its kind's counter grows by one, the slot is free,
    no other task changes, and the reply is the acknowledgement. *)
Theorem success_report_logged fd st k i t :
  idle fd st -> job_inv (master st) -> 0 <= m_aof_fd (master st) ->
  phase_kind (j_phase (m_job (master st))) = Ret k -> holds_task (master st) fd k i t ->
  exists st1 t', handle_message fd (done_bytes (Z.of_nat i) (t_current_attempt t) 0) st = Ret st1 /\
    sent st1 fd = sent st fd ++ frame (message_bytes TaskDoneAck) /\
    a_file (app st1) = a_file (app st) ++
      seal (completion_body (mk_completion (task_kind_code k) (Z.of_nat i) (t_current_attempt t))) /\
    get_tasks k (master st1) !! i = Some t' /\ t_state t' = TASK_COMPLETED /\ t_owner_fd t' = -1 /\
    n_done k (m_job (master st1)) = n_done k (m_job (master st)) + 1 /\
    wk_has_task (get_worker (master st1) fd) = false /\ other_tasks k i (master st) (master st1).
Proof.
  intros Hidle Hinv Haof Hk Hh. pose proof Hinv as (Hm & Hc & Hph & _). pose proof Hidle as (Hs & Hw & Ho).
  destruct (holds_live _ _ _ _ _ Hm Hh) as (Hslot & Hok & Hpos & Hu & Hcode).
  destruct Hh as (_ & _ & _ & Hi & Ht & _).
  set (msg := mk_done_req (Z.of_nat i) (t_current_attempt t) 0).
  destruct (append_completed_ok (script st) (a_file (app st)) (master st) msg (task_kind_code k))
    as (s' & Ha & _); [by rewrite Hs; apply Forall_nil_2|done|].
  assert (s' = []) as ->.
  { pose proof (append_consumed _ _ _ _ _ _ _ _ Ha) as [u E]. rewrite Hs in E. by symmetry in E; apply app_nil in E as [_ ->]. }
  rewrite <- Hcode in Ha.
  destruct (success_round fd st k i t (Z.of_nat i) _ _ Hm Hw Ho Hk Hslot Ht Hi Hpos Hu Ha) as (st1 & E%accepted_handle & _ & Hsent & Ef & Em).
  rewrite Hcode in Ef.
  exists st1, (completed_task fd (s_now_ms (sv st)) t). cbn zeta in Em. rewrite Em, get_tasks_worker.
  split; [exact E|]. split; [exact Hsent|]. split; [exact Ef|]. split; [by eapply complete_lookup|].
  split; [done|]. split; [done|]. split; [|split].
  - cbn [m_job put_worker set_workers]. pose proof (phase_unfinished _ _ Hph Hk).
    destruct (complete_count k i t (completed_task fd (s_now_ms (sv st)) t) (master st) Hm Ht Hi) as (_ & En & _); [|exact En].
    rewrite Hc. pose proof (count_completed_le (get_tasks k (master st)) (n_tasks k (m_job (master st))) ltac:(lia)).
    pose proof (proj2 (proj1 (proj2 (Hm k)))). destruct k; cbn in *; limits; lia.
  - by rewrite get_worker_put_eq.
  - intros k' i' Hne. rewrite get_tasks_worker. by apply complete_others.
Qed.

(** C29: a failed attempt is retried, at most [MAX_ATTEMPTS] times. When a
    worker reports a failure for the task it holds, the task goes back to
    PENDING and the job is unchanged if attempts are left; otherwise the task
    and the job have FAILED. In both cases nothing is logged, the report is
    acknowledged and no other task changes. *)
Theorem failed_report_retries fd st k i t result :
  idle fd st -> job_inv (master st) -> phase_kind (j_phase (m_job (master st))) = Ret k ->
  holds_task (master st) fd k i t -> u8 result -> result <> 0 ->
  exists st1 t', handle_message fd (done_bytes (Z.of_nat i) (t_current_attempt t) result) st = Ret st1 /\
    sent st1 fd = sent st fd ++ frame (message_bytes TaskDoneAck) /\ a_file (app st1) = a_file (app st) /\
    get_tasks k (master st1) !! i = Some t' /\ t_owner_fd t' = -1 /\
    (if t_attempts_count t <? MAX_ATTEMPTS
     then t_state t' = TASK_PENDING /\ m_job (master st1) = m_job (master st)
     else t_state t' = TASK_FAILED /\ m_job (master st1) = set_phase JOB_FAILED (m_job (master st))) /\
    wk_has_task (get_worker (master st1) fd) = false /\ other_tasks k i (master st) (master st1).
Proof.
  intros Hidle Hinv Hk Hh Hu8 Hres. pose proof Hinv as (Hm & _).
  destruct (holds_live _ _ _ _ _ Hm Hh) as (Hslot & Hok & Hpos & Hu & _).
  destruct Hh as (_ & _ & _ & Hi & Ht & _).
  destruct (task_attempt_ended_ok t ATTEMPT_FAILED fd (s_now_ms (sv st)) (m_job (master st)) Hok Hpos)
    as (rc & t' & He & Hok' & Hrc & Hst' & _ & _); [done|].
  destruct (failure_round fd st k i t (Z.of_nat i) result _ _ _ Hm Hidle Hk Hslot Ht Hok Hu Hu8 Hres He)
    as (st1 & E%accepted_handle & _ & Hsent & Ef & Em).
  exists st1, t'. cbn zeta in Em. rewrite Em, get_tasks_worker.
  split; [exact E|]. split; [exact Hsent|]. split; [exact Ef|]. split; [by eapply fail_lookup|].
  split; [|split; [|split]].
  - destruct (decide (t_owner_fd t' = -1)) as [|Hne]; [done|]. apply (proj1 Hok') in Hne.
    rewrite Hst' in Hne. by destruct (_ <? _).
  - cbn [m_job put_worker set_workers fail_master set_job]. rewrite Hst'. by destruct (_ <? _).
  - by rewrite get_worker_put_eq.
  - intros k' i' Hne. rewrite get_tasks_worker. by apply fail_others.
Qed.

(** ** What the handlers do not check *)

(** Nobody holds task [i] of kind [k], yet it is in progress. *)
Definition orphan (k : task_kind_e) (i : nat) (t : task_t) (m : master_t) : Prop :=
  get_tasks k m !! i = Some t /\ Z.of_nat i < n_tasks k (m_job m) /\ t_state t = TASK_IN_PROGRESS /\
  forall fd, wk_has_task (get_worker m fd) = true -> wk_current_kind (get_worker m fd) = Some k ->
    wk_current_task_id (get_worker m fd) <> Z.of_nat i.

(** A change of another slot, and of workers' slots that do not claim it. *)
Lemma orphan_other k i t m m' : orphan k i t m -> (forall k, n_tasks k (m_job m') = n_tasks k (m_job m)) ->
  get_tasks k m' !! i = get_tasks k m !! i ->
  (forall fd, get_worker m' fd = get_worker m fd \/ wk_has_task (get_worker m' fd) = false \/
     wk_current_kind (get_worker m' fd) <> Some k \/ wk_current_task_id (get_worker m' fd) <> Z.of_nat i) ->
  orphan k i t m'.
Proof.
  intros (Ht & Hi & Hst & Hno) Hn Hsame Hw. split; [by rewrite Hsame|]. split; [by rewrite Hn|].
  split; [done|]. intros fd H1 H2. destruct (Hw fd) as [E|[E|[E|E]]]; [|congruence|done|done].
  rewrite E in *. by apply Hno.
Qed.

(** Any worker's slot may be given up. *)
Lemma orphan_slot k i t m fd w : orphan k i t m -> wk_has_task w = false -> orphan k i t (put_worker fd w m).
Proof.
  intros Ho Hw. apply (orphan_other _ _ _ m); [done|done|by rewrite get_tasks_worker|].
  intros fd'. destruct (decide (fd = fd')) as [<-|]; [rewrite get_worker_put_eq; auto|].
  left. by apply get_worker_put_ne.
Qed.

(** A task that is held is not the orphan. *)
Lemma orphan_held k i t m fd k' i' t' : orphan k i t m -> holds_task m fd k' i' t' ->
  wk_has_task (get_worker m fd) = true -> k <> k' \/ i <> i'.
Proof.
  intros (_ & _ & _ & Hno) (Hkind & Hid & _) Hht. destruct (decide (k = k')) as [->|]; [right|by left].
  intros ->. by apply (Hno fd).
Qed.

Lemma orphan_effect k i t fd st a : job_inv (master st) -> 0 <= fd -> orphan k i t (master st) ->
  honest_effect fd st a -> orphan k i t (a_master a).
Proof.
  intros Hinv Hfd Ho [|k' i' t1 t' now Hk Hfp Hs|k' i' t1 now rc file s s' msg Hk Hh Hht _ _ _ _
    |k' i' t1 now rc t' j Hk Hh Hht He]; cbn [a_master]; [done|..].
  - destruct Hfp as (_ & Ht1 & Hp & _).
    assert (Hne : k <> k' \/ i <> i').
    { destruct (decide (k = k')) as [->|]; [right; intros ->|by left]. destruct Ho as (Ht & _ & Hst & _). congruence. }
    apply (orphan_other _ _ _ (master st)); [done|by intros []; destruct k'|by apply assign_others|].
    intros fd'. unfold assign_master. destruct (decide (fd = fd')) as [<-|Hne'].
    + rewrite get_worker_put_eq. cbn. right; right. destruct Hne as [?|?]; [left; congruence|right; lia].
    + left. rewrite get_worker_put_ne by done. apply put_worker_same.
  - apply orphan_slot; [|done]. pose proof (orphan_held _ _ _ _ _ _ _ _ Ho Hh Hht) as Hne.
    apply (orphan_other _ _ _ (master st)); [done| |by apply complete_others|].
    + intros k2. unfold complete_master. rewrite !job_put_tasks.
      change (m_job (maybe_advance_phase (set_job ?j ?m))) with (maybe_advance_phase_job j).
      rewrite (proj1 (advance_job_fields _ _)). apply n_tasks_set_done.
    + intros fd'. left. apply put_worker_same.
  - apply orphan_slot; [|done]. pose proof (orphan_held _ _ _ _ _ _ _ _ Ho Hh Hht) as Hne.
    assert (Hok : task_ok t1 /\ 0 < t_attempts_count t1).
    { destruct Hh as (_ & _ & _ & Hi & Ht & Hst & _). assert (task_ok t1) as Hok by (by eapply table_ok_live; [apply Hinv|..]).
      split; [done|by apply Hok]. }
    destruct (task_attempt_ended_ok t1 ATTEMPT_FAILED fd now (m_job (master st)) (proj1 Hok) (proj2 Hok)) as (? & ? & He' & _); [done|].
    rewrite He in He'. injection He' as _ _ ->.
    apply (orphan_other _ _ _ (master st)); [done| |by apply fail_others|].
    + intros k2. cbn [m_job fail_master set_job]. destruct (_ <? _); [done|apply n_tasks_set_phase].
    + intros fd'. left. apply put_worker_same.
Qed.

Lemma orphan_steps k i t st st' : rtc (master_step honest) st st' -> job_inv (master st) ->
  orphan k i t (master st) -> orphan k i t (master st').
Proof.
  induction 1 as [|s1 s2 s3 Hstep _ IH]; intros Hinv Ho; [done|].
  apply IH; [by eapply job_inv_step|]. destruct Hstep as [fd p s2 Hfd Hh Hm|acc _|fd _|s2 E _ _].
  - apply handle_message_inv in Hm as (a & He & E). apply (message_effect_honest _ _ _ _ Hinv Hfd Hh) in He.
    apply (orphan_effect _ _ _ _ _ _ Hinv Hfd Ho) in He. unfold master. destruct E as [->| ->]; [done|].
    by apply orphan_slot.
  - unfold master. destruct (on_accept_app acc s1) as [->|(fd & _ & ->)]; [done|]. by apply orphan_slot.
  - by apply orphan_slot.
  - unfold master. by rewrite E.
Qed.

Lemma disconnect_orphans m fd k i t : job_inv m -> phase_kind (j_phase (m_job m)) = Ret k ->
  holds_task m fd k i t -> orphan k i t (put_worker fd worker_zero m).
Proof.
  intros (_ & _ & _ & _ & Hw) Hk (_ & _ & _ & Hi & Ht & Hst & Hown).
  split; [by rewrite get_tasks_worker|]. split; [done|]. split; [done|].
  intros fd' Hht Hkind Hid. destruct (decide (fd = fd')) as [<-|Hne]; [by rewrite get_worker_put_eq in Hht|].
  rewrite get_worker_put_ne in Hht, Hkind, Hid by done.
  destruct (Hw fd' k ltac:(done) Hk Hht) as (i' & t' & _ & Hid' & _ & _ & Ht' & _ & Hown').
  rewrite Hid in Hid'. apply Nat2Z.inj in Hid' as <-. congruence.
Qed.

(** C38: within one run of the master and with honest workers, the task of a lost
    worker is never handed out again. When a worker that holds a task loses its
    connection, the task stays IN_PROGRESS in every state the loop can reach
    from there with workers that report only what their slots hold, and the job
    does not get to JOB_DONE: [master_on_disconnect] leaves the task to the
    timeout sweep, which the loop never runs. A restart of the master, whose log
    has no trace of the assignment, frees the task; a worker that repeats a
    report can advance the phase past it. *)
Theorem lost_task_blocks_job fd st st' k i t :
  job_inv (master st) -> phase_kind (j_phase (m_job (master st))) = Ret k ->
  holds_task (master st) fd k i t -> rtc (master_step honest) (remove_client fd st) st' ->
  get_tasks k (master st') !! i = Some t /\ t_state t = TASK_IN_PROGRESS /\
  j_phase (m_job (master st')) <> JOB_DONE.
Proof.
  intros Hinv Hk Hh Hr. pose proof (job_inv_disconnect fd _ Hinv) as Hinv1.
  destruct (orphan_steps k i t _ _ Hr Hinv1 (disconnect_orphans _ _ _ _ _ Hinv Hk Hh)) as (Ht & Hi & Hst & _).
  split; [done|]. split; [done|]. intros E.
  pose proof (job_inv_steps _ _ Hr Hinv1) as (H1 & H2 & H3 & _). unfold phase_ok in H3. rewrite E in H3.
  assert (n_done k (m_job (master st')) = n_tasks k (m_job (master st'))) as Hall by (destruct k; apply H3).
  apply (counts_all _ k H1 H2) in Hall. specialize (Hall i t Hi Ht). cbn in Hall. congruence.
Qed.

(** An append from an empty script leaves an empty script. *)
Lemma append_drained f m msg k : exists rc f', aof_append_completed [] f m msg k = (rc, f', []).
Proof.
  destruct (aof_append_completed [] f m msg k) as [[rc f'] s] eqn:Ha. exists rc, f'.
  apply append_consumed in Ha as [u E]. symmetry in E. by apply app_nil in E as [_ ->].
Qed.

(** C39: a report is counted as often as it is sent. Reporting success again
    for a task that is already COMPLETED increments the counter of its kind
    although the number of COMPLETED tasks stays the same; if that was the last
    one missing, the phase advances with tasks left to do. *)
Theorem duplicate_report_counts_twice fd st k i t task :
  idle fd st -> table_ok (master st) -> phase_kind (j_phase (m_job (master st))) = Ret k ->
  slot_index fd (master st) = i -> Z.of_nat i < n_tasks k (m_job (master st)) ->
  get_tasks k (master st) !! i = Some t -> t_state t = TASK_COMPLETED -> 0 < t_attempts_count t ->
  0 <= n_done k (m_job (master st)) < 2 ^ 32 - 1 -> u32 task ->
  let m := master st in
  exists st1, handle_message fd (done_bytes task (t_current_attempt t) 0) st = Ret st1 /\
    n_done k (m_job (master st1)) = n_done k (m_job m) + 1 /\
    count_completed (n_tasks k (m_job m)) (get_tasks k (master st1)) =
      count_completed (n_tasks k (m_job m)) (get_tasks k m) /\
    (n_done k (m_job m) + 1 = n_tasks k (m_job m) -> j_phase (m_job (master st1)) <> j_phase (m_job m)).
Proof.
  intros (Hs & Hw & Ho) Hm Hk Hslot Hi Ht Hst Hpos Hn Hu m.
  destruct (append_drained (a_file (app st)) m (mk_done_req task (t_current_attempt t) 0)
    (slot_kind_code (get_worker m fd))) as (rc & f & Ha). rewrite <- Hs in Ha at 1.
  destruct (success_round fd st k i t task rc f Hm Hw Ho Hk Hslot Ht Hi Hpos Hu Ha) as (st1 & E%accepted_handle & _ & _ & _ & Em).
  exists st1. split; [exact E|]. cbn zeta in Em. fold m in Em. rewrite Em, get_tasks_worker.
  cbn [m_job put_worker set_workers]. set (t' := completed_task fd (s_now_ms (sv st)) t).
  destruct (complete_count k i t t' m Hm Ht Hi Hn) as (_ & En & Ec).
  split; [exact En|]. split.
  { rewrite Ec. unfold is_completed. rewrite Hst. change (t_state t') with TASK_COMPLETED. lia. }
  fold m in Hn. intros Hlast. unfold complete_master. rewrite job_put_tasks, wrap_small by (unfold fits; lia).
  change (m_job (maybe_advance_phase (set_job ?j ?x))) with (maybe_advance_phase_job j).
  fold m in Hk. destruct (phase_kind_phase _ _ Hk) as [[Ep ->]|[Ep ->]]; rewrite Ep; cbn [n_done n_tasks] in Hlast.
  - rewrite advance_map by done. cbn [set_n_done set_maps_done j_maps_done j_M j_reduces_done j_R n_done].
    rewrite Hlast, Z.eqb_refl. by destruct (_ =? _).
  - rewrite advance_reduce by done. cbn [set_n_done set_reduces_done j_reduces_done j_R n_done].
    by rewrite Hlast, Z.eqb_refl.
Qed.

(** C40: the phase, not the report, chooses the array. In the reduce phase, a
    success report from a worker whose slot still names map task [i] completes
    reduce task [i], which another worker is running, and logs the completion of
    a map task. *)
Theorem late_map_report_completes_reduce fd st i t task :
  idle fd st -> table_ok (master st) -> 0 <= m_aof_fd (master st) ->
  j_phase (m_job (master st)) = JOB_REDUCE -> wk_current_kind (get_worker (master st) fd) = Some TASK_KIND_MAP ->
  slot_index fd (master st) = i -> Z.of_nat i < j_R (m_job (master st)) ->
  m_reduces (master st) !! i = Some t -> t_state t = TASK_IN_PROGRESS -> u32 task ->
  exists st1 t', handle_message fd (done_bytes task (t_current_attempt t) 0) st = Ret st1 /\
    m_reduces (master st1) !! i = Some t' /\ t_state t' = TASK_COMPLETED /\
    a_file (app st1) = a_file (app st) ++
      seal (completion_body (mk_completion (task_kind_code TASK_KIND_MAP) task (t_current_attempt t))).
Proof.
  intros (Hs & Hw & Ho) Hm Haof Hph Hkind Hslot Hi Ht Hst Hu.
  assert (Hk : phase_kind (j_phase (m_job (master st))) = Ret TASK_KIND_REDUCE) by by rewrite Hph.
  assert (Hok : task_ok t) by by eapply (table_ok_live (master st) TASK_KIND_REDUCE).
  set (msg := mk_done_req task (t_current_attempt t) 0).
  destruct (append_completed_ok (script st) (a_file (app st)) (master st) msg (task_kind_code TASK_KIND_MAP))
    as (s' & Ha & _); [by rewrite Hs; apply Forall_nil_2|done|].
  assert (s' = []) as ->.
  { destruct (append_drained (a_file (app st)) (master st) msg (task_kind_code TASK_KIND_MAP)) as (? & ? & E).
    rewrite Hs, E in Ha. congruence. }
  assert (slot_kind_code (get_worker (master st) fd) = task_kind_code TASK_KIND_MAP) as Hcode
    by (unfold slot_kind_code; by rewrite Hkind).
  rewrite <- Hcode in Ha.
  destruct (success_round fd st TASK_KIND_REDUCE i t task _ _ Hm Hw Ho Hk Hslot Ht Hi ltac:(by apply Hok) Hu Ha)
    as (st1 & E%accepted_handle & _ & _ & Ef & Em).
  exists st1, (completed_task fd (s_now_ms (sv st)) t). split; [exact E|]. split; [|split; [done|]].
  - cbn zeta in Em. rewrite Em. change (m_reduces ?x) with (get_tasks TASK_KIND_REDUCE x).
    rewrite get_tasks_worker. by eapply complete_lookup.
  - rewrite Ef, Hcode. done.
Qed.

(** A report from a worker without a task is undefined behaviour. If the
    task the worker's slot names (task 0 for a worker that was never given one)
    has not been attempted, a report with attempt 0 writes [history[-1]] of that
    task. *)
Theorem unassigned_report_faults fd st k t task result :
  table_ok (master st) -> phase_kind (j_phase (m_job (master st))) = Ret k ->
  get_tasks k (master st) !! slot_index fd (master st) = Some t ->
  Z.of_nat (slot_index fd (master st)) < n_tasks k (m_job (master st)) ->
  t_attempts_count t = 0 -> u32 task -> u8 result ->
  handle_message fd (done_bytes task 0 result) st = Fault.
Proof.
  intros Hm Hk Ht Hi H0 Hu Hu8. assert (Hok : task_ok t) by by eapply table_ok_live.
  assert (Hcur : t_current_attempt t = 0) by (destruct Hok as (_ & -> & _); done).
  set (msg := mk_done_req task 0 result). unfold handle_message, master_on_message, done_bytes. fold msg.
  unfold message_bytes. rewrite rpc_peek_kind_code. cbn [message_kind tail].
  assert (msg_wf msg) as Hwf by (by split_and!).
  assert (rpc_decode_task_done_req (message_body (TaskDoneReq msg)) = Some msg) as ->
    by exact (msg_decode_body msg Hwf).
  assert (Hput : forall r t0, t_attempts_count t0 = 0 -> t_history t0 = t_history t -> put_history r t0 = Fault).
  { intros r t0 E1 E2. rewrite put_history_ok; [by rewrite E1|rewrite E1; by vm_compute|rewrite E2; by apply task_ok_history]. }
  assert (Hd : task_done_helper fd msg st = Fault).
  { unfold task_done_helper. rewrite Hk. cbn [mbind outcome_bind]. fold (slot_index fd (master st)).
    rewrite Ht. cbn [or_fault mbind outcome_bind]. change (rpc_encode_task_done_ack MSG_MAX) with (Some [7]).
    cbv beta iota. cbn [done_attempt_id msg]. rewrite Hcur. cbn [negb Z.eqb].
    unfold task_success, task_failure, task_attempt_ended.
    destruct (done_result msg =? 0); by rewrite Hput. }
  unfold master_handle_task_done. rewrite Hd. by destruct (phase_kind_phase _ _ Hk) as [[-> _]|[-> _]].
Qed.

(** A completion that could not be written is acknowledged all the same.
    When the append to the log fails, the task is COMPLETED and the worker gets
    its acknowledgement, while the log has not changed. *)
Theorem append_failure_acknowledged fd st k i t :
  script st = [IoErr] -> c_wbuf (get_client st fd) = [] -> c_woff (get_client st fd) = 0 ->
  table_ok (master st) -> phase_kind (j_phase (m_job (master st))) = Ret k -> holds_task (master st) fd k i t ->
  0 <= m_aof_fd (master st) ->
  exists st1 t', handle_message fd (done_bytes (Z.of_nat i) (t_current_attempt t) 0) st = Ret st1 /\
    sent st1 fd = sent st fd ++ frame (message_bytes TaskDoneAck) /\ a_file (app st1) = a_file (app st) /\
    get_tasks k (master st1) !! i = Some t' /\ t_state t' = TASK_COMPLETED.
Proof.
  intros Hs Hw Ho Hm Hk Hh Haof. destruct (holds_live _ _ _ _ _ Hm Hh) as (Hslot & Hok & Hpos & Hu & _).
  destruct Hh as (_ & _ & _ & Hi & Ht & _).
  destruct (success_round fd st k i t (Z.of_nat i) (-1) (a_file (app st)) Hm Hw Ho Hk Hslot Ht Hi Hpos Hu)
    as (st1 & E%accepted_handle & _ & Hsent & Ef & Em).
  { rewrite Hs. unfold aof_append_completed. destruct (Z.ltb_spec (m_aof_fd (master st)) 0); [lia|].
    unfold aof_write_record. cbn [write_all write_all_loop].
    match goal with |- context [write_all [IoErr] ?b] => destruct b eqn:Eb; [by apply (f_equal length) in Eb|] end.
    cbn. by rewrite app_nil_r. }
  exists st1, (completed_task fd (s_now_ms (sv st)) t). split; [exact E|]. split; [exact Hsent|].
  split; [exact Ef|]. split; [|done]. cbn zeta in Em. rewrite Em, get_tasks_worker. by eapply complete_lookup.
Qed.

(** A reply the kernel refuses. *)
Lemma server_send_refused fd p st s : script st = IoErr :: s -> c_wbuf (get_client st fd) = [] ->
  c_woff (get_client st fd) = 0 -> zlen p <= MSG_MAX ->
  exists st', server_send fd p st = Ret (-1, st') /\
    s_clients_count (sv st') = wrap 64 (s_clients_count (sv st) - 1) /\ s_clients (sv st') !! fd = Some client_zero.
Proof.
  intros Hs Hw Ho Hp. unfold server_send, send_framed.
  destruct (Z.ltb_spec MSG_MAX (zlen p)); [lia|]. cbn [mbind outcome_bind]. fold (frame p).
  assert (0 < zlen (frame p) <= WBUF_SIZE) as Hf.
  { unfold frame. rewrite zlen_app, zlen_be_encode. pose proof (zlen_nonneg p). limits. lia. }
  unfold queue_write. set (c := get_client st fd) in *.
  assert (wlen c = 0) as Hl by (unfold wlen; by rewrite Hw).
  rewrite Ho, Hl. change (0 <? 0) with false. rewrite andb_false_r, Hl.
  destruct (Z.ltb_spec WBUF_SIZE (0 + zlen (frame p))); [lia|]. change (0 =? 0) with true. cbv beta iota zeta.
  change (script (put_client fd ?x (put_client fd c st))) with (script st). rewrite Hs. cbn [sock_write].
  eexists. split; [reflexivity|]. split; [done|]. cbn. apply lookup_insert_eq.
Qed.

(** A refused reply removes the client twice. When the kernel refuses the
    reply to a GetTask, [queue_write] removes the client and its callers' error
    return makes [process_buffer] remove it again, so [clients_count] drops by
    two (from 1 it wraps to 2^64 - 1). *)
Theorem send_error_counts_twice fd st s :
  script st = IoErr :: s -> c_wbuf (get_client st fd) = [] -> c_woff (get_client st fd) = 0 ->
  job_inv (master st) -> 0 <= fd ->
  exists st1, handle_message fd get_task_bytes st = Ret st1 /\ s_clients (sv st1) !! fd = Some client_zero /\
    s_clients_count (sv st1) = wrap 64 (wrap 64 (s_clients_count (sv st) - 1) - 1).
Proof.
  intros Hs Hw Ho Hinv Hfd. destruct (get_task_encoded fd st Hinv Hfd) as (msg & m1 & Hwf & E).
  destruct (server_send_refused fd (message_bytes msg) (set_master m1 st) s Hs Hw Ho) as
    (st1 & Hsend & Hcount & _); [by apply message_bytes_max|].
  exists (remove_client fd st1). split.
  - unfold handle_message, master_on_message. change (rpc_peek_kind get_task_bytes) with (Some RPC_GET_TASK_REQ).
    cbv beta iota. unfold master_handle_get_task. rewrite E. cbn [mbind outcome_bind]. by rewrite Hsend.
  - split; [apply lookup_insert_eq|]. cbn. by rewrite Hcount.
Qed.

(** ** Witnesses *)

Lemma master_script s st : master (set_script s st) = master st.
Proof. done. Qed.

Lemma demo_inv : job_inv (master demo).
Proof. eapply starts_inv, demo_starts. Qed.

Lemma played_inv l : is_Some (play l demo) -> job_inv (master (played l)).
Proof. intros Hl. eapply job_inv_steps; [by apply played_run|apply demo_inv]. Qed.

(** Decides a closed statement by evaluation. *)
Ltac evaluate := vm_compute; repeat split; first [reflexivity|discriminate].

Ltac run_inv_demo := apply played_inv; vm_compute; by eexists.

Example get_task_assigns_witness :
  exists st1 msg, handle_message 5 get_task_bytes demo = Ret st1 /\
    sent st1 5 = frame (message_bytes msg) /\ wk_has_task (get_worker (master st1) 5) = true.
Proof.
  destruct (get_task_assigns 5 demo) as (st1 & msg & E & Hs & _); [evaluate|apply demo_inv|discriminate|].
  exists st1, msg. split; [exact E|]. split; [exact Hs|].
  clear Hs. vm_compute in E. injection E as <-. vm_compute. reflexivity.
Defined.

(** Worker 5 has taken map task 0. *)
Definition demo_first : list (Z * list Z) := [(5, get_task_bytes)].

Lemma demo_first_holds : exists t, holds_task (master (played demo_first)) 5 TASK_KIND_MAP 0 t /\
  t_current_attempt t = 1 /\ t_attempts_count t = 1.
Proof.
  destruct (m_maps (master (played demo_first)) !! 0%nat) as [t|] eqn:E; [|vm_compute in E; discriminate E].
  exists t. vm_compute in E. injection E as <-. split; [|done].
  unfold holds_task. split_and!; vm_compute; reflexivity.
Qed.

Example success_report_logged_witness :
  exists st1, handle_message 5 (done_bytes 0 1 0) (played demo_first) = Ret st1 /\
    a_file (app st1) = seal (completion_body (mk_completion (task_kind_code TASK_KIND_MAP) 0 1)).
Proof.
  destruct demo_first_holds as (t & Hh & Ha & _).
  destruct (success_report_logged 5 (played demo_first) TASK_KIND_MAP 0 t) as (st1 & t' & E & _ & Ef & _);
    [evaluate|run_inv_demo|evaluate|evaluate|exact Hh|].
  rewrite Ha in E, Ef. exists st1. split; [exact E|]. rewrite Ef. vm_compute. reflexivity.
Defined.

Example failed_report_retries_witness :
  exists st1, handle_message 5 (done_bytes 0 1 2) (played demo_first) = Ret st1 /\
    m_job (master st1) = m_job (master (played demo_first)).
Proof.
  destruct demo_first_holds as (t & Hh & Ha & Hc).
  destruct (failed_report_retries 5 (played demo_first) TASK_KIND_MAP 0 t 2) as
    (st1 & t' & E & _ & _ & _ & _ & Hor & _);
    [evaluate|run_inv_demo|evaluate|exact Hh|evaluate|evaluate|].
  rewrite Ha in E. rewrite Hc in Hor. exists st1. split; [exact E|]. exact (proj2 Hor).
Defined.

(** The connection of worker 5 is lost; worker 6 finishes the other task. *)
Example lost_task_blocks_job_witness :
  exists st', rtc (master_step honest) (remove_client 5 (played demo_first)) st' /\
    n_done TASK_KIND_MAP (m_job (master st')) = 1 /\ j_phase (m_job (master st')) <> JOB_DONE.
Proof.
  destruct demo_first_holds as (t & Hh & _).
  destruct (play [(6, get_task_bytes); (6, done_bytes 1 1 0); (6, get_task_bytes)] (remove_client 5 (played demo_first)))
    as [st'|] eqn:E; [|vm_compute in E; discriminate E].
  pose proof (play_run _ _ _ E) as Hr. exists st'. split; [exact Hr|]. split.
  - clear Hr. vm_compute in E. injection E as <-. vm_compute. reflexivity.
  - apply (lost_task_blocks_job 5 (played demo_first) st' TASK_KIND_MAP 0 t); [run_inv_demo|evaluate|exact Hh|exact Hr].
Defined.

(** Worker 5 completes map task 0 and says so twice: the job moves on without
    map task 1. *)
Example duplicate_report_counts_twice_witness :
  let st := played [(5, get_task_bytes); (5, done_bytes 0 1 0)] in
  exists st1, handle_message 5 (done_bytes 0 1 0) st = Ret st1 /\
    j_phase (m_job (master st)) = JOB_MAP /\ j_phase (m_job (master st1)) <> JOB_MAP /\
    t_state <$> take 2 (m_maps (master st1)) = [TASK_COMPLETED; TASK_PENDING].
Proof.
  intros st. assert (job_inv (master st)) as Hinv by run_inv_demo.
  destruct (get_tasks TASK_KIND_MAP (master st) !! 0%nat) as [t|] eqn:Et; [|vm_compute in Et; discriminate Et].
  assert (t_state t = TASK_COMPLETED /\ t_current_attempt t = 1 /\ t_attempts_count t = 1) as (Hst & Ha & Hc)
    by (vm_compute in Et; by injection Et as <-).
  destruct (duplicate_report_counts_twice 5 st TASK_KIND_MAP 0 t 0) as (st1 & E & _ & _ & Hph);
    [evaluate|exact (proj1 Hinv)|evaluate|evaluate|evaluate|exact Et|exact Hst|by rewrite Hc|evaluate|evaluate|].
  rewrite Ha in E. exists st1. split; [exact E|]. split; [evaluate|]. split.
  - apply Hph. vm_compute. reflexivity.
  - clear Hph. vm_compute in E. injection E as <-. vm_compute. reflexivity.
Defined.

(** Worker 5 has done both maps, worker 6 has taken the two reduce tasks in
    turn; 5 repeats its report of map task 1. *)
Example late_map_report_completes_reduce_witness :
  let st := played (demo_maps ++ [(6, get_task_bytes); (6, done_bytes 0 1 0); (6, get_task_bytes)]) in
  exists st1 t', handle_message 5 (done_bytes 1 1 0) st = Ret st1 /\
    m_reduces (master st1) !! 1%nat = Some t' /\ t_state t' = TASK_COMPLETED /\
    wk_has_task (get_worker (master st) 6) = true.
Proof.
  intros st. assert (job_inv (master st)) as Hinv by run_inv_demo.
  destruct (m_reduces (master st) !! 1%nat) as [t|] eqn:Et; [|vm_compute in Et; discriminate Et].
  assert (t_state t = TASK_IN_PROGRESS /\ t_current_attempt t = 1) as (Hst & Ha)
    by (vm_compute in Et; by injection Et as <-).
  destruct (late_map_report_completes_reduce 5 st 1 t 1) as (st1 & t' & E & Ht' & Hst' & _);
    [evaluate|exact (proj1 Hinv)|evaluate..|exact Et|exact Hst|evaluate|].
  rewrite Ha in E. exists st1, t'. split; [exact E|]. split; [exact Ht'|]. split; [exact Hst'|evaluate].
Defined.

Example unassigned_report_faults_witness : handle_message 6 (done_bytes 0 0 0) demo = Fault.
Proof.
  destruct (get_tasks TASK_KIND_MAP (master demo) !! slot_index 6 (master demo)) as [t|] eqn:Et; [|vm_compute in Et; discriminate Et].
  apply (unassigned_report_faults 6 demo TASK_KIND_MAP t 0 0); [apply demo_inv|evaluate| |evaluate| |evaluate|done].
  - exact Et.
  - vm_compute in Et. by injection Et as <-.
Defined.

Example append_failure_acknowledged_witness :
  exists st1, handle_message 5 (done_bytes 0 1 0) (set_script [IoErr] (played demo_first)) = Ret st1 /\
    a_file (app st1) = [].
Proof.
  destruct demo_first_holds as (t & Hh & Ha & _).
  destruct (append_failure_acknowledged 5 (set_script [IoErr] (played demo_first)) TASK_KIND_MAP 0 t)
    as (st1 & t' & E & _ & Ef & _); [reflexivity|evaluate|evaluate| |evaluate|by rewrite master_script|evaluate|].
  - rewrite master_script. assert (job_inv (master (played demo_first))) as Hinv by run_inv_demo. exact (proj1 Hinv).
  - rewrite Ha in E. exists st1. split; [exact E|]. rewrite Ef. vm_compute. reflexivity.
Defined.

(** With a single client left. *)
Example send_error_counts_twice_witness :
  exists st1, handle_message 5 get_task_bytes (set_script [IoErr] (remove_client 6 demo)) = Ret st1 /\
    s_clients_count (sv st1) = 2 ^ 64 - 1.
Proof.
  destruct (send_error_counts_twice 5 (set_script [IoErr] (remove_client 6 demo)) []) as (st1 & E & _ & Hc);
    [reflexivity|evaluate|evaluate| |discriminate|].
  - rewrite master_script. apply (job_inv_disconnect 6 (master demo)), demo_inv.
  - exists st1. split; [exact E|]. rewrite Hc. vm_compute. reflexivity.
Defined.
