(* ===== verification/Stdio.v ===== *)
(** * The C library as the program uses it

    Character strings, numbers in decimal, and stdio streams over a file
    system: what src/config.c, src/worker_map.c and src/worker_reduce.c need of
    <string.h>, <stdio.h> and <stdlib.h>. A C string is the list of its bytes
    without the terminating NUL. *)

From Stdlib Require Import String Ascii.
From S2P Require Import Prelude Limits Util.

(** The bytes of a literal. *)
Definition lit (s : string) : list Z := map (fun a => Z.of_N (N_of_ascii a)) (list_ascii_of_string s).

(** ** <string.h> *)

(** The string a byte array holds: everything before its first NUL. *)
Fixpoint cstr (l : list Z) : list Z :=
  match l with
  | [] => []
  | c :: l => if c =? 0 then [] else c :: cstr l
  end.

Definition no_nul (l : list Z) : Prop := Forall (fun c => c <> 0) l.
#[export] Instance no_nul_dec l : Decision (no_nul l).
Proof. unfold no_nul. apply _. Defined.

(** [strcmp]: the sign of the result; bytes compare as unsigned. *)
Fixpoint strcmp (a b : list Z) : comparison :=
  match a, b with
  | [], [] => Eq
  | [], _ :: _ => Lt
  | _ :: _, [] => Gt
  | x :: a, y :: b => match x ?= y with Eq => strcmp a b | c => c end
  end.

(** [strsep(&p, delim)]: the token, and the new value of [p], which is NULL
    when no delimiter is left. *)
Fixpoint strsep_scan (delim : list Z) (s : list Z) : list Z * option (list Z) :=
  match s with
  | [] => ([], None)
  | c :: s =>
      if bool_decide (c ∈ delim) then ([], Some s)
      else let '(tok, p) := strsep_scan delim s in (c :: tok, p)
  end.

Definition strsep (delim : list Z) (p : option (list Z)) : option (list Z) * option (list Z) :=
  match p with
  | None => (None, None)
  | Some s => let '(tok, p) := strsep_scan delim s in (Some tok, p)
  end.

(** What follows the last ['/'], the whole string without one:
    [(slash = strrchr(s, '/')) ? slash + 1 : s]. *)
Fixpoint base_name (s : list Z) : list Z :=
  match s with
  | [] => []
  | c :: t => if (c =? 47) || bool_decide (47 ∈ t) then base_name t else s
  end.

(** ** Numbers in decimal *)

(** The digits of [v], before [acc]. A 64-bit number has at most 20. *)
Fixpoint print_digits (fuel : nat) (v : Z) (acc : list Z) : list Z :=
  let acc := 48 + v mod 10 :: acc in
  match fuel with
  | O => acc
  | S fuel => if v <? 10 then acc else print_digits fuel (v / 10) acc
  end.

(** [%u] and [%zu] *)
Definition print_u (v : Z) : list Z := print_digits 19 v [].
(** [%d] *)
Definition print_d (v : Z) : list Z := if v <? 0 then 45 :: print_u (- v) else print_u v.

(** [isspace] in the C locale *)
Definition isspace (c : Z) : bool := ((9 <=? c) && (c <=? 13)) || (c =? 32).
Definition isdigit (c : Z) : bool := (48 <=? c) && (c <=? 57).

Fixpoint skip_spaces (s : list Z) : list Z :=
  match s with
  | c :: t => if isspace c then skip_spaces t else s
  | [] => []
  end.

(** The longest prefix of digits, its value added to [acc], and the rest. *)
Fixpoint read_digits (acc : Z) (s : list Z) : Z * list Z :=
  match s with
  | c :: t => if isdigit c then read_digits (10 * acc + (c - 48)) t else (acc, s)
  | [] => (acc, [])
  end.

(** [long] is 64 bits wide; [strtol] saturates. *)
Definition LONG_MAX : Z := 2 ^ 63 - 1.
Definition LONG_MIN : Z := - 2 ^ 63.

Definition read_sign (s : list Z) : bool * list Z :=
  match s with
  | c :: t => if c =? 45 then (true, t) else if c =? 43 then (false, t) else (false, s)
  | [] => (false, [])
  end.

(** [strtol(s, &end, 10)]: the value, and [end]. Without a digit the value is
    0 and [end] is [s]. *)
Definition strtol (s : list Z) : Z * list Z :=
  let '(neg, t) := read_sign (skip_spaces s) in
  match t with
  | c :: _ =>
      if isdigit c then
        let '(v, rest) := read_digits 0 t in
        let v := if neg then - v else v in
        (Z.max LONG_MIN (Z.min LONG_MAX v), rest)
      else (0, s)
  | [] => (0, s)
  end.

(** [atoi]: outside the range of [int] its behaviour is undefined. *)
Definition atoi (s : list Z) : outcome Z :=
  let v := (strtol s).1 in
  if (- 2 ^ 31 <=? v) && (v <? 2 ^ 31) then Ret v else Fault.

(** One [%<n>s] of [sscanf]: the word and the rest of the input. *)
Fixpoint scan_chars (n : nat) (s : list Z) : list Z * list Z :=
  match n, s with
  | S n, c :: t => if isspace c then ([], s) else let '(w, r) := scan_chars n t in (c :: w, r)
  | _, _ => ([], s)
  end.

Definition scan_word (n : nat) (s : list Z) : option (list Z * list Z) :=
  match scan_chars n (skip_spaces s) with
  | ([], _) => None
  | wr => Some wr
  end.

(** [snprintf(out, cap, ...)] of the text [s]: refused, as the callers do,
    when it does not fit with its NUL. *)
Definition snprintf (cap : Z) (s : list Z) : option (list Z) :=
  if cap <=? zlen s then None else Some s.

(** ** Files *)

(** The file system: contents by path, and the states it has been in, the last
    one first. *)
Abbreviation files := (gmap (list Z) (list Z)).
Record disk := mk_disk { d_files : files; d_seen : list files }.

Definition set_files (f : files) (d : disk) : disk := mk_disk f (d_files d :: d_seen d).

(** A process: the disk, and the kernel's answers to come. *)
Record proc := mk_proc { p_disk : disk; p_io : list io }.

Definition p_files (p : proc) : files := d_files (p_disk p).
Definition set_io (s : list io) (p : proc) : proc := mk_proc (p_disk p) s.
Definition write_files (f : files) (p : proc) : proc := mk_proc (set_files f (p_disk p)) (p_io p).

(** The answer to a call that succeeds or fails. *)
Definition p_call (p : proc) : bool * proc :=
  let '(ok, s) := io_simple (p_io p) in (ok, set_io s p).

(** A stream opened for writing: its path, the bytes written to it so far, and
    its error indicator. The bytes reach the file when the stream is closed. *)
Record ofile := mk_ofile { o_path : list Z; o_data : list Z; o_err : bool }.

(** [fopen(path, "w")] *)
Definition fopen_w (path : list Z) (p : proc) : option ofile * proc :=
  let '(ok, p) := p_call p in
  if ok then (Some (mk_ofile path [] false), write_files (<[path := []]> (p_files p)) p)
  else (None, p).

(** [fprintf(f, ...)] of the text [s]; a failed write loses it and sets the
    error indicator. *)
Definition fprintf (f : ofile) (s : list Z) (p : proc) : ofile * proc :=
  let '(ok, p) := p_call p in
  if ok then (mk_ofile (o_path f) (o_data f ++ s) (o_err f), p)
  else (mk_ofile (o_path f) (o_data f) true, p).

(** [fclose(f)] on a stream opened for writing; when it fails, buffered bytes
    are lost. *)
Definition fclose_w (f : ofile) (p : proc) : Z * proc :=
  let '(ok, p) := p_call p in
  if ok then (0, write_files (<[o_path f := o_data f]> (p_files p)) p) else (-1, p).

(** [fclose(f)] on a stream opened for reading *)
Definition fclose_r (p : proc) : Z * proc :=
  let '(ok, p) := p_call p in (if ok then 0 else -1, p).

(** [rename(from, to)] *)
Definition rename (from to : list Z) (p : proc) : Z * proc :=
  let '(ok, p) := p_call p in
  match p_files p !! from with
  | Some data => if ok then (0, write_files (<[to := data]> (delete from (p_files p))) p) else (-1, p)
  | None => (-1, p)
  end.

(** [fopen(path, "r")]: the bytes of the file *)
Definition fopen_r (path : list Z) (p : proc) : option (list Z) * proc :=
  let '(ok, p) := p_call p in
  (if ok then p_files p !! path else None, p).

(** What [fgets] with room for [n] bytes takes from the stream. *)
Fixpoint take_line (n : nat) (src : list Z) : list Z * list Z :=
  match n, src with
  | O, _ | _, [] => ([], src)
  | S n, c :: src =>
      if c =? 10 then ([c], src) else let '(l, rest) := take_line n src in (c :: l, rest)
  end.

Section Fgets.
(** The body of the loop, on the string in the buffer: whether to go on, the
    new state and the process. *)
Context {T : Type} (body : list Z -> T -> proc -> outcome (bool * T * proc)).

(** [while (fgets(line, size, f)) body], then [ferror(f)]. Every line takes at
    least one byte, so one more unit of fuel than bytes is enough. *)
Fixpoint fgets_loop (fuel : nat) (size : Z) (src : list Z) (st : T) (p : proc)
    : outcome (bool * T * proc) :=
  match fuel with
  | O => Fault
  | S fuel =>
      let '(ok, p) := p_call p in
      if negb ok then Ret (true, st, p)
      else
        match src with
        | [] => Ret (false, st, p)
        | _ =>
            let '(line, src) := take_line (Z.to_nat (size - 1)) src in
            '(continue, st, p) ← body (cstr line) st p;
            if (continue : bool) then fgets_loop fuel size src st p else Ret (false, st, p)
        end
  end.
End Fgets.

Example lit_ex : lit "mr-" = [109; 114; 45]. Proof. reflexivity. Qed.
Example print_ex : print_u 4095 = lit "4095". Proof. reflexivity. Qed.
Example strtol_ex : strtol (lit "-12x") = (-12, lit "x"). Proof. reflexivity. Qed.

(** ** Strings *)

Lemma cstr_id l : no_nul l -> cstr l = l.
Proof.
  induction 1 as [|c l Hc _ IH]; [done|]. cbn. rewrite IH. by destruct (Z.eqb_spec c 0).
Qed.

Lemma cstr_no_nul l : no_nul (cstr l).
Proof.
  induction l as [|c l IH]; cbn; [apply Forall_nil_2|]. destruct (Z.eqb_spec c 0); [apply Forall_nil_2|].
  by apply Forall_cons_2.
Qed.

Lemma no_nul_app a b : no_nul (a ++ b) <-> no_nul a /\ no_nul b.
Proof. apply Forall_app. Qed.

(** [strcmp] is a total order. *)
Lemma strcmp_refl a : strcmp a a = Eq.
Proof. induction a as [|x a IH]; cbn; [done|]. by rewrite Z.compare_refl. Qed.

Lemma strcmp_eq a : forall b, strcmp a b = Eq -> a = b.
Proof.
  induction a as [|x a IH]; intros [|y b]; cbn; try done.
  destruct (Z.compare_spec x y) as [->| |]; [|done..]. by intros ->%IH.
Qed.

Lemma strcmp_antisym a : forall b, strcmp b a = CompOpp (strcmp a b).
Proof.
  induction a as [|x a IH]; intros [|y b]; cbn; try done.
  rewrite Z.compare_antisym. destruct (x ?= y); cbn; [apply IH|done..].
Qed.

Definition str_le (a b : list Z) : Prop := strcmp a b <> Gt.
#[export] Instance str_le_dec a b : Decision (str_le a b).
Proof. unfold str_le. solve_decision. Defined.

#[export] Instance str_le_po : PartialOrder str_le.
Proof.
  unfold str_le. split; [split|].
  - intros a. by rewrite strcmp_refl.
  - intros a. induction a as [|x a IH]; intros [|y b] [|z c]; cbn; try done.
    destruct (Z.compare_spec x y) as [->|Hxy|Hxy]; [|intros _|done].
    + destruct (Z.compare_spec y z) as [->|Hyz|Hyz]; try done. apply IH.
    + destruct (Z.compare_spec y z) as [->|Hyz|Hyz]; [|intros _|done];
        destruct (Z.compare_spec x z); (done || lia).
  - intros a b Hab Hba. rewrite (strcmp_antisym a b) in Hba. apply strcmp_eq.
    by destruct (strcmp a b).
Qed.

#[export] Instance str_le_total : Total str_le.
Proof. intros a b. unfold str_le. rewrite (strcmp_antisym a b). destruct (strcmp a b); cbn; auto. Qed.

(** ** Decimal numbers *)

Lemma isdigit_digit v : isdigit (48 + v mod 10) = true.
Proof. unfold isdigit. apply andb_true_iff. pose proof (Z.mod_pos_bound v 10). rewrite !Z.leb_le. lia. Qed.

(** The digits printed, and what reading them back gives. *)
Lemma print_digits_spec fuel : forall v acc, 0 <= v < 10 ^ (Z.of_nat fuel + 1) ->
  exists ds, print_digits fuel v acc = ds ++ acc /\ Forall (fun c => isdigit c = true) ds /\
    (0 < length ds <= S fuel)%nat /\
    forall a r, read_digits a (ds ++ r) = read_digits (a * 10 ^ zlen ds + v) r.
Proof.
  induction fuel as [|fuel IH]; intros v acc Hv; cbn [print_digits].
  - exists [48 + v mod 10]. change (10 ^ (Z.of_nat 0 + 1)) with 10 in Hv.
    split; [done|]. split; [apply Forall_singleton, isdigit_digit|]. split; [cbn; lia|]. intros a r.
    change (zlen [48 + v mod 10]) with 1. cbn [app read_digits]. rewrite isdigit_digit, Z.mod_small by lia.
    f_equal. lia.
  - destruct (Z.ltb_spec v 10) as [Hs|Hb].
    + exists [48 + v mod 10]. split; [done|]. split; [apply Forall_singleton, isdigit_digit|].
      split; [cbn; lia|]. intros a r. change (zlen [48 + v mod 10]) with 1. cbn [app read_digits].
      rewrite isdigit_digit, Z.mod_small by lia. f_equal. lia.
    + destruct (IH (v / 10) (48 + v mod 10 :: acc)) as (ds & E & Hd & Hl & Hr).
      { replace (Z.of_nat (S fuel) + 1) with (1 + (Z.of_nat fuel + 1)) in Hv by lia.
        rewrite Z.pow_add_r in Hv by lia. split; [apply Z.div_pos; lia|]. apply Z.div_lt_upper_bound; lia. }
      exists (ds ++ [48 + v mod 10]). rewrite E, <- app_assoc. split; [done|].
      split; [apply Forall_app_2; [done|]; apply Forall_singleton, isdigit_digit|].
      split; [rewrite length_app; cbn; lia|]. intros a r.
      rewrite <- app_assoc, Hr. cbn [app read_digits]. rewrite isdigit_digit. f_equal.
      rewrite zlen_app. change (zlen [48 + v mod 10]) with 1.
      rewrite Z.pow_add_r by (unfold zlen; lia). pose proof (Z.div_mod v 10). lia.
Qed.

Definition printable (v : Z) : Prop := 0 <= v < 10 ^ 20.

Lemma print_u_spec v : printable v ->
  Forall (fun c => isdigit c = true) (print_u v) /\ 0 < zlen (print_u v) <= 20 /\
  forall r, read_digits 0 (print_u v ++ r) = read_digits v r.
Proof.
  intros Hv. destruct (print_digits_spec 19 v [] Hv) as (ds & E & Hd & Hl & Hr).
  unfold print_u. rewrite E, app_nil_r. split; [done|]. split; [unfold zlen; lia|].
  intros r. by rewrite Hr.
Qed.

Lemma u32_printable v : u32 v -> printable v.
Proof. unfold fits, printable. lia. Qed.

Lemma print_u_inj v w : printable v -> printable w -> print_u v = print_u w -> v = w.
Proof.
  intros Hv Hw E. destruct (print_u_spec v Hv) as (_ & _ & Rv). destruct (print_u_spec w Hw) as (_ & _ & Rw).
  specialize (Rv []). specialize (Rw []). rewrite E, Rw in Rv. cbn in Rv. congruence.
Qed.

(** A number followed by something else than a digit. *)
Lemma print_u_inj_app v w a b : printable v -> printable w ->
  (forall c l, a = c :: l -> isdigit c = false) -> (forall c l, b = c :: l -> isdigit c = false) ->
  print_u v ++ a = print_u w ++ b -> v = w /\ a = b.
Proof.
  intros Hv Hw Ha Hb E. destruct (print_u_spec v Hv) as (_ & _ & Rv). destruct (print_u_spec w Hw) as (_ & _ & Rw).
  assert (forall n l, (forall c l', l = c :: l' -> isdigit c = false) -> read_digits n l = (n, l)) as Hstop.
  { intros n [|c l] Hl; [done|]. cbn. by rewrite (Hl c l). }
  specialize (Rv a). specialize (Rw b). rewrite E, Rw in Rv. rewrite !Hstop in Rv by done. by injection Rv as -> ->.
Qed.

(** A process id. *)
Definition pid_ok (pid : Z) : Prop := 0 <= pid < 2 ^ 31.
#[export] Instance pid_ok_dec pid : Decision (pid_ok pid).
Proof. unfold pid_ok. apply _. Defined.

Lemma pid_printable pid : pid_ok pid -> printable pid /\ print_d pid = print_u pid.
Proof.
  unfold pid_ok, printable, print_d. intros H. split; [lia|]. by destruct (Z.ltb_spec pid 0); [lia|].
Qed.

(** A text that does not start with a digit ends a number. *)
Lemma nondigit_head (c : Z) l : isdigit c = false -> forall d k, c :: l = d :: k -> isdigit d = false.
Proof. by intros Hc d k [= <- <-]. Qed.

Lemma print_u_no_nul v : printable v -> no_nul (print_u v).
Proof.
  intros Hv. destruct (print_u_spec v Hv) as (Hd & _). eapply Forall_impl; [exact Hd|].
  intros c Hc ->. discriminate Hc.
Qed.

(** What [strtol] reads is what [%d] prints. *)
Lemma strtol_print_d v : LONG_MIN <= v <= LONG_MAX -> strtol (print_d v) = (v, []).
Proof.
  intros Hv. unfold LONG_MIN, LONG_MAX in *. unfold print_d.
  assert (forall v, printable v -> exists c l, print_u v = c :: l /\ isdigit c = true) as Hhead.
  { intros w Hw. destruct (print_u_spec w Hw) as (Hd & Hl & _). destruct (print_u w) as [|c l]; [destruct Hl as [Hl _]; discriminate Hl|].
    apply Forall_cons in Hd as [Hc _]. eauto. }
  destruct (Z.ltb_spec v 0).
  - assert (printable (- v)) as Hp by (unfold printable; lia).
    destruct (Hhead _ Hp) as (c & l & E & Hc). destruct (print_u_spec _ Hp) as (_ & _ & Hr).
    specialize (Hr []). rewrite app_nil_r in Hr. unfold strtol.
    change (skip_spaces (45 :: ?l)) with (45 :: l). change (read_sign (45 :: ?l)) with (true, l).
    cbv beta iota. rewrite E in *. rewrite Hc, Hr. cbn [read_digits]. f_equal. unfold LONG_MIN, LONG_MAX. lia.
  - assert (printable v) as Hp by (unfold printable; lia).
    destruct (Hhead _ Hp) as (c & l & E & Hc). destruct (print_u_spec _ Hp) as (_ & _ & Hr).
    specialize (Hr []). rewrite app_nil_r in Hr. unfold strtol. rewrite E in *.
    assert (48 <= c <= 57) as Hb by (unfold isdigit in Hc; apply andb_true_iff in Hc; rewrite !Z.leb_le in Hc; lia).
    assert (skip_spaces (c :: l) = c :: l) as ->.
    { cbn [skip_spaces]. unfold isspace. destruct (Z.leb_spec c 13); [lia|]. rewrite andb_false_r.
      by destruct (Z.eqb_spec c 32); [lia|]. }
    assert (read_sign (c :: l) = (false, c :: l)) as ->.
    { unfold read_sign. destruct (Z.eqb_spec c 45); [lia|]. by destruct (Z.eqb_spec c 43); [lia|]. }
    rewrite Hc, Hr. cbn [read_digits]. f_equal. unfold LONG_MIN, LONG_MAX. lia.
Qed.

Lemma atoi_print_d v : - 2 ^ 31 <= v < 2 ^ 31 -> atoi (print_d v) = Ret v.
Proof.
  intros Hv. unfold atoi. rewrite strtol_print_d by (unfold LONG_MIN, LONG_MAX; lia). cbn [fst].
  destruct (Z.leb_spec (- 2 ^ 31) v); [|lia]. by destruct (Z.ltb_spec v (2 ^ 31)); [|lia].
Qed.

(** ** Calls of a process *)

Definition p_benign (p : proc) : Prop := benign (p_io p).

(** The calls that leave the files alone. *)
Lemma p_call_disk p ok p' : p_call p = (ok, p') -> p_disk p' = p_disk p.
Proof. unfold p_call. destruct (io_simple (p_io p)). by intros [= _ <-]. Qed.

Lemma p_call_set_io p ok p' : p_call p = (ok, p') -> exists s, p' = set_io s p.
Proof. unfold p_call. destruct (io_simple (p_io p)). intros [= _ <-]. eauto. Qed.

Lemma p_call_benign p : p_benign p ->
  exists s, benign s /\ p_call p = (true, set_io s p).
Proof.
  intros Hb. unfold p_call. destruct (io_simple_benign _ Hb) as (s & -> & Hs). eauto.
Qed.

Lemma p_call_retry p ok p' : p_call p = (ok, p') -> p_benign p -> ok = true /\ p_benign p'.
Proof. intros E Hb. destruct (p_call_benign p Hb) as (s & Hs & E'). rewrite E' in E. by simplify_eq. Qed.

(** ** Lines *)

(** The lines of a text, each with its newline. *)
Fixpoint file_lines (src : list Z) : list (list Z) :=
  match src with
  | [] => []
  | c :: src =>
      if c =? 10 then [c] :: file_lines src
      else match file_lines src with
           | [] => [[c]]
           | l :: ls => (c :: l) :: ls
           end
  end.

(** The pieces [fgets] with room for [n] bytes returns. *)
Fixpoint chunks (fuel n : nat) (src : list Z) : list (list Z) :=
  match fuel, src with
  | O, _ | _, [] => []
  | S fuel, _ => let '(l, rest) := take_line n src in l :: chunks fuel n rest
  end.

Lemma take_line_app n : forall src l rest, take_line n src = (l, rest) ->
  src = l ++ rest /\ (length l <= n)%nat /\ (n <> 0%nat -> src <> [] -> l <> []).
Proof.
  induction n as [|n IH]; intros [|c src] l rest H; cbn in H; try (simplify_eq; cbn; split_and!; (done || lia)).
  destruct (Z.eqb_spec c 10); [simplify_eq; cbn; split_and!; (done || lia)|].
  destruct (take_line n src) as [l1 r1] eqn:E. simplify_eq.
  destruct (IH _ _ _ E) as (-> & Hl & _). cbn. split_and!; (done || lia).
Qed.

(** A text without a newline is cut where the buffer ends. *)
Lemma take_line_cut n : forall a b, 10 ∉ a -> length a = n -> take_line n (a ++ b) = (a, b).
Proof.
  induction n as [|n IH]; intros [|c a] b Ha Hl; try done. apply not_elem_of_cons in Ha as [Hc Ha].
  cbn. destruct (Z.eqb_spec c 10); [by subst|]. rewrite IH; [done|done|]. by injection Hl.
Qed.

Lemma take_line_all n : forall b, 10 ∉ b -> (length b <= n)%nat -> take_line n b = (b, []).
Proof.
  induction n as [|n IH]; intros [|c b] Hb Hl; cbn in Hl; try (done || lia). apply not_elem_of_cons in Hb as [Hc Hb].
  cbn. destruct (Z.eqb_spec c 10); [by subst|]. rewrite IH; [done|done|lia].
Qed.

Lemma chunks_concat fuel n : n <> 0%nat -> forall src, (length src <= fuel)%nat ->
  concat (chunks fuel n src) = src.
Proof.
  intros Hn. induction fuel as [|fuel IH]; intros [|c src] Hf; cbn [length] in Hf; try (done || lia).
  cbn [chunks]. destruct (take_line n (c :: src)) as [l rest] eqn:E.
  destruct (take_line_app _ _ _ _ E) as (Hs & _ & Hne). specialize (Hne Hn ltac:(done)).
  cbn. rewrite IH; [done|]. apply (f_equal length) in Hs. rewrite length_app in Hs.
  destruct l; [done|]. cbn in Hs. lia.
Qed.

Lemma file_lines_concat src : concat (file_lines src) = src.
Proof.
  induction src as [|c src IH]; [done|]. cbn. destruct (Z.eqb_spec c 10); cbn; [by rewrite IH|].
  destruct (file_lines src); cbn in *; by rewrite <- IH.
Qed.

Lemma file_lines_nonempty src : Forall (fun l => l <> []) (file_lines src).
Proof.
  induction src as [|c src IH]; cbn; [constructor|]. destruct (c =? 10); [by constructor|].
  destruct (file_lines src); [by repeat constructor|]. apply Forall_cons in IH as [_ IH]. by constructor.
Qed.

Lemma take_line_lines n : forall src l ls, file_lines src = l :: ls -> (length l <= n)%nat ->
  exists rest, take_line n src = (l, rest) /\ file_lines rest = ls.
Proof.
  induction n as [|n IH]; intros [|c src] l ls H Hl; try done.
  { cbn in H. destruct (c =? 10); [simplify_eq; cbn in Hl; lia|].
    destruct (file_lines src); simplify_eq; cbn in Hl; lia. }
  cbn in H |- *. destruct (c =? 10); [simplify_eq; eauto|].
  destruct (file_lines src) as [|l1 ls1] eqn:E; simplify_eq.
  - destruct src as [|d src]; [|cbn in E; destruct (d =? 10); [done|]; by destruct (file_lines src)].
    exists []. by destruct n.
  - cbn in Hl. destruct (IH _ _ _ E) as (rest & -> & ?); [lia|eauto].
Qed.

(** [fgets] returns the lines of the text when they fit. *)
Lemma chunks_lines n src : forall fuel, (length src <= fuel)%nat ->
  Forall (fun l => length l <= n)%nat (file_lines src) -> chunks fuel n src = file_lines src.
Proof.
  remember (file_lines src) as ls eqn:E. symmetry in E. revert src E.
  induction ls as [|l ls IH]; intros src E fuel Hf Hl.
  - destruct src as [|d src]; [by destruct fuel|]. cbn in E. destruct (d =? 10); [done|]. by destruct (file_lines src).
  - apply Forall_cons in Hl as [Hl Hls]. destruct (take_line_lines n src l ls E Hl) as (rest & Et & Er).
    pose proof (file_lines_concat src) as Hc. pose proof (file_lines_concat rest) as Hr. rewrite E in Hc. rewrite Er in Hr.
    destruct src as [|d src]; [done|]. destruct fuel as [|fuel]; [cbn in Hf; lia|].
    cbn [chunks]. rewrite Et. f_equal. apply IH; [done| |done].
    assert (l <> []) as Hne. { intros ->. cbn in E. destruct (d =? 10); [done|]. by destruct (file_lines src). }
    apply (f_equal length) in Hc. cbn in Hc. rewrite length_app, Hr in Hc. destruct l; [done|]. cbn in Hf, Hc. lia.
Qed.

Lemma file_lines_line l rest : 10 ∉ l -> file_lines (l ++ 10 :: rest) = (l ++ [10]) :: file_lines rest.
Proof.
  induction l as [|c l IH]; intros Hl; [done|]. apply not_elem_of_cons in Hl as [Hc Hl].
  cbn. rewrite IH by done. by destruct (Z.eqb_spec c 10); [subst|].
Qed.

(** A newline comes last in its line. *)
Lemma file_lines_ends src : Forall (fun l => exists t, (l = t \/ l = t ++ [10]) /\ 10 ∉ t) (file_lines src).
Proof.
  induction src as [|c src IH]; cbn; [constructor|].
  destruct (Z.eqb_spec c 10) as [->|Hc].
  - constructor; [|done]. exists []. split; [by right|apply not_elem_of_nil].
  - destruct (file_lines src) as [|l ls].
    + constructor; [|done]. exists [c]. split; [by left|]. apply not_elem_of_cons. split; [done|apply not_elem_of_nil].
    + apply Forall_cons in IH as [(t & [->| ->] & Ht) Hls]; (constructor; [|done]); exists (c :: t);
        (split; [auto|by apply not_elem_of_cons]).
Qed.

Section FgetsFacts.
Context {T : Type} (body : list Z -> T -> proc -> outcome (bool * T * proc)).

(** What the loop keeps, for any answers of the kernel. Fuel beyond the number
    of bytes is never used up. *)
Lemma fgets_loop_inv (I : T -> proc -> Prop) :
  (forall st p s, I st p -> I st (set_io s p)) ->
  (forall line st p, I st p -> exists c st' p', body (cstr line) st p = Ret (c, st', p') /\ I st' p') ->
  forall fuel size src st p, 1 < size -> (length src < fuel)%nat -> I st p ->
  exists e st' p', fgets_loop body fuel size src st p = Ret (e, st', p') /\ I st' p'.
Proof.
  intros Hio Hbody. induction fuel as [|fuel IH]; intros size src st p Hsize Hf HI; [lia|].
  cbn [fgets_loop]. destruct (p_call p) as [ok p1] eqn:Ep. apply p_call_set_io in Ep as [s ->].
  apply (Hio _ _ s) in HI. destruct ok; cbn [negb]; [|by eauto 6].
  destruct src as [|b src]; [by eauto 6|].
  destruct (take_line (Z.to_nat (size - 1)) (b :: src)) as [l rest] eqn:E.
  destruct (Hbody l _ _ HI) as (c & st' & p' & -> & HI'). cbn.
  destruct c; [|by eauto 6]. apply IH; [done| |done].
  apply take_line_app in E as (Hs & _ & Hne). specialize (Hne ltac:(lia) ltac:(done)).
  apply (f_equal length) in Hs. rewrite length_app in Hs. destruct l; [done|]. cbn in Hs, Hf. lia.
Qed.

(** What has been done when the loop ends, for a body that may break: [I] says
    which pieces have been processed, [W] is what holds all along, and [B] what
    a body that breaks leaves. *)
Lemma fgets_loop_prefix (I : list (list Z) -> T -> proc -> Prop) (W : T -> proc -> Prop) (B : T -> Prop) :
  (forall ls st p ok p', p_call p = (ok, p') -> I ls st p -> I ls st p') ->
  (forall ls st p, I ls st p -> W st p) ->
  (forall ls line st p, I ls st p -> exists c st' p', body (cstr line) st p = Ret (c, st', p') /\
     if (c : bool) then I (ls ++ [line]) st' p' else W st' p' /\ B st') ->
  forall fuel size src ls st p, 1 < size -> (length src < fuel)%nat -> I ls st p ->
  exists e st' p', fgets_loop body fuel size src st p = Ret (e, st', p') /\ W st' p' /\
    (e = false -> B st' \/ I (ls ++ chunks fuel (Z.to_nat (size - 1)) src) st' p') /\
    (e = true -> exists ls st q, I ls st q /\ ~ p_benign q).
Proof.
  intros Hio HW Hbody. induction fuel as [|fuel IH]; intros size src ls st p Hsize Hf HI; [lia|].
  cbn [fgets_loop chunks]. destruct (p_call p) as [ok p1] eqn:Ep.
  pose proof (Hio _ _ _ _ _ Ep HI) as HI1. pose proof (p_call_retry _ _ _ Ep) as Hr.
  destruct ok; cbn [negb].
  2:{ do 3 eexists. split; [done|]. split; [by eapply HW|]. split; [done|]. intros _.
      exists ls, st, p. split; [done|]. by intros [? _]%Hr. }
  destruct src as [|b src].
  { do 3 eexists. split; [done|]. split; [by eapply HW|]. split; [|done]. intros _. right. by rewrite app_nil_r. }
  destruct (take_line (Z.to_nat (size - 1)) (b :: src)) as [l rest] eqn:E.
  destruct (Hbody ls l _ _ HI1) as (c & st' & p' & -> & HI'). cbn.
  destruct c; [|do 3 eexists; split; [done|]; split; [apply HI'|split; [by left; apply HI'|done]]].
  destruct (IH size rest (ls ++ [l]) st' p') as (e & st2 & p2 & -> & HW2 & H2 & H3); [done| |done|].
  { apply take_line_app in E as (Hs & _ & Hne). specialize (Hne ltac:(lia) ltac:(done)).
    apply (f_equal length) in Hs. rewrite length_app in Hs. destruct l; [done|]. cbn in Hs, Hf. lia. }
  do 3 eexists. split; [done|]. split; [done|]. split; [|done]. by rewrite <- app_assoc in H2.
Qed.

(** Without failures the loop folds over the pieces. *)
Context (f : list Z -> T -> T).
Hypothesis body_f : forall line st p, p_benign p ->
  exists s, benign s /\ body (cstr line) st p = Ret (true, f (cstr line) st, set_io s p).

Lemma fgets_loop_fold fuel size : 1 < size ->
  forall src st p, (length src < fuel)%nat -> p_benign p ->
  exists s, benign s /\ fgets_loop body fuel size src st p =
    Ret (false, foldl (fun st l => f (cstr l) st) st (chunks fuel (Z.to_nat (size - 1)) src), set_io s p).
Proof.
  intros Hsize. induction fuel as [|fuel IH]; intros src st p Hf Hb; [lia|].
  cbn [fgets_loop chunks]. destruct (p_call_benign p Hb) as (s & Hs & ->). cbn [negb].
  destruct src as [|b src]; [by eauto|].
  destruct (take_line (Z.to_nat (size - 1)) (b :: src)) as [l rest] eqn:E.
  destruct (body_f l st (set_io s p) Hs) as (s' & Hs' & ->). cbn.
  destruct (IH rest (f (cstr l) st) (set_io s' (set_io s p))) as (s2 & Hs2 & ->); [|done|by exists s2].
  apply take_line_app in E as (Ha & _ & Hne). specialize (Hne ltac:(lia) ltac:(done)).
  apply (f_equal length) in Ha. rewrite length_app in Ha. destruct l; [done|]. cbn in Ha, Hf. lia.
Qed.
End FgetsFacts.

(** ** Scanning words *)

Definition word (w : list Z) : Prop := w <> [] /\ Forall (fun c => isspace c = false) w.

Lemma scan_chars_word n w : forall r, (length w <= n)%nat -> Forall (fun c => isspace c = false) w ->
  (forall c t, r = c :: t -> isspace c = true) -> scan_chars n (w ++ r) = (w, r).
Proof.
  revert n. induction w as [|c w IH]; intros n r Hl Hw Hr.
  - destruct n, r as [|d r]; try done. cbn. by rewrite (Hr d r).
  - apply Forall_cons in Hw as [Hc Hw]. destruct n as [|n]; cbn in Hl; [lia|]. cbn. rewrite Hc.
    rewrite IH; [done|lia|done|done].
Qed.

Lemma scan_word_word n w r : (length w <= n)%nat -> word w ->
  (forall c t, r = c :: t -> isspace c = true) -> scan_word n (w ++ r) = Some (w, r).
Proof.
  intros Hl [Hne Hw] Hr. unfold scan_word.
  assert (skip_spaces (w ++ r) = w ++ r) as ->.
  { destruct w as [|c w]; [done|]. apply Forall_cons in Hw as [Hc _]. cbn. by rewrite Hc. }
  rewrite (scan_chars_word n w r) by done. by destruct w.
Qed.

Lemma scan_chars_spec n s w r : scan_chars n s = (w, r) ->
  (length w <= n)%nat /\ s = w ++ r /\ Forall (fun c => isspace c = false) w.
Proof.
  revert s w r. induction n as [|n IH]; intros s w r H; cbn in H.
  { simplify_eq. split_and!; [cbn; lia|done|constructor]. }
  destruct s as [|c s]; [simplify_eq; split_and!; [cbn; lia|done|constructor]|].
  destruct (isspace c) eqn:Ec; [simplify_eq; split_and!; [cbn; lia|done|constructor]|].
  destruct (scan_chars n s) as [w1 r1] eqn:E. simplify_eq.
  destruct (IH _ _ _ E) as (Hl & -> & Hw). split_and!; [cbn; lia|done|by constructor].
Qed.

Lemma scan_word_spec n s w r : scan_word n s = Some (w, r) -> word w /\ (length w <= n)%nat.
Proof.
  unfold scan_word. destruct (scan_chars n (skip_spaces s)) as [w1 r1] eqn:E.
  apply scan_chars_spec in E as (Hl & _ & Hw). destruct w1; [done|]. intros. simplify_eq. by split; [split|].
Qed.
