(* ===== verification/Calls.v ===== *)
(** * Programs as trees of system calls

    [Stdio] runs a process from start to end on its own. When several processes
    share the files, each of their calls is a step. A program here is the tree
    of its calls; [run] executes it alone, which is how Stdio.v executes the C
    code, and [perform] executes one call. *)

From S2P Require Import Prelude Util Stdio.

(** ** Calls *)

Inductive call :=
  | CPlain                              (* memory, and streams without their files *)
  | COpenW (path : list Z)              (* fopen(path, "w") *)
  | CCloseW (path data : list Z)        (* fclose of a stream with these bytes *)
  | CRename (from to : list Z)
  | COpenR (path : list Z).             (* fopen(path, "r") *)

(** What the process learns: the bytes of a file it reads, and of the other
    calls whether they succeeded. *)
Definition ans (c : call) : Type := match c with COpenR _ => option (list Z) | _ => bool end.

(** A call on the files, when the kernel lets it succeed ([ok]) or not; the new
    files, if it changes them. *)
Definition perform (c : call) (ok : bool) (fs : files) : ans c * option files :=
  match c with
  | CPlain => (ok, None)
  | COpenW path => (ok, if ok then Some (<[path := []]> fs) else None)
  | CCloseW path data => (ok, if ok then Some (<[path := data]> fs) else None)
  | CRename from to =>
      match fs !! from with
      | Some data => (ok, if ok then Some (<[to := data]> (delete from fs)) else None)
      | None => (false, None)
      end
  | COpenR path => (if ok then fs !! path else None, None)
  end.

(** ** Programs *)

Inductive prog (A : Type) : Type :=
  | PEnd (o : outcome A)
  | PCall (c : call) (k : ans c -> prog A).
Arguments PEnd {A} o.
Arguments PCall {A} c k.

Fixpoint prog_bind_aux {A B} (f : A -> prog B) (m : prog A) : prog B :=
  match m with
  | PEnd (Ret a) => f a
  | PEnd Aborted => PEnd Aborted
  | PEnd Fault => PEnd Fault
  | PCall c k => PCall c (fun a => prog_bind_aux f (k a))
  end.
#[export] Instance prog_ret : MRet prog := fun A a => PEnd (Ret a).
#[export] Instance prog_bind : MBind prog := fun A B f m => prog_bind_aux f m.

Definition do (c : call) : prog (ans c) := PCall c (fun a => PEnd (Ret a)).

(** A call of a process on its own. *)
Definition run_call (c : call) (p : proc) : ans c * proc :=
  let '(ok, p) := p_call p in
  let '(a, fs) := perform c ok (p_files p) in
  (a, match fs with Some fs => write_files fs p | None => p end).

Fixpoint run {A} (m : prog A) (p : proc) : outcome (A * proc) :=
  match m with
  | PEnd o => a ← o; Ret (a, p)
  | PCall c k => let '(a, p) := run_call c p in run (k a) p
  end.

Lemma run_ret {A} (a : A) p : run (mret a) p = Ret (a, p).
Proof. done. Qed.

Lemma run_bind {A B} (m : prog A) (f : A -> prog B) p : run (m ≫= f) p = ('(a, p) ← run m p; run (f a) p).
Proof.
  revert p. induction m as [[a| |]|c k IH]; intros p; [done..|]. cbn. destruct (run_call c p) as [a p']. apply IH.
Qed.

Lemma run_do c p : run (do c) p = Ret (run_call c p).
Proof. cbn. by destruct (run_call c p). Qed.

Lemma run_end {A} (o : outcome A) p : run (PEnd o) p = (a ← o; Ret (a, p)).
Proof. done. Qed.

(** ** The calls of Stdio.v *)

Definition fopen_w_prog (path : list Z) : prog (option ofile) :=
  ok ← do (COpenW path);
  mret (if ok : bool then Some (mk_ofile path [] false) else None).
Definition fprintf_prog (f : ofile) (s : list Z) : prog ofile :=
  ok ← do CPlain;
  mret (if ok : bool then mk_ofile (o_path f) (o_data f ++ s) (o_err f) else mk_ofile (o_path f) (o_data f) true).
Definition fclose_w_prog (f : ofile) : prog Z := ok ← do (CCloseW (o_path f) (o_data f)); mret (if ok : bool then 0 else -1).
Definition fclose_r_prog : prog Z := ok ← do CPlain; mret (if ok : bool then 0 else -1).
Definition rename_prog (from to : list Z) : prog Z := ok ← do (CRename from to); mret (if ok : bool then 0 else -1).
Definition fopen_r_prog (path : list Z) : prog (option (list Z)) := do (COpenR path).

Section Fgets.
Context {T : Type} (body : list Z -> T -> prog (bool * T)).

Fixpoint fgets_loop_prog (fuel : nat) (size : Z) (src : list Z) (st : T) : prog (bool * T) :=
  match fuel with
  | O => PEnd Fault
  | S fuel =>
      ok ← do CPlain;
      if negb ok then mret (true, st)
      else
        match src with
        | [] => mret (false, st)
        | _ =>
            let '(line, src) := take_line (Z.to_nat (size - 1)) src in
            '(continue, st) ← body (cstr line) st;
            if (continue : bool) then fgets_loop_prog fuel size src st else mret (false, st)
        end
  end.
End Fgets.

(** The programs do what the functions of Stdio.v do. *)

Lemma run_fopen_w path p : run (fopen_w_prog path) p = Ret (fopen_w path p).
Proof. unfold fopen_w_prog, fopen_w. cbn. unfold run_call. destruct (p_call p) as [[] p']; done. Qed.

Lemma run_fprintf f s p : run (fprintf_prog f s) p = Ret (fprintf f s p).
Proof. unfold fprintf_prog, fprintf. cbn. unfold run_call. destruct (p_call p) as [[] p']; done. Qed.

Lemma run_fclose_w f p : run (fclose_w_prog f) p = Ret (fclose_w f p).
Proof. unfold fclose_w_prog, fclose_w. cbn. unfold run_call. destruct (p_call p) as [[] p']; done. Qed.

Lemma run_fclose_r p : run fclose_r_prog p = Ret (fclose_r p).
Proof. unfold fclose_r_prog, fclose_r. cbn. unfold run_call. destruct (p_call p) as [[] p']; done. Qed.

Lemma run_rename from to p : run (rename_prog from to) p = Ret (rename from to p).
Proof.
  unfold rename_prog, rename. cbn. unfold run_call. destruct (p_call p) as [ok p'].
  cbn [perform]. by destruct (p_files p' !! from), ok.
Qed.

Lemma run_fopen_r path p : run (fopen_r_prog path) p = Ret (fopen_r path p).
Proof. unfold fopen_r_prog, fopen_r, do. cbn [run]. unfold run_call. by destruct (p_call p) as [ok p']. Qed.

Lemma run_plain p : run (do CPlain) p = Ret (p_call p).
Proof. unfold do. cbn [run]. unfold run_call. by destruct (p_call p). Qed.

(** Rewriting a program to its run. *)
Create Rewrite HintDb run_eqs.
#[export] Hint Rewrite @run_bind @run_ret @run_end run_fopen_w run_fprintf run_fclose_w run_fclose_r run_rename run_fopen_r run_plain
  : run_eqs.

Ltac run_step := cbn [mbind outcome_bind]; autorewrite with run_eqs; cbn [mbind outcome_bind].

Lemma run_fgets_loop {T} (body : list Z -> T -> proc -> outcome (bool * T * proc)) (body_prog : list Z -> T -> prog (bool * T)) :
  (forall line st p, run (body_prog line st) p = body line st p) ->
  forall fuel size src st p, run (fgets_loop_prog body_prog fuel size src st) p = fgets_loop body fuel size src st p.
Proof.
  intros Hb. induction fuel as [|fuel IH]; intros size src st p; [done|]. cbn [fgets_loop_prog fgets_loop]. run_step.
  destruct (p_call p) as [[] p']; cbn [negb]; [|done]. destruct src as [|b src]; [done|].
  destruct (take_line _ _) as [l rest]. run_step. rewrite Hb. destruct (body (cstr l) st p') as [[[c st'] p2]| |]; [|done..].
  cbn [mbind outcome_bind]. destruct c; [apply IH|done].
Qed.

(** ** What a program may touch *)

Section Confined.
(** The paths it reads, those it writes, and those it renames to. *)
Context (Rd Wr Fin : list Z -> Prop).

Definition call_ok (c : call) : Prop :=
  match c with
  | CPlain => True
  | COpenW path | CCloseW path _ => Wr path
  | CRename from to => Wr from /\ Fin to
  | COpenR path => Rd path
  end.

(** Its calls, whatever the answers, and its result. *)
Fixpoint confined {A} (Q : A -> Prop) (m : prog A) : Prop :=
  match m with
  | PEnd (Ret a) => Q a
  | PEnd _ => True
  | PCall c k => call_ok c /\ forall a, confined Q (k a)
  end.

Lemma confined_bind {A B} (Q : A -> Prop) (Q' : B -> Prop) m f :
  confined Q m -> (forall a, Q a -> confined Q' (f a)) -> confined Q' (m ≫= f).
Proof.
  intros Hm Hf. induction m as [[a| |]|c k IH]; cbn in *; [by apply Hf|done..|]. destruct Hm as [Hc Hk]. split; [done|].
  intros a. apply IH, Hk.
Qed.

Lemma confined_fopen_w path (Q : option ofile -> Prop) : Wr path -> Q None -> Q (Some (mk_ofile path [] false)) ->
  confined Q (fopen_w_prog path).
Proof. intros H1 H2 H3. split; [done|]. by intros []. Qed.

Lemma confined_fprintf f s (Q : ofile -> Prop) : (forall g, o_path g = o_path f -> Q g) -> confined Q (fprintf_prog f s).
Proof. intros H. split; [done|]. intros []; cbn; by apply H. Qed.

Lemma confined_fclose_w f (Q : Z -> Prop) : Wr (o_path f) -> (forall rc, Q rc) -> confined Q (fclose_w_prog f).
Proof. intros H1 H2. split; [done|]. intros []; apply H2. Qed.

Lemma confined_fclose_r (Q : Z -> Prop) : (forall rc, Q rc) -> confined Q fclose_r_prog.
Proof. intros H. split; [done|]. intros []; apply H. Qed.

Lemma confined_rename from to (Q : Z -> Prop) : Wr from -> Fin to -> (forall rc, Q rc) -> confined Q (rename_prog from to).
Proof. intros H1 H2 H3. split; [done|]. intros []; apply H3. Qed.

Lemma confined_fopen_r path (Q : option (list Z) -> Prop) : Rd path -> (forall src, Q src) -> confined Q (fopen_r_prog path).
Proof. intros H1 H2. by split. Qed.

Lemma confined_plain (Q : bool -> Prop) : (forall ok, Q ok) -> confined Q (do CPlain).
Proof. by split. Qed.

Lemma confined_or_fault {A} (o : option A) (Q : A -> Prop) : (forall a, o = Some a -> Q a) -> confined Q (PEnd (or_fault o)).
Proof. intros H. destruct o as [a|]; [by apply H|done]. Qed.

Lemma confined_fgets_loop {T} (body : list Z -> T -> prog (bool * T)) (I : T -> Prop) :
  (forall line st, I st -> confined (fun r => I r.2) (body line st)) ->
  forall fuel size src st, I st -> confined (fun r => I r.2) (fgets_loop_prog body fuel size src st).
Proof.
  intros Hb. induction fuel as [|fuel IH]; intros size src st HI; [done|]. cbn [fgets_loop_prog].
  eapply confined_bind; [by apply (confined_plain (fun _ => True))|]. intros ok _. destruct ok; cbn [negb]; [|done].
  destruct src as [|b src]; [done|]. destruct (take_line _ _) as [l rest].
  eapply confined_bind; [by apply Hb|]. intros [c st'] HI'. destruct c; [by apply IH|done].
Qed.

(** ** Other files do not matter *)

Definition after (c : call) (ok : bool) (fs : files) : files := default fs (perform c ok fs).2.

Definition agree (fs1 fs2 : files) : Prop := forall path, Rd path \/ Wr path -> fs1 !! path = fs2 !! path.

Lemma perform_agree c ok fs1 fs2 : call_ok c -> agree fs1 fs2 ->
  (perform c ok fs1).1 = (perform c ok fs2).1 /\ agree (after c ok fs1) (after c ok fs2).
Proof.
  intros Hc Ha. destruct c as [|path|path data|from to|path]; cbn in Hc; unfold after; cbn [perform].
  - by split.
  - split; [done|]. destruct ok; [|done]. cbn. intros p Hp. destruct (decide (p = path)) as [->|]; [by rewrite !lookup_insert_eq|].
    rewrite !lookup_insert_ne by done. by apply Ha.
  - split; [done|]. destruct ok; [|done]. cbn. intros p Hp. destruct (decide (p = path)) as [->|]; [by rewrite !lookup_insert_eq|].
    rewrite !lookup_insert_ne by done. by apply Ha.
  - rewrite (Ha from) by (right; apply Hc). destruct (fs2 !! from) as [data|]; [|done]. split; [done|]. destruct ok; [|done]. cbn.
    intros p Hp. destruct (decide (p = to)) as [->|]; [by rewrite !lookup_insert_eq|]. rewrite !lookup_insert_ne by done.
    destruct (decide (p = from)) as [->|]; [by rewrite !lookup_delete_eq|]. rewrite !lookup_delete_ne by done. by apply Ha.
  - cbn. rewrite (Ha path) by by left. by split.
Qed.

(** Where a call acts: on its own files, or it gives a file of [Fin] contents
    that are the same on both sides. *)
Lemma after_touches c ok fs1 fs2 path : call_ok c -> agree fs1 fs2 ->
  Wr path \/ after c ok fs1 !! path = fs1 !! path /\ after c ok fs2 !! path = fs2 !! path \/
  Fin path /\ exists data, after c ok fs1 !! path = Some data /\ after c ok fs2 !! path = Some data.
Proof.
  intros Hc Ha. destruct c as [|p|p data|from to|p]; cbn in Hc; unfold after; cbn [perform].
  - right. by left.
  - destruct ok; [|right; by left]. cbn. destruct (decide (p = path)) as [->|]; [by left|]. right. left. by rewrite !lookup_insert_ne.
  - destruct ok; [|right; by left]. cbn. destruct (decide (p = path)) as [->|]; [by left|]. right. left. by rewrite !lookup_insert_ne.
  - rewrite (Ha from) by (right; apply Hc). destruct (fs2 !! from) as [data|]; [|right; by left]. destruct ok; [|right; by left]. cbn.
    destruct (decide (to = path)) as [->|]; [right; right; split; [apply Hc|]; exists data; by rewrite !lookup_insert_eq|].
    rewrite !lookup_insert_ne by done. destruct (decide (from = path)) as [->|]; [left; apply Hc|]. right. left. by rewrite !lookup_delete_ne.
  - right. by left.
Qed.
End Confined.

(** ** Every state of every run *)

(** Whatever the kernel answers from [fs] on, the program returns, [P] holds of
    every state of the files, and [C] of the last one when it returns 0. *)
Fixpoint good (P C : files -> Prop) (m : prog Z) (fs : files) : Prop :=
  P fs /\
  match m with
  | PEnd (Ret rv) => rv = 0 -> C fs
  | PEnd _ => False
  | PCall c k => forall ok, good P C (k (perform c ok fs).1) (after c ok fs)
  end.

Lemma good_now P C m fs : good P C m fs -> P fs.
Proof. by destruct m as [[]|]; intros []. Qed.

Definition io_of (ok : bool) : io := if ok then IoOk 0 else IoErr.

Lemma run_call_cons c ok io fs seen : run_call c (mk_proc (mk_disk fs seen) (io_of ok :: io)) =
  ((perform c ok fs).1, mk_proc (mk_disk (after c ok fs) (match (perform c ok fs).2 with Some _ => [fs] | None => [] end ++ seen)) io).
Proof.
  unfold run_call, p_call, after. destruct ok; cbn [io_of io_simple p_io]; unfold p_files; cbn [set_io p_disk d_files];
    destruct (perform c _ fs) as [a [fs'|]]; done.
Qed.

(** States seen before a run stay, at the end of the list. *)
Lemma run_seen {A} (m : prog A) : forall fs s1 s2 io,
  run m (mk_proc (mk_disk fs (s1 ++ s2)) io) =
  ('(a, p) ← run m (mk_proc (mk_disk fs s1) io); Ret (a, mk_proc (mk_disk (p_files p) (d_seen (p_disk p) ++ s2)) (p_io p))).
Proof.
  induction m as [o|c k IH]; intros fs s1 s2 io; cbn [run]; [by destruct o|].
  unfold run_call, p_call. cbn [p_io]. destruct (io_simple io) as [ok s]. unfold p_files; cbn [set_io p_disk d_files].
  destruct (perform c ok fs) as [a [fs'|]].
  - exact (IH a fs' (fs :: s1) s2 s).
  - exact (IH a fs s1 s2 s).
Qed.

Lemma run_keeps_seen {A} (m : prog A) : forall p a p' fs, run m p = Ret (a, p') ->
  fs = p_files p \/ fs ∈ d_seen (p_disk p) -> fs = p_files p' \/ fs ∈ d_seen (p_disk p').
Proof.
  induction m as [o|c k IH]; intros p a p' fs; cbn [run].
  { destruct o; cbn; intros E; [|discriminate E..]. by injection E as _ <-. }
  unfold run_call. destruct (p_call p) as [ok p1] eqn:Ep. apply p_call_set_io in Ep as [s ->].
  destruct (perform c ok _) as [b [fs'|]]; intros E Hor; apply (IH _ _ _ _ fs E); [|done].
  right. unfold p_files in *. cbn in *. set_solver.
Qed.

Lemma good_of_runs P C (m : prog Z) : forall fs,
  (forall io, exists rv p', run m (mk_proc (mk_disk fs []) io) = Ret (rv, p') /\
     (forall fs', fs' = p_files p' \/ fs' ∈ d_seen (p_disk p') -> P fs') /\ (rv = 0 -> C (p_files p'))) ->
  good P C m fs.
Proof.
  induction m as [o|c k IH]; intros fs H.
  - destruct (H []) as (rv & p' & E & HP & HC). cbn [run] in E. destruct o as [a| |]; cbn in E; [|discriminate E..].
    injection E as -> <-. split; [apply HP; by left|exact HC].
  - split.
    + destruct (H []) as (rv & p' & E & HP & _). apply HP. eapply run_keeps_seen; [exact E|]. by left.
    + intros ok. apply IH. intros io. destruct (H (io_of ok :: io)) as (rv & p' & E & HP & HC). cbn [run] in E.
      rewrite run_call_cons, app_nil_r in E.
      set (s := match (perform c ok fs).2 with Some _ => _ | None => _ end) in E.
      change s with ([] ++ s) in E. rewrite run_seen in E.
      destruct (run _ _) as [[rv0 p0]| |]; cbn in E; [|discriminate E..]. injection E as -> <-.
      exists rv, p0. split; [done|]. unfold p_files in *. cbn in HP, HC. split; [|exact HC].
      intros fs' [->|Hin]; [apply HP; by left|]. apply HP. right. apply elem_of_app. by left.
Qed.
