(* ===== verification/Config.v ===== *)
(** * Configuration (src/config.c, src/config.h)

    The defaults, the table of keys and the parser of the configuration file.
    [lineno] only occurs in messages and is dropped; [errors] counts in [Z]. *)

From Stdlib Require Import String.
From S2P Require Import Prelude Limits Util Task Stdio.

(** ** Defaults *)
Definition CONFIG_DEFAULT_PORT : Z := 9999.
Definition CONFIG_DEFAULT_TCP_BACKLOG : Z := 511.
Definition CONFIG_DEFAULT_HZ : Z := 10.
Definition CONFIG_DEFAULT_CLIENT_TIMEOUT_S : Z := 300.
Definition CONFIG_DEFAULT_INPUT_DIR : list Z := lit "./input".
Definition CONFIG_DEFAULT_N_REDUCE : Z := 4.
Definition CONFIG_DEFAULT_TASK_TIMEOUT_MS : Z := 10000.
Definition CONFIG_DEFAULT_AOF_PATH : list Z := lit "./mr.aof".

(** ** The table *)

Inductive config_type_t : Type :=
  | CONFIG_TYPE_INT
  | CONFIG_TYPE_BOOL
  | CONFIG_TYPE_ENUM
  | CONFIG_TYPE_STRING.

(** What an [offset] into [master_config_t] points at: an [int] or a
    string. The function stores a value there. *)
Inductive config_target : Type :=
  | IntField (set : Z -> master_config_t -> master_config_t)
  | StringField (set : list Z -> master_config_t -> master_config_t).

Record config_entry_t := mk_entry {
  e_name : list Z;
  e_type : config_type_t;
  e_offset : config_target;
  e_min : Z;
  e_max : Z;
  e_enum_values : list (list Z);
}.

Definition set_port v c := mk_config v (cfg_tcp_backlog c) (cfg_hz c) (cfg_client_timeout_s c)
  (cfg_n_reduce c) (cfg_task_timeout_ms c) (cfg_input_dir c) (cfg_aof_path c).
Definition set_tcp_backlog v c := mk_config (cfg_port c) v (cfg_hz c) (cfg_client_timeout_s c)
  (cfg_n_reduce c) (cfg_task_timeout_ms c) (cfg_input_dir c) (cfg_aof_path c).
Definition set_hz v c := mk_config (cfg_port c) (cfg_tcp_backlog c) v (cfg_client_timeout_s c)
  (cfg_n_reduce c) (cfg_task_timeout_ms c) (cfg_input_dir c) (cfg_aof_path c).
Definition set_client_timeout_s v c := mk_config (cfg_port c) (cfg_tcp_backlog c) (cfg_hz c) v
  (cfg_n_reduce c) (cfg_task_timeout_ms c) (cfg_input_dir c) (cfg_aof_path c).
Definition set_n_reduce v c := mk_config (cfg_port c) (cfg_tcp_backlog c) (cfg_hz c)
  (cfg_client_timeout_s c) v (cfg_task_timeout_ms c) (cfg_input_dir c) (cfg_aof_path c).
Definition set_task_timeout_ms v c := mk_config (cfg_port c) (cfg_tcp_backlog c) (cfg_hz c)
  (cfg_client_timeout_s c) (cfg_n_reduce c) v (cfg_input_dir c) (cfg_aof_path c).
Definition set_input_dir v c := mk_config (cfg_port c) (cfg_tcp_backlog c) (cfg_hz c)
  (cfg_client_timeout_s c) (cfg_n_reduce c) (cfg_task_timeout_ms c) v (cfg_aof_path c).
Definition set_aof_path v c := mk_config (cfg_port c) (cfg_tcp_backlog c) (cfg_hz c)
  (cfg_client_timeout_s c) (cfg_n_reduce c) (cfg_task_timeout_ms c) (cfg_input_dir c) (Some v).

Definition config_table : list config_entry_t := [
  mk_entry (lit "port") CONFIG_TYPE_INT (IntField set_port) 1 65535 [];
  mk_entry (lit "tcp-backlog") CONFIG_TYPE_INT (IntField set_tcp_backlog) 1 65535 [];
  mk_entry (lit "hz") CONFIG_TYPE_INT (IntField set_hz) 1 500 [];
  mk_entry (lit "client-timeout") CONFIG_TYPE_INT (IntField set_client_timeout_s) 0 86400 [];
  mk_entry (lit "n-reduce") CONFIG_TYPE_INT (IntField set_n_reduce) 1 MAX_REDUCE_TASKS [];
  mk_entry (lit "task-timeout-ms") CONFIG_TYPE_INT (IntField set_task_timeout_ms) 100 600000 [];
  mk_entry (lit "input-dir") CONFIG_TYPE_STRING (StringField set_input_dir) 0 0 [];
  mk_entry (lit "aof-path") CONFIG_TYPE_STRING (StringField set_aof_path) 0 0 []
].

(** ** The code *)

(** [master_config_init()]: a failed [strdup] of the input directory aborts,
    one of the log's path is not looked at. *)
Definition master_config_init (s : list io) : outcome (master_config_t * list io) :=
  let '(ok_dir, s) := io_simple s in
  let '(ok_aof, s) := io_simple s in
  if negb ok_dir then Aborted
  else Ret (mk_config CONFIG_DEFAULT_PORT CONFIG_DEFAULT_TCP_BACKLOG CONFIG_DEFAULT_HZ
    CONFIG_DEFAULT_CLIENT_TIMEOUT_S CONFIG_DEFAULT_N_REDUCE CONFIG_DEFAULT_TASK_TIMEOUT_MS
    CONFIG_DEFAULT_INPUT_DIR (if ok_aof then Some CONFIG_DEFAULT_AOF_PATH else None), s).

Fixpoint find_config_loop (table : list config_entry_t) (name : list Z) : option config_entry_t :=
  match table with
  | [] => None
  | e :: table =>
      match strcmp (e_name e) name with Eq => Some e | _ => find_config_loop table name end
  end.
Definition find_config (name : list Z) : option config_entry_t := find_config_loop config_table name.

#[global] Arguments find_config : simpl never.

(** The position of [value] among the accepted strings. *)
Fixpoint enum_index (i : Z) (values : list (list Z)) (value : list Z) : option Z :=
  match values with
  | [] => None
  | v :: values => match strcmp v value with Eq => Some i | _ => enum_index (i + 1) values value end
  end.

(** Stores through [target] at type [int], [bool] and pointer to [char]; no
    field is a [bool], and a store at another type than the field's is
    undefined. *)
Definition store_int (e : config_entry_t) (v : Z) (c : master_config_t) : outcome master_config_t :=
  match e_offset e with IntField set => Ret (set v c) | _ => Fault end.
Definition store_bool (e : config_entry_t) (v : bool) (c : master_config_t) : outcome master_config_t :=
  Fault.
Definition store_string (e : config_entry_t) (v : list Z) (c : master_config_t) : outcome master_config_t :=
  match e_offset e with StringField set => Ret (set v c) | _ => Fault end.

(** [apply_config(entry, value)] *)
Definition apply_config (e : config_entry_t) (value : list Z) (c : master_config_t) (p : proc)
    : outcome (Z * master_config_t * proc) :=
  match e_type e with
  | CONFIG_TYPE_INT =>
      let '(val, end_) := strtol value in
      match end_ with
      | _ :: _ => Ret (-1, c, p)
      | [] =>
          if (val <? e_min e) || (e_max e <? val) then Ret (-1, c, p)
          else c ← store_int e val c; Ret (0, c, p)
      end
  | CONFIG_TYPE_BOOL =>
      if bool_decide (strcmp value (lit "yes") = Eq) then c ← store_bool e true c; Ret (0, c, p)
      else if bool_decide (strcmp value (lit "no") = Eq) then c ← store_bool e false c; Ret (0, c, p)
      else Ret (-1, c, p)
  | CONFIG_TYPE_STRING =>
      let '(ok, p) := p_call p in
      if negb ok then Ret (-1, c, p) else c ← store_string e value c; Ret (0, c, p)
  | CONFIG_TYPE_ENUM =>
      match enum_index 0 (e_enum_values e) value with
      | Some i => c ← store_int e i c; Ret (0, c, p)
      | None => Ret (-1, c, p)
      end
  end.

(** [if (len > 0 && line[len - 1] == '\n') line[len - 1] = '\0'] *)
Definition strip_newline (line : list Z) : list Z :=
  match last line with
  | Some c => if c =? 10 then take (length line - 1) line else line
  | None => line
  end.

(** [sscanf(line, "%255s %255s", key, value) == 2] *)
Definition scan_pair (line : list Z) : option (list Z * list Z) :=
  '(key, rest) ← scan_word 255 line;
  '(value, _) ← scan_word 255 rest;
  Some (key, value).

(** The body of the loop of [load_config]; the state is the configuration and
    [errors]. *)
Definition load_config_line (line : list Z) (st : master_config_t * Z) (p : proc)
    : outcome (bool * (master_config_t * Z) * proc) :=
  let '(c, errors) := st in
  let line := strip_newline line in
  match line with
  | [] => Ret (true, st, p)
  | ch :: _ =>
    if ch =? 35 then Ret (true, st, p)
    else
      match scan_pair line with
      | None => Ret (true, (c, errors + 1), p)
      | Some (key, value) =>
        match find_config key with
        | None => Ret (true, (c, errors + 1), p)
        | Some e =>
            '(rc, c, p) ← apply_config e value c p;
            Ret (true, (c, if rc =? -1 then errors + 1 else errors), p)
        end
      end
  end.

(** [load_config(filename)] *)
Definition load_config (filename : list Z) (c : master_config_t) (p : proc)
    : outcome (Z * master_config_t * proc) :=
  let '(fp, p) := fopen_r filename p in
  match fp with
  | None => Ret (-1, c, p)
  | Some src =>
      '(_, (c, errors), p) ← fgets_loop load_config_line (S (length src)) 1024 src (c, 0) p;
      let '(_, p) := fclose_r p in
      Ret (if 0 <? errors then -1 else 0, c, p)
  end.

(** How [master_main(configfile)] begins, in src/master.c. *)
Definition master_configure (configfile : option (list Z)) (p : proc)
    : outcome (Z * master_config_t * proc) :=
  '(c, s) ← master_config_init (p_io p);
  match configfile with
  | Some filename => load_config filename c (set_io s p)
  | None => Ret (0, c, set_io s p)
  end.

(** ** Specification *)

(** The number a text denotes: blanks, a sign, and then only digits. *)
Definition decimal (s : list Z) : option Z :=
  let '(neg, t) := read_sign (skip_spaces s) in
  if bool_decide (t <> []) && forallb isdigit t then
    let v := foldl (fun a c => 10 * a + (c - 48)) 0 t in Some (if neg then - v else v)
  else None.

(** What a key and a value set; [None] is an error. *)
Definition config_setting (key value : list Z) : option (master_config_t -> master_config_t) :=
  e ← find_config key;
  match e_type e, e_offset e with
  | CONFIG_TYPE_INT, IntField set =>
      v ← decimal value;
      if bool_decide (e_min e <= v <= e_max e) then Some (set v) else None
  | CONFIG_TYPE_STRING, StringField set => Some (set value)
  | _, _ => None
  end.

(** What a line sets: blank lines and comments set nothing. *)
Definition line_setting (line : list Z) : option (master_config_t -> master_config_t) :=
  match strip_newline line with
  | [] => Some id
  | (ch :: _) as line =>
      if ch =? 35 then Some id else '(key, value) ← scan_pair line; config_setting key value
  end.

(** The bounds of the table. *)
Definition config_ok (c : master_config_t) : Prop :=
  1 <= cfg_port c <= 65535 /\ 1 <= cfg_tcp_backlog c <= 65535 /\ 1 <= cfg_hz c <= 500 /\
  0 <= cfg_client_timeout_s c <= 86400 /\ 1 <= cfg_n_reduce c <= MAX_REDUCE_TASKS /\
  100 <= cfg_task_timeout_ms c <= 600000.
#[export] Instance config_ok_dec c : Decision (config_ok c).
Proof. unfold config_ok. apply _. Defined.

(** A configuration file that says [c]. *)
Definition print_line (key : string) (value : list Z) : list Z := lit key ++ 32 :: value ++ [10].

Definition print_config (c : master_config_t) : list Z :=
  print_line "port" (print_d (cfg_port c)) ++
  print_line "tcp-backlog" (print_d (cfg_tcp_backlog c)) ++
  print_line "hz" (print_d (cfg_hz c)) ++
  print_line "client-timeout" (print_d (cfg_client_timeout_s c)) ++
  print_line "n-reduce" (print_d (cfg_n_reduce c)) ++
  print_line "task-timeout-ms" (print_d (cfg_task_timeout_ms c)) ++
  print_line "input-dir" (cfg_input_dir c) ++
  print_line "aof-path" (default [] (cfg_aof_path c)).

(** Values the format can carry: words of at most 255 bytes. *)
Definition config_word (w : list Z) : Prop := word w /\ no_nul w /\ zlen w <= 255.
#[export] Instance config_word_dec w : Decision (config_word w).
Proof. unfold config_word, word. apply _. Defined.

(** ** Entries of the table *)

Definition entry_ok (e : config_entry_t) : Prop :=
  match e_type e, e_offset e with
  | CONFIG_TYPE_INT, IntField set =>
      LONG_MIN < e_min e /\ e_max e < LONG_MAX /\
      forall v c, e_min e <= v <= e_max e -> config_ok c -> config_ok (set v c)
  | CONFIG_TYPE_STRING, StringField set => forall v c, config_ok c -> config_ok (set v c)
  | _, _ => False
  end.

Lemma config_table_ok : Forall entry_ok config_table.
Proof.
  unfold config_table.
  repeat (constructor; [unfold entry_ok; cbn -[Z.pow MAX_REDUCE_TASKS]; unfold config_ok; cbn -[Z.pow MAX_REDUCE_TASKS]; unfold LONG_MIN, LONG_MAX, MAX_REDUCE_TASKS; intuition lia|]). constructor.
Qed.

Lemma find_config_ok name e : find_config name = Some e -> entry_ok e.
Proof.
  unfold find_config. pose proof config_table_ok as H.
  induction H as [|e' table He _ IH]; cbn; [done|].
  destruct (strcmp (e_name e') name); [by intros [= <-]|apply IH..].
Qed.

(** ** Integers *)

Lemma read_digits_end s : forall acc, forallb isdigit s = true ->
  read_digits acc s = (foldl (fun a c => 10 * a + (c - 48)) acc s, []).
Proof.
  induction s as [|c s IH]; intros acc H; [done|]. cbn in *. apply andb_true_iff in H as [-> H]. by apply IH.
Qed.

Lemma read_digits_stop s : forall acc, forallb isdigit s = false -> exists v c t, read_digits acc s = (v, c :: t).
Proof.
  induction s as [|c s IH]; intros acc H; [done|]. cbn in *.
  destruct (isdigit c); cbn in H; [by apply IH|eauto].
Qed.

(** [strtol] and [decimal] agree on what is a number. *)
Lemma strtol_decimal s : s <> [] ->
  match decimal s with
  | Some v => strtol s = (Z.max LONG_MIN (Z.min LONG_MAX v), [])
  | None => exists v c t, strtol s = (v, c :: t)
  end.
Proof.
  intros Hs. unfold decimal, strtol. destruct (read_sign (skip_spaces s)) as [neg [|c t]]; cbn [bool_decide].
  { destruct s as [|c s]; [done|]. cbn. eauto. }
  rewrite bool_decide_eq_true_2 by done. cbn [andb].
  destruct (forallb isdigit (c :: t)) eqn:E.
  - rewrite read_digits_end by done. cbn in E. by destruct (isdigit c).
  - destruct (isdigit c) eqn:Ec.
    + destruct (read_digits_stop (c :: t) 0 E) as (v & d & r & ->). eauto.
    + destruct s as [|d s]; [done|]. eauto.
Qed.

(** An integer entry takes exactly the decimal numbers within its bounds, and
    an error leaves the configuration as it was. *)
Lemma apply_config_int e set value c p :
  e_type e = CONFIG_TYPE_INT -> e_offset e = IntField set -> entry_ok e -> value <> [] ->
  apply_config e value c p =
  Ret match decimal value with
      | Some v => if bool_decide (e_min e <= v <= e_max e) then (0, set v c, p) else (-1, c, p)
      | None => (-1, c, p)
      end.
Proof.
  intros Et Eo Hok Hv. unfold entry_ok in Hok. rewrite Et, Eo in Hok. destruct Hok as (Hmin & Hmax & _).
  pose proof (strtol_decimal value Hv) as Hs. unfold apply_config, store_int. rewrite Et, Eo.
  destruct (decimal value) as [v|]; [|by destruct Hs as (? & ? & ? & ->)]. rewrite Hs.
  assert ((Z.max LONG_MIN (Z.min LONG_MAX v) <? e_min e) || (e_max e <? Z.max LONG_MIN (Z.min LONG_MAX v))
    = negb (bool_decide (e_min e <= v <= e_max e))) as ->.
  { apply Bool.eq_true_iff_eq. rewrite orb_true_iff, !Z.ltb_lt, negb_true_iff, bool_decide_eq_false. lia. }
  destruct (bool_decide_reflect (e_min e <= v <= e_max e)); cbn; [|done].
  rewrite Z.min_r, Z.max_r by lia. done.
Qed.

(** ** Lines *)

Lemma scan_pair_words line key value : scan_pair line = Some (key, value) -> word key /\ word value.
Proof.
  unfold scan_pair. destruct (scan_word 255 line) as [[k r]|] eqn:E1; [|done]. cbn.
  destruct (scan_word 255 r) as [[v r']|] eqn:E2; [|done]. cbn. intros [= -> ->].
  apply scan_word_spec in E1, E2. split; [apply E1|apply E2].
Qed.

(** An entry is set, or nothing changes; only memory can run out. *)
Lemma apply_config_cases key e value c p :
  find_config key = Some e -> word value ->
  exists ok p', (p' = p \/ exists s, p' = set_io s p) /\
    (p_benign p -> ok = true /\ p_benign p') /\
    apply_config e value c p =
    Ret match (if (ok : bool) then config_setting key value else None) with
        | Some f => (0, f c, p')
        | None => (-1, c, p')
        end.
Proof.
  intros Hf [Hne _]. pose proof (find_config_ok _ _ Hf) as Hok.
  unfold config_setting. rewrite Hf. cbn.
  destruct (e_type e) eqn:Et, (e_offset e) as [set|set] eqn:Eo;
    try (unfold entry_ok in Hok; rewrite Et in Hok; try rewrite Eo in Hok; done).
  - exists true, p. split; [by left|]. split; [done|].
    rewrite (apply_config_int e set) by done. destruct (decimal value) as [v|]; [|done]. cbn.
    by destruct (bool_decide (e_min e <= v <= e_max e)).
  - unfold apply_config, store_string. rewrite Et, Eo. destruct (p_call p) as [ok p'] eqn:E.
    exists ok, p'. split; [right; by apply p_call_set_io in E|]. split; [by apply p_call_retry|].
    by destruct ok.
Qed.

(** The effect of a line. *)
Lemma load_config_line_cases line c errors p :
  exists f p', (p' = p \/ exists s, p' = set_io s p) /\
    (f = None \/ f = line_setting line) /\ (p_benign p -> f = line_setting line /\ p_benign p') /\
    load_config_line line (c, errors) p =
    Ret (true, match f with Some f => (f c, errors) | None => (c, errors + 1) end, p').
Proof.
  unfold load_config_line, line_setting. destruct (strip_newline line) as [|ch l].
  { exists (Some id), p. repeat split; auto. }
  destruct (ch =? 35); [exists (Some id), p; repeat split; auto|].
  destruct (scan_pair (ch :: l)) as [[key value]|] eqn:Es; [|exists None, p; repeat split; auto].
  cbn [mbind option_bind]. apply scan_pair_words in Es as [_ Hv].
  destruct (find_config key) as [e|] eqn:Ef.
  - destruct (apply_config_cases key e value c p Ef Hv) as (ok & p' & Hp & Hb & ->).
    exists (if ok then config_setting key value else None), p'. split; [done|].
    split; [by destruct ok; auto|]. split; [by intros [-> ?]%Hb|].
    by destruct ok, (config_setting key value).
  - exists None, p. unfold config_setting. rewrite Ef. repeat split; auto.
Qed.

Lemma line_setting_ok line f c : line_setting line = Some f -> config_ok c -> config_ok (f c).
Proof.
  unfold line_setting. destruct (strip_newline line) as [|ch l]; [by intros [= <-]|].
  destruct (ch =? 35); [by intros [= <-]|]. destruct (scan_pair (ch :: l)) as [[key value]|]; [|done]. cbn.
  unfold config_setting. destruct (find_config key) as [e|] eqn:Ef; cbn; [|done].
  apply find_config_ok in Ef. unfold entry_ok in Ef.
  destruct (e_type e), (e_offset e); try done.
  - destruct (decimal value) as [v|]; cbn; [|done]. case_bool_decide; [|done]. intros [= <-] Hc. by apply Ef.
  - intros [= <-] Hc. by apply Ef.
Qed.

(** ** Theorems *)

Lemma load_config_bounds filename c p :
  config_ok c ->
  exists rc c' p', load_config filename c p = Ret (rc, c', p') /\
    (rc = 0 \/ rc = -1) /\ config_ok c' /\ p_disk p' = p_disk p.
Proof.
  intros Hc.
  unfold load_config, fopen_r. destruct (p_call p) as [ok p1] eqn:E. apply p_call_disk in E.
  destruct (if ok then p_files p1 !! filename else None) as [src|]; [|by exists (-1), c, p1; auto].
  destruct (fgets_loop_inv load_config_line (fun st q => config_ok st.1 /\ p_disk q = p_disk p)) with
    (fuel := S (length src)) (size := 1024) (src := src) (st := (c, 0)) (p := p1)
    as (e & [c' errors] & p2 & -> & Hc' & Hd); [done| |lia|lia|done|].
  { intros line [c1 n] q [Hc1 Hq]. destruct (load_config_line_cases (cstr line) c1 n q) as (f & q' & Hq' & Hf & _ & ->).
    assert (p_disk q' = p_disk q) as Hdq by (destruct Hq' as [->|[s ->]]; done).
    do 3 eexists. split; [done|]. split; [|congruence].
    destruct f as [f|]; [|done]. destruct Hf as [|Hf]; [done|]. by eapply line_setting_ok. }
  cbn. unfold fclose_r. destruct (p_call p2) as [ok2 p3] eqn:E3. apply p_call_disk in E3.
  do 3 eexists. split; [done|]. split_and!; [by destruct (0 <? errors); auto|done|congruence].
Qed.

Lemma configure_bounds configfile p :
  match master_configure configfile p with
  | Ret (rc, c, p') => (rc = 0 \/ rc = -1) /\ config_ok c /\ p_disk p' = p_disk p
  | Aborted => ~ p_benign p
  | Fault => False
  end.
Proof.
  unfold master_configure, master_config_init.
  destruct (io_simple (p_io p)) as [[] s1] eqn:E1; destruct (io_simple s1) as [ok s2] eqn:E2; cbn [negb mbind outcome_bind].
  - destruct configfile as [f|].
    + match goal with |- context [load_config f ?c ?q] =>
        destruct (load_config_bounds f c q) as (rc & c' & p' & -> & Hrc & Hc & Hd); [decide_now|done] end.
    + split; [by left|]. split; [decide_now|done].
  - intros Hb. destruct (io_simple_benign _ Hb) as (s & E & _). congruence.
Qed.

(** C23: the master starts with every integer of its configuration within the
    bounds of the table, whatever the configuration file holds and the kernel
    answers: reading it returns, writes no field at a wrong type and touches no
    file. It can only abort, when memory runs out. The master's division by hz
    and its arrays of n_reduce tasks rely on these bounds. *)
Theorem config_bounded configfile p :
  match master_configure configfile p with
  | Ret (rc, c, p') => (rc = 0 \/ rc = -1) /\ config_ok c /\ p_disk p' = p_disk p
  | Aborted => ~ p_benign p
  | Fault => False
  end.
Proof. apply configure_bounds. Qed.

(** The settings of a list of lines, and whether all of them are good. *)
Definition settings (lines : list (list Z)) (c : master_config_t) : master_config_t :=
  foldl (fun c l => default id (line_setting (cstr l)) c) c lines.
Definition bad_line (l : list Z) : bool := bool_decide (line_setting (cstr l) = None).

Definition add_setting (l : list Z) (st : master_config_t * Z) : master_config_t * Z :=
  match line_setting l with Some f => (f st.1, st.2) | None => (st.1, st.2 + 1) end.

Lemma foldl_settings lines : forall c n,
  foldl (fun st l => add_setting (cstr l) st) (c, n) lines = (settings lines c, n + zlen (List.filter bad_line lines)).
Proof.
  induction lines as [|l lines IH]; intros c n; [cbn; by rewrite Z.add_0_r|].
  cbn. unfold bad_line at 1, add_setting at 2. destruct (line_setting (cstr l)); rewrite IH; cbn; [done|].
  f_equal. rewrite zlen_cons. lia.
Qed.

(** What a readable file loads. *)
Lemma load_config_lines filename src c p :
  p_benign p -> p_files p !! filename = Some src ->
  Forall (fun l => zlen l < 1024) (file_lines src) ->
  exists s, benign s /\ load_config filename c p =
    Ret (if existsb bad_line (file_lines src) then -1 else 0, settings (file_lines src) c, set_io s p).
Proof.
  intros Hb Hsrc Hl. unfold load_config, fopen_r. destruct (p_call_benign p Hb) as (s & Hs & ->).
  change (p_files (set_io s p)) with (p_files p). rewrite Hsrc.
  destruct (fgets_loop_fold load_config_line add_setting) with
    (fuel := S (length src)) (size := 1024) (src := src) (st := (c, 0)) (p := set_io s p)
    as (s1 & Hs1 & ->); [|lia|lia|done|].
  { intros line [c1 n] q Hq. destruct (load_config_line_cases (cstr line) c1 n q) as (f & q' & Hq' & _ & Hf & ->).
    destruct (Hf Hq) as [-> Hbq]. destruct q as [d io0].
    destruct Hq' as [->|[s1 ->]]; [exists io0|exists s1]; by split. }
  rewrite chunks_lines; [|lia|eapply Forall_impl; [exact Hl|]; intros l Hll; cbv beta in *; unfold zlen in *; lia]. cbn.
  destruct (p_call_benign (set_io s1 (set_io s p)) Hs1) as (s2 & Hs2 & E2). unfold fclose_r. rewrite foldl_settings, E2.
  exists s2. split; [done|]. do 3 f_equal.
  induction (file_lines src) as [|l ls IH]; [done|]. apply Forall_cons in Hl as [_ Hl]. cbn.
  destruct (bad_line l) eqn:Eb; cbn; [|by apply IH].
  rewrite zlen_cons. pose proof (zlen_nonneg (List.filter bad_line ls)). by destruct (Z.ltb_spec 0 (0 + (1 + zlen (List.filter bad_line ls)))); [|lia].
Qed.

(** C25: what a readable configuration file does, as long as its lines fit in
    the buffer: the good lines are applied in order, those after a bad line
    too, and the result is -1 exactly when some line is bad. A line is bad when
    it is neither blank nor a comment and does not start with a known key and
    a value in its decimal notation and bounds. *)
Theorem load_config_spec filename src c p :
  p_benign p -> p_files p !! filename = Some src ->
  Forall (fun l => zlen l < 1024) (file_lines src) ->
  exists rc p', load_config filename c p = Ret (rc, settings (file_lines src) c, p') /\
    p_disk p' = p_disk p /\
    (rc = 0 /\ Forall (fun l => is_Some (line_setting (cstr l))) (file_lines src) \/
     rc = -1 /\ Exists (fun l => line_setting (cstr l) = None) (file_lines src)).
Proof.
  intros Hb Hsrc Hl. destruct (load_config_lines filename src c p Hb Hsrc Hl) as (s & Hs & ->).
  do 2 eexists. split; [done|]. split; [done|].
  destruct (existsb bad_line (file_lines src)) eqn:E.
  - right. split; [done|]. apply existsb_exists in E as (l & Hin & Hbad). apply Exists_exists. exists l.
    split; [by apply list_elem_of_In|]. by apply bool_decide_eq_true in Hbad.
  - left. split; [done|]. apply Forall_forall. intros l Hin.
    destruct (line_setting (cstr l)) eqn:El; [done|]. exfalso. assert (existsb bad_line (file_lines src) = true); [|congruence].
    apply existsb_exists. exists l. split; [by apply list_elem_of_In|]. unfold bad_line. by rewrite El.
Qed.

(** ** Round trip *)

Lemma isspace_newline : isspace 10 = true.
Proof. reflexivity. Qed.

Lemma word_no_newline w : word w -> 10 ∉ w.
Proof. intros [_ Hw] Hin. rewrite Forall_forall in Hw. by apply Hw in Hin. Qed.

(** A key as the table has them. *)
Definition key_ok (key : list Z) : Prop :=
  config_word key /\ match key with ch :: _ => ch <> 35 | [] => True end.
#[export] Instance key_ok_dec key : Decision (key_ok key).
Proof. unfold key_ok. destruct key; apply _. Defined.

Lemma line_setting_print key value : key_ok (lit key) -> config_word value ->
  line_setting (cstr (print_line key value)) = config_setting (lit key) value.
Proof.
  intros [(Hkw & Hkn & Hkl) Hch] (Hvw & Hvn & Hvl).
  unfold line_setting, print_line. rewrite cstr_id.
  2:{ apply no_nul_app. split; [done|]. constructor; [done|]. apply no_nul_app. split; [done|]. by apply Forall_singleton. }
  assert (strip_newline (lit key ++ 32 :: value ++ [10]) = lit key ++ 32 :: value) as ->.
  { unfold strip_newline. change (32 :: value ++ [10]) with ((32 :: value) ++ [10]). rewrite app_assoc, last_snoc. cbn [Z.eqb Pos.eqb].
    rewrite length_app. cbn [length]. by rewrite Nat.add_sub, take_app_length. }
  assert (scan_pair (lit key ++ 32 :: value) = Some (lit key, value)) as Hs.
  { unfold scan_pair, zlen in *. rewrite scan_word_word; [|lia|done|by intros ? ? [= <- _]].
    cbn [mbind option_bind]. change (scan_word 255 (32 :: value)) with (scan_word 255 value).
    rewrite <- (app_nil_r value) at 1. by rewrite scan_word_word by (lia || done). }
  destruct (lit key) as [|ch k]; [by destruct Hkw|]. cbn [app] in *.
  destruct (Z.eqb_spec ch 35); [done|]. by rewrite Hs.
Qed.

Lemma file_lines_print key value rest : key_ok (lit key) -> config_word value ->
  file_lines (print_line key value ++ rest) = print_line key value :: file_lines rest.
Proof.
  intros [(Hkw & _) _] (Hvw & _). unfold print_line.
  replace ((lit key ++ 32 :: value ++ [10]) ++ rest) with ((lit key ++ 32 :: value) ++ 10 :: rest)
    by (by rewrite <- !app_assoc; cbn; rewrite <- !app_assoc).
  rewrite file_lines_line; [by rewrite <- app_assoc|].
  apply word_no_newline in Hkw, Hvw. rewrite elem_of_app, elem_of_cons. by intros [|[|]].
Qed.

Lemma zlen_print key value : key_ok (lit key) -> config_word value -> zlen (print_line key value) < 1024.
Proof.
  intros [(_ & _ & ?) _] (_ & _ & ?). unfold print_line. rewrite zlen_app, zlen_cons, zlen_app.
  change (zlen [10]) with 1. lia.
Qed.

Lemma print_d_word v : 0 <= v < 10 ^ 18 -> config_word (print_d v) /\ decimal (print_d v) = Some v.
Proof.
  intros Hv. assert (printable v) as Hp by (unfold printable; lia).
  assert (LONG_MIN < v < LONG_MAX) as Hl by (unfold LONG_MIN, LONG_MAX; lia).
  pose proof (print_u_no_nul v Hp) as Hnn. pose proof (print_u_spec v Hp) as (Hd & Hlen & _).
  assert (print_d v = print_u v) as E by (unfold print_d; destruct (Z.ltb_spec v 0); [lia|done]).
  assert (print_d v <> []) as Hne by (rewrite E; intros E'; rewrite E' in Hlen; unfold zlen in Hlen; cbn in Hlen; lia).
  split.
  - rewrite E in *. split; [split|split]; [done| |done|lia]. eapply Forall_impl; [exact Hd|]. cbv beta.
    intros c. unfold isdigit, isspace. rewrite andb_true_iff, orb_false_iff, andb_false_iff, !Z.leb_le, !Z.leb_gt, Z.eqb_neq. lia.
  - pose proof (strtol_decimal _ Hne) as H. rewrite strtol_print_d in H by lia.
    destruct (decimal (print_d v)) as [w|]; [|by destruct H as (? & ? & ? & ?)].
    injection H as H. f_equal. lia.
Qed.

Lemma config_setting_int key set lo hi v :
  find_config key = Some (mk_entry key CONFIG_TYPE_INT (IntField set) lo hi []) ->
  lo <= v <= hi -> 0 <= v < 10 ^ 18 -> config_setting key (print_d v) = Some (set v).
Proof.
  intros Hf Hv Hb. unfold config_setting. rewrite Hf. cbn [mbind option_bind e_type e_offset e_min e_max].
  destruct (print_d_word v Hb) as [_ ->]. cbn [mbind option_bind]. by rewrite bool_decide_eq_true_2.
Qed.

Lemma load_config_printed filename c aof c0 p :
  config_ok c -> config_word (cfg_input_dir c) -> cfg_aof_path c = Some aof -> config_word aof ->
  p_benign p -> p_files p !! filename = Some (print_config c) ->
  exists s, benign s /\ load_config filename c0 p = Ret (0, c, set_io s p).
Proof.
  intros (Hport & Htcp & Hhz & Hct & Hnr & Htt) Hdir Ea Haof Hb Hsrc. unfold MAX_REDUCE_TASKS in Hnr.
  pose proof (print_d_word (cfg_port c) ltac:(lia)) as [Wport _]. pose proof (print_d_word (cfg_tcp_backlog c) ltac:(lia)) as [Wtcp _].
  pose proof (print_d_word (cfg_hz c) ltac:(lia)) as [Whz _]. pose proof (print_d_word (cfg_client_timeout_s c) ltac:(lia)) as [Wct _].
  pose proof (print_d_word (cfg_n_reduce c) ltac:(lia)) as [Wnr _]. pose proof (print_d_word (cfg_task_timeout_ms c) ltac:(lia)) as [Wtt _].
  assert (file_lines (print_config c) = [print_line "port" (print_d (cfg_port c));
    print_line "tcp-backlog" (print_d (cfg_tcp_backlog c)); print_line "hz" (print_d (cfg_hz c));
    print_line "client-timeout" (print_d (cfg_client_timeout_s c)); print_line "n-reduce" (print_d (cfg_n_reduce c));
    print_line "task-timeout-ms" (print_d (cfg_task_timeout_ms c)); print_line "input-dir" (cfg_input_dir c);
    print_line "aof-path" aof]) as El.
  { unfold print_config. rewrite Ea. change (default [] (Some aof)) with aof.
    rewrite <- (app_nil_r (print_line "aof-path" aof)) at 1. rewrite !file_lines_print by (assumption || decide_now). reflexivity. }
  destruct (load_config_lines filename _ c0 p Hb Hsrc) as (s & Hs & ->).
  { rewrite El. repeat (constructor; [apply zlen_print; (assumption || decide_now)|]). constructor. }
  exists s. split; [done|]. rewrite El. unfold settings, bad_line. cbn [existsb foldl].
  rewrite !line_setting_print by (assumption || decide_now).
  rewrite (config_setting_int (lit "port") set_port 1 65535) by (reflexivity || lia).
  rewrite (config_setting_int (lit "tcp-backlog") set_tcp_backlog 1 65535) by (reflexivity || lia).
  rewrite (config_setting_int (lit "hz") set_hz 1 500) by (reflexivity || lia).
  rewrite (config_setting_int (lit "client-timeout") set_client_timeout_s 0 86400) by (reflexivity || lia).
  rewrite (config_setting_int (lit "n-reduce") set_n_reduce 1 64) by (reflexivity || lia).
  rewrite (config_setting_int (lit "task-timeout-ms") set_task_timeout_ms 100 600000) by (reflexivity || lia).
  change (config_setting (lit "input-dir") (cfg_input_dir c)) with (Some (set_input_dir (cfg_input_dir c))).
  change (config_setting (lit "aof-path") aof) with (Some (set_aof_path aof)).
  cbn. unfold set_aof_path, set_input_dir. cbn. rewrite <- Ea. by destruct c.
Qed.

(** C24: a configuration file round-trips: printing any configuration within
    the bounds whose strings are single words of at most 255 bytes, and loading
    the file, over whatever configuration was there, gives it back. *)
Theorem load_config_roundtrip filename c aof c0 p :
  config_ok c -> config_word (cfg_input_dir c) -> cfg_aof_path c = Some aof -> config_word aof ->
  p_benign p -> p_files p !! filename = Some (print_config c) ->
  exists p', load_config filename c0 p = Ret (0, c, p').
Proof.
  intros Hc Hdir Ea Haof Hb Hsrc. destruct (load_config_printed filename c aof c0 p Hc Hdir Ea Haof Hb Hsrc) as (s & _ & E).
  by exists (set_io s p).
Qed.

(** A read error in the middle of the file passes for its end: [load_config]
    does not call [ferror]. *)
Theorem load_config_read_error filename src c io0 k d :
  d_files d !! filename = Some src ->
  load_config filename c (mk_proc d (IoOk k :: IoErr :: io0)) =
  Ret (0, c, mk_proc d (io_simple io0).2).
Proof.
  intros Hsrc. unfold load_config, fopen_r, p_call, p_files, set_io. cbn. rewrite Hsrc. cbn.
  unfold fclose_r, p_call. cbn. by destruct (io_simple io0).
Qed.

(** ** Witnesses *)

Definition config_default : master_config_t :=
  mk_config 9999 511 10 300 4 10000 (lit "./input") (Some (lit "./mr.aof")).

Definition demo_conf : list Z := lit "conf".
Definition demo_text : list Z :=
  lit "# a comment" ++ [10] ++ lit "hz 20" ++ [10] ++ lit "n-reduce 65" ++ [10] ++ lit "  port   +80 x".
Definition demo_proc (text : list Z) : proc := mk_proc (mk_disk {[demo_conf := text]} []) [].

Lemma load_config_spec_witness :
  exists p', load_config demo_conf config_default (demo_proc demo_text) =
    Ret (-1, set_port 80 (set_hz 20 config_default), p').
Proof.
  destruct (load_config_spec demo_conf demo_text config_default (demo_proc demo_text))
    as (rc & p' & -> & _ & [[_ H]|[-> _]]); [decide_now|reflexivity|decide_now| |].
  - exfalso. revert H. rewrite Forall_forall. intros H.
    destruct (H (lit "n-reduce 65" ++ [10])) as [f Hf]; [decide_now|]. discriminate Hf.
  - exists p'. reflexivity.
Defined.

Lemma load_config_roundtrip_witness :
  exists p', load_config demo_conf (mk_config 0 0 0 0 0 0 [] None) (demo_proc (print_config config_default))
    = Ret (0, config_default, p').
Proof.
  apply (load_config_roundtrip demo_conf config_default (lit "./mr.aof")); [decide_now..| |decide_now|decide_now|reflexivity].
  reflexivity.
Defined.
