(* ===== verification/Publish.v ===== *)
(** * Publishing files by renaming

    Map and reduce tasks write temporary files and rename them to their final
    names when all went well. The state of the disk in between is what another
    process can see: the lemmas follow it from call to call, for any answers of
    the kernel. *)

From S2P Require Import Prelude Limits Util Stdio.

(** [P] holds of the files now and of every state they have been in since the
    states [seen0]. *)
Definition all_seen (P : files -> Prop) (seen0 : list files) (d : disk) : Prop :=
  P (d_files d) /\ exists recent, d_seen d = recent ++ seen0 /\ Forall P recent.

Lemma all_seen_set P seen0 f d : all_seen P seen0 d -> P f -> all_seen P seen0 (set_files f d).
Proof.
  intros (H1 & l & E & H2) Hf. split; [done|]. exists (d_files d :: l). cbn. rewrite E. split; [done|]. by constructor.
Qed.

Lemma all_seen_start (P : files -> Prop) d : P (d_files d) -> all_seen P (d_seen d) d.
Proof. split; [done|]. by exists []. Qed.

Section Publish.
(** [n] files are made of the contents [data], under temporary and final
    names, on the disk [start]. *)
Context (n : nat) (temp final data : nat -> list Z) (start : disk).
Context (temp_inj : forall i j, (i < n)%nat -> (j < n)%nat -> temp i = temp j -> i = j).
Context (final_inj : forall i j, (i < n)%nat -> (j < n)%nat -> final i = final j -> i = j).
Context (temp_final : forall i j, (i < n)%nat -> (j < n)%nat -> temp i <> final j).

(** Every final file is as before or complete, and no file but the temporary
    and final ones is touched. *)
Definition publishing (fs : files) : Prop :=
  (forall i, (i < n)%nat -> fs !! final i = d_files start !! final i \/ fs !! final i = Some (data i)) /\
  (forall path, (forall i, (i < n)%nat -> path <> final i /\ path <> temp i) -> fs !! path = d_files start !! path).

(** All are published, and no temporary file is left. *)
Definition published (fs : files) : Prop :=
  (forall i, (i < n)%nat -> fs !! final i = Some (data i) /\ fs !! temp i = None) /\ publishing fs.

Definition safe (p : proc) : Prop := all_seen publishing (d_seen start) (p_disk p).

Lemma publishing_start : publishing (d_files start).
Proof. split; [by left|done]. Qed.

Lemma publishing_temp i l fs : (i < n)%nat -> publishing fs -> publishing (<[temp i := l]> fs).
Proof.
  intros Hi [H1 H2]. split.
  - intros j Hj. rewrite lookup_insert_ne by auto. by apply H1.
  - intros path Hp. rewrite lookup_insert_ne by (destruct (Hp i Hi); congruence). by apply H2.
Qed.

Lemma publishing_rename i fs : (i < n)%nat -> publishing fs ->
  publishing (<[final i := data i]> (delete (temp i) fs)).
Proof.
  intros Hi [H1 H2]. split.
  - intros j Hj. destruct (decide (i = j)) as [->|Hne]; [right; by rewrite lookup_insert_eq|].
    rewrite lookup_insert_ne by auto. rewrite lookup_delete_ne by auto. by apply H1.
  - intros path Hp. destruct (Hp i Hi). rewrite lookup_insert_ne by congruence.
    rewrite lookup_delete_ne by congruence. by apply H2.
Qed.

Lemma safe_start s : safe (mk_proc start s).
Proof. apply all_seen_start, publishing_start. Qed.

Lemma safe_io s p : safe p -> safe (set_io s p).
Proof. done. Qed.

Lemma safe_call p ok p' : p_call p = (ok, p') -> safe p -> safe p' /\ p_files p' = p_files p.
Proof. intros E H. apply p_call_set_io in E as [s ->]. by split. Qed.

Lemma safe_write fs p : safe p -> publishing fs -> safe (write_files fs p).
Proof. intros H Hf. by apply all_seen_set. Qed.

Lemma safe_files p : safe p -> publishing (p_files p).
Proof. by intros [H _]. Qed.

(** Opening a temporary file. *)
Lemma fopen_w_safe i p f p' : (i < n)%nat -> fopen_w (temp i) p = (f, p') -> safe p ->
  safe p' /\ (f = None \/ f = Some (mk_ofile (temp i) [] false)) /\ (p_benign p -> f <> None /\ p_benign p').
Proof.
  intros Hi. unfold fopen_w. destruct (p_call p) as [ok p1] eqn:E. intros H Hs.
  destruct (safe_call _ _ _ E Hs) as [Hs1 Hf]. pose proof (p_call_retry _ _ _ E) as Hr.
  destruct ok; simplify_eq; (split; [|split; [by auto|]]).
  - apply safe_write; [done|]. apply publishing_temp; [done|]. by apply safe_files.
  - by intros [_ ?]%Hr.
  - done.
  - by intros [? _]%Hr.
Qed.

(** Closing it: on success the file holds what was written. *)
Lemma fclose_w_safe i f p rc p' : (i < n)%nat -> o_path f = temp i -> fclose_w f p = (rc, p') -> safe p ->
  safe p' /\ (forall j, (j < n)%nat -> j <> i -> p_files p' !! temp j = p_files p !! temp j) /\
  (rc = 0 -> p_files p' !! temp i = Some (o_data f)) /\ (p_benign p -> rc = 0 /\ p_benign p').
Proof.
  intros Hi Hp. unfold fclose_w. destruct (p_call p) as [ok p1] eqn:E. intros H Hs.
  destruct (safe_call _ _ _ E Hs) as [Hs1 Hf]. pose proof (p_call_retry _ _ _ E) as Hr.
  destruct ok; simplify_eq.
  - split; [apply safe_write; [done|]; rewrite Hp; apply publishing_temp; [done|]; by apply safe_files|].
    cbn. change (p_files (write_files ?f ?q)) with f. rewrite Hp, Hf. split; [|split; [|by intros [_ ?]%Hr]].
    + intros j Hj Hne. rewrite lookup_insert_ne by (intros ?%temp_inj; auto). done.
    + by rewrite lookup_insert_eq.
  - split; [done|]. split; [by rewrite Hf|]. split; [done|]. by intros [? _]%Hr.
Qed.

(** Renaming a complete temporary file. *)
Lemma rename_safe i p rc p' : (i < n)%nat -> p_files p !! temp i = Some (data i) ->
  rename (temp i) (final i) p = (rc, p') -> safe p ->
  safe p' /\ (forall j, (j < n)%nat -> j <> i -> p_files p' !! temp j = p_files p !! temp j /\
                p_files p' !! final j = p_files p !! final j) /\
  (rc = 0 /\ p_files p' !! temp i = None /\ p_files p' !! final i = Some (data i) \/ rc = -1) /\
  (p_benign p -> rc = 0 /\ p_benign p').
Proof.
  intros Hi Ht. unfold rename. destruct (p_call p) as [ok p1] eqn:E. intros H Hs.
  destruct (safe_call _ _ _ E Hs) as [Hs1 Hf]. pose proof (p_call_retry _ _ _ E) as Hr.
  rewrite Hf, Ht in H. destruct ok; simplify_eq.
  - split; [apply safe_write; [done|]; apply publishing_rename; [done|]; rewrite <- Hf; by apply safe_files|].
    cbn. change (p_files (write_files ?f ?q)) with f. split; [|split; [|by intros [_ ?]%Hr]].
    + intros j Hj Hne. assert (temp j <> final i) by auto. assert (temp i <> final j) by auto.
      assert (temp j <> temp i) by (intros ?%temp_inj; auto). assert (final j <> final i) by (intros ?%final_inj; auto).
      by rewrite !lookup_insert_ne, !lookup_delete_ne by congruence.
    + left. split; [done|]. split; [|by rewrite lookup_insert_eq].
      assert (temp i <> final i) by auto. by rewrite lookup_insert_ne, lookup_delete_eq.
  - split; [done|]. split; [by rewrite Hf|]. split; [by right|]. by intros [? _]%Hr.
Qed.
End Publish.
