(* ===== verification/WorkerMap.v ===== *)
(** * Map tasks (src/worker_map.c, src/worker_map.h)

    The tokenizer, the partition of the tokens and the passes that open, close
    and rename the files of a map task. *)

From Stdlib Require Import String.
From S2P Require Import Prelude Limits Util Stdio Publish.

Definition WORKER_MAP_LINE_MAX : Z := 8192.

(** [" \t\n\r"] *)
Definition map_delim : list Z := [32; 9; 10; 13].

(** ** Input parsing *)

Section Tokenize.
(** [emit(token, ud)]: the caller's data and the process afterwards. *)
Context {T : Type} (emit : list Z -> T -> proc -> outcome (T * proc)).

(** [while ((tok = strsep(&p, ...)) != NULL)]: emit the tokens that are not
    empty. Every round but the last takes a byte off [p], so two more units of fuel than
    bytes are enough. *)
Fixpoint emit_tokens (fuel : nat) (ptr : option (list Z)) (ud : T) (p : proc) : outcome (T * proc) :=
  match fuel with
  | O => Fault
  | S fuel =>
      match strsep map_delim ptr with
      | (None, _) => Ret (ud, p)
      | (Some tok, ptr) =>
          '(ud, p) ← match tok with [] => Ret (ud, p) | _ => emit tok ud p end;
          emit_tokens fuel ptr ud p
      end
  end.

Definition tokenize_line (line : list Z) (ud : T) (p : proc) : outcome (bool * T * proc) :=
  '(ud, p) ← emit_tokens (S (S (length line))) (Some line) ud p;
  Ret (true, ud, p).

(** [tokenize_file(path, emit, ud)] *)
Definition tokenize_file (path : list Z) (ud : T) (p : proc) : outcome (Z * T * proc) :=
  let '(f, p) := fopen_r path p in
  match f with
  | None => Ret (-1, ud, p)
  | Some src =>
      '(err, ud, p) ← fgets_loop tokenize_line (S (length src)) WORKER_MAP_LINE_MAX src ud p;
      let rc := if (err : bool) then -1 else 0 in
      let '(close_rc, p) := fclose_r p in
      Ret (if negb (close_rc =? 0) then -1 else rc, ud, p)
  end.
End Tokenize.

(** ** Paths *)

Definition map_final_path (task_id y : Z) : list Z :=
  lit "intermediate/mr-" ++ print_u task_id ++ lit "-" ++ print_u y.
Definition map_temp_path (task_id y pid attempt_id : Z) : list Z :=
  lit "intermediate/mr-" ++ print_u task_id ++ lit "-" ++ print_u y ++ lit ".tmp." ++
  print_d pid ++ lit "." ++ print_u attempt_id.

(** [build_paths], in a process with the id [pid]: [temp_out] and [final_out],
    unless one does not fit. *)
Definition map_build_paths (task_id y attempt_id pid : Z) : option (list Z * list Z) :=
  temp_out ← snprintf MAPREDUCE_PATH_MAX (map_temp_path task_id y pid attempt_id);
  final_out ← snprintf MAPREDUCE_PATH_MAX (map_final_path task_id y);
  Some (temp_out, final_out).

(** ** Handles

    [FILE *handles[MAX_REDUCE_TASKS]]: an absent stream is NULL. *)

(** [close_handles(handles, count)] from index [i] on *)
Fixpoint close_handles_loop (n i : nat) (handles : list (option ofile)) (p : proc)
    : outcome (list (option ofile) * proc) :=
  match n with
  | O => Ret (handles, p)
  | S n =>
      match handles !! i with
      | None => Fault
      | Some None => close_handles_loop n (S i) handles p
      | Some (Some f) => close_handles_loop n (S i) (<[i := None]> handles) (fclose_w f p).2
      end
  end.
Definition close_handles (handles : list (option ofile)) (count : Z) (p : proc)
    : outcome (list (option ofile) * proc) :=
  close_handles_loop (Z.to_nat count) 0 handles p.

(** ** Workload: word count *)

Record worker_map_emit_ctx_t := mk_emit_ctx {
  ctx_handles : list (option ofile);
  ctx_R : Z;
  ctx_doc_name : list Z;
}.

(** ["%s\t1\n"] *)
Definition word_record (token : list Z) : list Z := token ++ [9; 49; 10].

(** [emit_word_count(token, ud)] *)
Definition emit_word_count (token : list Z) (ctx : worker_map_emit_ctx_t) (p : proc)
    : outcome (worker_map_emit_ctx_t * proc) :=
  if ctx_R ctx =? 0 then Fault
  else
    let y := wrap 32 (get_hash token mod ctx_R ctx) in
    match ctx_handles ctx !! Z.to_nat y with
    | Some (Some f) =>
        let '(f, p) := fprintf f (word_record token) p in
        Ret (mk_emit_ctx (<[Z.to_nat y := Some f]> (ctx_handles ctx)) (ctx_R ctx) (ctx_doc_name ctx), p)
    | _ => Fault
    end.

(** ** Public entry *)

(** The path arrays, filled so far. *)
Record map_paths := mk_map_paths { mp_temp : list (list Z); mp_final : list (list Z) }.

(** The loop that opens [n] files from [y] on; [false] is a failure. *)
Fixpoint open_loop (n : nat) (y : nat) (task_id attempt_id pid : Z) (handles : list (option ofile))
    (paths : map_paths) (p : proc) : outcome (bool * list (option ofile) * map_paths * proc) :=
  match n with
  | O => Ret (true, handles, paths, p)
  | S n =>
      if MAX_REDUCE_TASKS <=? Z.of_nat y then Fault
      else
        match map_build_paths task_id (Z.of_nat y) attempt_id pid with
        | None => '(handles, p) ← close_handles handles (Z.of_nat y) p; Ret (false, handles, paths, p)
        | Some (temp, final) =>
            let paths := mk_map_paths (mp_temp paths ++ [temp]) (mp_final paths ++ [final]) in
            match fopen_w temp p with
            | (None, p) => '(handles, p) ← close_handles handles (Z.of_nat y) p; Ret (false, handles, paths, p)
            | (Some f, p) => open_loop n (S y) task_id attempt_id pid (<[y := Some f]> handles) paths p
            end
        end
  end.

(** The close pass over [n] handles from [y] on. *)
Fixpoint close_pass (n y : nat) (rc : Z) (handles : list (option ofile)) (p : proc)
    : outcome (Z * list (option ofile) * proc) :=
  match n with
  | O => Ret (rc, handles, p)
  | S n =>
      match handles !! y with
      | Some (Some f) =>
          let rc := if o_err f then -1 else rc in
          let '(close_rc, p) := fclose_w f p in
          let rc := if negb (close_rc =? 0) then -1 else rc in
          close_pass n (S y) rc (<[y := None]> handles) p
      | _ => Fault
      end
  end.

(** The rename pass over [n] paths from [y] on; it goes on after a failure. *)
Fixpoint rename_pass (n y : nat) (rc : Z) (paths : map_paths) (p : proc) : outcome (Z * proc) :=
  match n with
  | O => Ret (rc, p)
  | S n =>
      temp ← or_fault (mp_temp paths !! y);
      final ← or_fault (mp_final paths !! y);
      let '(rename_rc, p) := rename temp final p in
      rename_pass n (S y) (if negb (rename_rc =? 0) then -1 else rc) paths p
  end.

(** [worker_map_run(task_id, attempt_id, n_reduce, input_path, emit)]; every
    path ends at [done], which closes the handles that are still open. *)
Definition worker_map_run (task_id attempt_id n_reduce : Z) (input_path : list Z) (pid : Z)
    (emit : list Z -> worker_map_emit_ctx_t -> proc -> outcome (worker_map_emit_ctx_t * proc))
    (p : proc) : outcome (Z * proc) :=
  let R := Z.to_nat n_reduce in
  '(opened, handles, paths, p) ←
    open_loop R 0 task_id attempt_id pid (replicate (Z.to_nat MAX_REDUCE_TASKS) None) (mk_map_paths [] []) p;
  if negb opened then '(_, p) ← close_handles handles n_reduce p; Ret (-1, p)
  else
    let ctx := mk_emit_ctx handles n_reduce (base_name input_path) in
    '(rc, ctx, p) ← tokenize_file emit input_path ctx p;
    '(rc, handles, p) ← close_pass R 0 rc (ctx_handles ctx) p;
    if negb (rc =? 0) then '(_, p) ← close_handles handles n_reduce p; Ret (rc, p)
    else
      '(rc, p) ← rename_pass R 0 rc paths p;
      '(_, p) ← close_handles handles n_reduce p;
      Ret (rc, p).

(** ** Specification *)

(** The words of a text: the maximal runs of bytes other than blanks. *)
Definition is_delim (c : Z) : bool := bool_decide (c ∈ map_delim).

Fixpoint words (s : list Z) : list (list Z) :=
  match s with
  | [] => []
  | c :: s =>
      let ws := words s in
      if is_delim c then ws
      else match s, ws with
           | d :: _, w :: ws' => if is_delim d then [c] :: w :: ws' else (c :: w) :: ws'
           | _, _ => [c] :: ws
           end
  end.

(** The tokens a map task reads: words of the pieces [fgets] returns, cut at a
    NUL. *)
Definition map_tokens (src : list Z) : list (list Z) :=
  concat (map (fun l => words (cstr l)) (chunks (S (length src)) (Z.to_nat (WORKER_MAP_LINE_MAX - 1)) src)).

(** The partition of a token, and the contents of the file of partition [y]. *)
Definition partition_of (R : Z) (token : list Z) : Z := get_hash token mod R.
Definition map_records (R : Z) (tokens : list (list Z)) (y : nat) : list Z :=
  concat (map word_record (filter (fun t => partition_of R t = Z.of_nat y) tokens)).

Example words_ex : words (lit "  to be or " ++ [9; 10] ++ lit "not") = [lit "to"; lit "be"; lit "or"; lit "not"].
Proof. reflexivity. Qed.

(** ** Words *)

Lemma words_cons c s : words (c :: s) =
  if is_delim c then words s
  else match s, words s with
       | d :: _, w :: ws => if is_delim d then [c] :: w :: ws else (c :: w) :: ws
       | _, _ => [c] :: words s
       end.
Proof. by destruct s. Qed.

Lemma words_nonempty c s : is_delim c = false -> exists w ws, words (c :: s) = (c :: w) :: ws.
Proof.
  intros Hc. rewrite words_cons, Hc. destruct s as [|d s]; [by eexists [], _|].
  destruct (words (d :: s)) as [|w ws]; [by eexists [], _|]. destruct (is_delim d); by eauto.
Qed.

(** Nothing is lost when a text is cut at a blank. *)
Lemma words_app_delim a d b : is_delim d = true -> words (a ++ d :: b) = words a ++ words b.
Proof.
  intros Hd. induction a as [|c a IH]; cbn [app]; [by rewrite words_cons, Hd|].
  rewrite !(words_cons c), IH. destruct (is_delim c) eqn:Hc; [done|].
  destruct a as [|e a]; cbn [app].
  - rewrite (words_cons d), Hd. by destruct (words b).
  - cbn [app] in IH. rewrite IH. destruct (is_delim e) eqn:He.
    + destruct (words (e :: a)) as [|w ws]; cbn; [by destruct (words b)|done].
    + destruct (words_nonempty e a He) as (w & ws & ->). done.
Qed.

Lemma words_tok tok : Forall (fun c => is_delim c = false) tok ->
  words tok = match tok with [] => [] | _ => [tok] end.
Proof.
  induction 1 as [|c tok Hc Ht IH]; [done|]. rewrite words_cons, Hc.
  destruct tok as [|d tok]; [done|]. rewrite IH. by apply Forall_cons in Ht as [-> _].
Qed.

Lemma words_wf s : Forall (fun w => w <> [] /\ Forall (fun c => is_delim c = false) w) (words s).
Proof.
  induction s as [|c s IH]; [constructor|]. rewrite words_cons. destruct (is_delim c) eqn:Hc; [done|].
  assert (Forall (fun c => is_delim c = false) [c]) by by repeat constructor.
  destruct s as [|d s]; [by constructor|]. destruct (words (d :: s)) as [|w ws]; [by constructor|].
  destruct (is_delim d); [by constructor|]. apply Forall_cons in IH as [[_ Hw] Hws].
  constructor; [split; [done|by constructor]|done].
Qed.

Lemma words_bytes (P : Z -> Prop) s : Forall P s -> Forall (Forall P) (words s).
Proof.
  induction 1 as [|c s Hc Hs IH]; [constructor|]. rewrite words_cons. destruct (is_delim c); [done|].
  assert (Forall P [c]) by by repeat constructor.
  destruct s as [|d s]; [by constructor|]. destruct (words (d :: s)) as [|w ws]; [by constructor|].
  destruct (is_delim d); [by constructor|]. apply Forall_cons in IH as [Hw Hws]. by repeat constructor.
Qed.

Lemma words_lines src : words src = concat (map words (file_lines src)).
Proof.
  induction src as [|c src IH]; [done|]. cbn [file_lines]. pose proof (file_lines_concat src) as Hc.
  destruct (Z.eqb_spec c 10) as [->|Hne]; [by rewrite words_cons, IH|].
  pose proof (file_lines_nonempty src) as Hn.
  destruct (file_lines src) as [|[|d l] ls]; cbn [concat map] in *; [by subst src; rewrite app_nil_r|by inversion Hn|].
  cbn [app] in Hc. subst src. rewrite !(words_cons c), IH. destruct (is_delim c); [done|]. destruct (is_delim d) eqn:Hd.
  - destruct (words (d :: l)) as [|w ws]; cbn; [by destruct (concat (map words ls))|done].
  - destruct (words_nonempty d l Hd) as (w & ws & ->). done.
Qed.

(** Short lines without a NUL are tokenized as one text. *)
Lemma map_tokens_words src :
  no_nul src -> Forall (fun l => zlen l < WORKER_MAP_LINE_MAX) (file_lines src) -> map_tokens src = words src.
Proof.
  intros Hn Hl. unfold map_tokens. rewrite chunks_lines, words_lines; [|lia|].
  2:{ eapply Forall_impl; [exact Hl|]. intros l Hll. cbv beta in Hll. unfold zlen, WORKER_MAP_LINE_MAX in *. lia. }
  f_equal. apply map_ext_in. intros l Hin. rewrite cstr_id; [done|].
  unfold no_nul in *. rewrite <- (file_lines_concat src) in Hn. apply Forall_concat in Hn.
  rewrite Forall_forall in Hn. apply Hn. by apply list_elem_of_In.
Qed.

(** ** The tokenizer *)

Lemma strsep_scan_spec s : forall tok ptr, strsep_scan map_delim s = (tok, ptr) ->
  Forall (fun c => is_delim c = false) tok /\
  match ptr with
  | None => s = tok
  | Some s' => exists d, is_delim d = true /\ s = tok ++ d :: s'
  end.
Proof.
  induction s as [|c s IH]; intros tok ptr H; cbn in H; [simplify_eq; by split|].
  destruct (bool_decide (c ∈ map_delim)) eqn:Ec; [simplify_eq; split; [constructor|by exists c]|].
  destruct (strsep_scan map_delim s) as [tok1 ptr1]. simplify_eq.
  destruct (IH _ _ eq_refl) as [Ht Hp]. split; [by constructor|].
  destruct ptr as [s'|]; [|by subst]. destruct Hp as (d & Hd & ->). by exists d.
Qed.

Section TokenizeFacts.
Context {T : Type} (emit : list Z -> T -> proc -> outcome (T * proc)).
(** [I] says which tokens have been emitted. *)
Context (I : list (list Z) -> T -> proc -> Prop).
Hypothesis I_call : forall ts ud p ok p', p_call p = (ok, p') -> I ts ud p -> I ts ud p'.
Hypothesis I_emit : forall ts t ud p, I ts ud p ->
  exists ud' p', emit t ud p = Ret (ud', p') /\ I (ts ++ [t]) ud' p'.

Lemma emit_tokens_spec fuel : forall s ts ud p, (S (length s) < fuel)%nat -> I ts ud p ->
  exists ud' p', emit_tokens emit fuel (Some s) ud p = Ret (ud', p') /\ I (ts ++ words s) ud' p'.
Proof.
  induction fuel as [|fuel IH]; intros s ts ud p Hf HI; [lia|]. cbn [emit_tokens strsep].
  destruct (strsep_scan map_delim s) as [tok ptr] eqn:E.
  apply strsep_scan_spec in E as [Htok Hptr].
  assert (exists ud' p', (match tok with [] => Ret (ud, p) | _ => emit tok ud p end) = Ret (ud', p') /\
    I (ts ++ words tok) ud' p') as (ud1 & p1 & -> & HI1).
  { rewrite words_tok by done. destruct tok; [do 2 eexists; by rewrite app_nil_r|]. by apply I_emit. }
  cbn. destruct ptr as [s'|].
  - destruct Hptr as (d & Hd & ->). rewrite words_app_delim by done.
    destruct (IH s' (ts ++ words tok) ud1 p1) as (ud2 & p2 & -> & HI2); [|done|].
    { rewrite length_app in Hf. cbn in Hf. lia. }
    do 2 eexists. split; [done|]. by rewrite app_assoc.
  - subst s. destruct fuel; [lia|]. do 2 eexists. by split.
Qed.

Lemma fold_words ls l : concat (map (fun l => words (cstr l)) (ls ++ [l])) =
  concat (map (fun l => words (cstr l)) ls) ++ words (cstr l).
Proof. rewrite map_app, concat_app. cbn. by rewrite app_nil_r. Qed.

(** The whole file is tokenized, or an error is reported. *)
Lemma tokenize_file_spec path ud p : I [] ud p ->
  exists rc ud' p', tokenize_file emit path ud p = Ret (rc, ud', p') /\ (rc = 0 \/ rc = -1) /\
    (exists ts, I ts ud' p') /\
    (rc = 0 -> exists src, p_files p !! path = Some src /\ I (map_tokens src) ud' p') /\
    (rc = -1 -> is_Some (p_files p !! path) -> exists ts ud q, I ts ud q /\ ~ p_benign q).
Proof.
  intros HI. unfold tokenize_file, fopen_r. destruct (p_call p) as [ok p1] eqn:E.
  pose proof (I_call _ _ _ _ _ E HI) as HI1. pose proof (p_call_retry _ _ _ E) as Hr.
  assert (p_files p1 = p_files p) as -> by (unfold p_files; by rewrite (p_call_disk _ _ _ E)).
  destruct ok.
  2:{ do 3 eexists. split; [done|]. split; [by right|]. split; [eauto|]. split; [done|].
      intros _ _. do 3 eexists. split; [exact HI|]. by intros [? _]%Hr. }
  destruct (p_files p !! path) as [src|] eqn:Es.
  2:{ do 3 eexists. split; [done|]. split; [by right|]. split; [eauto|]. split; [done|]. by intros _ []. }
  destruct (fgets_loop_prefix (tokenize_line emit)
    (fun ls => I (concat (map (fun l => words (cstr l)) ls))) (fun ud q => exists ts, I ts ud q) (fun _ => False)) with
    (fuel := S (length src)) (size := WORKER_MAP_LINE_MAX) (src := src) (ls := @nil (list Z)) (st := ud) (p := p1)
    as (e & ud2 & p2 & -> & Hw & Hdone & Herr); [by eauto|by eauto| |done|lia|done|].
  { intros ls line ud2 q HI2. unfold tokenize_line.
    destruct (emit_tokens_spec (S (S (length (cstr line)))) (cstr line) _ ud2 q ltac:(lia) HI2) as (ud3 & q3 & -> & HI3).
    cbn. do 3 eexists. split; [done|]. cbn. by rewrite fold_words. }
  cbn [mbind outcome_bind]. unfold fclose_r. destruct (p_call p2) as [ok2 p3] eqn:E2. pose proof (p_call_retry _ _ _ E2) as Hr2.
  destruct Hw as [ts Hts]. pose proof (I_call _ _ _ _ _ E2 Hts) as Hts3.
  do 3 eexists. split; [done|]. destruct ok2; cbn.
  - destruct e; (split; [by auto|]); (split; [eauto|]); (split; [|]); try done.
    + intros _ _. destruct (Herr eq_refl) as (ls & ud4 & q & HI4 & Hq). eauto 6.
    + intros _. exists src. split; [done|]. destruct (Hdone eq_refl) as [[]|HI4]. eapply I_call; [exact E2|]. exact HI4.
  - split; [by right|]. split; [eauto|]. split; [done|]. intros _ _. do 3 eexists. split; [exact Hts|]. by intros [? _]%Hr2.
Qed.
End TokenizeFacts.

(** ** Paths *)

Lemma map_final_inj task y task' y' : u32 task -> u32 y -> u32 task' -> u32 y' ->
  map_final_path task y = map_final_path task' y' -> task = task' /\ y = y'.
Proof.
  intros Ht%u32_printable Hy%u32_printable Ht'%u32_printable Hy'%u32_printable E. unfold map_final_path in E. apply app_inv_head in E.
  apply print_u_inj_app in E as [-> E]; [|done|done|by apply nondigit_head..].
  apply app_inv_head in E. split; [done|]. by apply print_u_inj.
Qed.

Lemma map_temp_inj task y y' pid attempt : u32 task -> u32 y -> u32 y' ->
  map_temp_path task y pid attempt = map_temp_path task y' pid attempt -> y = y'.
Proof.
  intros Ht%u32_printable Hy%u32_printable Hy'%u32_printable E. unfold map_temp_path in E.
  apply app_inv_head in E. apply app_inv_head in E. apply app_inv_head in E.
  by apply print_u_inj_app in E as [-> _]; [|done|done|apply nondigit_head..].
Qed.

Lemma map_temp_final task y pid attempt task' y' : u32 task -> u32 y -> u32 task' -> u32 y' ->
  map_temp_path task y pid attempt <> map_final_path task' y'.
Proof.
  intros Ht%u32_printable Hy%u32_printable Ht'%u32_printable Hy'%u32_printable E. unfold map_temp_path, map_final_path in E. apply app_inv_head in E.
  apply print_u_inj_app in E as [_ E]; [|done|done|by apply nondigit_head..].
  apply app_inv_head in E. rewrite <- (app_nil_r (print_u y')) in E.
  by apply print_u_inj_app in E as [_ E]; [|done|done|apply nondigit_head|].
Qed.

(** The paths always fit. *)
Lemma map_build_paths_ok task y attempt pid : u32 task -> u32 y -> u32 attempt -> pid_ok pid ->
  map_build_paths task y attempt pid = Some (map_temp_path task y pid attempt, map_final_path task y).
Proof.
  intros Ht%u32_printable Hy%u32_printable Ha%u32_printable Hp. destruct (pid_printable pid Hp) as [Hp' Ep].
  destruct (print_u_spec _ Ht) as (_ & Lt & _), (print_u_spec _ Hy) as (_ & Ly & _), (print_u_spec _ Ha) as (_ & La & _),
    (print_u_spec _ Hp') as (_ & Lp & _).
  unfold map_build_paths, snprintf, map_temp_path, map_final_path. rewrite Ep, !zlen_app.
  change (zlen (lit "intermediate/mr-")) with 16. change (zlen (lit "-")) with 1. change (zlen (lit ".tmp.")) with 5. change (zlen (lit ".")) with 1.
  unfold MAPREDUCE_PATH_MAX.
  destruct (Z.leb_spec 1024 (16 + (zlen (print_u task) + (1 + (zlen (print_u y) + (5 + (zlen (print_u pid) + (1 + zlen (print_u attempt))))))))); [lia|].
  destruct (Z.leb_spec 1024 (16 + (zlen (print_u task) + (1 + zlen (print_u y))))); [lia|]. done.
Qed.

(** ** The passes *)

Section MapPasses.
Context (task attempt pid : Z) (n : nat) (data : nat -> list Z) (old : disk).
Context (Htask : u32 task) (Hattempt : u32 attempt) (Hpid : pid_ok pid) (Hn : (n <= 64)%nat).

Definition map_temp (y : nat) : list Z := map_temp_path task (Z.of_nat y) pid attempt.
Definition map_final (y : nat) : list Z := map_final_path task (Z.of_nat y).

Lemma slot_u32 i : (i < n)%nat -> u32 (Z.of_nat i).
Proof. unfold fits. lia. Qed.

Lemma map_temp_distinct i j : (i < n)%nat -> (j < n)%nat -> map_temp i = map_temp j -> i = j.
Proof. intros Hi%slot_u32 Hj%slot_u32 E%map_temp_inj; (done || lia). Qed.

Lemma map_final_distinct i j : (i < n)%nat -> (j < n)%nat -> map_final i = map_final j -> i = j.
Proof. intros Hi%slot_u32 Hj%slot_u32 [_ E]%map_final_inj; (done || lia). Qed.

Lemma map_temp_not_final i j : (i < n)%nat -> (j < n)%nat -> map_temp i <> map_final j.
Proof. intros Hi%slot_u32 Hj%slot_u32. by apply map_temp_final. Qed.

Let safe := safe n map_temp map_final data old.

(** The streams of the slots from [lo] to [hi] are open. *)
Definition slots (Q : nat -> ofile -> Prop) (lo hi : nat) (hs : list (option ofile)) : Prop :=
  length hs = 64%nat /\ forall i, (i < 64)%nat ->
    if decide (lo <= i < hi)%nat then exists f, hs !! i = Some (Some f) /\ o_path f = map_temp i /\ Q i f
    else hs !! i = Some None.

Lemma slots_get Q lo hi hs i : slots Q lo hi hs -> (lo <= i < hi)%nat -> (i < 64)%nat ->
  exists f, hs !! i = Some (Some f) /\ o_path f = map_temp i /\ Q i f.
Proof. intros [_ H] Hi H64. specialize (H i H64). by rewrite decide_True in H. Qed.

Lemma slots_null Q lo hi hs i : slots Q lo hi hs -> ~ (lo <= i < hi)%nat -> (i < 64)%nat -> hs !! i = Some None.
Proof. intros [_ H] Hi H64. specialize (H i H64). by rewrite decide_False in H. Qed.

Lemma slots_start Q y : slots Q y y (replicate (Z.to_nat MAX_REDUCE_TASKS) None).
Proof.
  clear Hn. split; [done|]. intros i Hi. rewrite decide_False by lia. by apply lookup_replicate_2.
Qed.

Lemma slots_set (Q : nat -> ofile -> Prop) lo hi lo' hi' hs i o : slots Q lo hi hs -> (i < 64)%nat ->
  (if decide (lo' <= i < hi')%nat then exists f, o = Some f /\ o_path f = map_temp i /\ Q i f else o = None) ->
  (forall j, j <> i -> (lo' <= j < hi')%nat <-> (lo <= j < hi)%nat) ->
  slots Q lo' hi' (<[i := o]> hs).
Proof.
  intros [Hl H] Hi Ho Hj. split; [by rewrite length_insert|]. intros j Hj64.
  destruct (decide (j = i)) as [->|Hne].
  - rewrite list_lookup_insert_eq by (rewrite Hl; done). destruct (decide (lo' <= i < hi')%nat); [|by rewrite Ho].
    destruct Ho as (f & -> & ?). eauto.
  - rewrite list_lookup_insert_ne by done. specialize (H j Hj64). pose proof (Hj j Hne).
    by destruct (decide (lo <= j < hi)%nat), (decide (lo' <= j < hi')%nat); try lia.
Qed.

Lemma slots_impl (Q Q' : nat -> ofile -> Prop) lo hi hs : (forall i f, Q i f -> Q' i f) -> slots Q lo hi hs -> slots Q' lo hi hs.
Proof.
  intros HQ [Hl H]. split; [done|]. intros i Hi. specialize (H i Hi). destruct (decide _); [|done].
  destruct H as (f & ? & ? & ?). eauto.
Qed.

Lemma slots_empty Q lo hi lo' hi' hs : slots Q lo hi hs -> (hi <= lo)%nat -> (hi' <= lo')%nat -> slots Q lo' hi' hs.
Proof.
  intros [Hl H] H1 H2. split; [done|]. intros j Hj. specialize (H j Hj).
  rewrite decide_False in H by lia. by rewrite decide_False by lia.
Qed.

(** [close_handles] closes what is open and faults nowhere. *)
Lemma close_handles_ok Q m : forall i hi hs p, slots Q i hi hs -> (hi <= i + m)%nat -> (hi <= n)%nat -> (i + m <= 64)%nat -> safe p ->
  exists hs' p', close_handles_loop m i hs p = Ret (hs', p') /\ slots Q 0 0 hs' /\ safe p' /\ ((hi <= i)%nat -> p' = p).
Proof.
  induction m as [|m IH]; intros i hi hs p Hs Hhi Hn' H64 Hsafe; cbn [close_handles_loop].
  { do 2 eexists. split; [done|]. split; [|done]. eapply slots_empty; [exact Hs|lia..]. }
  destruct (decide (i < hi)%nat) as [Hi|Hi].
  - destruct (slots_get _ _ _ _ i Hs ltac:(lia) ltac:(lia)) as (f & -> & Hp & _).
    destruct (fclose_w f p) as [rc p1] eqn:E. cbn [snd].
    destruct (fclose_w_safe n _ _ data old map_temp_distinct map_temp_not_final i f p rc p1) as (Hs1 & _); [lia|done..|].
    destruct (IH (S i) hi (<[i := None]> hs) p1) as (hs' & p' & -> & H1 & H2 & _); [|lia..|done|].
    + apply (slots_set Q i hi); [done|lia|by rewrite decide_False by lia|lia].
    + do 2 eexists. split; [done|]. split_and!; [done|done|lia].
  - rewrite (slots_null _ _ _ _ i Hs) by lia.
    destruct (IH (S i) hi hs p) as (hs' & p' & -> & H1 & H2 & H3); [|lia..|done|].
    + eapply slots_empty; [exact Hs|lia..].
    + do 2 eexists. split; [done|]. split_and!; [done|done|]. intros _. apply H3. lia.
Qed.

Definition fresh_slot (i : nat) (f : ofile) : Prop := o_data f = [] /\ o_err f = false.

(** The path arrays hold the paths of the slots below [y]. *)
Definition paths_upto (y : nat) (paths : map_paths) : Prop :=
  length (mp_temp paths) = y /\ length (mp_final paths) = y /\
  forall i, (i < y)%nat -> mp_temp paths !! i = Some (map_temp i) /\ mp_final paths !! i = Some (map_final i).

Lemma paths_snoc y paths : paths_upto y paths ->
  paths_upto (S y) (mk_map_paths (mp_temp paths ++ [map_temp y]) (mp_final paths ++ [map_final y])).
Proof.
  intros (H1 & H2 & H3). split; [cbn; by rewrite length_app, H1, Nat.add_1_r|].
  split; [cbn; by rewrite length_app, H2, Nat.add_1_r|].
  intros i Hi. cbn. destruct (decide (i = y)) as [->|Hne].
  - by rewrite !lookup_app_r, H1, H2, Nat.sub_diag by lia.
  - rewrite !lookup_app_l by lia. apply H3. lia.
Qed.

Lemma open_loop_ok m : forall y hs paths p, (y + m = n)%nat -> slots fresh_slot 0 y hs -> paths_upto y paths -> safe p ->
  exists opened hs' paths' p', open_loop m y task attempt pid hs paths p = Ret (opened, hs', paths', p') /\ safe p' /\
    (if (opened : bool) then slots fresh_slot 0 n hs' /\ paths_upto n paths' else slots fresh_slot 0 0 hs') /\
    (p_benign p -> opened = true /\ p_benign p').
Proof.
  induction m as [|m IH]; intros y hs paths p Hy Hs Hp Hsafe; cbn [open_loop].
  { assert (y = n) as -> by lia. do 4 eexists. by split_and!. }
  destruct (Z.leb_spec MAX_REDUCE_TASKS (Z.of_nat y)) as [Hbig|_]; [unfold MAX_REDUCE_TASKS in Hbig; lia|].
  rewrite map_build_paths_ok by (done || apply slot_u32; lia).
  fold (map_temp y) (map_final y).
  destruct (fopen_w (map_temp y) p) as [fo p1] eqn:E.
  destruct (fopen_w_safe n _ _ data old map_temp_not_final y p fo p1) as (Hs1 & Hf & Hb); [lia|done..|].
  destruct fo as [f|].
  - destruct Hf as [|[= ->]]; [done|].
    edestruct (IH (S y)) as (o & hs' & ps' & p' & -> & H1 & H2 & H3); [lia| |by apply paths_snoc|exact Hs1|].
    + apply (slots_set _ 0 y); [exact Hs|lia| |lia]. rewrite decide_True by lia. eexists. by split_and!.
    + do 4 eexists. split; [done|]. split_and!; [done|done|]. intros Hb0. apply H3. by apply Hb.
  - unfold close_handles. rewrite Nat2Z.id.
    destruct (close_handles_ok fresh_slot y 0 y hs p1 Hs) as (hs' & p' & -> & H1 & H2 & _); [lia..|done|].
    do 4 eexists. split; [done|]. split_and!; [done|done|]. by intros [? _]%Hb.
Qed.

(** What the close pass needs to know of a stream, for a map task that has
    gone well so far when [good], under benign answers when [benign0]. *)
Definition full_slot (good benign0 : Prop) (i : nat) (f : ofile) : Prop :=
  (good -> o_err f = false -> o_data f = data i) /\ (benign0 -> o_err f = false).

Lemma close_pass_ok good benign0 m : forall y rc hs p, (y + m = n)%nat ->
  slots (full_slot good benign0) y n hs -> safe p -> (rc = 0 /\ good \/ rc = -1) ->
  (rc = 0 -> forall i, (i < y)%nat -> p_files p !! map_temp i = Some (data i)) ->
  exists rc' hs' p', close_pass m y rc hs p = Ret (rc', hs', p') /\ safe p' /\ slots (full_slot good benign0) 0 0 hs' /\
    (rc' = 0 /\ good \/ rc' = -1) /\
    (rc' = 0 -> forall i, (i < n)%nat -> p_files p' !! map_temp i = Some (data i)) /\
    (benign0 -> p_benign p -> rc = 0 -> rc' = 0 /\ p_benign p').
Proof.
  induction m as [|m IH]; intros y rc hs p Hy Hs Hsafe Hrc Hdata; cbn [close_pass].
  { assert (y = n) as -> by lia. do 3 eexists. split; [done|]. split_and!; try done. eapply slots_empty; [exact Hs|lia..]. }
  destruct (slots_get _ _ _ _ y Hs ltac:(lia) ltac:(lia)) as (f & -> & Hp & Hgood & Hben).
  destruct (fclose_w f p) as [crc p1] eqn:E.
  destruct (fclose_w_safe n _ _ data old map_temp_distinct map_temp_not_final y f p crc p1) as (Hs1 & Hoth & Hc & Hb); [lia|done..|].
  edestruct (IH (S y) (if negb (crc =? 0) then -1 else if o_err f then -1 else rc) (<[y := None]> hs) p1)
    as (rc' & hs' & p' & -> & H1 & H2 & H3 & H4 & H5); [lia| |exact Hs1| | |].
  - apply (slots_set _ y n); [exact Hs|lia|by rewrite decide_False by lia|lia].
  - destruct (crc =? 0), (o_err f); cbn; auto.
  - intros H0 i Hi. destruct (Z.eqb_spec crc 0) as [->|], (o_err f) eqn:Ee; cbn in H0; try done.
    destruct (decide (i = y)) as [->|Hne]; [rewrite Hc by done; f_equal; apply Hgood; [destruct Hrc as [[_ ?]|?]; [done|congruence]|done]|].
    rewrite Hoth by lia. apply Hdata; [done|lia].
  - do 3 eexists. split; [done|]. split_and!; [done..|]. intros Hb0 Hb1 ->. destruct (Hb Hb1) as [-> Hb2].
    rewrite (Hben Hb0) in H5. by apply H5.
Qed.

Definition renamed (y : nat) (fs : files) : Prop :=
  forall i, (i < y)%nat -> fs !! map_final i = Some (data i) /\ fs !! map_temp i = None.

Lemma rename_pass_ok m : forall y rc paths p, (y + m = n)%nat -> paths_upto n paths -> safe p -> (rc = 0 \/ rc = -1) ->
  (forall i, (y <= i < n)%nat -> p_files p !! map_temp i = Some (data i)) -> (rc = 0 -> renamed y (p_files p)) ->
  exists rc' p', rename_pass m y rc paths p = Ret (rc', p') /\ safe p' /\ (rc' = 0 \/ rc' = -1) /\
    (rc' = 0 -> renamed n (p_files p')) /\ (p_benign p -> rc = 0 -> rc' = 0 /\ p_benign p').
Proof.
  induction m as [|m IH]; intros y rc paths p Hy Hpaths Hsafe Hrc Htemp Hdone; cbn [rename_pass].
  { assert (y = n) as -> by lia. do 2 eexists. by split_and!. }
  destruct (Hpaths) as (_ & _ & Hlk). destruct (Hlk y ltac:(lia)) as [-> ->]. cbn [or_fault mbind outcome_bind].
  destruct (rename (map_temp y) (map_final y) p) as [rrc p1] eqn:E.
  destruct (rename_safe n _ _ data old map_temp_distinct map_final_distinct map_temp_not_final y p rrc p1) as (Hs1 & Hoth & Hr & Hb);
    [lia|apply Htemp; lia|done|done|].
  edestruct (IH (S y) (if negb (rrc =? 0) then -1 else rc) paths p1) as (rc' & p' & -> & H1 & H2 & H3 & H4); [lia|done|exact Hs1| | | |].
  - destruct (rrc =? 0); cbn; auto.
  - intros i Hi. destruct (Hoth i ltac:(lia) ltac:(lia)) as [-> _]. apply Htemp. lia.
  - intros H0 i Hi. destruct (Z.eqb_spec rrc 0) as [->|]; cbn in H0; [|done].
    destruct (decide (i = y)) as [->|Hne]; [destruct Hr as [(_ & ? & ?)|?]; done|].
    destruct (Hoth i ltac:(lia) Hne) as [-> ->]. apply Hdone; [done|lia].
  - do 2 eexists. split; [done|]. split_and!; [done..|]. intros Hb0 ->. destruct (Hb Hb0) as [-> Hb2]. by apply H4.
Qed.
End MapPasses.

(** ** Records *)

Lemma map_records_snoc R ts t y : map_records R (ts ++ [t]) y =
  map_records R ts y ++ (if decide (partition_of R t = Z.of_nat y) then word_record t else []).
Proof.
  unfold map_records. rewrite filter_app, map_app, concat_app. f_equal.
  rewrite filter_cons. destruct (decide _); cbn; by rewrite ?app_nil_r.
Qed.

Lemma partition_range R t : 0 < R -> 0 <= partition_of R t < R.
Proof. intros. by apply Z.mod_pos_bound. Qed.

(** The streams after some tokens. *)
Definition token_slot (R : Z) (ts : list (list Z)) (benign0 : Prop) (i : nat) (f : ofile) : Prop :=
  (o_err f = false -> o_data f = map_records R ts i) /\ (benign0 -> o_err f = false).

Section EmitFacts.
Context (task attempt pid R : Z) (HR : 0 < R <= 64) (benign0 : Prop) (W : proc -> Prop).
Hypothesis W_call : forall p ok p', p_call p = (ok, p') -> W p -> W p'.

Definition emitted (ts : list (list Z)) (ctx : worker_map_emit_ctx_t) (p : proc) : Prop :=
  ctx_R ctx = R /\ slots task attempt pid (token_slot R ts benign0) 0 (Z.to_nat R) (ctx_handles ctx) /\
  W p /\ (benign0 -> p_benign p).

Lemma emitted_call ts ctx p ok p' : p_call p = (ok, p') -> emitted ts ctx p -> emitted ts ctx p'.
Proof.
  intros E (H1 & H2 & H3 & H4). split_and!; [done|done|by eapply W_call|].
  intros Hb. by eapply p_call_retry; [exact E|apply H4].
Qed.

Lemma emit_word_count_ok ts t ctx p : emitted ts ctx p ->
  exists ctx' p', emit_word_count t ctx p = Ret (ctx', p') /\ emitted (ts ++ [t]) ctx' p'.
Proof.
  intros (HRc & Hs & HW & Hb). unfold emit_word_count. rewrite HRc.
  destruct (Z.eqb_spec R 0); [lia|]. fold (partition_of R t). pose proof (partition_range R t ltac:(lia)) as Hr.
  rewrite wrap_small by (unfold fits; lia). set (y := Z.to_nat (partition_of R t)).
  destruct (slots_get _ _ _ _ _ _ _ y Hs ltac:(unfold y; lia) ltac:(unfold y; lia)) as (f & -> & Hp & Hd & He).
  unfold fprintf. destruct (p_call p) as [ok p1] eqn:E. pose proof (p_call_retry _ _ _ E) as Hc.
  assert (W p1) by by eapply W_call. assert (benign0 -> p_benign p1) by (intros Hb0; by apply Hc, Hb).
  assert (forall f', o_path f' = o_path f -> token_slot R (ts ++ [t]) benign0 y f' ->
    slots task attempt pid (token_slot R (ts ++ [t]) benign0) 0 (Z.to_nat R) (<[y := Some f']> (ctx_handles ctx))) as Hset.
  { intros f' Hp' Hf'. destruct Hs as [Hl Hs]. split; [by rewrite length_insert|]. intros i Hi. specialize (Hs i Hi).
    destruct (decide (i = y)) as [->|Hne].
    - rewrite list_lookup_insert_eq by lia. rewrite decide_True by (unfold y; lia). exists f'. split_and!; [done|congruence|done].
    - rewrite list_lookup_insert_ne by done. destruct (decide (0 <= i < Z.to_nat R)%nat); [|done].
      destruct Hs as (g & Hg & Hgp & Hgd & Hge). exists g. split_and!; [done..|]. split; [|done].
      intros Heg. rewrite map_records_snoc, decide_False, app_nil_r by (unfold y in Hne; lia). by apply Hgd. }
  destruct ok; do 2 eexists; (split; [reflexivity|]); (split_and!; [done| |done|done]); (apply Hset; [done|]); (split; cbn); try done.
  - intros Hf. rewrite map_records_snoc, decide_True by (unfold y; lia). by rewrite Hd.
  - intros Hb0. by destruct (Hc (Hb Hb0)).
Qed.
End EmitFacts.

(** ** Theorems *)

(** The arguments the master's reply carries, in range; the input is not one of
    the files the task itself writes. *)
Definition map_task_ok (task attempt R pid : Z) (input : list Z) : Prop :=
  u32 task /\ u32 attempt /\ 0 < R <= MAX_REDUCE_TASKS /\ pid_ok pid /\
  Forall (fun y => input <> map_temp task attempt pid y /\ input <> map_final task y) (seq 0 (Z.to_nat R)).
#[export] Instance map_task_ok_dec task attempt R pid input : Decision (map_task_ok task attempt R pid input).
Proof. unfold map_task_ok. apply _. Defined.

(** The contents of the files a task publishes for the input [src]. *)
Definition map_data (R : Z) (src : list Z) (y : nat) : list Z := map_records R (map_tokens src) y.

Lemma map_input_seen task attempt R pid input data old p :
  map_task_ok task attempt R pid input ->
  safe (Z.to_nat R) (map_temp task attempt pid) (map_final task) data old p -> p_files p !! input = d_files old !! input.
Proof.
  intros (_ & _ & HR & _ & Hin) [[_ H] _]. apply H. intros i Hi. rewrite Forall_forall in Hin.
  destruct (Hin i); [|done]. apply elem_of_seq. lia.
Qed.

(** The tokenizer in a map task, started on freshly opened streams. *)
Lemma map_tokenize_ok task attempt R pid input old benign0 hs p :
  map_task_ok task attempt R pid input ->
  let data := map_data R (default [] (d_files old !! input)) in
  let n := Z.to_nat R in
  let safe := safe n (map_temp task attempt pid) (map_final task) data old in
  slots task attempt pid fresh_slot 0 n hs -> safe p -> (benign0 -> p_benign p) ->
  exists rc ctx p', tokenize_file emit_word_count input (mk_emit_ctx hs R (base_name input)) p = Ret (rc, ctx, p') /\
    (rc = 0 /\ is_Some (d_files old !! input) \/ rc = -1) /\ safe p' /\ (benign0 -> p_benign p') /\
    slots task attempt pid (full_slot data (rc = 0) benign0) 0 n (ctx_handles ctx) /\
    (benign0 -> is_Some (d_files old !! input) -> rc = 0).
Proof.
  intros Hok data n safe Ho Hsafe Hb. pose proof Hok as (_ & _ & HR & _). unfold MAX_REDUCE_TASKS in HR.
  assert (forall q ok q', p_call q = (ok, q') -> safe q -> safe q') as Hcall.
  { intros q ok q' E Hq. by apply (safe_call n _ _ data old q ok). }
  edestruct (tokenize_file_spec emit_word_count (emitted task attempt pid R benign0 safe)) with
    (path := input) (ud := mk_emit_ctx hs R (base_name input)) (p := p)
    as (rc & ctx & p2 & E2 & Hrc & [ts (_ & Hts & Hs2 & Hb2)] & Hall & Hfail).
  { intros ts ud q ok q'. by apply emitted_call. }
  { intros ts t ud q. by apply emit_word_count_ok; [lia|]. }
  { split; [done|]. split; [|done]. eapply slots_impl; [|exact Ho]. intros i f [Hd He]. split; [|done]. intros _. by rewrite Hd. }
  rewrite (map_input_seen task attempt R pid input data old p Hok Hsafe) in Hall, Hfail.
  exists rc, ctx, p2. split; [done|]. split; [|split_and!; [done|done| |]].
  - destruct Hrc as [-> | ->]; [left|by right]. split; [done|]. destruct (Hall eq_refl) as (src & -> & _). done.
  - destruct Hrc as [-> | ->].
    + destruct (Hall eq_refl) as (src & Esrc & _ & Hslots & _). eapply slots_impl; [|exact Hslots].
      intros i f [Hd He]. split; [|done]. intros _ Hno. rewrite Hd by done. unfold data, map_data. by rewrite Esrc.
    + eapply slots_impl; [|exact Hts]. intros i f [Hd He]. by split.
  - intros Hb0 Hsome. destruct Hrc as [|Hrc]; [done|].
    destruct (Hfail Hrc Hsome) as (ts' & ud & q & (_ & _ & _ & Hq) & Hn). destruct Hn. by apply Hq.
Qed.

(** A run of a map task, for any answers of the kernel. *)
Lemma worker_map_run_ok task attempt R pid input old io0 :
  map_task_ok task attempt R pid input ->
  let data := map_data R (default [] (d_files old !! input)) in
  let n := Z.to_nat R in
  exists rc p', worker_map_run task attempt R input pid emit_word_count (mk_proc old io0) = Ret (rc, p') /\
    (rc = 0 \/ rc = -1) /\ safe n (map_temp task attempt pid) (map_final task) data old p' /\
    (rc = 0 -> is_Some (d_files old !! input) /\ renamed task attempt pid data n (p_files p')) /\
    (benign io0 -> is_Some (d_files old !! input) -> rc = 0 /\ p_benign p').
Proof.
  intros Hok data n. pose proof Hok as (Ht & Ha & HR & Hp & Hin). unfold MAX_REDUCE_TASKS in HR.
  set (safe := safe n (map_temp task attempt pid) (map_final task) data old).
  set (p := mk_proc old io0).
  assert (safe p) as Hsafe by apply safe_start.
  unfold worker_map_run. fold n.
  destruct (open_loop_ok task attempt pid n data old Ht Ha Hp ltac:(lia) n 0 _ (mk_map_paths [] []) p ltac:(lia)
    (slots_start _ _ _ _ 0))
    as (opened & hs & paths & p1 & -> & Hs1 & Ho & Hb1); [by split_and!; [| |lia]|done|].
  cbn [mbind outcome_bind]. destruct opened; cbn [negb].
  2:{ destruct (close_handles_ok task attempt pid n data old Ht ltac:(lia) fresh_slot n 0 0 hs p1 Ho) as (hs' & p' & E & _ & Hs & _);
        [lia..|done|]. unfold close_handles. fold n. rewrite E. cbn.
      do 2 eexists. split; [done|]. split_and!; [by right|done|done|]. intros Hb _. by destruct (Hb1 Hb). }
  destruct Ho as [Ho Hpaths].
  destruct (map_tokenize_ok task attempt R pid input old (benign io0) hs p1 Hok Ho Hs1) as
    (rc & ctx & p2 & -> & Hrc & Hs2 & Hb2 & Hslots & Hrc0); [by intros Hb; apply Hb1|].
  cbn [mbind outcome_bind]. fold data n in Hslots.
  destruct (close_pass_ok task attempt pid n data old Ht ltac:(lia) (rc = 0) (benign io0) n 0 rc (ctx_handles ctx) p2)
    as (rc3 & hs3 & p3 & -> & Hs3 & Hh3 & Hrc3 & Htemp & Hb3); [lia|done|done|by destruct Hrc as [[-> _]|]; auto|by lia|].
  cbn [mbind outcome_bind]. unfold close_handles. fold n.
  destruct Hrc3 as [[-> Hgood]| ->]; cbn [negb Z.eqb].
  - destruct (rename_pass_ok task attempt pid n data old Ht ltac:(lia) n 0 0 paths p3) as (rc4 & p4 & -> & Hs4 & Hrc4 & Hren & Hb4);
      [lia|done|done|by left|intros i Hi; apply Htemp; [done|lia]|intros _ i Hi; lia|].
    cbn [mbind outcome_bind].
    destruct (close_handles_ok task attempt pid n data old Ht ltac:(lia) _ n 0 0 hs3 p4 Hh3) as (hs' & p' & -> & _ & _ & Hid);
      [lia..|done|]. rewrite Hid by lia. cbn. do 2 eexists. split; [done|]. split_and!; [done|done| |].
    + intros ->. split; [|by apply Hren]. destruct Hrc as [[_ ?]|?]; [done|congruence].
    + intros Hb Hsome. apply Hb4; [|done]. apply Hb3; auto.
  - destruct (close_handles_ok task attempt pid n data old Ht ltac:(lia) _ n 0 0 hs3 p3 Hh3) as (hs' & p' & -> & _ & Hs & _);
      [lia..|done|]. cbn. do 2 eexists. split; [done|]. split_and!; [by right|done|done|].
    intros Hb Hsome. destruct (Hb3 Hb (Hb2 Hb) (Hrc0 Hb Hsome)). done.
Qed.

(** C10: a map task publishes its files atomically. Whatever the kernel answers
    (opens, reads, writes, closes and renames may fail at any point), the run
    returns 0 or -1, and in every state the disk goes through each of the files
    intermediate/mr-{task}-{y} either is what it was before or holds all the
    records of its partition; no other file but the task's own temporary ones is
    touched. When the run returns 0 the input was there, all R files are
    complete and no temporary file is left. *)
Theorem map_publishes_atomically task attempt R pid input old io0 :
  map_task_ok task attempt R pid input ->
  let n := Z.to_nat R in
  let data := map_data R (default [] (d_files old !! input)) in
  exists rc p', worker_map_run task attempt R input pid emit_word_count (mk_proc old io0) = Ret (rc, p') /\
    (rc = 0 \/ rc = -1) /\
    (exists recent, d_seen (p_disk p') = recent ++ d_seen old /\
       Forall (publishing n (map_temp task attempt pid) (map_final task) data old) (p_files p' :: recent)) /\
    (rc = 0 -> is_Some (d_files old !! input) /\ published n (map_temp task attempt pid) (map_final task) data old (p_files p')).
Proof.
  intros Hok n data. destruct (worker_map_run_ok task attempt R pid input old io0 Hok) as (rc & p' & -> & Hrc & Hs & H0 & _).
  do 2 eexists. split; [done|]. split; [done|]. split; [destruct Hs as (? & l & ? & ?); exists l; split; [done|by constructor]|].
  intros H. destruct (H0 H). split; [done|]. split; [done|]. by apply safe_files.
Qed.

(** C9: what a map task computes. When nothing fails, on a text without NUL and
    with lines that fit the buffer, the run returns 0; the file of partition y
    then holds, in order, one record for each word of the text whose hash is y
    modulo R, every word being in exactly one partition; the temporary files are
    gone and every other file is as it was. *)
Theorem worker_map_run_spec task attempt R pid input src old io0 :
  map_task_ok task attempt R pid input -> benign io0 -> d_files old !! input = Some src -> no_nul src ->
  Forall (fun l => zlen l < WORKER_MAP_LINE_MAX) (file_lines src) ->
  let n := Z.to_nat R in
  exists p', worker_map_run task attempt R input pid emit_word_count (mk_proc old io0) = Ret (0, p') /\
    (forall y, (y < n)%nat -> p_files p' !! map_temp task attempt pid y = None /\
      p_files p' !! map_final task y =
        Some (concat (map word_record (filter (fun w => get_hash w mod R = Z.of_nat y) (words src))))) /\
    (forall path, (forall y, (y < n)%nat -> path <> map_final task y /\ path <> map_temp task attempt pid y) ->
      p_files p' !! path = d_files old !! path) /\
    forall w, w ∈ words src -> 0 <= get_hash w mod R < R.
Proof.
  intros Hok Hb Hsrc Hn Hl n. destruct (worker_map_run_ok task attempt R pid input old io0 Hok) as (rc & p' & -> & _ & Hs & H0 & Hb0).
  destruct (Hb0 Hb ltac:(by rewrite Hsrc)) as [-> _]. exists p'. split; [done|]. destruct (H0 eq_refl) as [_ Hr].
  rewrite Hsrc in Hr. cbn [default] in Hr. split; [|split].
  - intros y Hy. destruct (Hr y Hy) as [-> ->]. split; [done|]. unfold map_data. by rewrite map_tokens_words.
  - apply (safe_files _ _ _ _ _ _ Hs).
  - intros w _. apply Z.mod_pos_bound. destruct Hok as (_ & _ & HR & _). lia.
Qed.

(** Opening more files than the arrays hold. *)
Lemma open_loop_overflow task attempt pid m : u32 task -> u32 attempt -> pid_ok pid ->
  forall y hs paths p, p_benign p -> MAX_REDUCE_TASKS < Z.of_nat (y + m) -> Z.of_nat y <= MAX_REDUCE_TASKS ->
  open_loop m y task attempt pid hs paths p = Fault.
Proof.
  intros Ht Ha Hp. induction m as [|m IH]; intros y hs paths p Hb Hm Hy; [lia|]. cbn [open_loop].
  destruct (Z.leb_spec MAX_REDUCE_TASKS (Z.of_nat y)); [done|].
  rewrite map_build_paths_ok by (first [done | unfold MAX_REDUCE_TASKS, fits in *; lia]).
  unfold fopen_w. destruct (p_call_benign p Hb) as (s & Hs & ->). apply IH; [done|lia..].
Qed.

(** The number of partitions a reply carries is not checked: with more than
    MAX_REDUCE_TASKS partitions, and files that open, the task writes past the
    end of its arrays. *)
Theorem n_reduce_unchecked emit task attempt R pid input p :
  MAX_REDUCE_TASKS < R -> u32 task -> u32 attempt -> pid_ok pid -> p_benign p ->
  worker_map_run task attempt R input pid emit p = Fault.
Proof.
  intros HR Ht Ha Hp Hb. unfold worker_map_run. rewrite open_loop_overflow; [done|done..| |done].
  unfold MAX_REDUCE_TASKS in *. lia.
Qed.

(** A line that does not fit the buffer is cut: a word of more than
    WORKER_MAP_LINE_MAX - 1 bytes is counted as two words. *)
Theorem long_word_split a b :
  zlen a = WORKER_MAP_LINE_MAX - 1 -> b <> [] -> zlen b < WORKER_MAP_LINE_MAX ->
  no_nul (a ++ b) -> Forall (fun c => is_delim c = false) (a ++ b) ->
  words (a ++ b) = [a ++ b] /\ map_tokens (a ++ b) = [a; b].
Proof.
  intros Ha Hb Hbl Hn Hd. pose proof Hd as [Hda Hdb]%Forall_app. apply Forall_app in Hn as [Hna Hnb].
  assert (forall l, Forall (fun c => is_delim c = false) l -> 10 ∉ l) as Hnl.
  { intros l Hl Hin. rewrite Forall_forall in Hl. by apply Hl in Hin. }
  assert (a <> []) as Hane by by intros ->.
  split; [rewrite words_tok by done; by destruct a|]. unfold map_tokens. rewrite length_app.
  set (n := Z.to_nat (WORKER_MAP_LINE_MAX - 1)).
  assert (length a = n) as Hal by (unfold n, zlen in *; lia). assert (length b <= n)%nat by (unfold n, zlen in *; lia).
  assert (exists fuel, (length a + length b)%nat = S fuel) as [fuel ->].
  { destruct a; [done|]. cbn. eauto. }
  cbn [chunks]. destruct (a ++ b) as [|c l] eqn:E; [by destruct a|]. rewrite <- E, take_line_cut by auto.
  destruct b as [|d b']; [done|]. rewrite take_line_all by auto.
  assert (chunks fuel n [] = []) as -> by by destruct fuel. cbn [map concat app].
  rewrite !cstr_id, !words_tok by done. by destruct a.
Qed.

(** ** Witnesses *)

Definition demo_input : list Z := lit "input/a".
Definition demo_words : list Z := lit "to be or" ++ [10] ++ lit "not  to be" ++ [10].
Definition demo_old : disk := mk_disk {[ demo_input := demo_words; map_final_path 1 0 := lit "old" ]} [].

(** The close of the second stream fails: nothing is published. *)
Lemma map_publishes_atomically_witness :
  exists p', worker_map_run 1 1 2 demo_input 77 emit_word_count
      (mk_proc demo_old (replicate 12 (IoOk 0) ++ [IoErr])) = Ret (-1, p') /\
    exists recent, d_seen (p_disk p') = recent ++ d_seen demo_old /\
      Forall (publishing 2 (map_temp 1 1 77) (map_final 1) (map_data 2 demo_words) demo_old) (p_files p' :: recent).
Proof.
  destruct (map_publishes_atomically 1 1 2 77 demo_input demo_old (replicate 12 (IoOk 0) ++ [IoErr]) ltac:(decide_now))
    as (rc & p' & E & _ & Hs & _).
  exists p'. assert (rc = -1) as <-.
  { assert (fst <$> (match worker_map_run 1 1 2 demo_input 77 emit_word_count
      (mk_proc demo_old (replicate 12 (IoOk 0) ++ [IoErr])) with Ret x => Some x | _ => None end) = Some (-1)) as H
      by (vm_compute; reflexivity). rewrite E in H. by injection H. }
  split; [exact E|exact Hs].
Defined.

Lemma worker_map_run_spec_witness :
  exists p', worker_map_run 1 1 3 demo_input 77 emit_word_count (mk_proc demo_old []) = Ret (0, p') /\
    p_files p' !! map_final_path 1 0 = Some (lit "to" ++ [9; 49; 10] ++ lit "or" ++ [9; 49; 10] ++ lit "to" ++ [9; 49; 10]).
Proof.
  destruct (worker_map_run_spec 1 1 3 77 demo_input demo_words demo_old []) as (p' & E & H & _);
    [decide_now|decide_now|reflexivity|decide_now|decide_now|].
  exists p'. split; [exact E|]. destruct (H 0%nat) as [_ H0]; [lia|]. exact H0.
Defined.

Lemma long_word_split_witness : map_tokens (replicate (Z.to_nat 8191) 97 ++ [98]) = [replicate (Z.to_nat 8191) 97; [98]].
Proof. apply long_word_split; [reflexivity|discriminate|reflexivity|decide_now|decide_now]. Defined.

Lemma n_reduce_unchecked_witness : worker_map_run 0 0 65 demo_input 77 emit_word_count (mk_proc demo_old []) = Fault.
Proof. apply n_reduce_unchecked; [reflexivity|decide_now|decide_now|decide_now|constructor]. Defined.
