(* ===== verification/WorkerReduce.v ===== *)
(** * Reduce tasks (src/worker_reduce.c, src/worker_reduce.h)

    The growing list of records, the parser of intermediate files, the walk
    over the groups of a sorted list, and the publication of the output. *)

From Stdlib Require Import String.
From S2P Require Import Prelude Limits Util Stdio Publish.

Definition WORKER_REDUCE_LINE_MAX : Z := 8192.
Definition WORKER_REDUCE_INITIAL_CAPACITY : Z := 4.
Definition WORKER_REDUCE_MAX_VALUES_PER_KEY : Z := 1024.

(** ** Record list *)

Record record_t := mk_record { r_key : list Z; r_value : list Z }.
#[export] Instance record_t_eq_dec : EqDecision record_t.
Proof. solve_decision. Defined.

(** The records in use, whose number is [count], and the capacity. Capacities
    do not wrap: the memory they stand for would not fit in the address
    space. *)
Record record_list_t := mk_record_list { l_records : list record_t; l_capacity : Z }.

Definition l_count (l : record_list_t) : Z := zlen (l_records l).

(** [record_list_create()] *)
Definition record_list_create (p : proc) : option record_list_t * proc :=
  let '(ok, p) := p_call p in                                   (* malloc *)
  if negb ok then (None, p)
  else
    let '(ok, p) := p_call p in                                 (* calloc *)
    if negb ok then (None, p) else (Some (mk_record_list [] WORKER_REDUCE_INITIAL_CAPACITY), p).

(** The room of [record_list_push]: the list after [realloc], and whether it
    succeeded. *)
Definition record_list_grow (l : record_list_t) (p : proc) : bool * record_list_t * proc :=
  if l_count l =? l_capacity l then
    let '(ok, p) := p_call p in
    if negb ok then (false, l, p) else (true, mk_record_list (l_records l) (l_capacity l * 2), p)
  else (true, l, p).

(** [record_list_push(list, key, value)]; the store at [records[count]] needs
    room. *)
Definition record_list_push (l : record_list_t) (key value : list Z) (p : proc)
    : outcome (Z * record_list_t * proc) :=
  let '(ok, l, p) := record_list_grow l p in
  if negb ok then Ret (-1, l, p)
  else
    let '(ok, p) := p_call p in                                 (* strdup *)
    if negb ok then Ret (-1, l, p)
    else
      let '(ok, p) := p_call p in                               (* strdup *)
      if negb ok then Ret (-1, l, p)
      else if l_capacity l <=? l_count l then Fault
      else Ret (0, mk_record_list (l_records l ++ [mk_record key value]) (l_capacity l), p).

(** ** Input parsing *)

(** The body of the loop of [read_records_file], on the list and [rc]. *)
Definition read_records_line (line : list Z) (st : record_list_t * Z) (p : proc)
    : outcome (bool * (record_list_t * Z) * proc) :=
  let '(l, rc) := st in
  let '(key, ptr) := strsep [9] (Some line) in
  let '(value, _) := strsep [10] ptr in
  match key, value with
  | Some ((_ :: _) as key), Some value =>
      '(push_rc, l, p) ← record_list_push l key value p;
      if negb (push_rc =? 0) then Ret (false, (l, -1), p) else Ret (true, (l, rc), p)
  | _, _ => Ret (true, (l, rc), p)
  end.

(** [read_records_file(path, list)] *)
Definition read_records_file (path : list Z) (l : record_list_t) (p : proc)
    : outcome (Z * record_list_t * proc) :=
  let '(f, p) := fopen_r path p in
  match f with
  | None => Ret (-1, l, p)
  | Some src =>
      '(err, (l, rc), p) ← fgets_loop read_records_line (S (length src)) WORKER_REDUCE_LINE_MAX src (l, 0) p;
      let rc := if (err : bool) then -1 else rc in
      let '(close_rc, p) := fclose_r p in
      Ret (if negb (close_rc =? 0) then -1 else rc, l, p)
  end.

(** ** Sort *)

Definition compare_by_key (a b : record_t) : comparison := strcmp (r_key a) (r_key b).
Definition record_le (a b : record_t) : Prop := compare_by_key a b <> Gt.
#[export] Instance record_le_dec a b : Decision (record_le a b).
Proof. unfold record_le. solve_decision. Defined.

(** [qsort] of the C library on records compared by [compare_by_key]: it
    permutes the array so that it is sorted, in an unspecified order of equal
    elements. *)
Class Qsort := qsort : list record_t -> list record_t.
Class QsortSpec (q : Qsort) : Prop := {
  qsort_perm l : qsort l ≡ₚ l;
  qsort_sorted l : Sorted record_le (qsort l);
}.

(** ** Paths *)

Definition reduce_input_path (x task_id : Z) : list Z :=
  lit "intermediate/mr-" ++ print_u x ++ lit "-" ++ print_u task_id.
Definition reduce_temp_path (task_id pid attempt_id : Z) : list Z :=
  lit "output/mr-out-" ++ print_u task_id ++ lit ".tmp." ++ print_d pid ++ lit "." ++ print_u attempt_id.
Definition reduce_final_path (task_id : Z) : list Z := lit "output/mr-out-" ++ print_u task_id.

(** [build_paths] *)
Definition reduce_build_paths (task_id attempt_id pid : Z) : option (list Z * list Z) :=
  temp_out ← snprintf MAPREDUCE_PATH_MAX (reduce_temp_path task_id pid attempt_id);
  final_out ← snprintf MAPREDUCE_PATH_MAX (reduce_final_path task_id);
  Some (temp_out, final_out).

(** ** Workload: word count *)

(** ["%s\t%zu\n"] *)
Definition count_line (key : list Z) (n : Z) : list Z := key ++ 9 :: print_u n ++ [10].

(** [fold_word_count(key, values, n_values, out)] *)
Definition fold_word_count (key : list Z) (values : list (list Z)) (out : ofile) (p : proc) : ofile * proc :=
  fprintf out (count_line key (zlen values)) p.

(** ** Public entry *)

Section Run.
(** [fold(key, values, n_values, out)], where [n_values] is the length. *)
Context (fold : list Z -> list (list Z) -> ofile -> proc -> ofile * proc).

(** [if (n_vals > 0) fold(cur_key, vals, n_vals, out)] *)
Definition flush_group (cur_key : option (list Z)) (vals : list (list Z)) (out : ofile) (p : proc) : ofile * proc :=
  match vals with
  | [] => (out, p)
  | _ => fold (default [] cur_key) vals out p
  end.

(** The group walk; [false] when a group has too many values. *)
Fixpoint group_walk (records : list record_t) (cur_key : option (list Z)) (vals : list (list Z))
    (out : ofile) (p : proc) : bool * ofile * proc :=
  match records with
  | [] => let '(out, p) := flush_group cur_key vals out p in (true, out, p)
  | r :: records =>
      let '(cur_key, vals, out, p) :=
        if bool_decide (cur_key = Some (r_key r)) then (cur_key, vals, out, p)
        else let '(out, p) := flush_group cur_key vals out p in (Some (r_key r), [], out, p) in
      if WORKER_REDUCE_MAX_VALUES_PER_KEY <=? zlen vals then (false, out, p)
      else group_walk records cur_key (vals ++ [r_value r]) out p
  end.

(** The loop over the [n] inputs from [x] on; [false] is a failure. *)
Fixpoint read_inputs (n : nat) (x task_id : Z) (l : record_list_t) (p : proc)
    : outcome (bool * record_list_t * proc) :=
  match n with
  | O => Ret (true, l, p)
  | S n =>
      match snprintf MAPREDUCE_PATH_MAX (reduce_input_path x task_id) with
      | None => Ret (false, l, p)
      | Some input_path =>
          '(rc, l, p) ← read_records_file input_path l p;
          if negb (rc =? 0) then Ret (false, l, p) else read_inputs n (x + 1) task_id l p
      end
  end.

(** From the opening of the output on. *)
Definition write_output `{Qsort} (temp_path final_path : list Z) (l : record_list_t) (p : proc)
    : Z * proc :=
  let records := qsort (l_records l) in
  match fopen_w temp_path p with
  | (None, p) => (-1, p)
  | (Some out, p) =>
      let '(ok, out, p) := group_walk records None [] out p in
      if negb ok then (-1, (fclose_w out p).2)
      else if o_err out then (-1, (fclose_w out p).2)
      else
        let '(close_rc, p) := fclose_w out p in
        if negb (close_rc =? 0) then (-1, p)
        else
          let '(rename_rc, p) := rename temp_path final_path p in
          (if negb (rename_rc =? 0) then -1 else 0, p)
  end.

(** [worker_reduce_run(task_id, attempt_id, n_map, fold)] in the process
    [pid] *)
Definition worker_reduce_run `{Qsort} (task_id attempt_id n_map pid : Z) (p : proc) : outcome (Z * proc) :=
  c_assert (0 <? n_map);;
  match record_list_create p with
  | (None, p) => Ret (-1, p)
  | (Some l, p) =>
      match reduce_build_paths task_id attempt_id pid with
      | None => Ret (-1, p)
      | Some (temp_path, final_path) =>
          '(ok, l, p) ← read_inputs (Z.to_nat n_map) 0 task_id l p;
          if negb ok then Ret (-1, p) else Ret (write_output temp_path final_path l p)
      end
  end.
End Run.

(** ** Specification *)

(** The record of a line, if it has a key and a tab. *)
Definition parse_record (line : list Z) : option record_t :=
  match strsep_scan [9] line with
  | ((_ :: _) as key, Some rest) => Some (mk_record key (strsep_scan [10] rest).1)
  | _ => None
  end.

(** The records of a file, as [fgets] cuts it. *)
Definition file_records (src : list Z) : list record_t :=
  omap (fun l => parse_record (cstr l)) (chunks (S (length src)) (Z.to_nat (WORKER_REDUCE_LINE_MAX - 1)) src).

(** The values of a key. *)
Definition values_of (records : list record_t) (key : list Z) : list (list Z) :=
  map r_value (filter (fun r => r_key r = key) records).

(** The distinct keys, sorted. *)
Definition sorted_keys (records : list record_t) : list (list Z) :=
  merge_sort str_le (remove_dups (map r_key records)).

(** The output: a line for each key, with the number of its values. *)
Definition reduce_output (records : list record_t) : list Z :=
  concat (map (fun k => count_line k (zlen (values_of records k))) (sorted_keys records)).

(** No key has more values than the walk can hold. *)
Definition groups_small (records : list record_t) : Prop :=
  Forall (fun k => zlen (values_of records k) <= WORKER_REDUCE_MAX_VALUES_PER_KEY) (map r_key records).
#[export] Instance groups_small_dec records : Decision (groups_small records).
Proof. unfold groups_small. apply _. Defined.

(** A lawful [qsort]. *)
Definition qsort_merge : Qsort := merge_sort record_le.

#[export] Instance record_le_total : Total record_le.
Proof. intros a b. destruct (str_le_total (r_key a) (r_key b)); auto. Qed.

#[export] Instance qsort_merge_spec : QsortSpec qsort_merge.
Proof. split; intros l; [apply merge_sort_Permutation|apply Sorted_merge_sort, _]. Qed.

(** ** Groups *)

(** The runs of equal keys; [group_pend] starts with a run under way. *)
Definition group_pend (key : list Z) (vals : list (list Z)) (gs : list (list Z * list (list Z)))
    : list (list Z * list (list Z)) :=
  match gs with
  | (k, vs) :: gs' => if bool_decide (key = k) then (key, vals ++ vs) :: gs' else (key, vals) :: gs
  | [] => [(key, vals)]
  end.

Fixpoint groups (l : list record_t) : list (list Z * list (list Z)) :=
  match l with
  | [] => []
  | r :: l => group_pend (r_key r) [r_value r] (groups l)
  end.

Lemma group_pend_head key vals gs : exists vs gs', group_pend key vals gs = (key, vs) :: gs'.
Proof.
  destruct gs as [|[k vs] gs]; cbn; [eauto|]. destruct (bool_decide (key = k)); eauto.
Qed.

Lemma group_pend_same key vals v gs : group_pend key (vals ++ [v]) gs = group_pend key vals (group_pend key [v] gs).
Proof.
  destruct gs as [|[k vs] gs]; cbn [group_pend].
  - by rewrite bool_decide_eq_true_2.
  - destruct (bool_decide (key = k)); cbn; rewrite bool_decide_eq_true_2 by done; by rewrite <- ?app_assoc.
Qed.

Lemma group_pend_other key vals key' vals' gs : key <> key' ->
  group_pend key vals (group_pend key' vals' gs) = (key, vals) :: group_pend key' vals' gs.
Proof.
  intros Hne. destruct (group_pend_head key' vals' gs) as (vs & gs' & ->). cbn. by rewrite bool_decide_eq_false_2.
Qed.

Definition small_group (g : list Z * list (list Z)) : Prop := zlen g.2 <= WORKER_REDUCE_MAX_VALUES_PER_KEY.

Section WalkFacts.
Context (fold : list Z -> list (list Z) -> ofile -> proc -> ofile * proc).
(** [I] says which groups have been folded. *)
Context (I : list (list Z * list (list Z)) -> ofile -> proc -> Prop).
Hypothesis I_fold : forall gs k vs out p out' p', fold k vs out p = (out', p') -> I gs out p -> I (gs ++ [(k, vs)]) out' p'.

(** The walk folds the groups one by one, up to one that is too large. *)
Lemma group_walk_pend l : forall key vals gs out p, vals <> [] -> zlen vals <= WORKER_REDUCE_MAX_VALUES_PER_KEY ->
  I gs out p -> exists ok out' p', group_walk fold l (Some key) vals out p = (ok, out', p') /\
    let todo := group_pend key vals (groups l) in
    if (ok : bool) then I (gs ++ todo) out' p' /\ Forall small_group todo
    else (exists gs', I gs' out' p') /\ Exists (fun g => ~ small_group g) todo.
Proof.
  induction l as [|r l IH]; intros key vals gs out p Hne Hle HI; cbn [group_walk groups].
  - destruct vals as [|v vals]; [done|]. cbn [flush_group]. change (default [] (Some key)) with key.
    destruct (fold key (v :: vals) out p) as [out' p'] eqn:E. do 3 eexists. split; [done|].
    split; [by eapply I_fold|]. by constructor.
  - destruct (bool_decide_reflect (Some key = Some (r_key r))) as [[= Ek]|Ek].
    + subst key. destruct (Z.leb_spec WORKER_REDUCE_MAX_VALUES_PER_KEY (zlen vals)) as [Hbig|Hlt].
      * do 3 eexists. split; [done|]. split; [eauto|]. rewrite <- group_pend_same.
        assert (WORKER_REDUCE_MAX_VALUES_PER_KEY < zlen (vals ++ [r_value r])) as Hz by (rewrite zlen_app; change (zlen [r_value r]) with 1; lia).
        unfold small_group. destruct (groups l) as [|[k vs] gs']; cbn [group_pend]; [constructor; cbn; lia|].
        destruct (bool_decide (r_key r = k)); constructor; cbn [snd]; [|lia]. rewrite zlen_app. pose proof (zlen_nonneg vs). lia.
      * destruct (IH (r_key r) (vals ++ [r_value r]) gs out p) as (ok & out' & p' & -> & H);
          [by destruct vals|rewrite zlen_app; change (zlen [r_value r]) with 1; lia|done|].
        do 3 eexists. split; [done|]. by rewrite group_pend_same in H.
    + assert (key <> r_key r) as Hk by congruence. destruct vals as [|v vals]; [done|]. cbn [flush_group].
      change (default [] (Some key)) with key. destruct (fold key (v :: vals) out p) as [out1 p1] eqn:E.
      change (WORKER_REDUCE_MAX_VALUES_PER_KEY <=? zlen []) with false. cbv beta iota. cbn [app].
      destruct (IH (r_key r) [r_value r] (gs ++ [(key, v :: vals)]) out1 p1) as (ok & out' & p' & -> & H);
        [done|done|by eapply I_fold|].
      do 3 eexists. split; [done|]. cbv zeta. rewrite group_pend_other by done. destruct ok.
      * destruct H as [H1 H2]. rewrite <- app_assoc in H1. split; [done|]. by constructor.
      * destruct H as [H1 H2]. split; [done|]. by constructor.
Qed.

Lemma group_walk_ok l out p : I [] out p ->
  exists ok out' p', group_walk fold l None [] out p = (ok, out', p') /\
    if (ok : bool) then I (groups l) out' p' /\ Forall small_group (groups l)
    else (exists gs', I gs' out' p') /\ Exists (fun g => ~ small_group g) (groups l).
Proof.
  intros HI. destruct l as [|r l]; cbn [group_walk groups flush_group].
  - do 3 eexists. split; [done|]. by split; [|constructor].
  - rewrite bool_decide_eq_false_2 by done. change (WORKER_REDUCE_MAX_VALUES_PER_KEY <=? zlen []) with false. cbv beta iota.
    apply (group_walk_pend l (r_key r) [r_value r] []); done.
Qed.
End WalkFacts.

(** ** Groups of a sorted list *)

Lemma remove_dups_cons {A} `{EqDecision A} (x : A) l :
  remove_dups (x :: l) = if decide (x ∈ l) then remove_dups l else x :: remove_dups l.
Proof. cbn. by destruct (decide_rel elem_of x l), (decide (x ∈ l)). Qed.

Lemma record_le_str a b : record_le a b <-> str_le (r_key a) (r_key b).
Proof. done. Qed.

(** In a sorted list, the groups are the distinct keys with their values. *)
Lemma groups_sorted l : StronglySorted record_le l ->
  groups l = map (fun k => (k, values_of l k)) (remove_dups (map r_key l)).
Proof.
  induction 1 as [|r l Hs IH Hr]; [done|]. cbn [groups map]. rewrite remove_dups_cons.
  assert (forall k, values_of (r :: l) k = if decide (r_key r = k) then r_value r :: values_of l k else values_of l k) as Hv.
  { intros k. unfold values_of. rewrite filter_cons. by destruct (decide (r_key r = k)). }
  destruct (decide (r_key r ∈ map r_key l)) as [Hin|Hin].
  - destruct l as [|r' l]; [by apply elem_of_nil in Hin|].
    assert (r_key r' = r_key r) as Ek.
    { apply (anti_symm str_le); [|by apply (Forall_inv Hr)].
      apply elem_of_cons in Hin as [<-|Hin]; [reflexivity|]. apply list_elem_of_fmap in Hin as (s & -> & Hs').
      apply StronglySorted_inv in Hs as [_ Hs]. rewrite Forall_forall in Hs. by apply Hs. }
    destruct (group_pend_head (r_key r') [r_value r'] (groups l)) as (vs & gs & Eg). cbn [groups] in *. rewrite IH in Eg |- *.
    pose proof (NoDup_remove_dups (map r_key (r' :: l))) as Hnd.
    destruct (remove_dups (map r_key (r' :: l))) as [|k ks]; [done|]. cbn [map group_pend] in *.
    injection Eg as Ek2 _ _. rewrite Ek2, Ek, bool_decide_eq_true_2, Hv, decide_True by done. f_equal.
    apply NoDup_cons in Hnd as [Hnk _]. apply map_ext_in. intros k' Hk'%list_elem_of_In. rewrite Hv, decide_False; [done|].
    intros E. apply Hnk. congruence.
  - rewrite IH. cbn [map]. rewrite Hv, decide_True by done.
    assert (values_of l (r_key r) = []) as ->.
    { unfold values_of. destruct (filter _ l) as [|s l'] eqn:Ef; [done|]. exfalso. apply Hin.
      assert (s ∈ filter (fun s => r_key s = r_key r) l) as [<- Hs']%list_elem_of_filter by (rewrite Ef; left).
      by apply list_elem_of_fmap_2. }
    assert (map (fun k => (k, values_of (r :: l) k)) (remove_dups (map r_key l)) =
      map (fun k => (k, values_of l k)) (remove_dups (map r_key l))) as ->.
    { apply map_ext_in. intros k Hk%list_elem_of_In. rewrite Hv, decide_False; [done|]. intros <-. apply Hin.
      by rewrite elem_of_remove_dups in Hk. }
    destruct (remove_dups (map r_key l)) as [|k ks] eqn:Ed; [done|]. cbn. rewrite bool_decide_eq_false_2; [done|].
    intros E. apply Hin, elem_of_remove_dups. rewrite Ed, E. left.
Qed.

Lemma remove_dups_sorted l : StronglySorted str_le l -> StronglySorted str_le (remove_dups l).
Proof.
  induction 1 as [|k l Hs IH Hk]; [constructor|]. rewrite remove_dups_cons. destruct (decide (k ∈ l)); [done|].
  constructor; [done|]. rewrite Forall_forall in Hk |- *. intros x Hx. apply Hk. by rewrite elem_of_remove_dups in Hx.
Qed.

Lemma remove_dups_perm {A} `{EqDecision A} (l k : list A) : l ≡ₚ k -> remove_dups l ≡ₚ remove_dups k.
Proof.
  intros H. apply NoDup_Permutation; [apply NoDup_remove_dups..|]. intros x. by rewrite !elem_of_remove_dups, H.
Qed.

Lemma values_of_perm l k key : l ≡ₚ k -> zlen (values_of l key) = zlen (values_of k key).
Proof. intros H. unfold values_of, zlen. rewrite !length_map. by rewrite H. Qed.

Section Sorting.
Context {q : Qsort} {HQ : QsortSpec q}.

Lemma qsort_strong l : StronglySorted record_le (qsort l).
Proof.
  apply Sorted_StronglySorted, qsort_sorted. intros a b c Hab Hbc. by apply (transitivity (R := str_le) (y := r_key b)).
Qed.

Lemma sorted_keys_qsort l : remove_dups (map r_key (qsort l)) = sorted_keys l.
Proof.
  apply (StronglySorted_unique str_le).
  - apply remove_dups_sorted. induction (qsort_strong l) as [|r k _ IH Hr]; cbn; [constructor|].
    constructor; [done|]. by apply Forall_fmap.
  - apply StronglySorted_merge_sort; apply _.
  - unfold sorted_keys. rewrite merge_sort_Permutation. apply remove_dups_perm. by apply fmap_Permutation, qsort_perm.
Qed.

Lemma groups_qsort l : groups (qsort l) = map (fun k => (k, values_of (qsort l) k)) (sorted_keys l).
Proof. rewrite groups_sorted by apply qsort_strong. by rewrite sorted_keys_qsort. Qed.

(** The lines of the groups do not depend on [qsort]'s choices. *)
Definition group_lines (gs : list (list Z * list (list Z))) : list Z :=
  concat (map (fun g => count_line g.1 (zlen g.2)) gs).

Lemma group_lines_qsort l : group_lines (groups (qsort l)) = reduce_output l.
Proof.
  unfold group_lines, reduce_output. rewrite groups_qsort, map_map. f_equal. apply map_ext. intros k. cbn.
  by rewrite (values_of_perm _ _ k (qsort_perm l)).
Qed.

Lemma small_qsort l : Forall small_group (groups (qsort l)) <-> groups_small l.
Proof.
  rewrite groups_qsort. unfold groups_small. rewrite !Forall_forall. unfold small_group. split.
  - intros H k Hk. rewrite <- (values_of_perm _ _ k (qsort_perm l)). apply (H (k, values_of (qsort l) k)).
    apply list_elem_of_In, in_map_iff. exists k. split; [done|]. apply list_elem_of_In.
    unfold sorted_keys. by rewrite merge_sort_Permutation, elem_of_remove_dups.
  - intros H g Hg. apply list_elem_of_In, in_map_iff in Hg as (k & <- & Hk). cbn. rewrite (values_of_perm _ _ k (qsort_perm l)).
    apply H. apply list_elem_of_In in Hk. unfold sorted_keys in Hk. by rewrite merge_sort_Permutation, elem_of_remove_dups in Hk.
Qed.
End Sorting.

(** ** Reading *)

(** The list has no more records than room. *)
Definition list_ok (l : record_list_t) : Prop := l_count l <= l_capacity l /\ 0 < l_capacity l.

Lemma record_list_create_disk p o p' : record_list_create p = (o, p') -> p_disk p' = p_disk p.
Proof.
  unfold record_list_create. destruct (p_call p) as [[] p1] eqn:E1; cbn; apply p_call_disk in E1.
  - destruct (p_call p1) as [[] p2] eqn:E2; cbn; apply p_call_disk in E2; intros [= _ <-]; congruence.
  - by intros [= _ <-].
Qed.

Lemma record_list_create_ok p l p' : record_list_create p = (Some l, p') -> list_ok l /\ l_records l = [].
Proof.
  unfold record_list_create. destruct (p_call p) as [[] p1]; cbn; [|done].
  destruct (p_call p1) as [[] p2]; cbn; [|done]. by intros [= <- <-].
Qed.

Lemma record_list_create_benign p : p_benign p ->
  exists l p', record_list_create p = (Some l, p') /\ p_benign p'.
Proof.
  intros Hb. unfold record_list_create. destruct (p_call p) as [ok p1] eqn:E1.
  destruct (p_call_retry _ _ _ E1 Hb) as [-> Hb1]. cbn. destruct (p_call p1) as [ok2 p2] eqn:E2.
  destruct (p_call_retry _ _ _ E2 Hb1) as [-> Hb2]. cbn. eauto.
Qed.

(** A push appends the record, or fails and leaves the records as they are;
    it never writes past the capacity. *)
Lemma record_list_push_ok l key value p : list_ok l ->
  exists rc l' p', record_list_push l key value p = Ret (rc, l', p') /\ list_ok l' /\ p_disk p' = p_disk p /\
    (rc = 0 /\ l_records l' = l_records l ++ [mk_record key value] \/ rc = -1 /\ l_records l' = l_records l) /\
    (p_benign p -> rc = 0 /\ p_benign p').
Proof.
  intros [Hc Hp]. unfold record_list_push.
  assert (exists ok l1 p1, record_list_grow l p = (ok, l1, p1) /\ list_ok l1 /\ l_records l1 = l_records l /\
    p_disk p1 = p_disk p /\ (ok = true -> l_count l1 < l_capacity l1) /\ (p_benign p -> ok = true /\ p_benign p1))
    as (ok & l1 & p1 & -> & Hl1 & Hr & Hd1 & Hroom & Hb1).
  { unfold record_list_grow. destruct (Z.eqb_spec (l_count l) (l_capacity l)).
    - destruct (p_call p) as [ok p1] eqn:E. pose proof (p_call_retry _ _ _ E) as Hr. pose proof (p_call_disk _ _ _ E) as Hd.
      destruct ok; cbn; do 3 eexists; (split; [done|]); split_and!; try done; unfold list_ok, l_count in *; cbn; lia.
    - do 3 eexists. split; [done|]. split_and!; try done. unfold l_count in *. lia. }
  destruct ok; cbn [negb].
  2:{ do 3 eexists. split; [done|]. split_and!; [done|done|by right|by intros [? _]%Hb1]. }
  destruct (p_call p1) as [ok2 p2] eqn:E2. pose proof (p_call_retry _ _ _ E2) as Hr2. pose proof (p_call_disk _ _ _ E2) as Hd2.
  destruct ok2; cbn [negb].
  2:{ do 3 eexists. split; [done|]. split_and!; [done|congruence|by right|]. intros [_ ?]%Hb1. by destruct Hr2. }
  destruct (p_call p2) as [ok3 p3] eqn:E3. pose proof (p_call_retry _ _ _ E3) as Hr3. pose proof (p_call_disk _ _ _ E3) as Hd3.
  destruct ok3; cbn [negb].
  2:{ do 3 eexists. split; [done|]. split_and!; [done|congruence|by right|]. intros [_ H]%Hb1. apply Hr2 in H as [_ H]. by destruct Hr3. }
  specialize (Hroom eq_refl). destruct (Z.leb_spec (l_capacity l1) (l_count l1)); [lia|].
  do 3 eexists. split; [done|]. split_and!.
  - unfold list_ok, l_count in *. cbn. rewrite zlen_app. change (zlen [mk_record key value]) with 1. lia.
  - congruence.
  - left. cbn. by rewrite Hr.
  - intros [_ Hx]%Hb1. apply Hr2 in Hx as [_ Hx]. by apply Hr3 in Hx as [_ Hx].
Qed.

(** The body of the reading loop appends the record of the line. *)
Lemma read_records_line_ok line l rc p : list_ok l ->
  exists c l' rc' p', read_records_line line (l, rc) p = Ret (c, (l', rc'), p') /\ list_ok l' /\ p_disk p' = p_disk p /\
    (if (c : bool) then rc' = rc /\ l_records l' = l_records l ++ option_list (parse_record line) /\ (p_benign p -> p_benign p')
     else rc' = -1 /\ ~ p_benign p).
Proof.
  intros Hl. unfold read_records_line, parse_record. cbn [strsep].
  destruct (strsep_scan [9] line) as [key ptr].
  assert (exists c l' rc' p', (Ret (true, (l, rc), p) : outcome (bool * (record_list_t * Z) * proc)) = Ret (c, (l', rc'), p') /\
    list_ok l' /\ p_disk p' = p_disk p /\ (if (c : bool) then rc' = rc /\ l_records l' = l_records l ++ [] /\ (p_benign p -> p_benign p')
     else rc' = -1 /\ ~ p_benign p)) as Hskip by (do 4 eexists; split; [done|]; by rewrite app_nil_r).
  destruct ptr as [rest|]; cbn [strsep].
  2:{ destruct key; exact Hskip. }
  destruct (strsep_scan [10] rest) as [value q]. destruct key as [|k key]; [exact Hskip|].
  destruct (record_list_push_ok l (k :: key) value p Hl) as (prc & l' & p' & -> & Hl' & Hd & Hrc & Hb).
  cbn [mbind outcome_bind]. destruct Hrc as [[-> Hr]|[-> Hr]]; cbn.
  - do 4 eexists. split; [done|]. split_and!; [done..|]. by intros [_ ?]%Hb.
  - do 4 eexists. split; [done|]. split_and!; [done..|]. by intros [? _]%Hb.
Qed.

Lemma omap_snoc {A B} (f : A -> option B) l x : omap f (l ++ [x]) = omap f l ++ option_list (f x).
Proof. rewrite omap_app. f_equal. Qed.

(** A file is read to its end, or an error is reported. *)
Lemma read_records_file_ok path l p : list_ok l ->
  exists rc l' p', read_records_file path l p = Ret (rc, l', p') /\ (rc = 0 \/ rc = -1) /\ list_ok l' /\ p_disk p' = p_disk p /\
    (rc = 0 -> exists src, p_files p !! path = Some src /\ l_records l' = l_records l ++ file_records src) /\
    (p_benign p -> is_Some (p_files p !! path) -> rc = 0 /\ p_benign p').
Proof.
  intros Hl. unfold read_records_file, fopen_r. destruct (p_call p) as [ok p1] eqn:E.
  pose proof (p_call_retry _ _ _ E) as Hr. pose proof (p_call_disk _ _ _ E) as Hd.
  assert (p_files p1 = p_files p) as -> by (unfold p_files; by rewrite Hd).
  destruct ok.
  2:{ do 3 eexists. split; [done|]. split_and!; [by right|done|done|done|by intros [? _]%Hr]. }
  destruct (p_files p !! path) as [src|] eqn:Es.
  2:{ do 3 eexists. split; [done|]. split_and!; [by right|done|done|done|by intros _ []]. }
  set (W := fun (st : record_list_t * Z) q => list_ok st.1 /\ p_disk q = p_disk p).
  set (I := fun ls (st : record_list_t * Z) q => W st q /\ st.2 = 0 /\ (p_benign p -> p_benign q) /\
    l_records st.1 = l_records l ++ omap (fun l => parse_record (cstr l)) ls).
  destruct (fgets_loop_prefix read_records_line I W (fun st => st.2 = -1 /\ ~ p_benign p)) with
    (fuel := S (length src)) (size := WORKER_REDUCE_LINE_MAX) (src := src) (ls := @nil (list Z)) (st := (l, 0)) (p := p1)
    as (e & [l2 rc2] & p2 & -> & HW & Hdone & Herr); [| | |done|lia| |].
  { intros ls st q ok' q' Eq ([H1 H2] & H3 & H4 & H5). split; [split; [done|by rewrite (p_call_disk _ _ _ Eq)]|].
    split; [done|]. split; [|done]. intros Hb. by eapply p_call_retry; [exact Eq|apply H4]. }
  { by intros ls st q [? _]. }
  { intros ls line [l1 rc1] q ([H1 H2] & H3 & H4 & H5). cbn [fst snd] in H1, H2, H3, H4, H5.
    destruct (read_records_line_ok (cstr line) l1 rc1 q H1) as (c & l' & rc' & q' & -> & Hl' & Hd' & Hc).
    do 3 eexists. split; [done|]. destruct c.
    - destruct Hc as (-> & Hrec & Hb). split; [split; cbn; [done|congruence]|]. split; [done|]. split; [by auto|]. cbn.
      by rewrite Hrec, H5, <- app_assoc, omap_snoc.
    - destruct Hc as (-> & Hb). split; [split; cbn; [done|congruence]|]. split; [done|auto]. }
  { split; [by split|]. split; [done|]. split; [by intros [_ ?]%Hr|]. cbn. by rewrite app_nil_r. }
  cbn [mbind outcome_bind]. unfold fclose_r. destruct (p_call p2) as [ok3 p3] eqn:E3.
  pose proof (p_call_retry _ _ _ E3) as Hr3. pose proof (p_call_disk _ _ _ E3) as Hd3. destruct HW as [HW1 HW2]. cbn in HW1.
  do 3 eexists. split; [done|].
  assert (e = true -> ~ p_benign p) as He by (intros Et Hb; destruct (Herr Et) as (? & ? & q & (_ & _ & Hq & _) & Hn); by apply Hn, Hq).
  destruct ok3; cbn.
  - destruct e; [split_and!; [by right|done|congruence|done|by intros ?%He]|].
    destruct (Hdone eq_refl) as [[H2 Hn]|(_ & H2 & H3 & H4)]; cbn in H2; subst rc2.
    + split_and!; [by right|done|congruence|done|by intros Hb; destruct Hn].
    + split_and!; [by left|done|congruence|by eauto|]. intros Hb _. split; [done|]. by apply Hr3, H3.
  - split_and!; [by right|done|congruence|done|]. intros Hb _.
    destruct e; [by apply He in Hb|]. destruct (Hdone eq_refl) as [[_ Hn]|(_ & _ & H3 & _)]; [by destruct Hn|].
    by destruct (Hr3 (H3 Hb)).
Qed.

(** ** Inputs *)

(** The records of the [n] input files from [x] on, if all of them exist. *)
Fixpoint input_records (fs : files) (task : Z) (n : nat) (x : Z) : option (list record_t) :=
  match n with
  | O => Some []
  | S n =>
      src ← fs !! reduce_input_path x task;
      rest ← input_records fs task n (x + 1);
      Some (file_records src ++ rest)
  end.

Lemma reduce_input_fits x task : u32 x -> u32 task ->
  snprintf MAPREDUCE_PATH_MAX (reduce_input_path x task) = Some (reduce_input_path x task).
Proof.
  intros Hx%u32_printable Ht%u32_printable. destruct (print_u_spec _ Hx) as (_ & Lx & _), (print_u_spec _ Ht) as (_ & Lt & _).
  unfold snprintf, reduce_input_path. rewrite !zlen_app. change (zlen (lit "intermediate/mr-")) with 16. change (zlen (lit "-")) with 1.
  unfold MAPREDUCE_PATH_MAX. by destruct (Z.leb_spec 1024 (16 + (zlen (print_u x) + (1 + zlen (print_u task))))); [lia|].
Qed.

Lemma reduce_build_paths_ok task attempt pid : u32 task -> u32 attempt -> pid_ok pid ->
  reduce_build_paths task attempt pid = Some (reduce_temp_path task pid attempt, reduce_final_path task).
Proof.
  intros Ht%u32_printable Ha%u32_printable Hp. destruct (pid_printable pid Hp) as [Hp' Ep].
  destruct (print_u_spec _ Ht) as (_ & Lt & _), (print_u_spec _ Ha) as (_ & La & _), (print_u_spec _ Hp') as (_ & Lp & _).
  unfold reduce_build_paths, snprintf, reduce_temp_path, reduce_final_path. rewrite Ep, !zlen_app.
  change (zlen (lit "output/mr-out-")) with 14. change (zlen (lit ".tmp.")) with 5. change (zlen (lit ".")) with 1.
  unfold MAPREDUCE_PATH_MAX.
  destruct (Z.leb_spec 1024 (14 + (zlen (print_u task) + (5 + (zlen (print_u pid) + (1 + zlen (print_u attempt))))))); [lia|].
  by destruct (Z.leb_spec 1024 (14 + zlen (print_u task))); [lia|].
Qed.

Lemma reduce_temp_final task pid attempt : u32 task -> reduce_temp_path task pid attempt <> reduce_final_path task.
Proof.
  intros Ht%u32_printable E. unfold reduce_temp_path, reduce_final_path in E. apply app_inv_head in E.
  rewrite <- (app_nil_r (print_u task)) in E at 2. by apply app_inv_head in E.
Qed.

Lemma read_inputs_ok task n : forall x l p, list_ok l -> u32 task -> 0 <= x -> x + Z.of_nat n <= 2 ^ 32 ->
  exists ok l' p', read_inputs n x task l p = Ret (ok, l', p') /\ list_ok l' /\ p_disk p' = p_disk p /\
    (ok = true -> exists recs, input_records (p_files p) task n x = Some recs /\ l_records l' = l_records l ++ recs) /\
    (p_benign p -> is_Some (input_records (p_files p) task n x) -> ok = true /\ p_benign p').
Proof.
  induction n as [|n IH]; intros x l p Hl Ht Hx Hn; cbn [read_inputs input_records].
  { do 3 eexists. split; [done|]. split_and!; [done|done| |done]. intros _. exists []. by rewrite app_nil_r. }
  rewrite reduce_input_fits by (done || (unfold fits; lia)).
  destruct (read_records_file_ok (reduce_input_path x task) l p Hl) as (rc & l1 & p1 & -> & Hrc & Hl1 & Hd1 & H0 & Hb).
  cbn [mbind outcome_bind]. assert (p_files p1 = p_files p) as Hf by (unfold p_files; by rewrite Hd1).
  destruct Hrc as [-> | ->]; cbn [negb Z.eqb].
  - destruct (H0 eq_refl) as (src & Es & Hr). rewrite Es.
    destruct (IH (x + 1) l1 p1 Hl1 Ht ltac:(lia) ltac:(lia)) as (ok & l' & p' & -> & Hl' & Hd' & Hok & Hb').
    rewrite Hf in Hok, Hb'. do 3 eexists. split; [done|]. split_and!; [done|congruence| |].
    + intros ->. destruct (Hok eq_refl) as (recs & -> & Hr'). cbn. eexists. split; [done|]. by rewrite Hr', Hr, <- app_assoc.
    + intros Hb0 Hsome. destruct (Hb Hb0 ltac:(by rewrite Es)) as [_ Hb1]. apply Hb'; [done|].
      cbn in Hsome. by destruct (input_records (p_files p) task n (x + 1)).
  - do 3 eexists. split; [done|]. split_and!; [done|done|done|]. intros Hb0 Hsome.
    destruct (p_files p !! reduce_input_path x task) eqn:Es; [|by destruct Hsome]. by destruct (Hb Hb0 ltac:(done)).
Qed.

(** ** The output *)

Section Output.
Context {q : Qsort} {HQ : QsortSpec q}.
Context (task attempt pid : Z) (Htask : u32 task) (recs : list record_t) (old : disk).

Definition reduce_temp (i : nat) : list Z := reduce_temp_path task pid attempt.
Definition reduce_final (i : nat) : list Z := reduce_final_path task.
Definition reduce_data (i : nat) : list Z := reduce_output recs.

Lemma single_index (f : nat -> list Z) i j : (i < 1)%nat -> (j < 1)%nat -> f i = f j -> i = j.
Proof. lia. Qed.

Lemma reduce_temp_not_final i j : (i < 1)%nat -> (j < 1)%nat -> reduce_temp i <> reduce_final j.
Proof. intros _ _. by apply reduce_temp_final. Qed.

Let safe := safe 1 reduce_temp reduce_final reduce_data old.

(** The output stream after the lines of some groups. *)
Definition folded (benign0 : Prop) (gs : list (list Z * list (list Z))) (out : ofile) (p : proc) : Prop :=
  o_path out = reduce_temp 0 /\ safe p /\ (o_err out = false -> o_data out = group_lines gs) /\
  (benign0 -> o_err out = false /\ p_benign p).

Lemma fold_word_count_ok benign0 gs k vs out p out' p' : fold_word_count k vs out p = (out', p') ->
  folded benign0 gs out p -> folded benign0 (gs ++ [(k, vs)]) out' p'.
Proof.
  unfold fold_word_count, fprintf. intros E (H1 & H2 & H3 & H4). destruct (p_call p) as [ok p1] eqn:Ep.
  pose proof (p_call_retry _ _ _ Ep) as Hr. destruct (safe_call _ _ _ _ _ _ _ _ Ep H2) as [Hs _].
  assert (group_lines (gs ++ [(k, vs)]) = group_lines gs ++ count_line k (zlen vs)) as Hg.
  { unfold group_lines. rewrite map_app, concat_app. cbn. by rewrite app_nil_r. }
  destruct ok; simplify_eq; (split; [done|]); (split; [done|]); cbn; split.
  - intros He. by rewrite Hg, H3.
  - intros [He Hb]%H4. split; [done|]. by apply Hr.
  - done.
  - intros [He Hb]%H4. by destruct (Hr Hb).
Qed.

Lemma write_output_ok l p : l_records l = recs -> safe p ->
  exists rc p', write_output fold_word_count (reduce_temp 0) (reduce_final 0) l p = (rc, p') /\
    (rc = 0 \/ rc = -1) /\ safe p' /\
    (rc = 0 -> groups_small recs /\ p_files p' !! reduce_final 0 = Some (reduce_output recs) /\ p_files p' !! reduce_temp 0 = None) /\
    (p_benign p -> groups_small recs -> rc = 0) /\ (p_benign p -> p_benign p').
Proof.
  intros Hl Hs. unfold write_output. rewrite Hl.
  destruct (fopen_w (reduce_temp 0) p) as [fo p1] eqn:E1.
  destruct (fopen_w_safe 1 _ _ reduce_data old reduce_temp_not_final 0 p fo p1 ltac:(lia) E1 Hs) as (Hs1 & Hf & Hb1).
  destruct fo as [f|]; [|do 2 eexists; split; [done|]; split_and!; [by right|done|done|by intros [? _]%Hb1|by intros [_ ?]%Hb1]].
  destruct Hf as [|[= ->]]; [done|].
  destruct (group_walk_ok fold_word_count (folded (p_benign p)) (fold_word_count_ok (p_benign p)) (qsort recs)
    (mk_ofile (reduce_temp 0) [] false) p1) as (ok & out & p2 & -> & Hw); [split_and!; [done|done|done|by intros [_ ?]%Hb1]|].
  destruct ok; cbn [negb].
  2:{ destruct Hw as [(gs & H1 & H2 & H3 & H4) Hbig]. destruct (fclose_w out p2) as [rc p3] eqn:E3. cbn [snd].
      destruct (fclose_w_safe 1 _ _ reduce_data old (single_index reduce_temp) reduce_temp_not_final 0 out p2 rc p3 ltac:(lia) H1 E3 H2)
        as (Hs3 & _ & _ & Hb3).
      do 2 eexists. split; [done|]. split_and!; [by right|done|done| |by intros [_ [_ ?]%Hb3]%H4].
      intros _ Hsm%small_qsort. apply Exists_exists in Hbig as (g & Hg & Hn). rewrite Forall_forall in Hsm. destruct Hn. by apply Hsm. }
  destruct Hw as [(H1 & H2 & H3 & H4) Hsm]. rewrite group_lines_qsort in H3. rewrite small_qsort in Hsm.
  destruct (o_err out) eqn:Eo.
  { destruct (fclose_w out p2) as [rc p3] eqn:E3. cbn [snd].
    destruct (fclose_w_safe 1 _ _ reduce_data old (single_index reduce_temp) reduce_temp_not_final 0 out p2 rc p3 ltac:(lia) H1 E3 H2)
      as (Hs3 & _ & _ & Hb3).
    do 2 eexists. split; [done|]. split_and!; [by right|done|done|by intros [? _]%H4|by intros [_ [_ ?]%Hb3]%H4]. }
  destruct (fclose_w out p2) as [rc p3] eqn:E3.
  destruct (fclose_w_safe 1 _ _ reduce_data old (single_index reduce_temp) reduce_temp_not_final 0 out p2 rc p3 ltac:(lia) H1 E3 H2)
    as (Hs3 & _ & Hc & Hb3).
  destruct (Z.eqb_spec rc 0) as [->|Hrc]; cbn [negb].
  2:{ do 2 eexists. split; [done|]. split_and!; [by right|done|done| |by intros [_ [_ ?]%Hb3]%H4]. by intros [_ [? _]%Hb3]%H4. }
  destruct (rename (reduce_temp 0) (reduce_final 0) p3) as [rrc p4] eqn:E4.
  destruct (rename_safe 1 _ _ reduce_data old (single_index reduce_temp) (single_index reduce_final) reduce_temp_not_final 0 p3 rrc p4)
    as (Hs4 & _ & Hr4 & Hb4); [lia|by rewrite Hc, H3|done|done|].
  destruct Hr4 as [(-> & Ht & Hfin)| ->]; cbn; do 2 eexists; (split; [done|]); split_and!; try done; try (by auto).
  - by intros [_ [_ [_ ?]%Hb4]%Hb3]%H4.
  - by intros [_ [_ [? _]%Hb4]%Hb3]%H4.
  - by intros [_ [_ [_ ?]%Hb4]%Hb3]%H4.
Qed.

(** A failed run leaves the final file as it was. *)
Lemma write_output_failed l p p' : write_output fold_word_count (reduce_temp 0) (reduce_final 0) l p = (-1, p') ->
  p_files p' !! reduce_final 0 = p_files p !! reduce_final 0.
Proof.
  assert (reduce_temp 0 <> reduce_final 0) as Hne by (apply reduce_temp_not_final; lia).
  assert (forall f q rc q', o_path f = reduce_temp 0 -> fclose_w f q = (rc, q') ->
    p_files q' !! reduce_final 0 = p_files q !! reduce_final 0) as Hclose.
  { intros f q0 rc q' Hp. unfold fclose_w. destruct (p_call q0) as [ok q1] eqn:E. apply p_call_set_io in E as [s ->].
    destruct ok; intros [= <- <-]; [|done]. cbn. rewrite Hp. by rewrite lookup_insert_ne. }
  unfold write_output, fopen_w. destruct (p_call p) as [ok p1] eqn:E1. apply p_call_set_io in E1 as [s1 ->].
  destruct ok; [|by intros [= <-]].
  set (p2 := write_files _ _). assert (p_files p2 !! reduce_final 0 = p_files p !! reduce_final 0) as Ef.
  { cbn. by rewrite lookup_insert_ne. }
  destruct (group_walk_ok fold_word_count (fun _ out q => o_path out = reduce_temp 0 /\ p_disk q = p_disk p2)) with
    (l := qsort (l_records l)) (out := mk_ofile (reduce_temp 0) [] false) (p := p2) as (ok & out & p3 & -> & Hw); [|done|].
  { unfold fold_word_count, fprintf. intros gs k vs out q0 out' q' E [H1 H2]. destruct (p_call q0) as [ok q1] eqn:Eq.
    apply p_call_disk in Eq. destruct ok; simplify_eq; split; (done || congruence). }
  assert (o_path out = reduce_temp 0 /\ p_files p3 !! reduce_final 0 = p_files p !! reduce_final 0) as [Hp Hf3].
  { unfold p_files in *. destruct ok; [destruct Hw as [[-> ->] _]|destruct Hw as [(? & -> & ->) _]]; done. }
  destruct (fclose_w out p3) as [rc p4] eqn:E4. pose proof (Hclose _ _ _ _ Hp E4) as Hf4.
  destruct ok; cbn [negb snd]; [|intros [= <-]; congruence].
  destruct (o_err out); [intros [= <-]; congruence|].
  destruct (negb (rc =? 0)); [intros [= <-]; congruence|].
  unfold rename. destruct (p_call p4) as [ok5 p5] eqn:E5. apply p_call_set_io in E5 as [s5 ->].
  destruct (p_files (set_io s5 p4) !! reduce_temp 0), ok5; intros E; simplify_eq; unfold p_files in *; cbn in *; congruence.
Qed.
End Output.

(** ** Theorems *)

(** The arguments of a reduce task, in range. *)
Definition reduce_task_ok (task attempt n_map pid : Z) : Prop :=
  u32 task /\ u32 attempt /\ 0 < n_map <= 2 ^ 32 - 1 /\ pid_ok pid.
#[export] Instance reduce_task_ok_dec task attempt n_map pid : Decision (reduce_task_ok task attempt n_map pid).
Proof. unfold reduce_task_ok. apply _. Defined.

(** A run of a reduce task, for any answers of the kernel. *)
Lemma worker_reduce_run_ok {q : Qsort} {HQ : QsortSpec q} task attempt n_map pid old io0 :
  reduce_task_ok task attempt n_map pid ->
  let input := input_records (d_files old) task (Z.to_nat n_map) 0 in
  let temp := reduce_temp task attempt pid in
  let final := reduce_final task in
  let safe := safe 1 temp final (reduce_data (default [] input)) old in
  exists rc p', worker_reduce_run fold_word_count task attempt n_map pid (mk_proc old io0) = Ret (rc, p') /\
    (rc = 0 \/ rc = -1) /\ safe p' /\
    (rc = -1 -> p_files p' !! final 0%nat = d_files old !! final 0%nat) /\
    (rc = 0 -> exists recs, input = Some recs /\ groups_small recs /\
       p_files p' !! final 0%nat = Some (reduce_output recs) /\ p_files p' !! temp 0%nat = None) /\
    (benign io0 -> is_Some input -> groups_small (default [] input) -> rc = 0 /\ p_benign p').
Proof.
  intros (Ht & Ha & Hn & Hp) input temp final safe. set (p := mk_proc old io0).
  assert (safe p) as Hs0 by apply safe_start.
  assert (forall p', p_disk p' = p_disk p -> safe p' /\ p_files p' = d_files old) as Hsame.
  { intros p' Hd. unfold safe, Publish.safe, p_files. rewrite Hd. done. }
  unfold worker_reduce_run. destruct (Z.ltb_spec 0 n_map); [|lia]. cbn [c_assert mbind outcome_bind].
  destruct (record_list_create p) as [[l|] p1] eqn:E1.
  2:{ destruct (Hsame p1 (record_list_create_disk _ _ _ E1)) as [Hs1 Hf1]. do 2 eexists. split; [done|]. split_and!; [by right|done|by rewrite Hf1|done|].
      intros Hb. destruct (record_list_create_benign p Hb) as (l & p' & E & _). congruence. }
  pose proof (record_list_create_ok _ _ _ E1) as (Hl & Hr). pose proof (record_list_create_disk _ _ _ E1) as Hd1.
  rewrite reduce_build_paths_ok by done.
  destruct (read_inputs_ok task (Z.to_nat n_map) 0 l p1 Hl Ht ltac:(lia) ltac:(lia)) as (ok & l2 & p2 & -> & _ & Hd2 & Hin & Hb2).
  assert (p_disk p2 = p_disk p) as Hd by congruence. destruct (Hsame p1 Hd1) as [_ Hf1], (Hsame p2 Hd) as [Hs2 Hf2].
  rewrite Hf1 in Hin, Hb2. fold input in Hin, Hb2. cbn [mbind outcome_bind].
  assert (benign io0 -> p_benign p1) as Hb1.
  { intros Hb. destruct (record_list_create_benign p Hb) as (l' & p' & E & ?). congruence. }
  destruct ok; cbn [negb].
  2:{ do 2 eexists. split; [done|]. split_and!; [by right|done|by rewrite Hf2|done|].
      intros Hb Hsome. by destruct (Hb2 (Hb1 Hb) Hsome). }
  destruct (Hin eq_refl) as (recs & Ei & Hrec). rewrite Hr in Hrec. cbn [app] in Hrec.
  destruct (write_output_ok task attempt pid Ht recs old l2 p2 Hrec) as (rc & p' & E & Hrc & Hs' & H0 & Hb' & Hb3).
  { unfold safe in Hs2. by rewrite Ei in Hs2. }
  change (reduce_temp_path task pid attempt) with (reduce_temp task attempt pid 0).
  change (reduce_final_path task) with (reduce_final task 0). rewrite E.
  exists rc, p'. split; [done|]. split; [done|]. unfold safe. rewrite Ei. cbn [default]. split_and!; [done| | |].
  - intros ->. apply write_output_failed in E; [|done]. by rewrite Hf2 in E.
  - intros ->. exists recs. split; [done|]. by apply H0.
  - intros Hb _ Hsm. destruct (Hb2 (Hb1 Hb) ltac:(by rewrite Ei)) as [_ Hp2]. split; [by apply Hb'|by apply Hb3].
Qed.

(** C18: a reduce task publishes its output atomically. Whatever the kernel
    answers, and whatever the intermediate files hold, the run returns 0 or -1;
    in every state the disk goes through, output/mr-out-{task} is what it was
    before or is complete, and no other file but the task's temporary one is
    touched. When the run returns -1 the output is what it was; when it returns
    0 all inputs were there, the output is complete and the temporary file is
    gone. *)
Theorem reduce_publishes_atomically {q : Qsort} {HQ : QsortSpec q} task attempt n_map pid old io0 :
  reduce_task_ok task attempt n_map pid ->
  let input := input_records (d_files old) task (Z.to_nat n_map) 0 in
  let temp := reduce_temp task attempt pid in
  let final := reduce_final task in
  exists rc p', worker_reduce_run fold_word_count task attempt n_map pid (mk_proc old io0) = Ret (rc, p') /\
    (rc = 0 \/ rc = -1) /\
    (exists recent, d_seen (p_disk p') = recent ++ d_seen old /\
       Forall (publishing 1 temp final (reduce_data (default [] input)) old) (p_files p' :: recent)) /\
    (rc = -1 -> p_files p' !! reduce_final_path task = d_files old !! reduce_final_path task) /\
    (rc = 0 -> exists recs, input = Some recs /\
       p_files p' !! reduce_final_path task = Some (reduce_output recs) /\
       p_files p' !! reduce_temp_path task pid attempt = None).
Proof.
  intros Hok input temp final. destruct (worker_reduce_run_ok task attempt n_map pid old io0 Hok) as (rc & p' & -> & Hrc & Hs & Hm & H0 & _).
  do 2 eexists. split; [done|]. split; [done|]. split; [destruct Hs as (? & l & ? & ?); exists l; split; [done|by constructor]|]. split; [done|].
  intros H. destruct (H0 H) as (recs & ? & _ & ? & ?). eauto.
Qed.

(** C8: what a reduce task computes. When nothing fails and all intermediate
    files exist, the run succeeds exactly if no key has more than
    WORKER_REDUCE_MAX_VALUES_PER_KEY values, whatever order qsort gives to equal
    keys. The output then has one line per distinct key, in strcmp order, with
    the number of records that have the key; otherwise the task fails and the
    output file is left alone. Other files are not touched. *)
Theorem worker_reduce_run_spec {q : Qsort} {HQ : QsortSpec q} task attempt n_map pid old io0 recs :
  reduce_task_ok task attempt n_map pid -> benign io0 ->
  input_records (d_files old) task (Z.to_nat n_map) 0 = Some recs ->
  exists p', worker_reduce_run fold_word_count task attempt n_map pid (mk_proc old io0) =
      Ret (if decide (groups_small recs) then 0 else -1, p') /\
    p_files p' !! reduce_final_path task =
      (if decide (groups_small recs) then Some (reduce_output recs) else d_files old !! reduce_final_path task) /\
    forall path, path <> reduce_final_path task -> path <> reduce_temp_path task pid attempt ->
      p_files p' !! path = d_files old !! path.
Proof.
  intros Hok Hb Hi. destruct (worker_reduce_run_ok task attempt n_map pid old io0 Hok) as (rc & p' & -> & Hrc & Hs & Hm & H0 & Hb0).
  rewrite Hi in Hb0, H0. cbn [default] in Hb0. exists p'.
  assert (rc = if decide (groups_small recs) then 0 else -1) as Erc.
  { destruct (decide (groups_small recs)) as [Hsm|Hbig]; [by apply Hb0|]. destruct Hrc as [-> | ->]; [|done].
    destruct (H0 eq_refl) as (recs' & [= <-] & ? & _). done. }
  split; [by rewrite Erc|]. split.
  - destruct (decide (groups_small recs)); [|by apply Hm]. destruct (H0 Erc) as (recs' & [= <-] & _ & ? & _). done.
  - intros path Hf Ht. apply (safe_files _ _ _ _ _ _ Hs). by intros i _.
Qed.

(** The keys of the output are sorted, distinct, and those of the records. *)
Lemma sorted_keys_spec recs :
  StronglySorted str_le (sorted_keys recs) /\ NoDup (sorted_keys recs) /\
  forall k, k ∈ sorted_keys recs <-> exists r, r ∈ recs /\ r_key r = k.
Proof.
  unfold sorted_keys. split; [apply StronglySorted_merge_sort; apply _|].
  split; [rewrite merge_sort_Permutation; apply NoDup_remove_dups|]. intros k.
  rewrite merge_sort_Permutation, elem_of_remove_dups. split.
  - intros (r & -> & ?)%list_elem_of_fmap. eauto.
  - intros (r & ? & <-). by apply list_elem_of_fmap_2.
Qed.

(** ** Witnesses *)

Definition demo_inputs : files := {[
  reduce_input_path 0 0 := lit "b" ++ [9; 49; 10] ++ lit "a" ++ [9; 49; 10];
  reduce_input_path 1 0 := lit "b" ++ [9; 49; 10] ++ lit "no tab" ++ [10] ++ [9; 49; 10] ]}.

Definition demo_output : list Z := lit "a" ++ [9; 49; 10] ++ lit "b" ++ [9; 50; 10].

(** The rename fails: the old output stays. *)
Lemma reduce_publishes_atomically_witness :
  let old := mk_disk (<[reduce_final_path 0 := lit "old"]> demo_inputs) [] in
  exists p', worker_reduce_run (H := qsort_merge) fold_word_count 0 1 2 77 (mk_proc old (replicate 23 (IoOk 0) ++ [IoErr])) = Ret (-1, p') /\
    p_files p' !! reduce_final_path 0 = Some (lit "old").
Proof.
  intros old.
  destruct (reduce_publishes_atomically (q := qsort_merge) 0 1 2 77 old (replicate 23 (IoOk 0) ++ [IoErr]) ltac:(decide_now))
    as (rc & p' & E & _ & _ & Hm & _).
  exists p'. assert (rc = -1) as ->.
  { assert (fst <$> (match worker_reduce_run (H := qsort_merge) fold_word_count 0 1 2 77
      (mk_proc old (replicate 23 (IoOk 0) ++ [IoErr])) with Ret x => Some x | _ => None end) = Some (-1)) as H
      by (vm_compute; reflexivity). rewrite E in H. by injection H. }
  split; [exact E|]. rewrite (Hm eq_refl). reflexivity.
Defined.

Lemma worker_reduce_run_spec_witness :
  exists p', worker_reduce_run (H := qsort_merge) fold_word_count 0 1 2 77 (mk_proc (mk_disk demo_inputs []) []) = Ret (0, p') /\
    p_files p' !! reduce_final_path 0 = Some demo_output.
Proof.
  destruct (worker_reduce_run_spec (q := qsort_merge) 0 1 2 77 (mk_disk demo_inputs []) []
    [mk_record (lit "b") (lit "1"); mk_record (lit "a") (lit "1"); mk_record (lit "b") (lit "1")]) as (p' & E & H & _);
    [decide_now|decide_now|vm_compute; reflexivity|].
  rewrite decide_True in E by decide_now. rewrite decide_True in H by decide_now.
  exists p'. split; [exact E|]. rewrite H. vm_compute. reflexivity.
Defined.
