(* ===== verification/Worker.v ===== *)
(** * The worker process (src/worker.c)

    The client side of the protocol: framing over a blocking socket, the
    request for a task, the report of its result, and the main loop. The other
    end of the connection is a type class, so that the loop can be run against
    the server of this library. Sleeping has no effect on this state. *)

From Stdlib Require Import String.
From S2P Require Import Prelude Limits Util Task Rpc Stdio Config Publish WorkerMap WorkerReduce.

(** What the other end does with the bytes it gets, and the bytes it sends
    back. *)
Class Peer (P : Type) := peer_recv : list Z -> P -> outcome (list Z * P).

(** The process, the bytes that wait on the socket, and the other end. *)
Record worker_state (P : Type) := mk_worker_state { w_proc : proc; w_in : list Z; w_peer : P }.
Arguments mk_worker_state {P}.
Arguments w_proc {P}.
Arguments w_in {P}.
Arguments w_peer {P}.

(** A GetTask response; DONE has no body. *)
Inductive task_response_t : Type :=
  | RespMap (m : rpc_task_map_resp_t)
  | RespReduce (m : rpc_task_reduce_resp_t)
  | RespWait (m : rpc_wait_resp_t)
  | RespDone.

Definition EXIT_SUCCESS : Z := 0.
Definition EXIT_FAILURE : Z := 1.

Section Worker.
Context {P : Type} `{Peer P} `{Qsort}.
Implicit Types st : worker_state P.

(** ** Framing primitives *)

(** [send_framed(fd, payload, len)]; the bytes the kernel accepts reach the
    other end, also those of a frame that is cut. *)
Definition worker_send_framed (payload : list Z) st : outcome (Z * worker_state P) :=
  if MSG_MAX <? zlen payload then Ret (-1, st)
  else
    let frame := be_encode 4 (zlen payload) ++ payload in
    let '(n, acc, s) := write_all (p_io (w_proc st)) frame in
    '(reply, peer) ← match acc with [] => Ret ([], w_peer st) | _ => peer_recv acc (w_peer st) end;
    let st := mk_worker_state (set_io s (w_proc st)) (w_in st ++ reply) peer in
    Ret (if negb (n =? zlen frame) then -1 else 0, st).

(** [recv_framed(fd, buf, cap, out_len)]: the payload, unless it fails. *)
Definition recv_framed (cap : Z) st : option (list Z) * worker_state P :=
  let '(n, hdr, rest, s) := read_exact (p_io (w_proc st)) (w_in st) FRAME_HDR_SIZE in
  let st := mk_worker_state (set_io s (w_proc st)) rest (w_peer st) in
  if negb (n =? FRAME_HDR_SIZE) then (None, st)
  else
    let payload_len := be_decode hdr in
    if cap <? payload_len then (None, st)
    else
      let '(n, buf, rest, s) := read_exact (p_io (w_proc st)) (w_in st) payload_len in
      let st := mk_worker_state (set_io s (w_proc st)) rest (w_peer st) in
      if negb (n =? payload_len) then (None, st) else (Some buf, st).

(** The decoding of a response. *)
Definition decode_response (resp : list Z) : option task_response_t :=
  kind ← rpc_peek_kind resp;
  let body := tail resp in
  match kind with
  | RPC_TASK_MAP_RESP => RespMap <$> rpc_decode_task_map_resp body
  | RPC_TASK_REDUCE_RESP => RespReduce <$> rpc_decode_task_reduce_resp body
  | RPC_WAIT_RESP => RespWait <$> rpc_decode_wait_resp body
  | RPC_DONE_RESP => Some RespDone
  | _ => None
  end.

(** [get_task_req(fd, out)] *)
Definition get_task_req st : outcome (option task_response_t * worker_state P) :=
  match rpc_encode_get_task_req MSG_MAX with
  | None => Ret (None, st)
  | Some buf =>
      '(rc, st) ← worker_send_framed buf st;
      if negb (rc =? 0) then Ret (None, st)
      else
        match recv_framed MSG_MAX st with
        | (None, st) => Ret (None, st)
        | (Some resp, st) => Ret (decode_response resp, st)
        end
  end.

(** [send_task_done(fd, task_id, attempt_id, result)] *)
Definition send_task_done (task_id attempt_id result : Z) st : outcome (Z * worker_state P) :=
  match rpc_encode_task_done_req MSG_MAX (mk_done_req task_id attempt_id result) with
  | None => Ret (-1, st)
  | Some buf => worker_send_framed buf st
  end.

(** [report_task_done(fd, task_id, attempt_id, result, kind_label)] *)
Definition report_task_done (task_id attempt_id result : Z) st : outcome (Z * worker_state P) :=
  '(rc, st) ← send_task_done task_id attempt_id result st;
  if negb (rc =? 0) then Ret (-1, st)
  else
    match recv_framed MSG_MAX st with
    | (None, st) => Ret (-1, st)
    | (Some ack, st) =>
        match rpc_peek_kind ack with
        | Some RPC_TASK_DONE_ACK => Ret (0, st)
        | _ => Ret (-1, st)
        end
    end.

(** ** Main loop *)

(** After a task: report its result. [None] goes on, [Some rc] leaves the loop. *)
Definition finish_task (task_id attempt_id rv : Z) st : outcome (option Z * worker_state P) :=
  let result := if rv =? 0 then 0 else 1 in
  '(rc, st) ← report_task_done task_id attempt_id result st;
  Ret (if negb (rc =? 0) then Some EXIT_FAILURE else None, st).

(** The body of the loop in the process [pid]. *)
Definition worker_turn (pid : Z) st : outcome (option Z * worker_state P) :=
  '(resp, st) ← get_task_req st;
  match resp with
  | None => Ret (Some EXIT_FAILURE, st)
  | Some (RespMap m) =>
      '(rv, p) ← worker_map_run (map_resp_task_id m) (map_resp_attempt_id m) (map_resp_n_reduce m)
                   (cstr (map_resp_input_path m)) pid emit_word_count (w_proc st);
      finish_task (map_resp_task_id m) (map_resp_attempt_id m) rv (mk_worker_state p (w_in st) (w_peer st))
  | Some (RespReduce m) =>
      '(rv, p) ← worker_reduce_run fold_word_count (reduce_resp_task_id m) (reduce_resp_attempt_id m)
                   (reduce_resp_n_map m) pid (w_proc st);
      finish_task (reduce_resp_task_id m) (reduce_resp_attempt_id m) rv (mk_worker_state p (w_in st) (w_peer st))
  | Some (RespWait _) => Ret (None, st)
  | Some RespDone => Ret (Some EXIT_SUCCESS, st)
  end.

(** The loop, for at most [fuel] turns; [None] is a worker that still runs. *)
Fixpoint worker_loop (fuel : nat) (pid : Z) st : outcome (option Z * worker_state P) :=
  match fuel with
  | O => Ret (None, st)
  | S fuel =>
      '(rc, st) ← worker_turn pid st;
      match rc with
      | Some rc => Ret (Some rc, st)
      | None => worker_loop fuel pid st
      end
  end.

(** The host and the port of the command line. *)
Definition worker_args (argv : list (list Z)) : outcome (list Z * Z) :=
  port ← match argv !! 2%nat with Some arg => atoi arg | None => Ret CONFIG_DEFAULT_PORT end;
  Ret (default (lit "127.0.0.1") (argv !! 1%nat), port).

(** The port of the address [client_init] connects to, as [htons] takes it. *)
Definition sin_port (port : Z) : Z := wrap 16 port.

(** [client_init(port, host)]: [socket], [inet_pton] and [connect]; whether it
    succeeds. *)
Definition client_init (p : proc) : bool * proc :=
  let '(ok, p) := p_call p in
  if negb ok then (false, p)
  else
    let '(ok, p) := p_call p in
    if negb ok then (false, p) else p_call p.

(** [main], once the command line is read. *)
Definition worker_main (fuel : nat) (pid : Z) st : outcome (option Z * worker_state P) :=
  let '(ok, p) := client_init (w_proc st) in
  let st := mk_worker_state p (w_in st) (w_peer st) in
  if negb ok then Ret (Some EXIT_FAILURE, st) else worker_loop fuel pid st.

(** A host and a port a master can listen on are read back; the defaults are
    those of the master; nothing else is refused, and a port beyond 16 bits
    names another one. *)
Lemma worker_args_spec name host port rest : 0 < port < 2 ^ 16 ->
  worker_args (name :: host :: print_d port :: rest) = Ret (host, port) /\ sin_port port = port /\
  worker_args [name] = Ret (lit "127.0.0.1", CONFIG_DEFAULT_PORT).
Proof.
  intros Hp. unfold worker_args, sin_port. cbn [lookup list_lookup default]. rewrite atoi_print_d by lia.
  split; [done|]. split; [|done]. apply wrap_small. unfold fits. lia.
Qed.

Lemma sin_port_wraps port : sin_port (port + 2 ^ 16) = sin_port port.
Proof. unfold sin_port, wrap. by rewrite <- Z.add_mod_idemp_r, Z.mod_same, Z.add_0_r by lia. Qed.

(** ** Exchanges *)

(** A frame that has arrived is received whole, whatever the transfer sizes. *)
Lemma recv_framed_frame cap payload rest pr peer : benign (p_io pr) -> zlen payload <= cap -> zlen payload <= MSG_MAX ->
  exists s, benign s /\ recv_framed cap (mk_worker_state pr (be_encode 4 (zlen payload) ++ payload ++ rest) peer) =
    (Some payload, mk_worker_state (set_io s pr) rest peer).
Proof.
  intros Hb Hcap Hmax. unfold recv_framed. cbn [w_proc w_in w_peer].
  pose proof (read_exact_benign (p_io pr) (be_encode 4 (zlen payload)) (payload ++ rest) Hb) as (s1 & E1 & Hb1).
  rewrite zlen_be_encode in E1. change (Z.of_nat 4) with FRAME_HDR_SIZE in E1. rewrite E1.
  change (negb (FRAME_HDR_SIZE =? FRAME_HDR_SIZE)) with false. cbv beta iota zeta.
  rewrite be_decode_encode by (pose proof (zlen_nonneg payload); limits; unfold fits; lia).
  destruct (Z.ltb_spec cap (zlen payload)); [lia|]. cbn [w_proc w_in set_io p_io].
  destruct (read_exact_benign s1 payload rest Hb1) as (s2 & -> & Hb2). rewrite Z.eqb_refl. cbn [negb].
  exists s2. by split.
Qed.

(** A request and its reply, with a peer that answers with one frame. *)
Lemma exchange payload reply pr peer peer' :
  benign (p_io pr) -> zlen payload <= MSG_MAX -> zlen reply <= MSG_MAX ->
  peer_recv (be_encode 4 (zlen payload) ++ payload) peer = Ret (be_encode 4 (zlen reply) ++ reply, peer') ->
  exists s1 s2, benign s2 /\ worker_send_framed payload (mk_worker_state pr [] peer) =
      Ret (0, mk_worker_state (set_io s1 pr) (be_encode 4 (zlen reply) ++ reply) peer') /\
    recv_framed MSG_MAX (mk_worker_state (set_io s1 pr) (be_encode 4 (zlen reply) ++ reply) peer') =
      (Some reply, mk_worker_state (set_io s2 pr) [] peer').
Proof.
  intros Hb Hp Hr E. unfold worker_send_framed. destruct (Z.ltb_spec MSG_MAX (zlen payload)); [lia|]. cbn [w_proc w_in w_peer].
  destruct (write_all_benign (p_io pr) (be_encode 4 (zlen payload) ++ payload) Hb) as (s1 & -> & Hb1).
  assert (exists b l, be_encode 4 (zlen payload) ++ payload = b :: l) as (b & l & Ef) by (cbn; eauto).
  rewrite Ef. rewrite Ef in E. rewrite E. cbn [mbind outcome_bind]. rewrite Z.eqb_refl. cbn [negb app].
  destruct (recv_framed_frame MSG_MAX reply [] (set_io s1 pr) peer' Hb1 Hr Hr) as (s2 & Hb2 & E2).
  rewrite app_nil_r in E2. exists s1, s2. by split_and!.
Qed.

(** Asking for a task. *)
Lemma get_task_exchange msg pr peer peer' : benign (p_io pr) -> message_wf msg ->
  peer_recv (be_encode 4 1 ++ message_bytes GetTaskReq) peer =
    Ret (be_encode 4 (zlen (message_bytes msg)) ++ message_bytes msg, peer') ->
  exists s, benign s /\ get_task_req (mk_worker_state pr [] peer) =
    Ret (decode_response (message_bytes msg), mk_worker_state (set_io s pr) [] peer').
Proof.
  intros Hb Hwf E. unfold get_task_req. change (rpc_encode_get_task_req MSG_MAX) with (Some (message_bytes GetTaskReq)).
  destruct (exchange (message_bytes GetTaskReq) (message_bytes msg) pr peer peer' Hb ltac:(by vm_compute)
    (message_bytes_max _ Hwf) E) as (s1 & s2 & Hb2 & -> & E2). cbn [mbind outcome_bind negb Z.eqb]. rewrite E2. by exists s2.
Qed.

Lemma decode_response_bytes msg : message_wf msg ->
  decode_response (message_bytes msg) =
  match msg with
  | TaskMapResp m => Some (RespMap m)
  | TaskReduceResp m => Some (RespReduce m)
  | WaitResp m => Some (RespWait m)
  | DoneResp => Some RespDone
  | _ => None
  end.
Proof.
  intros Hwf. pose proof (rpc_decode_body_bytes msg Hwf) as Hd. unfold decode_response, message_bytes.
  rewrite rpc_peek_kind_code. cbn [mbind option_bind tail].
  destruct msg; cbn [message_kind rpc_decode_body] in Hd |- *; try done;
    match type of Hd with _ <$> ?d = _ => destruct d eqn:Ed; cbn in Hd; [by injection Hd as ->|done] end.
Qed.

(** Reporting a result. *)
Lemma report_exchange msg pr peer peer' : benign (p_io pr) -> message_wf (TaskDoneReq msg) ->
  peer_recv (be_encode 4 (zlen (message_bytes (TaskDoneReq msg))) ++ message_bytes (TaskDoneReq msg)) peer =
    Ret (be_encode 4 1 ++ message_bytes TaskDoneAck, peer') ->
  exists s, benign s /\ report_task_done (done_task_id msg) (done_attempt_id msg) (done_result msg) (mk_worker_state pr [] peer) =
    Ret (0, mk_worker_state (set_io s pr) [] peer').
Proof.
  intros Hb Hwf E. unfold report_task_done, send_task_done.
  pose proof (rpc_encode_spec MSG_MAX _ Hwf) as Enc. cbn [rpc_encode] in Enc.
  pose proof (message_bytes_max _ Hwf) as Hmax.
  replace (mk_done_req (done_task_id msg) (done_attempt_id msg) (done_result msg)) with msg by by destruct msg.
  rewrite Enc. destruct (Z.ltb_spec MSG_MAX (zlen (message_bytes (TaskDoneReq msg)))); [lia|].
  destruct (exchange (message_bytes (TaskDoneReq msg)) (message_bytes TaskDoneAck) pr peer peer' Hb Hmax ltac:(by vm_compute) E)
    as (s1 & s2 & Hb2 & -> & E2). cbn [mbind outcome_bind negb Z.eqb]. rewrite E2. by exists s2.
Qed.

(** ** A peer that has gone *)

(** The other end takes bytes and sends nothing. *)
Definition silent : Prop := forall bytes peer, exists peer', peer_recv bytes peer = Ret ([], peer').

Lemma recv_framed_eof cap pr peer : exists s, recv_framed cap (mk_worker_state pr [] peer) = (None, mk_worker_state (set_io s pr) [] peer).
Proof.
  unfold recv_framed. cbn [w_proc w_in w_peer]. destruct (read_exact _ _ _) as [[[n hdr] rest] s] eqn:E.
  apply read_exact_spec in E as (Hsrc & _ & Hn & _); [|done].
  symmetry in Hsrc. apply app_eq_nil in Hsrc as [-> ->]. exists s.
  by destruct Hn as [-> |[-> _]].
Qed.

Lemma worker_send_silent payload pr peer : silent ->
  exists rc s peer', worker_send_framed payload (mk_worker_state pr [] peer) = Ret (rc, mk_worker_state (set_io s pr) [] peer').
Proof.
  intros Hs. unfold worker_send_framed. destruct (_ <? _).
  - exists (-1), (p_io pr), peer. by destruct pr.
  - cbn zeta. cbn [w_proc w_in w_peer]. destruct (write_all _ _) as [[n acc] s].
    destruct acc as [|b acc]; [|destruct (Hs (b :: acc) peer) as [peer' ->]]; do 3 eexists; done.
Qed.

(** A report nobody answers. *)
Lemma report_unanswered msg pr peer peer' : benign (p_io pr) -> message_wf (TaskDoneReq msg) ->
  peer_recv (be_encode 4 (zlen (message_bytes (TaskDoneReq msg))) ++ message_bytes (TaskDoneReq msg)) peer = Ret ([], peer') ->
  exists s, report_task_done (done_task_id msg) (done_attempt_id msg) (done_result msg) (mk_worker_state pr [] peer) =
    Ret (-1, mk_worker_state (set_io s pr) [] peer').
Proof.
  intros Hb Hwf E. unfold report_task_done, send_task_done.
  pose proof (rpc_encode_spec MSG_MAX _ Hwf) as Enc. cbn [rpc_encode] in Enc. pose proof (message_bytes_max _ Hwf) as Hmax.
  replace (mk_done_req (done_task_id msg) (done_attempt_id msg) (done_result msg)) with msg by by destruct msg.
  rewrite Enc. destruct (Z.ltb_spec MSG_MAX (zlen (message_bytes (TaskDoneReq msg)))); [lia|].
  set (p := message_bytes (TaskDoneReq msg)) in *. unfold worker_send_framed. destruct (Z.ltb_spec MSG_MAX (zlen p)); [lia|].
  cbn [w_proc w_in w_peer]. destruct (write_all_benign (p_io pr) (be_encode 4 (zlen p) ++ p) Hb) as (s1 & -> & _).
  assert (exists b l, be_encode 4 (zlen p) ++ p = b :: l) as (b & l & Ef) by (cbn; eauto).
  rewrite Ef. rewrite Ef in E. rewrite E. cbn [mbind outcome_bind]. rewrite Z.eqb_refl. cbn [negb app].
  change (0 =? 0) with true. cbn [negb]. destruct (recv_framed_eof MSG_MAX (set_io s1 pr) peer') as [s2 ->]. by exists s2.
Qed.

Lemma report_silent task attempt result pr peer : silent ->
  exists s peer', report_task_done task attempt result (mk_worker_state pr [] peer) = Ret (-1, mk_worker_state (set_io s pr) [] peer').
Proof.
  intros Hs. unfold report_task_done, send_task_done.
  destruct (rpc_encode_task_done_req _ _) as [buf|]; [|exists (p_io pr), peer; by destruct pr].
  destruct (worker_send_silent buf pr peer Hs) as (rc & s & peer' & ->). cbn [mbind outcome_bind].
  destruct (negb _); [by exists s, peer'|]. destruct (recv_framed_eof MSG_MAX (set_io s pr) peer') as [s' ->].
  by exists s', peer'.
Qed.

Lemma get_task_silent pr peer : silent ->
  exists s peer', get_task_req (mk_worker_state pr [] peer) = Ret (None, mk_worker_state (set_io s pr) [] peer').
Proof.
  intros Hs. unfold get_task_req. change (rpc_encode_get_task_req MSG_MAX) with (Some (message_bytes GetTaskReq)).
  destruct (worker_send_silent (message_bytes GetTaskReq) pr peer Hs) as (rc & s & peer' & ->). cbn [mbind outcome_bind].
  destruct (negb _); [by exists s, peer'|]. destruct (recv_framed_eof MSG_MAX (set_io s pr) peer') as [s' ->].
  by exists s', peer'.
Qed.

(** A worker does not outlive its master. When nothing more arrives on the
    connection, the next turn leaves with EXIT_FAILURE, whatever the kernel
    answers, and runs no task: no file changes. *)
Theorem worker_leaves_when_gone fuel pid pr peer : silent ->
  exists s peer', worker_loop (S fuel) pid (mk_worker_state pr [] peer) =
    Ret (Some EXIT_FAILURE, mk_worker_state (set_io s pr) [] peer') /\
    p_files (set_io s pr) = p_files pr.
Proof.
  intros Hs. destruct (get_task_silent pr peer Hs) as (s & peer' & E). exists s, peer'. split; [|done].
  cbn [worker_loop]. unfold worker_turn. by rewrite E.
Qed.
End Worker.

(** The bytes go nowhere. *)
Definition gone_peer : Peer unit := fun _ u => Ret ([], u).

Lemma worker_leaves_when_gone_witness :
  exists s, worker_loop (H := gone_peer) (H0 := qsort_merge) 9 77 (mk_worker_state (mk_proc (mk_disk ∅ []) []) [] ()) =
    Ret (Some EXIT_FAILURE, mk_worker_state (mk_proc (mk_disk ∅ []) s) [] ()).
Proof.
  destruct (worker_leaves_when_gone (H := gone_peer) (H0 := qsort_merge) 8 77 (mk_proc (mk_disk ∅ []) []) ()) as (s & [] & E & _).
  - intros bytes []. by exists ().
  - exists s. exact E.
Defined.
