(* ===== verification/TaskProgs.v ===== *)
(** * Map and reduce tasks as programs (src/worker_map.c, src/worker_reduce.c)

    Each function of WorkerMap.v and WorkerReduce.v, call by call. [run] of a
    program is the function it is named after. *)

From S2P Require Import Prelude Limits Util Rpc Stdio Calls Publish WorkerMap WorkerReduce Worker.

(** ** Map tasks *)

Section Tokenize.
Context {T : Type} (emit : list Z -> T -> prog T).

Fixpoint emit_tokens_prog (fuel : nat) (ptr : option (list Z)) (ud : T) : prog T :=
  match fuel with
  | O => PEnd Fault
  | S fuel =>
      match strsep map_delim ptr with
      | (None, _) => mret ud
      | (Some tok, ptr) =>
          ud ← match tok with [] => mret ud | _ => emit tok ud end;
          emit_tokens_prog fuel ptr ud
      end
  end.

Definition tokenize_line_prog (line : list Z) (ud : T) : prog (bool * T) :=
  ud ← emit_tokens_prog (S (S (length line))) (Some line) ud;
  mret (true, ud).

Definition tokenize_file_prog (path : list Z) (ud : T) : prog (Z * T) :=
  f ← fopen_r_prog path;
  match f with
  | None => mret (-1, ud)
  | Some src =>
      '(err, ud) ← fgets_loop_prog tokenize_line_prog (S (length src)) WORKER_MAP_LINE_MAX src ud;
      let rc := if (err : bool) then -1 else 0 in
      close_rc ← fclose_r_prog;
      mret (if negb (close_rc =? 0) then -1 else rc, ud)
  end.
End Tokenize.

Fixpoint close_handles_prog (n i : nat) (handles : list (option ofile)) : prog (list (option ofile)) :=
  match n with
  | O => mret handles
  | S n =>
      match handles !! i with
      | None => PEnd Fault
      | Some None => close_handles_prog n (S i) handles
      | Some (Some f) => _ ← fclose_w_prog f; close_handles_prog n (S i) (<[i := None]> handles)
      end
  end.

Definition emit_word_count_prog (token : list Z) (ctx : worker_map_emit_ctx_t) : prog worker_map_emit_ctx_t :=
  if ctx_R ctx =? 0 then PEnd Fault
  else
    let y := wrap 32 (get_hash token mod ctx_R ctx) in
    match ctx_handles ctx !! Z.to_nat y with
    | Some (Some f) =>
        f ← fprintf_prog f (word_record token);
        mret (mk_emit_ctx (<[Z.to_nat y := Some f]> (ctx_handles ctx)) (ctx_R ctx) (ctx_doc_name ctx))
    | _ => PEnd Fault
    end.

Fixpoint open_loop_prog (n : nat) (y : nat) (task_id attempt_id pid : Z) (handles : list (option ofile))
    (paths : map_paths) : prog (bool * list (option ofile) * map_paths) :=
  match n with
  | O => mret (true, handles, paths)
  | S n =>
      if MAX_REDUCE_TASKS <=? Z.of_nat y then PEnd Fault
      else
        match map_build_paths task_id (Z.of_nat y) attempt_id pid with
        | None => handles ← close_handles_prog y 0 handles; mret (false, handles, paths)
        | Some (temp, final) =>
            let paths := mk_map_paths (mp_temp paths ++ [temp]) (mp_final paths ++ [final]) in
            f ← fopen_w_prog temp;
            match f with
            | None => handles ← close_handles_prog y 0 handles; mret (false, handles, paths)
            | Some f => open_loop_prog n (S y) task_id attempt_id pid (<[y := Some f]> handles) paths
            end
        end
  end.

Fixpoint close_pass_prog (n y : nat) (rc : Z) (handles : list (option ofile)) : prog (Z * list (option ofile)) :=
  match n with
  | O => mret (rc, handles)
  | S n =>
      match handles !! y with
      | Some (Some f) =>
          let rc := if o_err f then -1 else rc in
          close_rc ← fclose_w_prog f;
          let rc := if negb (close_rc =? 0) then -1 else rc in
          close_pass_prog n (S y) rc (<[y := None]> handles)
      | _ => PEnd Fault
      end
  end.

Fixpoint rename_pass_prog (n y : nat) (rc : Z) (paths : map_paths) : prog Z :=
  match n with
  | O => mret rc
  | S n =>
      temp ← PEnd (or_fault (mp_temp paths !! y));
      final ← PEnd (or_fault (mp_final paths !! y));
      rename_rc ← rename_prog temp final;
      rename_pass_prog n (S y) (if negb (rename_rc =? 0) then -1 else rc) paths
  end.

Definition worker_map_prog (task_id attempt_id n_reduce : Z) (input_path : list Z) (pid : Z) : prog Z :=
  let R := Z.to_nat n_reduce in
  '(opened, handles, paths) ←
    open_loop_prog R 0 task_id attempt_id pid (replicate (Z.to_nat MAX_REDUCE_TASKS) None) (mk_map_paths [] []);
  if negb opened then _ ← close_handles_prog R 0 handles; mret (-1)
  else
    let ctx := mk_emit_ctx handles n_reduce (base_name input_path) in
    '(rc, ctx) ← tokenize_file_prog emit_word_count_prog input_path ctx;
    '(rc, handles) ← close_pass_prog R 0 rc (ctx_handles ctx);
    if negb (rc =? 0) then _ ← close_handles_prog R 0 handles; mret rc
    else
      rc ← rename_pass_prog R 0 rc paths;
      _ ← close_handles_prog R 0 handles;
      mret rc.

(** ** Reduce tasks *)

Definition record_list_create_prog : prog (option record_list_t) :=
  ok ← do CPlain;
  if negb ok then mret None
  else
    ok ← do CPlain;
    mret (if negb ok then None else Some (mk_record_list [] WORKER_REDUCE_INITIAL_CAPACITY)).

Definition record_list_grow_prog (l : record_list_t) : prog (bool * record_list_t) :=
  if l_count l =? l_capacity l then
    ok ← do CPlain;
    mret (if negb ok then (false, l) else (true, mk_record_list (l_records l) (l_capacity l * 2)))
  else mret (true, l).

Definition record_list_push_prog (l : record_list_t) (key value : list Z) : prog (Z * record_list_t) :=
  '(ok, l) ← record_list_grow_prog l;
  if negb ok then mret (-1, l)
  else
    ok ← do CPlain;
    if negb ok then mret (-1, l)
    else
      ok ← do CPlain;
      if negb ok then mret (-1, l)
      else if l_capacity l <=? l_count l then PEnd Fault
      else mret (0, mk_record_list (l_records l ++ [mk_record key value]) (l_capacity l)).

Definition read_records_line_prog (line : list Z) (st : record_list_t * Z) : prog (bool * (record_list_t * Z)) :=
  let '(l, rc) := st in
  let '(key, ptr) := strsep [9] (Some line) in
  let '(value, _) := strsep [10] ptr in
  match key, value with
  | Some ((_ :: _) as key), Some value =>
      '(push_rc, l) ← record_list_push_prog l key value;
      if negb (push_rc =? 0) then mret (false, (l, -1)) else mret (true, (l, rc))
  | _, _ => mret (true, (l, rc))
  end.

Definition read_records_file_prog (path : list Z) (l : record_list_t) : prog (Z * record_list_t) :=
  f ← fopen_r_prog path;
  match f with
  | None => mret (-1, l)
  | Some src =>
      '(err, (l, rc)) ← fgets_loop_prog read_records_line_prog (S (length src)) WORKER_REDUCE_LINE_MAX src (l, 0);
      let rc := if (err : bool) then -1 else rc in
      close_rc ← fclose_r_prog;
      mret (if negb (close_rc =? 0) then -1 else rc, l)
  end.

Definition fold_word_count_prog (key : list Z) (values : list (list Z)) (out : ofile) : prog ofile :=
  fprintf_prog out (count_line key (zlen values)).

Definition flush_group_prog (cur_key : option (list Z)) (vals : list (list Z)) (out : ofile) : prog ofile :=
  match vals with
  | [] => mret out
  | _ => fold_word_count_prog (default [] cur_key) vals out
  end.

Fixpoint group_walk_prog (records : list record_t) (cur_key : option (list Z)) (vals : list (list Z)) (out : ofile)
    : prog (bool * ofile) :=
  match records with
  | [] => out ← flush_group_prog cur_key vals out; mret (true, out)
  | r :: records =>
      '(cur_key, vals, out) ←
        (if bool_decide (cur_key = Some (r_key r)) then mret (cur_key, vals, out)
         else out ← flush_group_prog cur_key vals out; mret (Some (r_key r), [], out));
      if WORKER_REDUCE_MAX_VALUES_PER_KEY <=? zlen vals then mret (false, out)
      else group_walk_prog records cur_key (vals ++ [r_value r]) out
  end.

Fixpoint read_inputs_prog (n : nat) (x task_id : Z) (l : record_list_t) : prog (bool * record_list_t) :=
  match n with
  | O => mret (true, l)
  | S n =>
      match snprintf MAPREDUCE_PATH_MAX (reduce_input_path x task_id) with
      | None => mret (false, l)
      | Some input_path =>
          '(rc, l) ← read_records_file_prog input_path l;
          if negb (rc =? 0) then mret (false, l) else read_inputs_prog n (x + 1) task_id l
      end
  end.

Definition write_output_prog `{Qsort} (temp_path final_path : list Z) (l : record_list_t) : prog Z :=
  let records := qsort (l_records l) in
  out ← fopen_w_prog temp_path;
  match out with
  | None => mret (-1)
  | Some out =>
      '(ok, out) ← group_walk_prog records None [] out;
      if negb ok then _ ← fclose_w_prog out; mret (-1)
      else if o_err out then _ ← fclose_w_prog out; mret (-1)
      else
        close_rc ← fclose_w_prog out;
        if negb (close_rc =? 0) then mret (-1)
        else
          rename_rc ← rename_prog temp_path final_path;
          mret (if negb (rename_rc =? 0) then -1 else 0)
  end.

Definition worker_reduce_prog `{Qsort} (task_id attempt_id n_map pid : Z) : prog Z :=
  PEnd (c_assert (0 <? n_map));;
  l ← record_list_create_prog;
  match l with
  | None => mret (-1)
  | Some l =>
      match reduce_build_paths task_id attempt_id pid with
      | None => mret (-1)
      | Some (temp_path, final_path) =>
          '(ok, l) ← read_inputs_prog (Z.to_nat n_map) 0 task_id l;
          if negb ok then mret (-1) else write_output_prog temp_path final_path l
      end
  end.

(** ** Agreement with the functions *)

Lemma run_emit_tokens {T} (emit : list Z -> T -> proc -> outcome (T * proc)) (emit_prog : list Z -> T -> prog T) :
  (forall tok ud p, run (emit_prog tok ud) p = emit tok ud p) ->
  forall fuel ptr ud p, run (emit_tokens_prog emit_prog fuel ptr ud) p = emit_tokens emit fuel ptr ud p.
Proof.
  intros He. induction fuel as [|fuel IH]; intros ptr ud p; [done|]. cbn [emit_tokens_prog emit_tokens].
  destruct (strsep map_delim ptr) as [[tok|] ptr']; [|done]. run_step. destruct tok as [|c tok]; [apply IH|].
  rewrite He. destruct (emit _ ud p) as [[ud' p']| |]; [apply IH|done..].
Qed.

Lemma run_tokenize_file {T} (emit : list Z -> T -> proc -> outcome (T * proc)) (emit_prog : list Z -> T -> prog T) :
  (forall tok ud p, run (emit_prog tok ud) p = emit tok ud p) ->
  forall path ud p, run (tokenize_file_prog emit_prog path ud) p = tokenize_file emit path ud p.
Proof.
  intros He path ud p. unfold tokenize_file_prog, tokenize_file. run_step. destruct (fopen_r path p) as [[src|] p1]; [|done].
  run_step. rewrite (run_fgets_loop (tokenize_line emit)).
  - destruct (fgets_loop _ _ _ _ _ _) as [[[err ud1] p2]| |]; [|done..]. run_step. by destruct (fclose_r p2).
  - intros line st p'. unfold tokenize_line_prog, tokenize_line. run_step. rewrite (run_emit_tokens emit) by exact He.
    by destruct (emit_tokens _ _ _ _ _) as [[]| |].
Qed.

Lemma run_close_handles n : forall i hs p, run (close_handles_prog n i hs) p = close_handles_loop n i hs p.
Proof.
  induction n as [|n IH]; intros i hs p; [done|]. cbn [close_handles_prog close_handles_loop].
  destruct (hs !! i) as [[f|]|]; [|apply IH|done]. run_step. destruct (fclose_w f p). apply IH.
Qed.

Lemma run_emit_word_count tok ctx p : run (emit_word_count_prog tok ctx) p = emit_word_count tok ctx p.
Proof.
  unfold emit_word_count_prog, emit_word_count. destruct (ctx_R ctx =? 0); [done|].
  destruct (ctx_handles ctx !! _) as [[f|]|]; [|done..]. run_step. by destruct (fprintf _ _ _).
Qed.

Lemma run_open_loop n : forall y task attempt pid hs paths p,
  run (open_loop_prog n y task attempt pid hs paths) p = open_loop n y task attempt pid hs paths p.
Proof.
  induction n as [|n IH]; intros y task attempt pid hs paths p; [done|]. cbn [open_loop_prog open_loop].
  assert (forall (ps : map_paths) (p : proc), run (handles ← close_handles_prog y 0 hs; mret (false, handles, ps)) p =
    ('(handles, p) ← close_handles hs (Z.of_nat y) p; Ret ((false, handles, ps), p))) as Hclose.
  { intros ps p'. run_step. unfold close_handles. by rewrite run_close_handles, Nat2Z.id. }
  destruct (_ <=? _); [done|]. destruct (map_build_paths _ _ _ _) as [[temp final]|]; [|apply Hclose]. cbv zeta. run_step.
  destruct (fopen_w temp p) as [[f|] p1]; [apply IH|apply Hclose].
Qed.

Lemma run_close_pass n : forall y rc hs p, run (close_pass_prog n y rc hs) p = close_pass n y rc hs p.
Proof.
  induction n as [|n IH]; intros y rc hs p; [done|]. cbn [close_pass_prog close_pass].
  destruct (hs !! y) as [[f|]|]; [|done..]. run_step. destruct (fclose_w f p). apply IH.
Qed.

Lemma run_rename_pass n : forall y rc paths p, run (rename_pass_prog n y rc paths) p = rename_pass n y rc paths p.
Proof.
  induction n as [|n IH]; intros y rc paths p; [done|]. cbn [rename_pass_prog rename_pass]. run_step.
  destruct (mp_temp paths !! y) as [temp|]; [|done]. cbn [or_fault mbind outcome_bind]. run_step.
  destruct (mp_final paths !! y) as [final|]; [|done]. cbn [or_fault mbind outcome_bind]. run_step.
  destruct (rename temp final p). apply IH.
Qed.

Lemma run_worker_map task attempt n_reduce input pid p :
  run (worker_map_prog task attempt n_reduce input pid) p = worker_map_run task attempt n_reduce input pid emit_word_count p.
Proof.
  unfold worker_map_prog, worker_map_run, close_handles. cbv zeta. run_step. rewrite run_open_loop.
  destruct (open_loop _ _ _ _ _ _ _ _) as [[[[opened hs] paths] p1]| |]; [|done..]. cbn [mbind outcome_bind].
  destruct opened; cbn [negb]; run_step; [|by rewrite run_close_handles].
  rewrite (run_tokenize_file emit_word_count) by exact run_emit_word_count.
  destruct (tokenize_file _ _ _ _) as [[[rc ctx] p2]| |]; [|done..]. run_step. rewrite run_close_pass.
  destruct (close_pass _ _ _ _ _) as [[[rc2 hs2] p3]| |]; [|done..]. cbn [mbind outcome_bind].
  destruct (negb _); run_step; [by rewrite run_close_handles|]. rewrite run_rename_pass.
  destruct (rename_pass _ _ _ _ _) as [[rc3 p4]| |]; [|done..]. run_step. by rewrite run_close_handles.
Qed.

Lemma run_record_list_create p : run record_list_create_prog p = Ret (record_list_create p).
Proof.
  unfold record_list_create_prog, record_list_create. run_step. destruct (p_call p) as [[] p1]; cbn [negb]; [|done].
  run_step. by destruct (p_call p1) as [[] p2].
Qed.

Lemma run_record_list_push l key value p : run (record_list_push_prog l key value) p = record_list_push l key value p.
Proof.
  unfold record_list_push_prog, record_list_push. run_step.
  assert (run (record_list_grow_prog l) p = (let '(ok, l, p) := record_list_grow l p in Ret ((ok, l), p))) as ->.
  { unfold record_list_grow_prog, record_list_grow. destruct (_ =? _); [|done]. run_step. by destruct (p_call p) as [[] p1]. }
  destruct (record_list_grow l p) as [[ok l1] p1]. cbn [mbind outcome_bind]. destruct ok; cbn [negb]; [|done].
  run_step. destruct (p_call p1) as [[] p2]; cbn [negb]; [|done]. run_step. destruct (p_call p2) as [[] p3]; cbn [negb]; [|done].
  by destruct (_ <=? _).
Qed.

Lemma run_read_records_file path l p : run (read_records_file_prog path l) p = read_records_file path l p.
Proof.
  unfold read_records_file_prog, read_records_file. run_step. destruct (fopen_r path p) as [[src|] p1]; [|done].
  run_step. rewrite (run_fgets_loop read_records_line).
  - destruct (fgets_loop _ _ _ _ _ _) as [[[err [l1 rc]] p2]| |]; [|done..]. cbn [mbind outcome_bind]. run_step. by destruct (fclose_r p2).
  - intros line [l1 rc] p'. unfold read_records_line_prog, read_records_line.
    destruct (strsep [9] _) as [key ptr], (strsep [10] ptr) as [value ?]. destruct key as [[|c key]|], value as [value|]; try done.
    run_step. rewrite run_record_list_push. destruct (record_list_push _ _ _ _) as [[[rc1 l2] p2]| |]; [|done..].
    cbn [mbind outcome_bind]. by destruct (negb _).
Qed.

Lemma run_flush_group key vals out p : run (flush_group_prog key vals out) p = Ret (flush_group fold_word_count key vals out p).
Proof. unfold flush_group_prog, flush_group, fold_word_count_prog, fold_word_count. destruct vals; [done|apply run_fprintf]. Qed.

Lemma run_group_walk records : forall key vals out p,
  run (group_walk_prog records key vals out) p =
  let '(ok, out, p) := group_walk fold_word_count records key vals out p in Ret ((ok, out), p).
Proof.
  induction records as [|r records IH]; intros key vals out p; cbn [group_walk_prog group_walk].
  { run_step. rewrite run_flush_group. cbn [mbind outcome_bind]. by destruct (flush_group _ _ _ _ _). }
  run_step. destruct (bool_decide _).
  - run_step. destruct (_ <=? _); [done|apply IH].
  - run_step. rewrite run_flush_group. cbn [mbind outcome_bind]. destruct (flush_group _ _ _ _ _) as [out1 p1]. run_step.
    destruct (_ <=? _); [done|apply IH].
Qed.

Lemma run_read_inputs n : forall x task l p, run (read_inputs_prog n x task l) p = read_inputs n x task l p.
Proof.
  induction n as [|n IH]; intros x task l p; [done|]. cbn [read_inputs_prog read_inputs].
  destruct (snprintf _ _) as [path|]; [|done]. run_step. rewrite run_read_records_file.
  destruct (read_records_file _ _ _) as [[[rc l1] p1]| |]; [|done..]. cbn [mbind outcome_bind]. destruct (negb _); [done|apply IH].
Qed.

Lemma run_write_output `{Qsort} temp final l p : run (write_output_prog temp final l) p = Ret (write_output fold_word_count temp final l p).
Proof.
  unfold write_output_prog, write_output. cbv zeta. run_step. destruct (fopen_w temp p) as [[out|] p1]; [|done].
  run_step. rewrite run_group_walk. destruct (group_walk _ _ _ _ _ _) as [[ok out1] p2]. cbn [mbind outcome_bind].
  destruct ok; cbn [negb]; run_step; [|by destruct (fclose_w out1 p2)].
  destruct (o_err out1); run_step; destruct (fclose_w out1 p2) as [rc p3]; [done|]. destruct (negb _); [done|].
  run_step. by destruct (rename temp final p3).
Qed.

Lemma run_worker_reduce `{Qsort} task attempt n_map pid p :
  run (worker_reduce_prog task attempt n_map pid) p = worker_reduce_run fold_word_count task attempt n_map pid p.
Proof.
  unfold worker_reduce_prog, worker_reduce_run. run_step. destruct (c_assert _); [|done..]. cbn [mbind outcome_bind]. run_step.
  rewrite run_record_list_create. cbn [mbind outcome_bind]. destruct (record_list_create p) as [[l|] p1]; [|done].
  destruct (reduce_build_paths _ _ _) as [[temp final]|]; [|done]. run_step. rewrite run_read_inputs.
  destruct (read_inputs _ _ _ _ _) as [[[ok l1] p2]| |]; [|done..]. cbn [mbind outcome_bind]. destruct ok; [|done].
  apply run_write_output.
Qed.

(** ** The files of a task

    A task reads its inputs, writes its temporary files, and renames these to
    its final ones. *)

Section TaskFiles.
Context (Rd Wr Fin : list Z -> Prop).
Abbreviation conf := (confined Rd Wr Fin).

(** The open streams are on files the task may write. *)
Definition handles_in (hs : list (option ofile)) : Prop := Forall (fun h => forall f, h = Some f -> Wr (o_path f)) hs.

Definition paths_in (ps : map_paths) : Prop := Forall Wr (mp_temp ps) /\ Forall Fin (mp_final ps).

Lemma handles_get hs i f : handles_in hs -> hs !! i = Some (Some f) -> Wr (o_path f).
Proof. intros H Hi. eapply Forall_lookup_1 in Hi; [|exact H]. by apply Hi. Qed.

Lemma handles_set hs i (o : option ofile) : handles_in hs -> (forall f, o = Some f -> Wr (o_path f)) -> handles_in (<[i := o]> hs).
Proof. intros H Ho. by apply Forall_insert. Qed.

Lemma handles_null n : handles_in (replicate n None).
Proof. apply Forall_replicate. done. Qed.

Lemma conf_emit_tokens {T} (emit : list Z -> T -> prog T) (I : T -> Prop) :
  (forall tok ud, I ud -> conf I (emit tok ud)) ->
  forall fuel ptr ud, I ud -> conf I (emit_tokens_prog emit fuel ptr ud).
Proof.
  intros He. induction fuel as [|fuel IH]; intros ptr ud HI; [done|]. cbn [emit_tokens_prog].
  destruct (strsep map_delim ptr) as [[tok|] ptr']; [|done]. eapply confined_bind; [|intros ud' HI'; by apply IH].
  destruct tok; [done|by apply He].
Qed.

Lemma conf_tokenize_file {T} (emit : list Z -> T -> prog T) (I : T -> Prop) path ud :
  (forall tok ud, I ud -> conf I (emit tok ud)) -> Rd path -> I ud ->
  conf (fun r => I r.2) (tokenize_file_prog emit path ud).
Proof.
  intros He Hp HI. unfold tokenize_file_prog. eapply confined_bind; [by apply (confined_fopen_r _ _ _ path (fun _ => True))|].
  intros [src|] _; [|done]. eapply confined_bind.
  - apply (confined_fgets_loop _ _ _ _ I); [|done]. intros line st Hst. unfold tokenize_line_prog.
    eapply confined_bind; [by apply conf_emit_tokens|done].
  - intros [err ud'] HI'. eapply confined_bind; [by apply (confined_fclose_r _ _ _ (fun _ => True))|]. by intros rc _.
Qed.

Lemma conf_close_handles n : forall i hs, handles_in hs -> conf handles_in (close_handles_prog n i hs).
Proof.
  induction n as [|n IH]; intros i hs Hh; [done|]. cbn [close_handles_prog]. destruct (hs !! i) as [[f|]|] eqn:Ei; [|by apply IH|done].
  eapply confined_bind; [apply (confined_fclose_w _ _ _ f (fun _ => True)); [by eapply handles_get|done]|].
  intros _ _. apply IH. by apply handles_set.
Qed.

Lemma conf_emit_word_count tok ctx : handles_in (ctx_handles ctx) -> conf (fun ctx => handles_in (ctx_handles ctx)) (emit_word_count_prog tok ctx).
Proof.
  intros Hh. unfold emit_word_count_prog. destruct (_ =? _); [done|]. destruct (ctx_handles ctx !! _) as [[f|]|] eqn:Ef; [|done..].
  apply handles_get in Ef; [|done]. eapply confined_bind; [by apply (confined_fprintf _ _ _ f _ (fun g => o_path g = o_path f))|].
  intros g Eg. cbn. apply handles_set; [done|]. intros g' [= <-]. by rewrite Eg.
Qed.

Lemma conf_open_loop n task attempt pid : forall y hs paths,
  (forall y' temp final, (y' < y + n)%nat -> map_build_paths task (Z.of_nat y') attempt pid = Some (temp, final) -> Wr temp /\ Fin final) ->
  handles_in hs -> paths_in paths ->
  conf (fun r => handles_in r.1.2 /\ paths_in r.2) (open_loop_prog n y task attempt pid hs paths).
Proof.
  induction n as [|n IH]; intros y hs paths Hb Hh Hp; [done|]. cbn [open_loop_prog]. destruct (_ <=? _); [done|].
  assert (forall ps, paths_in ps -> conf (fun r => handles_in r.1.2 /\ paths_in r.2) (hs ← close_handles_prog y 0 hs; mret (false, hs, ps))) as Hclose.
  { intros ps Hps. eapply confined_bind; [by apply conf_close_handles|]. by intros hs' Hh'. }
  destruct (map_build_paths _ _ _ _) as [[temp final]|] eqn:E; [|by apply Hclose]. apply Hb in E as [Ht Hf]; [|lia]. cbv zeta.
  assert (paths_in (mk_map_paths (mp_temp paths ++ [temp]) (mp_final paths ++ [final]))) as Hp'.
  { destruct Hp as [H1 H2]. split; cbn; by apply Forall_app_2; [|apply Forall_singleton]. }
  eapply confined_bind; [apply (confined_fopen_w _ _ _ temp (fun o => forall f, o = Some f -> o_path f = temp)); [done|done|by intros f [= <-]]|].
  intros [f|] Ho; [|by apply Hclose]. apply IH; [|apply handles_set; [done|]|done].
  - intros y' temp' final' Hy'. apply Hb. lia.
  - intros g [= <-]. by rewrite (Ho f eq_refl).
Qed.

Lemma conf_close_pass n : forall y rc hs, handles_in hs -> conf (fun r => handles_in r.2) (close_pass_prog n y rc hs).
Proof.
  induction n as [|n IH]; intros y rc hs Hh; [done|]. cbn [close_pass_prog]. destruct (hs !! y) as [[f|]|] eqn:Ei; [|done..].
  eapply confined_bind; [apply (confined_fclose_w _ _ _ f (fun _ => True)); [by eapply handles_get|done]|].
  intros crc _. apply IH. by apply handles_set.
Qed.

Lemma conf_rename_pass n paths : paths_in paths -> forall y rc, conf (fun _ => True) (rename_pass_prog n y rc paths).
Proof.
  intros [Ht Hf]. induction n as [|n IH]; intros y rc; [done|]. cbn [rename_pass_prog].
  eapply confined_bind; [by apply (confined_or_fault _ _ _ _ (fun t => mp_temp paths !! y = Some t))|]. intros temp Et.
  eapply confined_bind; [by apply (confined_or_fault _ _ _ _ (fun t => mp_final paths !! y = Some t))|]. intros final Ef.
  eapply confined_bind; [apply (confined_rename _ _ _ temp final (fun _ => True)); [exact (Forall_lookup_1 _ _ _ _ Ht Et)|exact (Forall_lookup_1 _ _ _ _ Hf Ef)|done]|].
  intros rrc _. apply IH.
Qed.

Lemma conf_worker_map task attempt n_reduce input pid : Rd input ->
  (forall y temp final, (y < Z.to_nat n_reduce)%nat -> map_build_paths task (Z.of_nat y) attempt pid = Some (temp, final) -> Wr temp /\ Fin final) ->
  conf (fun _ => True) (worker_map_prog task attempt n_reduce input pid).
Proof.
  intros Hr Hb. unfold worker_map_prog. cbv zeta.
  assert (forall (hs : list (option ofile)) (rc : Z), handles_in hs ->
    conf (fun _ => True) (_ ← close_handles_prog (Z.to_nat n_reduce) 0 hs; mret rc)) as Hclose.
  { intros hs rc Hh. eapply confined_bind; [by apply conf_close_handles|done]. }
  eapply confined_bind; [apply conf_open_loop; [exact Hb|apply handles_null|by split]|].
  intros [[opened hs] paths] [Hh Hp]. cbn [fst snd] in *. destruct opened; cbn [negb]; [|by apply Hclose].
  eapply confined_bind; [by apply (conf_tokenize_file _ (fun ctx => handles_in (ctx_handles ctx))); [apply conf_emit_word_count| |]|].
  intros [rc ctx] Hctx. eapply confined_bind; [by apply conf_close_pass|]. intros [rc2 hs2] Hh2. destruct (negb _); [by apply Hclose|].
  eapply confined_bind; [by apply conf_rename_pass|]. intros rc3 _. by apply Hclose.
Qed.

Lemma conf_if {A} (Q : A -> Prop) (b : bool) (m1 m2 : prog A) : conf Q m1 -> conf Q m2 -> conf Q (if b then m1 else m2).
Proof. by destruct b. Qed.

Lemma conf_read_records_file path l : Rd path -> conf (fun _ => True) (read_records_file_prog path l).
Proof.
  intros Hp. unfold read_records_file_prog. eapply confined_bind; [by apply (confined_fopen_r _ _ _ path (fun _ => True))|].
  intros [src|] _; [|done]. eapply confined_bind.
  - apply (confined_fgets_loop _ _ _ _ (fun _ => True)); [|done]. intros line [l1 rc] _. unfold read_records_line_prog.
    destruct (strsep [9] _) as [key ptr], (strsep [10] ptr) as [value ?]. destruct key as [[|c key]|], value as [value|]; try done.
    eapply (confined_bind _ _ _ (fun _ => True)); [|intros [rc1 l2] _; by destruct (negb _)]. unfold record_list_push_prog.
    eapply (confined_bind _ _ _ (fun _ => True)).
    { unfold record_list_grow_prog. apply conf_if; [|done]. by apply (confined_bind _ _ _ (fun _ => True)). }
    intros [ok l2] _. apply conf_if; [done|]. apply (confined_bind _ _ _ (fun _ => True)); [done|]. intros ok1 _. apply conf_if; [done|].
    apply (confined_bind _ _ _ (fun _ => True)); [done|]. intros ok2 _. apply conf_if; [done|]. by apply conf_if.
  - intros [err [l1 rc]] _. eapply confined_bind; [by apply (confined_fclose_r _ _ _ (fun _ => True))|]. by intros crc _.
Qed.

Lemma conf_read_inputs n task : forall x l,
  (forall j path, (j < n)%nat -> snprintf MAPREDUCE_PATH_MAX (reduce_input_path (x + Z.of_nat j) task) = Some path -> Rd path) ->
  conf (fun _ => True) (read_inputs_prog n x task l).
Proof.
  induction n as [|n IH]; intros x l Hr; [done|]. cbn [read_inputs_prog]. destruct (snprintf _ _) as [path|] eqn:E; [|done].
  eapply confined_bind; [apply conf_read_records_file; apply (Hr 0%nat); [lia|by rewrite Z.add_0_r]|]. intros [rc l1] _.
  apply conf_if; [done|]. apply IH. intros j path' Hj E'. apply (Hr (S j)); [lia|]. rewrite <- E'. f_equal. f_equal. lia.
Qed.

Lemma conf_flush_group key vals out : conf (fun g => o_path g = o_path out) (flush_group_prog key vals out).
Proof. unfold flush_group_prog, fold_word_count_prog. destruct vals; [done|]. by apply confined_fprintf. Qed.

Lemma conf_group_walk path records : forall key vals out, o_path out = path ->
  conf (fun r => o_path r.2 = path) (group_walk_prog records key vals out).
Proof.
  induction records as [|r records IH]; intros key vals out Hp; cbn [group_walk_prog].
  { eapply confined_bind; [apply conf_flush_group|]. intros g Hg. cbn. congruence. }
  apply (confined_bind _ _ _ (fun r => o_path r.2 = path)).
  - apply conf_if; [done|]. eapply confined_bind; [apply conf_flush_group|]. intros g Hg. cbn. congruence.
  - intros [[key' vals'] out'] Hp'. apply conf_if; [done|]. by apply IH.
Qed.

Lemma conf_write_output `{Qsort} temp final l : Wr temp -> Fin final -> conf (fun _ => True) (write_output_prog temp final l).
Proof.
  intros Ht Hf. unfold write_output_prog. cbv zeta.
  eapply confined_bind; [apply (confined_fopen_w _ _ _ temp (fun o => forall f, o = Some f -> o_path f = temp)); [done|done|by intros f [= <-]]|].
  intros [out|] Ho; [|done]. eapply confined_bind; [by apply conf_group_walk, Ho|]. intros [ok out'] Hp. cbn [snd] in Hp.
  assert (forall (rest : Z -> prog Z), (forall rc, conf (fun _ => True) (rest rc)) -> conf (fun _ => True) (fclose_w_prog out' ≫= rest)) as Hclose.
  { intros rest Hr. eapply confined_bind; [apply (confined_fclose_w _ _ _ out' (fun _ => True)); [by rewrite Hp|done]|]. intros rc _. apply Hr. }
  apply conf_if; [by apply Hclose|]. apply conf_if; [by apply Hclose|]. apply Hclose. intros rc. apply conf_if; [done|].
  eapply confined_bind; [by apply (confined_rename _ _ _ temp final (fun _ => True))|done].
Qed.

Lemma conf_worker_reduce `{Qsort} task attempt n_map pid :
  (forall j path, (j < Z.to_nat n_map)%nat -> snprintf MAPREDUCE_PATH_MAX (reduce_input_path (Z.of_nat j) task) = Some path -> Rd path) ->
  (forall temp final, reduce_build_paths task attempt pid = Some (temp, final) -> Wr temp /\ Fin final) ->
  conf (fun _ => True) (worker_reduce_prog task attempt n_map pid).
Proof.
  intros Hr Hb. unfold worker_reduce_prog. apply (confined_bind _ _ _ (fun _ => True)); [by destruct (c_assert _)|]. intros _ _.
  apply (confined_bind _ _ _ (fun _ => True)).
  { unfold record_list_create_prog. apply (confined_bind _ _ _ (fun _ => True)); [done|]. intros ok _. by apply conf_if. }
  intros [l|] _; [|done]. destruct (reduce_build_paths _ _ _) as [[temp final]|]; [|done]. destruct (Hb temp final eq_refl).
  eapply confined_bind; [apply conf_read_inputs; intros j path; rewrite Z.add_0_l; by apply Hr|]. intros [ok l1] _.
  apply conf_if; [done|]. by apply conf_write_output.
Qed.
End TaskFiles.
