(* ===== verification/WordCount.v ===== *)
(** * Word count (src/worker_map.c, src/worker_reduce.c)

    The map task and the reduce task composed: what reduce tasks read back of
    the records map tasks write, and what the outputs hold in the end. *)

From Stdlib Require Import String.
From S2P Require Import Prelude Limits Util Stdio Publish WorkerMap WorkerReduce.

(** ** Specification *)

(** How often a word occurs. *)
Definition occurrences (w : list Z) (ws : list (list Z)) : Z := zlen (filter (fun v => v = w) ws).

(** A line for each distinct word, sorted, with its count. *)
Definition word_counts (ws : list (list Z)) : list Z :=
  concat (map (fun w => count_line w (occurrences w ws)) (merge_sort str_le (remove_dups ws))).

(** The words of partition [y]. *)
Definition partition_words (R y : Z) (ws : list (list Z)) : list (list Z) :=
  filter (fun w => get_hash w mod R = y) ws.

(** A word whose record fits the line buffer of the reduce task. *)
Definition word_fits (w : list Z) : Prop :=
  w <> [] /\ Forall (fun c => is_delim c = false) w /\ no_nul w /\ zlen w + 3 < WORKER_REDUCE_LINE_MAX.
#[export] Instance word_fits_dec w : Decision (word_fits w).
Proof. unfold word_fits. apply _. Defined.

(** A text both tasks read line by line: no NUL, lines that fit the map task's
    buffer, and words that fit the reduce task's. *)
Definition text_ok (src : list Z) : Prop :=
  no_nul src /\ Forall (fun l => zlen l < WORKER_MAP_LINE_MAX) (file_lines src) /\ Forall word_fits (words src).
#[export] Instance text_ok_dec src : Decision (text_ok src).
Proof. unfold text_ok. apply _. Defined.

(** ** Records *)

Lemma not_delim c w : is_delim c = true -> Forall (fun c => is_delim c = false) w -> c ∉ w.
Proof. intros Hc Hw Hin. rewrite Forall_forall in Hw. apply Hw in Hin. congruence. Qed.

Lemma strsep_scan_found d a b : d ∉ a -> strsep_scan [d] (a ++ d :: b) = (a, Some b).
Proof.
  induction a as [|c a IH]; intros Ha; cbn.
  - by rewrite bool_decide_eq_true_2 by left.
  - apply not_elem_of_cons in Ha as [Hc Ha]. rewrite bool_decide_eq_false_2; [by rewrite IH|].
    by intros ?%list_elem_of_singleton.
Qed.

Lemma strsep_scan_none d a : d ∉ a -> strsep_scan [d] a = (a, None).
Proof.
  induction a as [|c a IH]; intros Ha; cbn; [done|].
  apply not_elem_of_cons in Ha as [Hc Ha]. rewrite bool_decide_eq_false_2; [by rewrite IH|].
  by intros ?%list_elem_of_singleton.
Qed.

Lemma parse_word_record w : w <> [] -> Forall (fun c => is_delim c = false) w -> no_nul w ->
  parse_record (cstr (word_record w)) = Some (mk_record w (lit "1")).
Proof.
  intros Hne Hd Hn. unfold word_record. rewrite cstr_id.
  2:{ apply no_nul_app. split; [done|]. by repeat constructor. }
  unfold parse_record. change (w ++ [9; 49; 10]) with (w ++ 9 :: [49; 10]).
  rewrite strsep_scan_found by by apply not_delim. by destruct w.
Qed.

Lemma file_lines_records ws : Forall (fun w => Forall (fun c => is_delim c = false) w) ws ->
  file_lines (concat (map word_record ws)) = map word_record ws.
Proof.
  induction 1 as [|w ws Hw _ IH]; [done|]. cbn [map concat]. unfold word_record at 1.
  replace ((w ++ [9; 49; 10]) ++ concat (map word_record ws)) with ((w ++ [9; 49]) ++ 10 :: concat (map word_record ws))
    by by rewrite <- !app_assoc.
  rewrite file_lines_line, IH.
  - unfold word_record at 2. by rewrite <- app_assoc.
  - rewrite elem_of_app. intros [Hin|Hin]; [by eapply not_delim in Hin|].
    apply elem_of_cons in Hin as [|Hin%list_elem_of_singleton]; done.
Qed.

Lemma records_of_words ws : Forall word_fits ws ->
  file_records (concat (map word_record ws)) = map (fun w => mk_record w (lit "1")) ws.
Proof.
  intros Hws. unfold file_records. rewrite chunks_lines; [|lia|].
  - rewrite file_lines_records by (eapply Forall_impl; [exact Hws|]; intros w Hw; apply Hw).
    induction Hws as [|w ws (Hne & Hd & Hn & _) _ IH]; [done|]. set (f := fun l => parse_record (cstr l)) in *.
    change (omap f (map word_record (w :: ws))) with
      (match f (word_record w) with Some r => r :: omap f (map word_record ws) | None => omap f (map word_record ws) end).
    rewrite IH. unfold f. by rewrite parse_word_record.
  - rewrite file_lines_records by (eapply Forall_impl; [exact Hws|]; intros w Hw; apply Hw).
    apply Forall_map. eapply Forall_impl; [exact Hws|]. intros w (_ & _ & _ & Hl). cbn.
    unfold word_record. rewrite length_app. cbn [length]. unfold zlen, WORKER_REDUCE_LINE_MAX in *. lia.
Qed.

(** ** Outputs *)

Lemma values_of_words ws w : zlen (values_of (map (fun w => mk_record w (lit "1")) ws) w) = occurrences w ws.
Proof.
  unfold values_of, occurrences, zlen. rewrite length_map. f_equal.
  induction ws as [|v ws IH]; [done|]. cbn [map]. rewrite !filter_cons. cbn [r_key].
  destruct (decide (v = w)); cbn [length]; by rewrite IH.
Qed.

Lemma keys_of_words ws : map r_key (map (fun w => mk_record w (lit "1")) ws) = ws.
Proof. rewrite map_map. apply map_id. Qed.

Lemma output_of_words ws : reduce_output (map (fun w => mk_record w (lit "1")) ws) = word_counts ws.
Proof.
  unfold reduce_output, word_counts, sorted_keys. rewrite keys_of_words. f_equal. apply map_ext.
  intros w. by rewrite values_of_words.
Qed.

Lemma groups_small_words ws : groups_small (map (fun w => mk_record w (lit "1")) ws) <->
  Forall (fun w => occurrences w ws <= WORKER_REDUCE_MAX_VALUES_PER_KEY) ws.
Proof.
  unfold groups_small. rewrite keys_of_words. split; intros H; (eapply Forall_impl; [exact H|]); intros w; cbv beta; by rewrite values_of_words.
Qed.

(** The records reduce task [y] reads from the files of the inputs [srcs]. *)
Definition partition_records (R : Z) (srcs : list (list Z)) (y : nat) : list record_t :=
  concat (map (fun src => file_records (map_data R src y)) srcs).

Lemma partition_records_words R srcs y : Forall text_ok srcs ->
  partition_records R srcs y =
  map (fun w => mk_record w (lit "1")) (partition_words R (Z.of_nat y) (concat (map words srcs))).
Proof.
  unfold partition_records, partition_words. induction 1 as [|src srcs (Hn & Hl & Hw) _ IH]; [done|].
  cbn [map concat]. rewrite filter_app, map_app, IH. f_equal.
  unfold map_data, map_records. rewrite map_tokens_words by done. apply records_of_words.
  rewrite Forall_forall in Hw |- *. intros w [_ Hin]%list_elem_of_filter. by apply Hw.
Qed.

(** What [read_records_file] appends, on a kernel without failures. *)
Lemma read_back path l p src : list_ok l -> p_benign p -> p_files p !! path = Some src ->
  exists l' p', read_records_file path l p = Ret (0, l', p') /\ p_benign p' /\
    p_files p' = p_files p /\ l_records l' = l_records l ++ file_records src.
Proof.
  intros Hl Hb Hsrc. destruct (read_records_file_ok path l p Hl) as (rc & l' & p' & -> & _ & _ & Hd & H0 & Hb0).
  destruct (Hb0 Hb ltac:(by eexists)) as [-> Hb']. exists l', p'. split; [done|]. split; [done|].
  split; [unfold p_files; by rewrite Hd|]. destruct (H0 eq_refl) as (src' & E & ->). rewrite Hsrc in E. by injection E as <-.
Qed.

Lemma longest_word_records w : zlen w = WORKER_MAP_LINE_MAX - 1 ->
  Forall (fun c => is_delim c = false) w -> no_nul w -> file_records (word_record w) = [].
Proof.
  intros Hl Hd Hn. unfold file_records, word_record. rewrite length_app. set (n := Z.to_nat (WORKER_REDUCE_LINE_MAX - 1)).
  assert (length w = n) as Hln by (unfold n, zlen, WORKER_MAP_LINE_MAX, WORKER_REDUCE_LINE_MAX in *; lia).
  assert (exists m, n = S (S (S m))) as [m Em] by (exists (n - 3)%nat; unfold n, WORKER_REDUCE_LINE_MAX; lia).
  clearbody n. rewrite Nat.add_comm. cbn [length Nat.add].
  assert (w ++ [9; 49; 10] <> []) as Hne by by destruct w.
  change (chunks (S ?f) n (w ++ ?r)) with (match w ++ r with [] => [] | _ => let '(l, rest) := take_line n (w ++ r) in l :: chunks f n rest end).
  rewrite take_line_cut by (done || by apply not_delim). destruct (w ++ [9; 49; 10]); [done|].
  rewrite Em. cbn. rewrite cstr_id by done.
  change (parse_record [9; 49; 10]) with (@None record_t).
  unfold parse_record. rewrite (strsep_scan_none 9) by by apply not_delim. by destruct w.
Qed.

(** C26: the records of a map task come back from the reduce task's parser. A
    file with the records of any words that fit the line buffer is read back as
    these words, in order, each with the value 1, behind what the list held. *)
Theorem records_roundtrip ws path l p : Forall word_fits ws -> list_ok l -> p_benign p ->
  p_files p !! path = Some (concat (map word_record ws)) ->
  exists l' p', read_records_file path l p = Ret (0, l', p') /\
    l_records l' = l_records l ++ map (fun w => mk_record w (lit "1")) ws.
Proof.
  intros Hws Hl Hb Hf. destruct (read_back path l p _ Hl Hb Hf) as (l' & p' & E & _ & _ & Hr).
  exists l', p'. split; [done|]. by rewrite Hr, records_of_words.
Qed.

(** A word of WORKER_MAP_LINE_MAX - 1 bytes, the longest the tokenizer does
    not cut, is lost without an error: its record does not fit the line buffer
    of the reduce task, which skips both pieces as malformed and succeeds. *)
Theorem longest_word_lost w path l p : zlen w = WORKER_MAP_LINE_MAX - 1 ->
  Forall (fun c => is_delim c = false) w -> no_nul w -> list_ok l -> p_benign p ->
  p_files p !! path = Some (word_record w) ->
  exists l' p', read_records_file path l p = Ret (0, l', p') /\ l_records l' = l_records l.
Proof.
  intros Hw Hd Hn Hl Hb Hf. destruct (read_back path l p _ Hl Hb Hf) as (l' & p' & E & _ & _ & Hr).
  exists l', p'. split; [done|]. by rewrite Hr, longest_word_records, app_nil_r.
Qed.

(** ** Witnesses *)

Definition demo_path : list Z := lit "records".
Definition demo_list : record_list_t := mk_record_list [] 4.
Definition demo_reader (src : list Z) : proc := mk_proc (mk_disk {[demo_path := src]} []) [].

Lemma records_roundtrip_witness :
  exists l' p', read_records_file demo_path demo_list (demo_reader (concat (map word_record [lit "to"; lit "be"]))) = Ret (0, l', p') /\
    l_records l' = [mk_record (lit "to") (lit "1"); mk_record (lit "be") (lit "1")].
Proof. apply (records_roundtrip [lit "to"; lit "be"]); [decide_now|by vm_compute|constructor|reflexivity]. Defined.

Lemma longest_word_lost_witness :
  exists l' p', read_records_file demo_path demo_list (demo_reader (word_record (replicate (Z.to_nat 8191) 97))) = Ret (0, l', p') /\
    l_records l' = [].
Proof. apply (longest_word_lost (replicate (Z.to_nat 8191) 97)); [reflexivity|decide_now|decide_now|by vm_compute|constructor|]. apply lookup_singleton_eq. Defined.
