(* ===== verification/Exchange.v ===== *)
(** * A worker's messages and the server's replies (src/worker.c, src/server.c, src/master.c)

    The bytes a worker writes are what [on_read] reads, and the bytes the
    server sends come back. Each exchange of src/worker.c with the master, on
    a connection that is there, refused or gone. *)

From S2P Require Import Prelude Limits Util Rpc Task Aof EventLoop Server Framing Master Sched Job Recovery Liveness.
From S2P Require Import Stdio Worker.

(** ** The connection *)

(** The server as the peer of the worker on descriptor [fd]. *)
Definition master_peer (fd : Z) : Peer (sys master_app) := fun bytes st =>
  st' ← on_read fd (inl bytes) st;
  Ret (drop (length (sent st fd)) (sent st' fd), st').

(** An idle connection of an active client. *)
Definition connected (fd : Z) (st : sys master_app) : Prop :=
  idle fd st /\ c_active (get_client st fd) = true /\ c_buf (get_client st fd) = [].

(** The state in which the server handles a frame it has just read. *)
Definition reading (fd : Z) (st : sys master_app) : sys master_app :=
  forget_rbuf fd (put_client fd (stamped fd st) st).

Lemma reading_idle fd st : idle fd st -> idle fd (reading fd st).
Proof. intros (H1 & H2 & H3). unfold reading, idle, forget_rbuf, set_rbuf. by rewrite !get_put_eq. Qed.

Lemma set_rbuf_connected fd st : idle fd st -> c_active (get_client st fd) = true -> connected fd (set_rbuf fd [] st).
Proof. intros (H1 & H2 & H3) Ha. unfold connected, idle, set_rbuf. by rewrite get_put_eq. Qed.

(** ** What a message leaves alone *)

(** What happens to the server when [fd] sends the message [p]. *)
Definition served (fd : Z) (p : list Z) (st st2 : sys master_app) : Prop :=
  (exists st1, handle_message fd p (reading fd st) = Ret st1 /\ app st2 = app st1) /\
  same_others fd st st2 /\ script st2 = [].

Lemma idle_wq fd st : idle fd st -> wq_ok (get_client st fd).
Proof. intros (_ & Hw & Ho). unfold wq_ok, wlen. rewrite Hw, Ho. split; [done|]. split; [by vm_compute|by right]. Qed.

Lemma consumed_nil s : consumed [] s -> s = [].
Proof. intros [u Hu]. symmetry in Hu. by apply app_nil in Hu as [_ ?]. Qed.

Lemma reading_others fd st : same_others fd st (reading fd st).
Proof.
  eapply same_others_trans; [apply (same_others_put fd (stamped fd st))|]. apply same_others_put.
Qed.

(** The message is read, and what the server does follows from the handler. *)
Lemma read_served fd p st rc st1 : connected fd st -> job_inv (master st) -> 0 <= fd ->
  zlen p <= MSG_MAX -> Forall u8 p -> master_on_message fd p (reading fd st) = Ret (rc, st1) ->
  exists st2, on_read fd (inl (frame p)) st = Ret st2 /\ served fd p st st2 /\
    st2 = (if rc =? 0 then set_rbuf fd [] st1 else remove_client fd st1).
Proof.
  intros ((Hs & Hw & Ho) & Hact & Hbuf) Hinv Hfd Hp Hu Hm. eexists. split; [|split; [|reflexivity]].
  - assert (Forall u8 (frame p)) as Huf by (apply Forall_app_2; [apply be_encode_bytes|done]).
    assert (frame p <> []) as Hne by done.
    assert (zlen (frame p) = 4 + zlen p) as Hlen by (unfold frame; by rewrite zlen_app, zlen_be_encode).
    rewrite on_read_receive; rewrite ?Hbuf; [|done|constructor|done|done|].
    2:{ rewrite app_nil_l, Hlen. unfold RBUF_SIZE. limits. lia. }
    rewrite app_nil_l. unfold receive. rewrite parse_one_frame by done. cbn [deliver mbind outcome_bind].
    change (on_message fd p (forget_rbuf fd (put_client fd (stamped fd st) st))) with (master_on_message fd p (reading fd st)).
    rewrite Hm. cbn [mbind outcome_bind]. by destruct (rc =? 0).
  - pose proof (message_others fd p (reading fd st) rc st1 Hm) as Hso.
    pose proof (on_message_consumed fd p (reading fd st) rc st1 (proj1 Hinv) Hm) as Hc.
    change (script (reading fd st)) with (script st) in Hc. rewrite Hs in Hc. apply consumed_nil in Hc.
    assert (same_others fd st st1) as Hso1 by (eapply same_others_trans; [apply reading_others|exact Hso]).
    unfold served, handle_message. rewrite Hm. cbn [mbind outcome_bind]. split; [eexists; split; [reflexivity|]|split].
    + by destruct (rc =? 0).
    + eapply same_others_trans; [exact Hso1|]. destruct (rc =? 0); [apply same_others_put|apply same_others_remove].
    + by destruct (rc =? 0).
Qed.

(** A message of the worker and the server's reply. *)
Lemma peer_round fd p r st st1 : connected fd st -> job_inv (master st) -> 0 <= fd -> zlen p <= MSG_MAX -> Forall u8 p ->
  accepted fd p (reading fd st) st1 -> idle fd st1 -> sent st1 fd = sent st fd ++ frame r ->
  exists st2, master_peer fd (frame p) st = Ret (frame r, st2) /\ connected fd st2 /\ served fd p st st2 /\ app st2 = app st1.
Proof.
  intros Hc Hinv Hfd Hp Hu Hacc Hidle1 Hsent. pose proof Hc as (_ & Hact & _).
  destruct (read_served fd p st 0 st1 Hc Hinv Hfd Hp Hu Hacc) as (st2 & E & Hserved & E2).
  change (0 =? 0) with true in E2. cbv iota in E2. subst st2. exists (set_rbuf fd [] st1).
  assert (c_active (get_client st1 fd) = true) as Hact1.
  { pose proof (on_message_keeps fd p (reading fd st) st1 Hacc) as (_ & -> & _).
    unfold reading, forget_rbuf, set_rbuf. rewrite !get_put_eq. exact Hact. }
  split; [|split; [by apply set_rbuf_connected|done]].
  unfold master_peer. rewrite E. cbn [mbind outcome_bind]. change (sent (set_rbuf fd [] st1) fd) with (sent st1 fd).
  by rewrite Hsent, drop_app_length.
Qed.

(** A message the master refuses: the connection is closed without a reply. *)
Lemma peer_refused fd p st : connected fd st -> job_inv (master st) -> 0 <= fd -> zlen p <= MSG_MAX -> Forall u8 p ->
  master_on_message fd p (reading fd st) = Ret (-1, reading fd st) ->
  exists st2, master_peer fd (frame p) st = Ret ([], st2) /\ served fd p st st2 /\ app st2 = master_on_disconnect fd (app st).
Proof.
  intros Hc Hinv Hfd Hp Hu Hm.
  destruct (read_served fd p st (-1) (reading fd st) Hc Hinv Hfd Hp Hu Hm) as (st2 & E & Hserved & E2).
  change (-1 =? 0) with false in E2. cbv iota in E2. subst st2. eexists. split; [|split; [exact Hserved|done]].
  unfold master_peer. rewrite E. cbn [mbind outcome_bind]. change (sent (remove_client fd (reading fd st)) fd) with (sent st fd).
  by rewrite drop_all.
Qed.

(** ** Exchanges with the master *)

Section Exchanges.
Context (fd : Z) (Hfd : 0 <= fd).

Lemma done_bytes_u8 task attempt result : Forall u8 (done_bytes task attempt result).
Proof.
  unfold done_bytes, message_bytes. constructor; [decide_now|].
  change (Forall u8 (be_encode 4 task ++ be_encode 4 attempt ++ be_encode 1 result)). auto with mr.
Qed.

(** The worker asks, and gets what the master answers. *)
Lemma ask_exchange pr st : p_benign pr -> connected fd st -> job_inv (master st) ->
  exists buf m1 s st2, benign s /\
    get_task_reply MSG_MAX fd (s_now_ms (sv st)) (master st) = Ret (Some buf, m1) /\
    get_task_req (H := master_peer fd) (mk_worker_state pr [] st) =
      Ret (decode_response buf, mk_worker_state (set_io s pr) [] st2) /\
    connected fd st2 /\ served fd get_task_bytes st st2 /\ app st2 = mk_app m1 (a_file (app st)).
Proof.
  intros Hb Hc Hinv. pose proof Hc as (Hidle & _). set (st0 := reading fd st).
  destruct (get_task_encoded fd st0 Hinv Hfd) as (msg & m1 & Hwf & E).
  destruct (reply_round fd st0 _ _ (reading_idle _ _ Hidle) (message_bytes_max msg Hwf) E) as (st1 & Hacc & Happ & Hidle1 & Hsent).
  destruct (peer_round fd get_task_bytes (message_bytes msg) st st1)
    as (st2 & Hrecv & Hc2 & Hserved & Happ2); [done|done|done|by vm_compute|decide_now|done|done|exact Hsent|].
  destruct (get_task_exchange (P := sys master_app) (H := master_peer fd) msg pr st st2 Hb Hwf Hrecv) as (s & Hbs & Er).
  exists (message_bytes msg), m1, s, st2. by rewrite Happ2, Happ.
Qed.

(** With a task of the phase pending, it gets the first one. *)
Lemma assign_exchange pr st k : p_benign pr -> connected fd st -> job_inv (master st) -> quiet (master st) ->
  phase_kind (j_phase (m_job (master st))) = Ret k ->
  exists i t t' now s st2, benign s /\ first_pending k (master st) i t /\ start_attempt fd now t = Ret t' /\
    get_task_req (H := master_peer fd) (mk_worker_state pr [] st) =
      Ret (decode_response (message_bytes (assignment_msg k i t' (m_job (master st)))), mk_worker_state (set_io s pr) [] st2) /\
    connected fd st2 /\ master st2 = assign_master k i fd t' (master st).
Proof.
  intros Hb Hc Hinv Hq Hk. destruct (ask_exchange pr st Hb Hc Hinv) as (buf & m1 & s & st2 & Hbs & Hreply & E & Hc2 & _ & Happ).
  pose proof (get_task_reply_ok fd (s_now_ms (sv st)) (master st) (proj1 Hinv) Hfd) as Hok. rewrite Hk in Hok.
  destruct Hok as [[Hno _]|(i & t & t' & Hfp & Hs & E')].
  - destruct (quiet_pending k _ (proj1 Hinv) (proj1 (proj2 Hinv)) Hq (phase_unfinished _ _ (proj1 (proj2 (proj2 Hinv))) Hk))
      as (i & t & Hi & Ht & Hp & _). by destruct (Hno i t Hi Ht).
  - rewrite Hreply in E'. injection E' as -> ->. exists i, t, t', (s_now_ms (sv st)), s, st2.
    split_and!; try done. unfold master. by rewrite Happ.
Qed.

(** Once the job is done, the worker is told so. *)
Lemma done_exchange pr st : p_benign pr -> connected fd st -> job_inv (master st) ->
  j_phase (m_job (master st)) = JOB_DONE ->
  exists s st2, benign s /\
    get_task_req (H := master_peer fd) (mk_worker_state pr [] st) = Ret (Some RespDone, mk_worker_state (set_io s pr) [] st2) /\ master st2 = master st.
Proof.
  intros Hb Hc Hinv Hd. destruct (ask_exchange pr st Hb Hc Hinv) as (buf & m1 & s & st2 & Hbs & Hreply & E & _ & _ & Happ).
  pose proof (get_task_reply_ok fd (s_now_ms (sv st)) (master st) (proj1 Hinv) Hfd) as Hok. rewrite Hd in Hok.
  cbn [phase_kind] in Hok. rewrite Hreply in Hok. injection Hok as -> ->.
  exists s, st2. split; [done|]. split; [exact E|]. unfold master. by rewrite Happ.
Qed.

(** The report of a result: 0 for success, 1 for failure. *)
Definition result_code (rv : Z) : Z := if rv =? 0 then 0 else 1.

Lemma report_accepted pr st id att rv st1 : p_benign pr -> connected fd st -> job_inv (master st) ->
  message_wf (TaskDoneReq (mk_done_req id att (result_code rv))) ->
  accepted fd (done_bytes id att (result_code rv)) (reading fd st) st1 -> idle fd st1 -> sent st1 fd = sent st fd ++ frame [7] ->
  exists s st2, benign s /\
    finish_task (H := master_peer fd) id att rv (mk_worker_state pr [] st) = Ret (None, mk_worker_state (set_io s pr) [] st2) /\
    connected fd st2 /\ served fd (done_bytes id att (result_code rv)) st st2 /\ app st2 = app st1.
Proof.
  intros Hb Hc Hinv Hwf Hacc Hidle1 Hsent.
  destruct (peer_round fd (done_bytes id att (result_code rv)) (message_bytes TaskDoneAck) st st1)
    as (st2 & Hrecv & Hc2 & Hserved & Happ2); [done|done|done|exact (message_bytes_max _ Hwf)|apply done_bytes_u8|done|done|exact Hsent|].
  destruct (report_exchange (P := sys master_app) (H := master_peer fd) _ pr st st2 Hb Hwf Hrecv) as (s & Hbs & E).
  exists s, st2. split; [done|]. split; [|done]. unfold finish_task. cbv zeta. fold (result_code rv).
  cbn [done_task_id done_attempt_id done_result] in E. by rewrite E.
Qed.

Lemma holds_report_wf m k i t rv : table_ok m -> holds_task m fd k i t -> u32 (Z.of_nat i) ->
  message_wf (TaskDoneReq (mk_done_req (Z.of_nat i) (t_current_attempt t) (result_code rv))) /\ task_ok t.
Proof.
  intros Hm (_ & _ & _ & Hi & Ht & _) Hu. assert (task_ok t) as Hok by by eapply table_ok_live.
  split; [|done]. apply report_msg_wf; [done|done|]. unfold result_code. by destruct (rv =? 0).
Qed.

(** The worker reports the task it holds done. *)
Lemma report_round_exchange pr st k i t : p_benign pr -> connected fd st -> job_inv (master st) ->
  phase_kind (j_phase (m_job (master st))) = Ret k -> holds_task (master st) fd k i t -> u32 (Z.of_nat i) ->
  exists now s st2, benign s /\
    finish_task (H := master_peer fd) (Z.of_nat i) (t_current_attempt t) 0 (mk_worker_state pr [] st) = Ret (None, mk_worker_state (set_io s pr) [] st2) /\
    connected fd st2 /\ served fd (done_bytes (Z.of_nat i) (t_current_attempt t) 0) st st2 /\
    master st2 = reported_master k i fd now t (master st).
Proof.
  intros Hb Hc Hinv Hk Hholds Hu. pose proof Hc as (Hidle & _). set (st0 := reading fd st).
  destruct (done_round fd st0 k i t) as (st1 & Hacc & Hidle1 & Hsent & Hm); [by apply reading_idle|apply Hinv|done..|].
  destruct (holds_report_wf _ k i t 0 (proj1 Hinv) Hholds Hu) as [Hwf _].
  destruct (report_accepted pr st (Z.of_nat i) (t_current_attempt t) 0 st1 Hb Hc Hinv Hwf Hacc Hidle1 Hsent)
    as (s & st2 & Hbs & E & Hc2 & Hserved & Happ).
  exists (s_now_ms (sv st0)), s, st2. split_and!; try done. unfold master at 1. rewrite Happ. exact Hm.
Qed.

(** It reports that the task failed. *)
Lemma report_failure_exchange pr st k i t rv : p_benign pr -> connected fd st -> job_inv (master st) ->
  phase_kind (j_phase (m_job (master st))) = Ret k -> holds_task (master st) fd k i t -> u32 (Z.of_nat i) -> rv <> 0 ->
  exists t' j s st2, benign s /\
    finish_task (H := master_peer fd) (Z.of_nat i) (t_current_attempt t) rv (mk_worker_state pr [] st) = Ret (None, mk_worker_state (set_io s pr) [] st2) /\
    connected fd st2 /\ served fd (done_bytes (Z.of_nat i) (t_current_attempt t) (result_code rv)) st st2 /\
    t_state t' <> TASK_COMPLETED /\
    master st2 = (let m := fail_master k i t' j (master st) in put_worker fd (set_has_task false (get_worker m fd)) m).
Proof.
  intros Hb Hc Hinv Hk Hholds Hu Hrv. pose proof Hc as (Hidle & _). set (st0 := reading fd st).
  destruct (holds_report_wf _ k i t rv (proj1 Hinv) Hholds Hu) as [Hwf Hok]. pose proof Hholds as (_ & Hwid & _ & _ & Ht & Hst & _).
  destruct (task_attempt_ended_ok t ATTEMPT_FAILED fd (s_now_ms (sv st0)) (m_job (master st0)) Hok ltac:(by apply Hok))
    as (rc & t' & He & _ & _ & Hst' & _); [done|].
  match type of He with _ = Ret (_, _, ?j) => set (jf := j) in He end.
  destruct (failure_round fd st0 k i t (Z.of_nat i) (result_code rv) rc t' jf)
    as (st1 & Hacc & Hidle1 & Hsent & _ & Hm); try done.
  { apply Hinv. } { by apply reading_idle. }
  { unfold slot_index. change (master st0) with (master st). rewrite Hwid. lia. }
  { unfold result_code. by destruct (rv =? 0). } { unfold result_code. by destruct (Z.eqb_spec rv 0). }
  destruct (report_accepted pr st (Z.of_nat i) (t_current_attempt t) rv st1 Hb Hc Hinv Hwf Hacc Hidle1 Hsent)
    as (s & st2 & Hbs & E & Hc2 & Hserved & Happ).
  exists t', jf, s, st2. split_and!; try done.
  - rewrite Hst'. by destruct (_ <? _).
  - unfold master at 1. rewrite Happ. exact Hm.
Qed.

(** Once the job is over, a report is refused, and the worker leaves. *)
Lemma report_refused pr st id att rv : p_benign pr -> connected fd st -> job_inv (master st) -> u32 id -> u32 att ->
  j_phase (m_job (master st)) = JOB_DONE \/ j_phase (m_job (master st)) = JOB_FAILED ->
  exists s st2, finish_task (H := master_peer fd) id att rv (mk_worker_state pr [] st) =
      Ret (Some EXIT_FAILURE, mk_worker_state (set_io s pr) [] st2) /\
    served fd (done_bytes id att (result_code rv)) st st2 /\ app st2 = master_on_disconnect fd (app st).
Proof.
  intros Hb Hc Hinv Hu Hatt Hph. set (msg := mk_done_req id att (result_code rv)).
  assert (message_wf (TaskDoneReq msg)) as Hwf by (unfold msg, result_code; by destruct (rv =? 0)).
  destruct (peer_refused fd (done_bytes id att (result_code rv)) st Hc Hinv Hfd (message_bytes_max _ Hwf) (done_bytes_u8 _ _ _))
    as (st2 & E & Hserved & Happ).
  { unfold master_on_message. change (done_bytes id att (result_code rv)) with (message_bytes (TaskDoneReq msg)).
    unfold message_bytes. rewrite rpc_peek_kind_code. cbn [message_kind tail].
    assert (rpc_decode_task_done_req (message_body (TaskDoneReq msg)) = Some msg) as -> by exact (msg_decode_body msg Hwf).
    unfold master_handle_task_done. change (master (reading fd st)) with (master st). by destruct Hph as [-> | ->]. }
  destruct (report_unanswered (P := sys master_app) (H := master_peer fd) msg pr st st2 Hb Hwf E) as (s & Er).
  exists s, st2. split; [|done]. unfold finish_task. cbv zeta. fold (result_code rv).
  cbn [done_task_id done_attempt_id done_result msg] in Er. by rewrite Er.
Qed.
End Exchanges.

