(* ===== verification/System.v ===== *)
(** * Worker and master together (src/worker.c, src/master.c, src/server.c)

    A worker process whose other end is the server of this library: what its
    runs do to the files of the job, and the turns of its loop. The job of a
    fresh master ends with the right outputs. *)

From Stdlib Require Import String.
From S2P Require Import Prelude Limits Util Rpc Task Aof EventLoop Server Framing Master Sched Job Recovery Liveness.
From S2P Require Import Stdio Publish WorkerMap WorkerReduce Worker WordCount Exchange.

(** ** Files of the job *)

(** An input path apart from the names the tasks write. *)
Definition clean_path (path : list Z) : Prop :=
  no_nul path /\ take 16 path <> lit "intermediate/mr-" /\ take 14 path <> lit "output/mr-out-".
#[export] Instance clean_path_dec path : Decision (clean_path path).
Proof. unfold clean_path. apply _. Defined.

Lemma clean_not_map path : clean_path path ->
  forall task y pid attempt, path <> map_final_path task y /\ path <> map_temp_path task y pid attempt.
Proof. intros (_ & H & _) task y pid attempt. by split; intros ->; destruct H. Qed.

Lemma clean_not_reduce path : clean_path path ->
  forall task pid attempt, path <> reduce_final_path task /\ path <> reduce_temp_path task pid attempt.
Proof. intros (_ & _ & H) task pid attempt. by split; intros ->; destruct H. Qed.

(** The task a reply assigns, and its attempt. *)
Definition resp_task (r : task_response_t) : option (task_kind_e * Z * Z) :=
  match r with
  | RespMap m => Some (TASK_KIND_MAP, map_resp_task_id m, map_resp_attempt_id m)
  | RespReduce m => Some (TASK_KIND_REDUCE, reduce_resp_task_id m, reduce_resp_attempt_id m)
  | RespWait _ | RespDone => None
  end.

(** The worker runs it. *)
Definition run_task `{Qsort} (pid : Z) (r : task_response_t) (p : proc) : outcome (Z * proc) :=
  match r with
  | RespMap m =>
      worker_map_run (map_resp_task_id m) (map_resp_attempt_id m) (map_resp_n_reduce m)
        (cstr (map_resp_input_path m)) pid emit_word_count p
  | RespReduce m =>
      worker_reduce_run fold_word_count (reduce_resp_task_id m) (reduce_resp_attempt_id m)
        (reduce_resp_n_map m) pid p
  | RespWait _ | RespDone => Ret (0, p)
  end.

(** A turn of the worker: ask, run, report. *)
Lemma worker_turn_task `{Peer P} `{Qsort} pid (st : worker_state P) :
  worker_turn pid st =
  ('(resp, st) ← get_task_req st;
   match resp with
   | None => Ret (Some EXIT_FAILURE, st)
   | Some RespDone => Ret (Some EXIT_SUCCESS, st)
   | Some r =>
       match resp_task r with
       | Some (_, id, attempt) =>
           '(rv, p) ← run_task pid r (w_proc st);
           finish_task id attempt rv (mk_worker_state p (w_in st) (w_peer st))
       | None => Ret (None, st)
       end
   end).
Proof. unfold worker_turn. apply outcome_bind_ext. by intros [[[]|] st'] _. Qed.

Section Files.
Context (paths srcs : list (list Z)) (R : Z).

Definition completed_at (k : task_kind_e) (i : nat) (m : master_t) : Prop :=
  exists t, get_tasks k m !! i = Some t /\ t_state t = TASK_COMPLETED.

(** The inputs are in place. *)
Definition inputs_there (fs : files) : Prop :=
  forall i path src, paths !! i = Some path -> srcs !! i = Some src -> fs !! path = Some src.

(** So is what task [i] publishes. *)
Definition task_files (k : task_kind_e) (i : nat) (fs : files) : Prop :=
  match k with
  | TASK_KIND_MAP => forall src y, srcs !! i = Some src -> (y < Z.to_nat R)%nat ->
      fs !! map_final (Z.of_nat i) y = Some (map_data R src y)
  | TASK_KIND_REDUCE => (i < Z.to_nat R)%nat ->
      fs !! reduce_final_path (Z.of_nat i) = Some (reduce_output (partition_records R srcs i))
  end.

Definition job_files (m : master_t) (fs : files) : Prop :=
  inputs_there fs /\ forall k i, completed_at k i m -> task_files k i fs.

(** Nothing of the job is lost from [fs] to [fs2]. *)
Definition kept (fs fs2 : files) : Prop :=
  (inputs_there fs -> inputs_there fs2) /\ forall k i, task_files k i fs -> task_files k i fs2.

(** The job's constants. *)
Definition job_shape (m : master_t) : Prop :=
  j_M (m_job m) = zlen paths /\ j_R (m_job m) = R /\
  forall i t, m_maps m !! i = Some t -> Z.of_nat i < zlen paths -> paths !! i = Some (t_input_path t).

(** A reply that assigns a task of the job; a reduce task finds its inputs. *)
Definition good_resp (r : task_response_t) (fs : files) : Prop :=
  match r with
  | RespMap m => exists i, map_resp_task_id m = Z.of_nat i /\ (i < length paths)%nat /\
      u32 (map_resp_attempt_id m) /\ map_resp_n_reduce m = R /\ paths !! i = Some (map_resp_input_path m)
  | RespReduce m => exists y, reduce_resp_task_id m = Z.of_nat y /\ (y < Z.to_nat R)%nat /\
      u32 (reduce_resp_attempt_id m) /\ reduce_resp_n_map m = zlen paths /\
      forall i, (i < length paths)%nat -> task_files TASK_KIND_MAP i fs
  | RespWait _ | RespDone => False
  end.

(** What the task of a reply publishes is in place. *)
Definition resp_files (r : task_response_t) (fs : files) : Prop :=
  forall k id attempt, resp_task r = Some (k, id, attempt) -> task_files k (Z.to_nat id) fs.

Lemma kept_refl fs : kept fs fs.
Proof. by split. Qed.

Lemma kept_resp r fs fs2 : kept fs fs2 -> good_resp r fs -> good_resp r fs2.
Proof.
  intros [_ Hk]. destruct r as [m|m|m|]; [done| |done..]. cbn [good_resp].
  intros (y & ? & ? & ? & ? & Hall). exists y. split_and!; try done. intros i Hi. apply (Hk TASK_KIND_MAP). by apply Hall.
Qed.

Lemma kept_job m fs fs2 : kept fs fs2 -> job_files m fs -> job_files m fs2.
Proof. intros [H1 H2] [H3 H4]. split; [auto|]. intros k i Hc. apply H2. by apply H4. Qed.

(** One more task has been completed, whose files are in place. *)
Lemma job_files_complete m m2 fs k i : job_files m fs -> task_files k i fs ->
  (forall k' i', completed_at k' i' m2 -> k' = k /\ i' = i \/ completed_at k' i' m) -> job_files m2 fs.
Proof. intros [H1 H2] Ht Hc. split; [done|]. intros k' i' [[-> ->]|?]%Hc; auto. Qed.

Context (HR : 0 < R <= 64) (HM : 0 < zlen paths <= 256) (Hlen : length srcs = length paths) (Hclean : Forall clean_path paths).

Lemma index_u32 i : (i < length paths)%nat -> u32 (Z.of_nat i).
Proof. unfold zlen in HM. unfold fits. lia. Qed.

Lemma part_u32 y : (y < Z.to_nat R)%nat -> u32 (Z.of_nat y).
Proof. unfold fits. lia. Qed.

Lemma src_index i src : srcs !! i = Some src -> (i < length paths)%nat.
Proof. rewrite <- Hlen. apply lookup_lt_Some. Qed.

Lemma path_clean i path : paths !! i = Some path -> clean_path path.
Proof. intros Hi. rewrite Forall_forall in Hclean. apply Hclean. by eapply list_elem_of_lookup_2. Qed.

Ltac in_range := first [by apply index_u32|by apply part_u32|by eapply index_u32, src_index].

(** Whatever a map task leaves behind, nothing is lost: of its own files, the
    ones already published are published again with the same contents. *)
Lemma map_kept i attempt pid src start fs2 : (i < length paths)%nat -> srcs !! i = Some src ->
  publishing (Z.to_nat R) (map_temp (Z.of_nat i) attempt pid) (map_final (Z.of_nat i)) (map_data R src) start fs2 ->
  kept (d_files start) fs2.
Proof.
  intros Hi Hs [Hown Hrest]. split.
  - intros Hin j path src' Hp Hs'. rewrite Hrest; [by eapply Hin|]. intros y _.
    exact (clean_not_map path (path_clean _ _ Hp) (Z.of_nat i) (Z.of_nat y) pid attempt).
  - intros [] j Hj.
    + intros src' y Hs' Hy. destruct (decide (j = i)) as [->|Hne].
      * rewrite Hs in Hs'. injection Hs' as <-. destruct (Hown y Hy) as [->|]; [by apply Hj|done].
      * rewrite Hrest; [by apply Hj|]. intros y' Hy'. split.
        -- intros [E _]%map_final_inj; [lia|in_range..].
        -- apply not_eq_sym, map_temp_final; in_range.
    + intros Hy. rewrite Hrest; [by apply Hj|]. intros y' _. by split.
Qed.

Lemma reduce_kept y attempt pid start fs2 : (y < Z.to_nat R)%nat ->
  publishing 1 (reduce_temp (Z.of_nat y) attempt pid) (reduce_final (Z.of_nat y))
    (reduce_data (partition_records R srcs y)) start fs2 ->
  kept (d_files start) fs2.
Proof.
  intros Hy [Hown Hrest]. split.
  - intros Hin j path src' Hp Hs'. rewrite Hrest; [by eapply Hin|]. intros ? _.
    exact (clean_not_reduce path (path_clean _ _ Hp) (Z.of_nat y) pid attempt).
  - intros [] j Hj.
    + intros src' y' Hs' Hy'. rewrite Hrest; [by apply Hj|]. intros ? _. by split.
    + intros Hj'. destruct (decide (j = y)) as [->|Hne].
      * destruct (Hown 0%nat Nat.lt_0_1) as [E|E]; unfold reduce_final in E; rewrite E; [by apply Hj|done].
      * rewrite Hrest; [by apply Hj|]. intros ? _. unfold reduce_final, reduce_temp, reduce_final_path, reduce_temp_path.
        split; intros E; apply app_inv_head in E.
        -- apply print_u_inj in E; [lia|apply u32_printable; in_range..].
        -- rewrite <- (app_nil_r (print_u (Z.of_nat j))) in E.
           apply print_u_inj_app in E as [E _]; [lia|apply u32_printable; in_range..|done|by apply nondigit_head].
Qed.

(** A reduce task finds its inputs once the maps have published. *)
Lemma job_inputs fs y : (y < Z.to_nat R)%nat -> (forall i, (i < length paths)%nat -> task_files TASK_KIND_MAP i fs) ->
  input_records fs (Z.of_nat y) (length paths) 0 = Some (partition_records R srcs y).
Proof.
  intros Hy Hall.
  assert (forall l x, (forall j src, l !! j = Some src -> fs !! map_final_path (x + Z.of_nat j) (Z.of_nat y) = Some (map_data R src y)) ->
    input_records fs (Z.of_nat y) (length l) x = Some (partition_records R l y)) as Hgen.
  { induction l as [|src l IH]; intros x Hl; [done|]. cbn [length input_records].
    pose proof (Hl 0%nat src eq_refl) as H0. rewrite Z.add_0_r in H0. change (reduce_input_path x (Z.of_nat y)) with (map_final_path x (Z.of_nat y)).
    rewrite H0. cbn [mbind option_bind]. rewrite (IH (x + 1)); [done|].
    intros j src' Hj. rewrite <- (Hl (S j) src' Hj). f_equal. f_equal. lia. }
  rewrite <- Hlen. apply Hgen. intros j src Hj. rewrite Z.add_0_l. apply (Hall j); [by eapply src_index|done|done].
Qed.

(** ** Runs *)

(** Every state of the files from [old] on has kept the job's. *)
Definition run_keeps (old : disk) (p' : proc) : Prop := all_seen (kept (d_files old)) (d_seen old) (p_disk p').

Context {q : Qsort} {HQ : QsortSpec q} (pid : Z) (Hpid : pid_ok pid).

Lemma all_seen_impl (P Q : files -> Prop) seen0 d : all_seen P seen0 d -> (forall fs, P fs -> Q fs) -> all_seen Q seen0 d.
Proof.
  intros (H1 & l & E & H2) HPQ. split; [auto|]. exists l. split; [done|]. by eapply Forall_impl.
Qed.

(** A map task of the job returns, loses nothing at any moment, and when it
    succeeds its files are in place. *)
Lemma run_map_ok m old s : good_resp (RespMap m) (d_files old) -> inputs_there (d_files old) ->
  exists rc p', run_task pid (RespMap m) (mk_proc old s) = Ret (rc, p') /\ (rc = 0 \/ rc = -1) /\ run_keeps old p' /\
    (rc = 0 -> resp_files (RespMap m) (p_files p')) /\ (benign s -> rc = 0 /\ p_benign p').
Proof.
  intros (i & Eid & Hi & Hatt & HnR & Hpath) Hin. cbn [run_task].
  destruct (lookup_lt_is_Some_2 srcs i ltac:(lia)) as [src Hsrc]. pose proof (Hin i _ src Hpath Hsrc) as Hf.
  pose proof (path_clean _ _ Hpath) as Hcl. rewrite cstr_id by apply Hcl. rewrite Eid, HnR.
  assert (map_task_ok (Z.of_nat i) (map_resp_attempt_id m) R pid (map_resp_input_path m)) as Htask.
  { split; [by apply index_u32|]. split; [done|]. split; [done|]. split; [done|].
    apply Forall_forall. intros y _. by destruct (clean_not_map _ Hcl (Z.of_nat i) (Z.of_nat y) pid (map_resp_attempt_id m)). }
  destruct (worker_map_run_ok (Z.of_nat i) (map_resp_attempt_id m) R pid (map_resp_input_path m) old s Htask)
    as (rc & p' & -> & Hrc & Hs & H0 & Hb). rewrite Hf in H0, Hb, Hs. cbn [default] in H0, Hs.
  exists rc, p'. split; [done|]. split; [done|]. split; [|split].
  - eapply all_seen_impl; [exact Hs|]. intros fs2 Hfs. by apply (map_kept i _ pid src old fs2 Hi Hsrc Hfs).
  - intros E k id att [= <- <- <-] src' y Hs' Hy. rewrite Eid, Nat2Z.id in *. rewrite Hsrc in Hs'. injection Hs' as <-.
    exact (proj1 (proj2 (H0 E) y Hy)).
  - intros Hbs. by apply Hb.
Qed.

Lemma run_reduce_ok m old s : good_resp (RespReduce m) (d_files old) ->
  exists rc p', run_task pid (RespReduce m) (mk_proc old s) = Ret (rc, p') /\ (rc = 0 \/ rc = -1) /\ run_keeps old p' /\
    (rc = 0 -> resp_files (RespReduce m) (p_files p')) /\
    (benign s -> groups_small (partition_records R srcs (Z.to_nat (reduce_resp_task_id m))) -> rc = 0 /\ p_benign p').
Proof.
  intros (y & Eid & Hy & Hatt & HnM & Hall). cbn [run_task]. rewrite Eid, HnM, Nat2Z.id.
  assert (reduce_task_ok (Z.of_nat y) (reduce_resp_attempt_id m) (zlen paths) pid) as Htask.
  { split; [by apply part_u32|]. split; [done|]. split; [unfold zlen in *; lia|done]. }
  destruct (worker_reduce_run_ok (Z.of_nat y) (reduce_resp_attempt_id m) (zlen paths) pid old s Htask)
    as (rc & p' & -> & Hrc & Hs & _ & H0 & Hb). unfold zlen in H0, Hb, Hs.
  rewrite Nat2Z.id, (job_inputs (d_files old) y Hy Hall) in H0, Hb, Hs. cbn [default] in Hb, Hs.
  exists rc, p'. split; [done|]. split; [done|]. split; [|split].
  - eapply all_seen_impl; [exact Hs|]. intros fs2 Hfs. by apply (reduce_kept y _ pid old fs2 Hy Hfs).
  - intros E k id att [= <- <- <-] _. rewrite Eid, Nat2Z.id. destruct (H0 E) as (recs & [= <-] & _ & Hfin & _). exact Hfin.
  - intros Hbs Hsm. by apply Hb.
Qed.
End Files.

(** ** Turns of the worker *)

Section Turns.
Context {q : Qsort} {HQ : QsortSpec q}.
Context (paths srcs : list (list Z)) (R pid fd : Z).
Context (HR : 0 < R <= 64) (HM : 0 < zlen paths <= 256) (Hlen : length srcs = length paths).
Context (Hclean : Forall clean_path paths) (Hpid : pid_ok pid) (Hfd : 0 <= fd).
Hypothesis Hsmall : forall y, (y < Z.to_nat R)%nat -> groups_small (partition_records R srcs y).

(** The state between two turns. *)
Definition between (pr : proc) (st : sys master_app) : Prop :=
  p_benign pr /\ connected fd st /\ job_inv (master st) /\ quiet (master st) /\
  j_phase (m_job (master st)) <> JOB_FAILED /\ job_shape paths R (master st) /\
  job_files paths srcs R (master st) (p_files pr).

Lemma attempt_u32 t : task_ok t -> u32 (t_current_attempt t).
Proof. intros (_ & E & H & _). unfold fits. limits. lia. Qed.

(** The reply that assigns task [i]. *)
Definition task_resp (k : task_kind_e) (i : nat) (t' : task_t) (j : job_t) : task_response_t :=
  match k with
  | TASK_KIND_MAP => RespMap (mk_map_resp (Z.of_nat i) (t_current_attempt t') (j_R j) (t_input_path_len t') (t_input_path t'))
  | TASK_KIND_REDUCE => RespReduce (mk_reduce_resp (Z.of_nat i) (t_current_attempt t') (j_M j))
  end.

Lemma decode_assignment k i t' j : message_wf (assignment_msg k i t' j) ->
  decode_response (message_bytes (assignment_msg k i t' j)) = Some (task_resp k i t' j).
Proof. intros Hwf. rewrite decode_response_bytes by done. by destruct k. Qed.

(** In the reduce phase the maps have published. *)
Lemma maps_published m fs : job_inv m -> job_shape paths R m -> job_files paths srcs R m fs ->
  j_phase (m_job m) = JOB_REDUCE \/ j_phase (m_job m) = JOB_DONE ->
  forall i, (i < length paths)%nat -> task_files srcs R TASK_KIND_MAP i fs.
Proof.
  intros (Hm & Hc & Hph & _) (HjM & _) [_ Hjf] Hp i Hi. destruct (counts_all m TASK_KIND_MAP Hm Hc) as [_ [Hall _]].
  destruct (table_ok_get m TASK_KIND_MAP i Hm) as [ti Hti]; [cbn [n_tasks]; rewrite HjM; unfold zlen; lia|].
  apply Hjf. exists ti. split; [done|]. apply (Hall ltac:(unfold phase_ok in Hph; destruct Hp as [E|E]; rewrite E in Hph; apply Hph) i ti);
    [cbn [n_tasks]; rewrite HjM; unfold zlen; lia|done].
Qed.

(** What the master assigns is a task of the job. *)
Lemma assigned_good m fs k i t t' : job_inv m -> job_shape paths R m -> job_files paths srcs R m fs ->
  phase_kind (j_phase (m_job m)) = Ret k -> first_pending k m i t -> task_ok t' -> same_path t t' ->
  good_resp paths srcs R (task_resp k i t' (m_job m)) fs.
Proof.
  intros Hinv Hshape Hjf Hk (Hi & Ht & _) Hok [Hsame _]. pose proof Hshape as (HjM & HjR & Hpaths).
  destruct k; cbn [n_tasks get_tasks task_resp good_resp] in *; exists i; cbn.
  - rewrite HjM in Hi. split_and!; [done|unfold zlen in Hi; lia|by apply attempt_u32|done|].
    rewrite Hsame. by apply Hpaths.
  - rewrite HjR in Hi. split_and!; [done|lia|by apply attempt_u32|done|].
    apply (maps_published m fs Hinv Hshape Hjf). destruct (phase_kind_phase _ _ Hk) as [[_ ?]|[E _]]; [done|by left].
Qed.

(** The run of an assigned task, on a kernel that does what it is asked. *)
Lemma run_assigned k i t' j pr : good_resp paths srcs R (task_resp k i t' j) (p_files pr) -> inputs_there paths srcs (p_files pr) ->
  p_benign pr -> exists pr', run_task pid (task_resp k i t' j) pr = Ret (0, pr') /\ p_benign pr' /\
    kept paths srcs R (p_files pr) (p_files pr') /\ task_files srcs R k i (p_files pr').
Proof.
  intros Hgood Hin Hb. destruct pr as [old s]. destruct k; cbn [task_resp] in *.
  - destruct (run_map_ok paths srcs R HR HM Hlen Hclean pid Hpid _ old s Hgood Hin) as (rc & pr' & -> & _ & [Hk _] & H0 & Hb').
    destruct (Hb' Hb) as [-> Hbp]. exists pr'. split_and!; [done|done|done|]. rewrite <- (Nat2Z.id i). by eapply (H0 eq_refl).
  - pose proof Hgood as (y & Ey & Hy & _). cbn in Ey.
    destruct (run_reduce_ok paths srcs R HR HM Hlen Hclean pid Hpid _ old s Hgood) as (rc & pr' & -> & _ & [Hk _] & H0 & Hb').
    destruct (Hb' Hb) as [-> Hbp]; [cbn; rewrite Ey, Nat2Z.id; by apply Hsmall|].
    exists pr'. split_and!; [done|done|done|]. rewrite <- (Nat2Z.id i). by eapply (H0 eq_refl).
Qed.

(** What a completed round changes: the tasks' states, and no more than that. *)
Lemma round_shape now now' m k i t t' m2 : job_inv m -> phase_kind (j_phase (m_job m)) = Ret k ->
  first_pending k m i t -> start_attempt fd now t = Ret t' -> same_path t t' -> job_shape paths R m ->
  m2 = reported_master k i fd now' t' (assign_master k i fd t' m) ->
  job_shape paths R m2 /\ forall k' i', completed_at k' i' m2 -> k' = k /\ i' = i \/ completed_at k' i' m.
Proof.
  intros Hinv Hk Hfp Hs [Hp _] (HjM & HjR & Hpaths) ->.
  pose proof (round_tasks fd now' m k i t') as Htasks.
  pose proof (round_n fd now now' m k i t t' Hinv Hfd Hk Hfp Hs) as Hn. split.
  - split; [rewrite <- HjM; exact (Hn TASK_KIND_MAP)|]. split; [rewrite <- HjR; exact (Hn TASK_KIND_REDUCE)|].
    intros j tj Hj Hlt. destruct (Htasks TASK_KIND_MAP j tj Hj) as [(<- & -> & ->)|[_ Hj']]; [|by apply Hpaths].
    pose proof Hfp as (_ & Ht & _). rewrite (Hpaths i t Ht Hlt), <- Hp. done.
  - intros k' i' (t1 & Ht1 & Hst). destruct (Htasks k' i' t1 Ht1) as [(-> & -> & _)|[_ Ht1']]; [by left|right]. by exists t1.
Qed.

(** One turn completes one task. *)
Lemma turn_ok pr st k : between pr st -> phase_kind (j_phase (m_job (master st))) = Ret k ->
  exists pr' st', worker_turn (H := master_peer fd) pid (mk_worker_state pr [] st) = Ret (None, mk_worker_state pr' [] st') /\
    between pr' st' /\ remaining (m_job (master st')) = remaining (m_job (master st)) - 1.
Proof.
  intros (Hb & Hc & Hinv & Hq & Hnf & Hshape & Hjf) Hk.
  destruct (assign_exchange fd Hfd pr st k Hb Hc Hinv Hq Hk) as (i & t & t' & now & s & st2 & Hbs & Hfp & Hs & E & Hc2 & Hm2).
  destruct (round_assigned fd now 0 (master st) k i t t' Hinv Hfd Hk Hfp Hs) as (Hinv2 & Hj2 & Hholds & Hu & Hwf & Hpath).
  rewrite <- Hm2 in Hinv2, Hj2, Hholds. pose proof Hk as Hk2. rewrite <- Hj2 in Hk2.
  assert (task_ok t') as Hok by (destruct Hholds as (_ & _ & _ & Hi2 & Ht2 & _); by eapply table_ok_live; [apply Hinv2|..]).
  pose proof (assigned_good _ _ _ _ _ _ Hinv Hshape Hjf Hk Hfp Hok Hpath) as Hgood.
  destruct (run_assigned k i t' (m_job (master st)) (set_io s pr) Hgood (proj1 Hjf) Hbs) as (pr3 & Hrun & Hb3 & Hkept & Hfiles).
  destruct (report_round_exchange fd Hfd pr3 st2 k i t' Hb3 Hc2 Hinv2 Hk2 Hholds Hu) as (now' & s' & st4 & Hbs' & E4 & Hc4 & _ & Hm4).
  destruct (round_completed fd now now' (master st) k i t t' Hinv Hq Hfd Hk Hfp Hs) as (H1 & H2 & H3 & H4).
  rewrite Hm2 in Hm4. rewrite <- Hm4 in H1, H2, H3, H4.
  destruct (round_shape now now' (master st) k i t t' _ Hinv Hk Hfp Hs Hpath Hshape Hm4) as [Hshape4 Hdone4].
  exists (set_io s' pr3), st4. split; [|split; [|done]].
  - rewrite worker_turn_task, E, decode_assignment by done. cbn [mbind outcome_bind].
    destruct k; cbn [task_resp resp_task map_resp_task_id map_resp_attempt_id reduce_resp_task_id reduce_resp_attempt_id w_proc w_in w_peer] in *;
      rewrite Hrun; exact E4.
  - split_and!; try done. eapply job_files_complete; [exact (kept_job _ _ _ _ _ _ Hkept Hjf)|exact Hfiles|done].
Qed.

(** The last turn: the worker is told that the job is done, and leaves. *)
Lemma last_turn pr st : between pr st -> j_phase (m_job (master st)) = JOB_DONE ->
  exists s st', worker_turn (H := master_peer fd) pid (mk_worker_state pr [] st) =
      Ret (Some EXIT_SUCCESS, mk_worker_state (set_io s pr) [] st') /\ master st' = master st.
Proof.
  intros (Hb & Hc & Hinv & _) Hd. destruct (done_exchange fd Hfd pr st Hb Hc Hinv Hd) as (s & st' & _ & E & Hm).
  exists s, st'. split; [|done]. unfold worker_turn. by rewrite E.
Qed.

Lemma between_done pr st : between pr st -> remaining (m_job (master st)) = 0 ->
  j_phase (m_job (master st)) = JOB_DONE /\ forall k, all_tasks k (fun t => t_state t = TASK_COMPLETED) (master st).
Proof.
  intros (_ & _ & (Hm & Hc & Hph & _) & _ & Hnf & _) Hrem.
  destruct (counts_all (master st) TASK_KIND_MAP Hm Hc) as [HMd HMa].
  destruct (counts_all (master st) TASK_KIND_REDUCE Hm Hc) as [HRd HRa]. cbn [n_done n_tasks] in *.
  unfold remaining in Hrem. split; [|intros []; [apply HMa|apply HRa]; lia].
  unfold phase_ok in Hph. cbn zeta in Hph. destruct (j_phase (m_job (master st))); [lia|lia|done|done].
Qed.

Lemma between_more pr st : between pr st -> remaining (m_job (master st)) <> 0 ->
  exists k, phase_kind (j_phase (m_job (master st))) = Ret k.
Proof.
  intros (_ & _ & (_ & _ & Hph & _) & _ & Hnf & _) Hrem. unfold phase_ok, remaining in *. cbn zeta in Hph.
  destruct (j_phase (m_job (master st))); cbn; [by eexists|by eexists|lia|done].
Qed.

Lemma remaining_nonneg m : job_inv m -> 0 <= remaining (m_job m).
Proof.
  intros (Hm & Hc & _). destruct (counts_all m TASK_KIND_MAP Hm Hc) as [H1 _].
  destruct (counts_all m TASK_KIND_REDUCE Hm Hc) as [H2 _]. cbn [n_done n_tasks] in *. unfold remaining. lia.
Qed.

(** The output of every reduce task is in place. *)
Definition outputs (fs : files) : Prop := forall y, (y < Z.to_nat R)%nat ->
  fs !! reduce_final_path (Z.of_nat y) = Some (reduce_output (partition_records R srcs y)).

Lemma between_outputs pr st : between pr st ->
  (forall k, all_tasks k (fun t => t_state t = TASK_COMPLETED) (master st)) -> outputs (p_files pr).
Proof.
  intros (_ & _ & Hinv & _ & _ & (_ & HjR & _) & _ & Hdone) Hall y Hy. apply (Hdone TASK_KIND_REDUCE y); [|done].
  destruct (table_ok_get (master st) TASK_KIND_REDUCE y (proj1 Hinv)) as [t Ht]; [cbn [n_tasks]; lia|].
  exists t. split; [done|]. apply (Hall TASK_KIND_REDUCE y t); [cbn [n_tasks]; lia|done].
Qed.

(** The loop leaves with success, the job is done and its files are there. *)
Lemma loop_done fuel pr st : between pr st -> remaining (m_job (master st)) < Z.of_nat fuel ->
  exists pr' st', worker_loop (H := master_peer fd) fuel pid (mk_worker_state pr [] st) =
      Ret (Some EXIT_SUCCESS, mk_worker_state pr' [] st') /\
    j_phase (m_job (master st')) = JOB_DONE /\
    (forall k, all_tasks k (fun t => t_state t = TASK_COMPLETED) (master st')) /\
    outputs (p_files pr').
Proof.
  revert pr st. induction fuel as [|fuel IH]; intros pr st Hbt Hlt.
  { pose proof (remaining_nonneg _ (proj1 (proj2 (proj2 Hbt)))). lia. }
  cbn [worker_loop]. destruct (decide (remaining (m_job (master st)) = 0)) as [E0|Hne].
  - destruct (between_done pr st Hbt E0) as [Hd Hall]. destruct (last_turn pr st Hbt Hd) as (s & st' & -> & Hm).
    cbn [mbind outcome_bind]. exists (set_io s pr), st'. rewrite Hm.
    split_and!; [done..|]. by apply (between_outputs pr st).
  - destruct (between_more pr st Hbt Hne) as [k Hk]. destruct (turn_ok pr st k Hbt Hk) as (pr' & st' & -> & Hbt' & Hrem).
    cbn [mbind outcome_bind]. apply IH; [done|lia].
Qed.

Lemma client_init_benign p : p_benign p -> exists s, benign s /\ client_init p = (true, set_io s p).
Proof.
  intros Hb. unfold client_init.
  destruct (p_call_benign p Hb) as (s1 & Hs1 & ->). cbn [negb].
  destruct (p_call_benign (set_io s1 p) Hs1) as (s2 & Hs2 & ->). cbn [negb].
  destruct (p_call_benign (set_io s2 (set_io s1 p)) Hs2) as (s3 & Hs3 & ->). by exists s3.
Qed.

(** The whole program, connected to a job that waits for it. *)
Lemma main_done fuel pr st : between pr st -> remaining (m_job (master st)) < Z.of_nat fuel ->
  exists pr' st', worker_main (H := master_peer fd) fuel pid (mk_worker_state pr [] st) =
      Ret (Some EXIT_SUCCESS, mk_worker_state pr' [] st') /\
    j_phase (m_job (master st')) = JOB_DONE /\
    (forall k, all_tasks k (fun t => t_state t = TASK_COMPLETED) (master st')) /\
    outputs (p_files pr').
Proof.
  intros Hbt Hlt. pose proof Hbt as (Hb & Hrest). destruct (client_init_benign pr Hb) as (s & Hs & E).
  destruct (loop_done fuel (set_io s pr) st) as (pr' & st' & E' & H'); [by split|done|].
  exists pr', st'. split; [|done]. unfold worker_main. cbn [w_proc w_in w_peer]. rewrite E. exact E'.
Qed.
End Turns.

(** ** The job *)

(** The job has just been set up; workers may have connected. *)
Definition job_started (cfg : master_config_t) (paths : list (list Z)) (R : Z) (m : master_t) : Prop :=
  job_size_ok paths R /\ job_inv m /\ m_job m = m_job (fresh_master cfg paths R) /\
  forall k, get_tasks k m = get_tasks k (fresh_master cfg paths R).

(** A worker is connected to a job that has just started, whose inputs are in
    place. *)
Definition job_ready (cfg : master_config_t) (paths srcs : list (list Z)) (R fd : Z) (fs : files) (st : sys master_app) : Prop :=
  job_started cfg paths R (master st) /\ connected fd st /\ Forall clean_path paths /\
  Forall2 (fun path src => fs !! path = Some src) paths srcs.

Lemma starts_started cfg paths R st : starts cfg paths R st -> job_started cfg paths R (master st).
Proof.
  intros Hs. pose proof (starts_inv _ _ _ _ Hs) as Hinv. destruct Hs as [Hsize (fd & real & E)].
  rewrite E in *. split; [done|]. split; [done|]. split; [done|]. by intros [].
Qed.

Lemma started_shape cfg paths R m : job_started cfg paths R m -> job_shape paths R m.
Proof.
  intros (Hsize & _ & Hj & Ht). unfold job_shape. rewrite Hj. split; [done|]. split; [done|]. intros i t Hi Hlt.
  change (get_tasks TASK_KIND_MAP m !! i = Some t) in Hi. rewrite Ht in Hi.
  rewrite <- (fresh_task_paths cfg paths R) at 1. unfold task_paths.
  rewrite list_lookup_fmap, lookup_take_lt by (unfold zlen in *; lia). cbn [get_tasks] in Hi. by rewrite Hi.
Qed.

Lemma started_completed cfg paths R m k i : job_started cfg paths R m -> ~ completed_at k i m.
Proof.
  intros (Hsize & _ & _ & E) (t & Ht & Hst). destruct (Hsize) as (HM & HR & _). rewrite E in Ht. destruct k.
  - apply (fresh_maps cfg) in Ht as [(_ & p & _ & ->)|[_ ->]]; [done|done|lia].
  - apply (fresh_reduces cfg) in Ht as [[_ ->]|[_ ->]]; [done|done|lia].
Qed.

Lemma started_quiet cfg paths R m : job_started cfg paths R m -> quiet m.
Proof.
  intros (Hsize & _ & Hj & E) k i t Hi Ht. rewrite Hj in Hi. rewrite E in Ht. left.
  by apply (fresh_pending cfg paths R k Hsize i t).
Qed.

Lemma ready_between cfg paths srcs R fd pr st : job_ready cfg paths srcs R fd (p_files pr) st -> p_benign pr ->
  between paths srcs R fd pr st /\ remaining (m_job (master st)) = zlen paths + R.
Proof.
  intros (Hst & Hc & Hcl & Hin) Hb. pose proof (started_completed cfg paths R (master st)) as Hno.
  pose proof Hst as (_ & Hinv & Hj & _). unfold between. rewrite Hj. split_and!; try done.
  - by eapply started_quiet.
  - by eapply started_shape.
  - split.
    + intros i path src Hp Hs. by eapply Forall2_lookup_lr in Hin.
    + intros k i Hd. by destruct (Hno k i).
  - unfold remaining. cbn. lia.
Qed.

Lemma occurrences_partition R y w ws : occurrences w (partition_words R y ws) <= occurrences w ws.
Proof.
  unfold occurrences, partition_words, zlen. apply inj_le.
  induction ws as [|v ws IH]; [done|]. rewrite !filter_cons.
  destruct (decide (get_hash v mod R = y)); rewrite ?filter_cons; destruct (decide (v = w)); cbn [length]; lia.
Qed.

(** No word fills a group beyond the bound of a reduce task. *)
Lemma rare_small srcs R y : Forall text_ok srcs ->
  (forall w, occurrences w (concat (map words srcs)) <= WORKER_REDUCE_MAX_VALUES_PER_KEY) ->
  groups_small (partition_records R srcs y).
Proof.
  intros Htext Hocc. rewrite partition_records_words by done. apply groups_small_words, Forall_forall. intros w _.
  etrans; [apply occurrences_partition|apply Hocc].
Qed.

Lemma outputs_words srcs R fs : Forall text_ok srcs -> outputs srcs R fs -> forall y, (y < Z.to_nat R)%nat ->
  fs !! reduce_final_path (Z.of_nat y) = Some (word_counts (partition_words R (Z.of_nat y) (concat (map words srcs)))).
Proof. intros Htext Hout y Hy. rewrite <- output_of_words, <- partition_records_words by done. by apply Hout. Qed.

(** A worker connected to the master of a job that
    has just started, on a kernel that does what it is asked, asks for tasks,
    runs them and reports them until it is told that the job is done, and exits
    with success; the master's job is then JOB_DONE with every task COMPLETED,
    and the output file of each partition holds a line for each distinct word
    of the inputs in that partition, sorted, with the number of its
    occurrences. No word may occur more than WORKER_REDUCE_MAX_VALUES_PER_KEY
    times. *)
Lemma job_word_count {q : Qsort} {HQ : QsortSpec q} cfg paths srcs R pid fd pr st fuel :
  job_ready cfg paths srcs R fd (p_files pr) st -> p_benign pr -> 0 <= fd -> pid_ok pid ->
  Forall text_ok srcs ->
  (forall w, occurrences w (concat (map words srcs)) <= WORKER_REDUCE_MAX_VALUES_PER_KEY) ->
  zlen paths + R < Z.of_nat fuel ->
  exists pr' st', worker_main (H := master_peer fd) fuel pid (mk_worker_state pr [] st) =
      Ret (Some EXIT_SUCCESS, mk_worker_state pr' [] st') /\
    j_phase (m_job (master st')) = JOB_DONE /\
    (forall k, all_tasks k (fun t => t_state t = TASK_COMPLETED) (master st')) /\
    forall y, (y < Z.to_nat R)%nat ->
      p_files pr' !! reduce_final_path (Z.of_nat y) =
        Some (word_counts (partition_words R (Z.of_nat y) (concat (map words srcs)))).
Proof.
  intros Hready Hb Hfd Hpid Htext Hocc Hfuel. destruct (ready_between _ _ _ _ _ _ _ Hready Hb) as [Hbt Hrem].
  destruct Hready as ((Hsize & _) & _ & Hcl & Hin). destruct Hsize as (HM & HR & _). apply Forall2_length in Hin.
  destruct (main_done paths srcs R pid fd HR ltac:(apply HM) ltac:(done) Hcl Hpid Hfd) with (fuel := fuel) (pr := pr) (st := st)
    as (pr' & st' & E & Hd & Hall & Hout); [|done|lia|].
  - intros y _. by apply rare_small.
  - exists pr', st'. split; [done|]. split; [done|]. split; [done|]. by apply outputs_words.
Qed.

Lemma occurrences_le w ws : occurrences w ws <= zlen ws.
Proof. unfold occurrences, zlen. apply inj_le, length_filter. Qed.

(** ** Example: two inputs, two partitions *)

Definition demo_texts : list (list Z) := [lit "to be, or not" ++ [10]; lit "that is to be" ++ [10]].
Definition demo_start : proc := mk_proc (mk_disk (list_to_map (zip demo_paths demo_texts)) []) [].

Lemma demo_ready : job_ready demo_config demo_paths demo_texts 2 5 (p_files demo_start) demo.
Proof.
  split; [eapply starts_started, demo_starts|]. split; [by vm_compute|]. split; [decide_now|].
  apply Forall2_cons_2; [by vm_compute|]. apply Forall2_cons_2; [by vm_compute|constructor].
Qed.
