(* ===== verification/Interleave.v ===== *)
(** * Tasks that run at the same time (src/worker.c, src/worker_map.c, src/worker_reduce.c)

    Several processes run tasks of a job on the same files, one system call at a
    time, in any order. What each relies on in the others, and guarantees to
    them: outside its own temporary files, a call changes nothing but gives a
    file of the job its final contents. *)

From Stdlib Require Import String.
From S2P Require Import Prelude Limits Util Rpc Task Aof EventLoop Server Framing Master Sched Job Recovery Liveness.
From S2P Require Import Stdio Calls Publish WorkerMap WorkerReduce Worker TaskProgs WordCount Exchange System.

(** The program of the task of a reply. *)
Definition task_prog `{Qsort} (pid : Z) (r : task_response_t) : prog Z :=
  match r with
  | RespMap m =>
      worker_map_prog (map_resp_task_id m) (map_resp_attempt_id m) (map_resp_n_reduce m) (cstr (map_resp_input_path m)) pid
  | RespReduce m => worker_reduce_prog (reduce_resp_task_id m) (reduce_resp_attempt_id m) (reduce_resp_n_map m) pid
  | RespWait _ | RespDone => mret 0
  end.

(** The program of a task is the task. Executed alone, from any process state
    and for any answers of the kernel, the tree of the system calls of a map or
    reduce task does what [worker_map_run] or [worker_reduce_run] does, undefined
    behaviour included: the same result, the same files at every moment, and
    the same answers consumed. *)
Lemma task_prog_run `{Qsort} pid r p : run (task_prog pid r) p = run_task pid r p.
Proof. destruct r; [apply run_worker_map|apply run_worker_reduce|done|done]. Qed.

(** ** Temporary files *)

(** A temporary file of the process [pid]. *)
Definition temp_of (pid : Z) (path : list Z) : Prop := exists task attempt, u32 task /\ u32 attempt /\
  ((exists y, u32 y /\ path = map_temp_path task y pid attempt) \/ path = reduce_temp_path task pid attempt).

Lemma map_temp_pid task y pid attempt task' y' pid' attempt' : u32 task -> u32 y -> u32 attempt -> u32 task' -> u32 y' -> u32 attempt' ->
  pid_ok pid -> pid_ok pid' -> map_temp_path task y pid attempt = map_temp_path task' y' pid' attempt' -> pid = pid'.
Proof.
  intros Ht%u32_printable Hy%u32_printable _ Ht'%u32_printable Hy'%u32_printable _ Hp Hp' E.
  apply pid_printable in Hp as [Hp Ep], Hp' as [Hp' Ep']. unfold map_temp_path in E. rewrite Ep, Ep' in E. apply app_inv_head in E.
  apply print_u_inj_app in E as [_ E]; [|done|done|by apply nondigit_head..]. apply app_inv_head in E.
  apply print_u_inj_app in E as [_ E]; [|done|done|by apply nondigit_head..]. apply app_inv_head in E.
  by apply print_u_inj_app in E as [-> _]; [|done|done|apply nondigit_head..].
Qed.

Lemma reduce_temp_pid task pid attempt task' pid' attempt' : u32 task -> u32 task' ->
  pid_ok pid -> pid_ok pid' -> reduce_temp_path task pid attempt = reduce_temp_path task' pid' attempt' -> pid = pid'.
Proof.
  intros Ht%u32_printable Ht'%u32_printable Hp Hp' E. apply pid_printable in Hp as [Hp Ep], Hp' as [Hp' Ep'].
  unfold reduce_temp_path in E. rewrite Ep, Ep' in E. apply app_inv_head in E.
  apply print_u_inj_app in E as [_ E]; [|done|done|by apply nondigit_head..]. apply app_inv_head in E.
  by apply print_u_inj_app in E as [-> _]; [|done|done|apply nondigit_head..].
Qed.

Lemma reduce_temp_apart task pid attempt task' : u32 task -> u32 task' ->
  reduce_temp_path task pid attempt <> reduce_final_path task'.
Proof.
  intros Ht%u32_printable Ht'%u32_printable E. unfold reduce_temp_path, reduce_final_path in E. apply app_inv_head in E.
  rewrite <- (app_nil_r (print_u task')) in E. by apply print_u_inj_app in E as [_ E]; [|done|done|by apply nondigit_head|].
Qed.

(** No two processes share a temporary file. *)
Lemma temp_of_pid pid pid' path : pid_ok pid -> pid_ok pid' -> temp_of pid path -> temp_of pid' path -> pid = pid'.
Proof.
  intros Hp Hp' (t & a & Ht & Ha & Hor) (t' & a' & Ht' & Ha' & Hor').
  destruct Hor as [(y & Hy & ->)| ->], Hor' as [(y' & Hy' & E)|E]; [by eapply map_temp_pid in E|done|done|by eapply reduce_temp_pid in E].
Qed.

Section Interleave.
Context (paths srcs : list (list Z)) (R : Z).

(** A file task [i] of kind [k] publishes, and its contents. *)
Inductive task_final : task_kind_e -> nat -> list Z -> list Z -> Prop :=
  | final_map i src y : srcs !! i = Some src -> (y < Z.to_nat R)%nat ->
      task_final TASK_KIND_MAP i (map_final (Z.of_nat i) y) (map_data R src y)
  | final_reduce y : (y < Z.to_nat R)%nat ->
      task_final TASK_KIND_REDUCE y (reduce_final_path (Z.of_nat y)) (reduce_output (partition_records R srcs y)).

Lemma task_files_final k i fs : task_files srcs R k i fs <-> forall path data, task_final k i path data -> fs !! path = Some data.
Proof.
  split.
  - intros H path data Hf. destruct Hf; by apply H.
  - intros H. destruct k; cbn; intros; apply H; by constructor.
Qed.

(** What a call of the process [pid] does to the files. *)
Definition guar (pid : Z) (fs fs2 : files) : Prop := forall path,
  fs2 !! path = fs !! path \/ temp_of pid path \/ exists k i data, task_final k i path data /\ fs2 !! path = Some data.

(** The files the task of a reply reads, and those it publishes. *)
Definition reads (r : task_response_t) (path : list Z) : Prop :=
  match r with
  | RespMap m => path = map_resp_input_path m
  | RespReduce m => exists i, (i < length paths)%nat /\ path = map_final_path (Z.of_nat i) (reduce_resp_task_id m)
  | RespWait _ | RespDone => False
  end.

Definition own_final (r : task_response_t) (path data : list Z) : Prop :=
  exists k id attempt, resp_task r = Some (k, id, attempt) /\ task_final k (Z.to_nat id) path data.

(** What a call of the task of the reply [r] in the process [pid] does to them. *)
Definition own_change (pid : Z) (r : task_response_t) (fs fs2 : files) : Prop := forall path,
  fs2 !! path = fs !! path \/ temp_of pid path \/ exists data, own_final r path data /\ fs2 !! path = Some data.

(** A process runs the rest [m] of its task on [fs]. On files [sfs] that agree
    with [fs] where it reads and writes, it would run well on its own; what it
    has published there is published. *)
Definition working (pid : Z) (r : task_response_t) (m : prog Z) (fs : files) : Prop := exists sfs,
  confined (reads r) (temp_of pid) (fun path => exists data, own_final r path data) (fun _ => True) m /\
  agree (reads r) (temp_of pid) sfs fs /\
  good (fun fs => forall path data, own_final r path data -> fs !! path = None \/ fs !! path = Some data) (resp_files srcs R r) m sfs /\
  forall path data, own_final r path data -> sfs !! path = Some data -> fs !! path = Some data.

Context (HR : 0 < R <= 64) (HM : 0 < zlen paths <= 256) (Hlen : length srcs = length paths) (Hclean : Forall clean_path paths).

Lemma src_u32 i src : srcs !! i = Some src -> u32 (Z.of_nat i).
Proof. intros H%lookup_lt_Some. unfold zlen in HM. unfold fits. lia. Qed.

Lemma slot_r_u32 y : (y < Z.to_nat R)%nat -> u32 (Z.of_nat y).
Proof. unfold fits. lia. Qed.

Lemma final_not_temp k i path data pid : task_final k i path data -> ~ temp_of pid path.
Proof.
  intros Hf (t & a & Ht & Ha & Hor). destruct Hf as [i src y Hs Hy|y Hy].
  - apply src_u32 in Hs. apply slot_r_u32 in Hy. destruct Hor as [(y' & Hy' & E)|E]; [|done]. symmetry in E. by apply map_temp_final in E.
  - apply slot_r_u32 in Hy. destruct Hor as [(y' & Hy' & E)|E]; [done|]. symmetry in E. by apply reduce_temp_apart in E.
Qed.

(** A published file belongs to one task. *)
Lemma final_unique k i path data k' i' data' : task_final k i path data -> task_final k' i' path data' ->
  k = k' /\ i = i' /\ data = data'.
Proof.
  intros H H'. assert (exists path', path = path' /\ task_final k' i' path' data') as (path' & E & H2) by eauto. clear H'.
  destruct H as [i src y Hs Hy|y Hy], H2 as [i2 src2 y2 Hs2 Hy2|y2 Hy2]; [|done|done|].
  - apply map_final_inj in E as [Ei Ey]; [|by eapply src_u32|by apply slot_r_u32|by eapply src_u32|by apply slot_r_u32].
    assert (i2 = i) as -> by lia. assert (y2 = y) as -> by lia. rewrite Hs in Hs2. by injection Hs2 as ->.
  - apply app_inv_head, print_u_inj in E; [|by apply u32_printable, slot_r_u32..]. by assert (y2 = y) as -> by lia.
Qed.

Lemma clean_apart path k i data pid : path ∈ paths -> ~ task_final k i path data /\ ~ temp_of pid path.
Proof.
  intros Hp. assert (clean_path path) as Hc by (by eapply Forall_forall in Hclean). split.
  - intros Hf. destruct Hf as [i src y Hs Hy|y Hy].
    + exact (proj1 (clean_not_map _ Hc (Z.of_nat i) (Z.of_nat y) 0 0) eq_refl).
    + exact (proj1 (clean_not_reduce _ Hc (Z.of_nat y) 0 0) eq_refl).
  - intros (t & a & _ & _ & [(y & _ & ->)| ->]).
    + exact (proj2 (clean_not_map _ Hc t y pid a) eq_refl).
    + exact (proj2 (clean_not_reduce _ Hc t pid a) eq_refl).
Qed.

(** Such a call loses nothing of the job. *)
Lemma guar_kept pid fs fs2 : guar pid fs fs2 -> kept paths srcs R fs fs2.
Proof.
  intros Hg. split.
  - intros Hin i path src Hp Hs. specialize (Hin i path src Hp Hs). apply list_elem_of_lookup_2 in Hp.
    destruct (Hg path) as [->|[Ht|(k & j & data & Hf & _)]]; [done|by destruct (clean_apart path TASK_KIND_MAP 0 [] pid Hp)|].
    by destruct (clean_apart path k j data pid Hp).
  - intros k i Hk. rewrite task_files_final in *. intros path data Hf. specialize (Hk path data Hf).
    destruct (Hg path) as [->|[Ht|(k' & j & data' & Hf' & ->)]]; [done|by apply final_not_temp with (pid := pid) in Hf|].
    by destruct (final_unique _ _ _ _ _ _ _ Hf Hf') as (_ & _ & ->).
Qed.

(** ** The steps of a task *)

Abbreviation own_ok r := (fun fs : files => forall path data, own_final r path data -> fs !! path = None \/ fs !! path = Some data).

Lemma own_unique r path data data' : own_final r path data -> own_final r path data' -> data = data'.
Proof. intros (k & id & a & E & H) (k' & id' & a' & E' & H'). by destruct (final_unique _ _ _ _ _ _ _ H H') as (_ & _ & ->). Qed.

Lemma own_not_temp r path data pid : own_final r path data -> ~ temp_of pid path.
Proof. intros (k & id & a & _ & H). by eapply final_not_temp. Qed.

(** One call changes the temporary files of the process, and gives files of its
    task their final contents; the rest of the task goes on. *)
Lemma working_call pid r c k ok fs : working pid r (PCall c k) fs ->
  own_change pid r fs (after c ok fs) /\ working pid r (k (perform c ok fs).1) (after c ok fs).
Proof.
  intros (sfs & [Hc Hk] & Ha & [_ Hg] & Hpub). destruct (perform_agree _ _ _ c ok sfs fs Hc Ha) as [Eans Ha'].
  specialize (Hg ok). pose proof (good_now _ _ _ _ Hg) as Hown.
  assert (forall path, _) as Htouch by exact (fun path => after_touches _ _ _ c ok sfs fs path Hc Ha). split.
  - intros path. destruct (Htouch path) as [?|[[_ ?]|([data Hf] & d & E1 & E2)]]; [by right; left|by left|]. right. right.
    destruct (Hown path data Hf) as [E|E]; rewrite E in E1; [done|]. injection E1 as <-. by exists data.
  - exists (after c ok sfs). rewrite <- Eans. split; [apply Hk|]. split; [done|]. split; [done|].
    intros path data Hf E. destruct (Htouch path) as [Ht|[[E1 E2]|(_ & d & E1 & E2)]].
    + by destruct (own_not_temp _ _ _ pid Hf).
    + rewrite E1 in E. rewrite E2. by apply Hpub.
    + congruence.
Qed.

Lemma own_change_guar pid r fs fs2 : own_change pid r fs fs2 -> guar pid fs fs2.
Proof.
  intros H path. destruct (H path) as [?|[?|(data & (k & id & a & _ & Hf) & E)]]; [by left|by right; left|].
  right. right. by exists k, (Z.to_nat id), data.
Qed.

(** So one call keeps the guarantee. *)
Lemma working_step pid r c k ok fs : working pid r (PCall c k) fs ->
  guar pid fs (after c ok fs) /\ working pid r (k (perform c ok fs).1) (after c ok fs).
Proof. intros [Hc Hw]%(working_call _ _ _ _ ok). split; [by eapply own_change_guar|done]. Qed.

(** At its end the task has returned, and has published its files if it
    returns 0. *)
Lemma working_end pid r o fs : working pid r (PEnd o) fs -> exists rv, o = Ret rv /\ (rv = 0 -> resp_files srcs R r fs).
Proof.
  intros (sfs & _ & _ & [_ Hg] & Hpub). destruct o as [rv| |]; [|done..]. exists rv. split; [done|]. intros H0 k id att Er.
  apply task_files_final. intros path data Hf. apply Hpub; [by exists k, id, att|]. by apply (proj1 (task_files_final _ _ _) (Hg H0 k id att Er)).
Qed.

(** What the task reads is in place and stays, whatever the others do. *)
Lemma reads_stay pid r path fs fs2 : good_resp paths srcs R r fs -> reads r path -> guar pid fs fs2 -> fs2 !! path = fs !! path.
Proof.
  intros Hgood Hr Hg. destruct r as [m|m|m|]; [| |done..]; cbn [good_resp reads] in *.
  - destruct Hgood as (i & _ & _ & _ & _ & Hp). subst path. apply list_elem_of_lookup_2 in Hp.
    destruct (Hg (map_resp_input_path m)) as [?|[Ht|(k & j & data & Hf & _)]]; [done| |];
      [by destruct (clean_apart _ TASK_KIND_MAP 0 [] pid Hp)|by destruct (clean_apart _ k j data pid Hp)].
  - destruct Hgood as (y & Ey & Hy & _ & _ & Hall). destruct Hr as (i & Hi & ->). rewrite Ey in *.
    destruct (lookup_lt_is_Some_2 srcs i ltac:(lia)) as [src Hs].
    assert (task_final TASK_KIND_MAP i (map_final_path (Z.of_nat i) (Z.of_nat y)) (map_data R src y)) as Hf0 by exact (final_map i src y Hs Hy).
    destruct (Hg (map_final_path (Z.of_nat i) (Z.of_nat y))) as [?|[Ht|(k & j & data & Hf & ->)]]; [done|by destruct (final_not_temp _ _ _ _ pid Hf0)|].
    destruct (final_unique _ _ _ _ _ _ _ Hf0 Hf) as (_ & _ & <-). symmetry. exact (Hall i Hi src y Hs Hy).
Qed.

(** A call of another process does not disturb it. *)
Lemma working_others pid pid' r m fs fs2 : pid_ok pid -> pid_ok pid' -> pid' <> pid -> good_resp paths srcs R r fs -> guar pid' fs fs2 ->
  working pid r m fs -> working pid r m fs2.
Proof.
  intros Hp Hp' Hne Hgood Hg (sfs & Hc & Ha & Hgo & Hpub). exists sfs. split; [done|]. split; [|split; [done|]].
  - intros path Hor. rewrite Ha by done. destruct Hor as [Hr|Ht]; [by rewrite (reads_stay pid' r path fs fs2)|].
    destruct (Hg path) as [->|[Ht'|(k & i & data & Hf & _)]]; [done| |].
    + destruct Hne. by eapply temp_of_pid.
    + by destruct (final_not_temp _ _ _ _ pid Hf).
  - intros path data Hf E. destruct (Hg path) as [->|[Ht'|(k & i & data' & Hf' & ->)]]; [by apply Hpub|by destruct (own_not_temp _ _ _ pid' Hf)|].
    destruct Hf as (k0 & id & a & _ & Hf). by destruct (final_unique _ _ _ _ _ _ _ Hf Hf') as (_ & _ & ->).
Qed.

(** ** The start of a task *)

Definition own_paths (r : task_response_t) : list (list Z) :=
  match r with
  | RespMap m => map (map_final (map_resp_task_id m)) (seq 0 (Z.to_nat R))
  | RespReduce m => [reduce_final_path (reduce_resp_task_id m)]
  | RespWait _ | RespDone => []
  end.

Lemma own_in r path fs : good_resp paths srcs R r fs -> path ∈ own_paths r <-> exists data, own_final r path data.
Proof.
  intros Hgood. destruct r as [m|m|m|]; [| |done..]; cbn [good_resp own_paths] in *.
  - destruct Hgood as (i & Ei & Hi & _). destruct (lookup_lt_is_Some_2 srcs i ltac:(lia)) as [src Hs]. rewrite list_elem_of_fmap. split.
    + intros (y & -> & Hy%elem_of_seq). exists (map_data R src y), TASK_KIND_MAP, (map_resp_task_id m), (map_resp_attempt_id m).
      split; [done|]. rewrite Ei, Nat2Z.id. apply final_map; [done|lia].
    + intros (data & k & id & a & [= <- <- <-] & Hf). rewrite Ei, Nat2Z.id in Hf.
      inversion Hf as [i' src' y Hs' Hy|]; subst. exists y. rewrite Ei. split; [done|]. apply elem_of_seq. lia.
  - destruct Hgood as (y & Ey & Hy & _). rewrite list_elem_of_singleton. split.
    + intros ->. eexists _, TASK_KIND_REDUCE, (reduce_resp_task_id m), (reduce_resp_attempt_id m). split; [done|].
      rewrite Ey, Nat2Z.id. by apply final_reduce.
    + intros (data & k & id & a & [= <- <- <-] & Hf). rewrite Ey, Nat2Z.id in Hf. inversion Hf; subst. by rewrite Ey.
Qed.

(** The files without those the task is to publish. *)
Definition hidden (r : task_response_t) (fs : files) : files := filter (fun x : list Z * list Z => x.1 ∉ own_paths r) fs.

Lemma hidden_own r fs path : path ∈ own_paths r -> hidden r fs !! path = None.
Proof. intros H. apply map_lookup_filter_None. right. intros data _ Hn. by apply Hn. Qed.

Lemma hidden_other r fs path : path ∉ own_paths r -> hidden r fs !! path = fs !! path.
Proof. intros H. apply option_eq. intros data. unfold hidden. rewrite map_lookup_filter_Some. split; [by intros [? _]|by split]. Qed.

Lemma hidden_reads r fs path : good_resp paths srcs R r fs -> reads r path -> hidden r fs !! path = fs !! path.
Proof.
  intros Hgood Hr. apply hidden_other. rewrite (own_in r path fs Hgood). intros (data & k & id & a & Er & Hf).
  destruct r as [m|m|m|]; [| |done..]; cbn [good_resp reads] in *.
  - destruct Hgood as (i & _ & _ & _ & _ & Hp). subst path. apply list_elem_of_lookup_2 in Hp. by destruct (clean_apart _ k (Z.to_nat id) data 0 Hp).
  - destruct Hr as (i & _ & ->). injection Er as <- _ _. inversion Hf.
Qed.

Lemma hidden_agree pid r fs : good_resp paths srcs R r fs -> agree (reads r) (temp_of pid) (hidden r fs) fs.
Proof.
  intros Hgood path [Hr|Ht]; [by apply hidden_reads|]. apply hidden_other. rewrite (own_in r path fs Hgood). intros (data & Hf).
  by eapply own_not_temp.
Qed.

Context {q : Qsort} {HQ : QsortSpec q}.

(** What is needed of a program to be the task of [r]. *)
Lemma working_intro pid r m fs : good_resp paths srcs R r fs ->
  confined (reads r) (temp_of pid) (fun path => exists data, own_final r path data) (fun _ => True) m ->
  (forall io, exists rv p', run m (mk_proc (mk_disk (hidden r fs) []) io) = Ret (rv, p') /\
     all_seen (own_ok r) [] (p_disk p') /\ (rv = 0 -> resp_files srcs R r (p_files p'))) ->
  working pid r m fs.
Proof.
  intros Hgood Hc Hrun. exists (hidden r fs). split; [done|]. split; [by apply hidden_agree|]. split.
  - apply good_of_runs. intros io. destruct (Hrun io) as (rv & p' & E & (Hnow & l & El & Hl) & H0). exists rv, p'. split; [done|].
    split; [|done]. rewrite El, app_nil_r. intros fs' [->|Hin]; [exact Hnow|]. by eapply Forall_forall in Hl.
  - intros path data Hf E. rewrite hidden_own in E; [done|]. apply (own_in r path fs Hgood). by exists data.
Qed.

Lemma map_working pid m fs : pid_ok pid -> good_resp paths srcs R (RespMap m) fs -> inputs_there paths srcs fs ->
  working pid (RespMap m) (task_prog pid (RespMap m)) fs.
Proof.
  intros Hpid Hgood Hin. apply working_intro; [done| |]; pose proof Hgood as (i & Ei & Hi & Hatt & HnR & Hp);
    destruct (lookup_lt_is_Some_2 srcs i ltac:(lia)) as [src Hs]; pose proof (src_u32 i src Hs) as Hu;
    assert (clean_path (map_resp_input_path m)) as Hcl by (by eapply path_clean); cbn [task_prog]; rewrite cstr_id by apply Hcl.
  - apply conf_worker_map; [done|]. rewrite HnR, Ei. intros y temp final Hy E.
    rewrite map_build_paths_ok in E by (done || by apply slot_r_u32). injection E as <- <-. split.
    + exists (Z.of_nat i), (map_resp_attempt_id m). split; [done|]. split; [done|]. left. exists (Z.of_nat y). split; [by apply slot_r_u32|done].
    + exists (map_data R src y), TASK_KIND_MAP, (map_resp_task_id m), (map_resp_attempt_id m). split; [done|]. rewrite Ei, Nat2Z.id.
      by apply final_map.
  - intros io. rewrite run_worker_map, HnR, Ei.
    assert (map_task_ok (Z.of_nat i) (map_resp_attempt_id m) R pid (map_resp_input_path m)) as Htask.
    { split; [done|]. split; [done|]. split; [done|]. split; [done|]. apply Forall_forall. intros y _.
      by destruct (clean_not_map _ Hcl (Z.of_nat i) (Z.of_nat y) pid (map_resp_attempt_id m)). }
    set (sfs := hidden (RespMap m) fs).
    destruct (worker_map_run_ok (Z.of_nat i) (map_resp_attempt_id m) R pid (map_resp_input_path m) (mk_disk sfs []) io Htask)
      as (rc & p' & E & _ & Hsafe & H0 & _).
    assert (sfs !! map_resp_input_path m = Some src) as Hf by (unfold sfs; rewrite hidden_reads by done; by apply (Hin i)).
    change (d_files (mk_disk sfs [])) with sfs in *. rewrite Hf in Hsafe, H0. cbn [default] in Hsafe, H0.
    assert (forall path data, own_final (RespMap m) path data -> exists y, (y < Z.to_nat R)%nat /\ path = map_final (Z.of_nat i) y /\ data = map_data R src y) as Hown.
    { intros path data (k & id & a & [= <- <- <-] & Hfin). rewrite Ei, Nat2Z.id in Hfin. inversion Hfin as [i' src' y Hs' Hy|]; subst.
      rewrite Hs in Hs'. injection Hs' as ->. by exists y. }
    exists rc, p'. split; [exact E|]. split.
    + eapply all_seen_impl; [exact Hsafe|]. intros fs2 [Hpub _] path data Hf2. pose proof Hf2 as (y & Hy & -> & ->)%Hown.
      destruct (Hpub y Hy) as [->|?]; [left|by right]. apply hidden_own. apply (own_in _ _ fs Hgood). by exists (map_data R src y).
    + intros -> k id a Er. apply task_files_final. intros path data Hfin.
      destruct (Hown path data ltac:(by exists k, id, a)) as (y & Hy & -> & ->). exact (proj1 (proj2 (H0 eq_refl) y Hy)).
Qed.

Lemma reduce_working pid m fs : pid_ok pid -> good_resp paths srcs R (RespReduce m) fs ->
  working pid (RespReduce m) (task_prog pid (RespReduce m)) fs.
Proof.
  intros Hpid Hgood. apply working_intro; [done| |]; pose proof Hgood as (y & Ey & Hy & Hatt & HnM & Hall);
    pose proof (slot_r_u32 y Hy) as Hu; cbn [task_prog].
  - apply conf_worker_reduce.
    + rewrite HnM. intros j path Hj E. unfold snprintf in E. destruct (_ <=? _); [done|]. injection E as <-.
      exists j. split; [unfold zlen in Hj; lia|done].
    + intros temp final E. rewrite Ey in E. rewrite reduce_build_paths_ok in E by done. injection E as <- <-. split.
      * exists (Z.of_nat y), (reduce_resp_attempt_id m). split; [done|]. split; [done|]. by right.
      * eexists _, TASK_KIND_REDUCE, (reduce_resp_task_id m), (reduce_resp_attempt_id m). split; [done|]. rewrite Ey, Nat2Z.id.
        by apply final_reduce.
  - intros io. rewrite run_worker_reduce, HnM, Ey.
    assert (reduce_task_ok (Z.of_nat y) (reduce_resp_attempt_id m) (zlen paths) pid) as Htask.
    { split; [done|]. split; [done|]. split; [lia|done]. }
    set (sfs := hidden (RespReduce m) fs).
    destruct (worker_reduce_run_ok (Z.of_nat y) (reduce_resp_attempt_id m) (zlen paths) pid (mk_disk sfs []) io Htask)
      as (rc & p' & E & _ & Hsafe & _ & H0 & _).
    assert (input_records sfs (Z.of_nat y) (length paths) 0 = Some (partition_records R srcs y)) as Hf.
    { apply job_inputs; try done. intros i Hi src y' Hs Hy'. unfold sfs.
      rewrite hidden_other; [by apply (Hall i Hi)|]. cbn [own_paths]. by intros ?%list_elem_of_singleton. }
    change (d_files (mk_disk sfs [])) with sfs in *. unfold zlen in Hsafe, H0. rewrite Nat2Z.id, Hf in Hsafe, H0. cbn [default] in Hsafe.
    assert (forall path data, own_final (RespReduce m) path data -> path = reduce_final_path (Z.of_nat y) /\ data = reduce_output (partition_records R srcs y)) as Hown.
    { intros path data (k & id & a & [= <- <- <-] & Hfin). rewrite Ey, Nat2Z.id in Hfin. by inversion Hfin; subst. }
    exists rc, p'. split; [exact E|]. split.
    + eapply all_seen_impl; [exact Hsafe|]. intros fs2 [Hpub _] path data Hf2. pose proof Hf2 as (-> & ->)%Hown.
      destruct (Hpub 0%nat Nat.lt_0_1) as [E2|E2]; [left|by right]. unfold reduce_final in E2. rewrite E2. apply hidden_own.
      apply (own_in _ _ fs Hgood). by eexists.
    + intros -> k id a Er. apply task_files_final. intros path data Hfin.
      destruct (Hown path data ltac:(by exists k, id, a)) as (-> & ->). destruct (H0 eq_refl) as (recs & [= <-] & _ & Hfin2 & _). exact Hfin2.
Qed.

(** A process that is given a task of the job may start on it. *)
Lemma working_start pid r fs : pid_ok pid -> good_resp paths srcs R r fs -> inputs_there paths srcs fs ->
  working pid r (task_prog pid r) fs.
Proof. destruct r; [by apply map_working|by intros; apply reduce_working|done|done]. Qed.
End Interleave.

(** ** Tasks side by side *)

(** Processes by pid, each with the task it was given and what is left of it. *)
Abbreviation pool := (gmap Z (task_response_t * prog Z)).

Definition pool_start `{Qsort} (jobs : gmap Z task_response_t) : pool := map_imap (fun pid r => Some (r, task_prog pid r)) jobs.

(** The next call of the process [pid], which the kernel lets succeed or not. *)
Definition pool_step (turn : Z * bool) (st : pool * files) : pool * files :=
  let '(pid, ok) := turn in
  let '(procs, fs) := st in
  match procs !! pid with
  | Some (r, PCall c k) => (<[pid := (r, k (perform c ok fs).1)]> procs, after c ok fs)
  | _ => (procs, fs)
  end.

Definition pool_run (sched : list (Z * bool)) (st : pool * files) : pool * files := foldl (fun st turn => pool_step turn st) st sched.

Section Pool.
Context (paths srcs : list (list Z)) (R : Z) (jobs : gmap Z task_response_t).

(** From the files [fs0], the processes of [jobs] have come to [st]. *)
Definition pool_inv (fs0 : files) (st : pool * files) : Prop :=
  inputs_there paths srcs st.2 /\
  (forall path, st.2 !! path = fs0 !! path \/ exists pid r, jobs !! pid = Some r /\
     (temp_of pid path \/ exists data, own_final srcs R r path data /\ st.2 !! path = Some data)) /\
  forall pid, match jobs !! pid with
              | Some r => pid_ok pid /\ good_resp paths srcs R r st.2 /\ exists m, st.1 !! pid = Some (r, m) /\ working paths srcs R pid r m st.2
              | None => st.1 !! pid = None
              end.

Context (HR : 0 < R <= 64) (HM : 0 < zlen paths <= 256) (Hlen : length srcs = length paths) (Hclean : Forall clean_path paths).
Context {q : Qsort} {HQ : QsortSpec q}.

Lemma pool_inv_start fs : inputs_there paths srcs fs ->
  (forall pid r, jobs !! pid = Some r -> pid_ok pid /\ good_resp paths srcs R r fs) -> pool_inv fs (pool_start jobs, fs).
Proof.
  intros Hin Hj. split; [done|]. split; [by left|]. intros pid. unfold pool_start. cbn [fst snd]. rewrite map_lookup_imap.
  destruct (jobs !! pid) as [r|] eqn:E; [|done]. destruct (Hj pid r E) as [Hp Hg]. split; [done|]. split; [done|].
  exists (task_prog pid r). split; [done|]. by apply working_start.
Qed.

Lemma pool_inv_step fs0 turn st : pool_inv fs0 st -> pool_inv fs0 (pool_step turn st).
Proof.
  destruct turn as [pid ok], st as [procs fs]. intros Hst. pose proof Hst as (Hin & Hch & Hall). cbn [fst snd] in *. cbn [pool_step].
  pose proof (Hall pid) as Hpid. destruct (jobs !! pid) as [r|] eqn:Ej; [|by rewrite Hpid].
  destruct Hpid as (Hp & Hg & m & -> & Hw). destruct m as [o|c k]; [done|].
  destruct (working_call paths srcs R HR HM Hlen pid r c k ok fs Hw) as [Hc Hw'].
  pose proof (own_change_guar srcs R pid r _ _ Hc) as Hgu. pose proof (guar_kept paths srcs R HR HM Hlen Hclean pid _ _ Hgu) as Hk.
  split; [by apply Hk|]. split; cbn [fst snd].
  - intros path. destruct (Hc path) as [->|Hown]; [apply Hch|]. right. by exists pid, r.
  - intros pid'. destruct (decide (pid' = pid)) as [->|Hne].
    + rewrite Ej. split; [done|]. split; [by eapply kept_resp|]. rewrite lookup_insert_eq. eauto.
    + rewrite lookup_insert_ne by done. pose proof (Hall pid') as H'. destruct (jobs !! pid') as [r'|]; [|done].
      destruct H' as (Hp' & Hg' & m' & E' & Hw2). split; [done|]. split; [by eapply kept_resp|]. exists m'. split; [done|].
      eapply (working_others paths srcs R HR HM Hlen Hclean pid' pid); eauto.
Qed.

Lemma pool_inv_run fs0 sched : forall st, pool_inv fs0 st -> pool_inv fs0 (pool_run sched st).
Proof. induction sched as [|turn sched IH]; intros st Hst; [done|]. by apply IH, pool_inv_step. Qed.
End Pool.

(** C13: map and reduce tasks run at the same time without harm. The job has at
    most 256 inputs and 64 partitions, its inputs are in place under names that
    no intermediate, temporary or output file has ([clean_path]), and a reduce
    task is run only when the files of all maps are published. Any number of
    processes with different pids run tasks of the job on these files, one
    system call at a time in any order, each call succeeding or failing; several
    may run attempts of the same task. At every moment a file is as it was at the start, or is a
    temporary file of one of the processes, or is a final file of one of their
    tasks with its right and whole contents. No task runs into undefined
    behaviour, and all the files of a task that has returned 0 are published. *)
Theorem tasks_side_by_side {q : Qsort} {HQ : QsortSpec q} paths srcs R jobs fs sched procs fs2 :
  0 < R <= 64 -> 0 < zlen paths <= 256 -> length srcs = length paths -> Forall clean_path paths -> inputs_there paths srcs fs ->
  (forall pid r, jobs !! pid = Some r -> pid_ok pid /\ good_resp paths srcs R r fs) ->
  pool_run sched (pool_start jobs, fs) = (procs, fs2) ->
  (forall path, fs2 !! path = fs !! path \/ exists pid r, jobs !! pid = Some r /\
     (temp_of pid path \/ exists data, own_final srcs R r path data /\ fs2 !! path = Some data)) /\
  forall pid r, jobs !! pid = Some r -> exists m, procs !! pid = Some (r, m) /\
    forall o, m = PEnd o -> exists rv, o = Ret rv /\ (rv = 0 -> resp_files srcs R r fs2).
Proof.
  intros HR HM Hlen Hclean Hin Hj Erun.
  pose proof (pool_inv_run paths srcs R jobs HR HM Hlen Hclean fs sched _
    (pool_inv_start paths srcs R jobs HR HM Hlen Hclean fs Hin Hj)) as (_ & Hch & Hall). rewrite Erun in Hch, Hall.
  split; [exact Hch|]. intros pid r Ej. specialize (Hall pid). rewrite Ej in Hall. destruct Hall as (_ & _ & m & Em & Hw).
  exists m. split; [exact Em|]. intros o ->. by apply (working_end paths srcs R pid).
Qed.

(** ** Example: two attempts of one map task, and the other map task *)

Definition demo_job (task attempt : Z) : task_response_t :=
  RespMap (mk_map_resp task attempt 2 3 (default [] (demo_paths !! Z.to_nat task))).
Definition demo_jobs : gmap Z task_response_t := <[71 := demo_job 0 1]> (<[72 := demo_job 0 2]> {[73 := demo_job 1 1]}).

(** In turns, but a write of the first process fails. *)
Definition demo_turns : list (Z * bool) :=
  let round := [(71, true); (72, true); (73, true)] in
  concat (replicate 5 round) ++ [(71, false)] ++ concat (replicate 30 round).

Definition demo_pool : pool * files := pool_run demo_turns (pool_start (H := qsort_merge) demo_jobs, p_files demo_start).
Definition demo_result (pid : Z) : option Z :=
  match demo_pool.1 !! pid with Some (_, PEnd (Ret rv)) => Some rv | _ => None end.

Lemma demo_inputs : inputs_there demo_paths demo_texts (p_files demo_start).
Proof. intros [|[|i]] path src; [by intros [= <-] [= <-]; vm_compute..|done]. Qed.

Lemma demo_jobs_good pid r : demo_jobs !! pid = Some r -> pid_ok pid /\ good_resp demo_paths demo_texts 2 r (p_files demo_start).
Proof.
  unfold demo_jobs. rewrite !lookup_insert_Some, lookup_singleton_Some.
  intros [[<- <-]|[_ [[<- <-]|[_ [<- <-]]]]]; (split; [decide_now|]);
    [exists 0%nat|exists 0%nat|exists 1%nat]; (split; [done|]; split; [cbn; lia|]; split; [decide_now|]; by split).
Qed.

Lemma demo_result_end pid r m : demo_pool.1 !! pid = Some (r, m) -> demo_result pid = Some 0 -> m = PEnd (Ret 0).
Proof. unfold demo_result. intros ->. destruct m as [[rv| |]|]; [by intros [= ->]|done..]. Qed.

Lemma tasks_side_by_side_witness :
  demo_result 71 = Some (-1) /\ demo_result 72 = Some 0 /\ demo_result 73 = Some 0 /\
  resp_files demo_texts 2 (demo_job 0 2) demo_pool.2 /\ resp_files demo_texts 2 (demo_job 1 1) demo_pool.2.
Proof.
  assert (demo_result 72 = Some 0) as E2 by (vm_compute; reflexivity).
  assert (demo_result 73 = Some 0) as E3 by (vm_compute; reflexivity).
  split; [vm_compute; reflexivity|]. split; [exact E2|]. split; [exact E3|].
  pose proof (tasks_side_by_side (q := qsort_merge) demo_paths demo_texts 2 demo_jobs (p_files demo_start) demo_turns demo_pool.1 demo_pool.2
    ltac:(lia) ltac:(decide_now) eq_refl ltac:(decide_now) demo_inputs demo_jobs_good (surjective_pairing demo_pool)) as [_ Hend].
  split.
  - destruct (Hend 72 (demo_job 0 2) eq_refl) as (m & Em & He). apply demo_result_end with (1 := Em) in E2.
    destruct (He _ E2) as (rv & [= <-] & H0). by apply H0.
  - destruct (Hend 73 (demo_job 1 1) eq_refl) as (m & Em & He). apply demo_result_end with (1 := Em) in E3.
    destruct (He _ E3) as (rv & [= <-] & H0). by apply H0.
Defined.
