(* ===== verification/Start.v ===== *)
(** * The master process from its command line on (src/master.c)

    [master_main] sequences the configuration, the bootstrap of the job, the
    server's initialisation, the event loop and the shutdown. A master that
    starts is in the state the other files begin with. *)

From Stdlib Require Import String.
From S2P Require Import Prelude Limits Util Rpc Task Aof EventLoop Server Framing Master Sched Job Recovery Liveness.
From S2P Require Import Stdio Config Publish WorkerMap WorkerReduce Worker WordCount Exchange System.

(** ** Definitions *)

Section Start.
(** What [scandir] finds in a directory, and the bytes of a log file. *)
Context (dir_of : list Z -> option (list dirent)) (log_of : list Z -> option (list Z)).
(** The descriptors and times the kernel hands out. *)
Context (aof_fd created : Z) (fds : init_fds) (real now : Z).

(** [master_bootstrap_job] under the configuration [c]; without a path [open]
    fails. *)
Definition bootstrap (c : master_config_t) (s : list io) : outcome (Z * master_t * option (list Z) * list io) :=
  let '(file, fd) := match cfg_aof_path c with Some path => (log_of path, aof_fd) | None => (None, -1) end in
  master_bootstrap_job s (dir_of (cfg_input_dir c)) file fd created (master_zero c).

(** [master_main] up to its event loop; [None] is EXIT_FAILURE. *)
Definition master_start (configfile : option (list Z)) (p : proc) : outcome (option (sys master_app)) :=
  '(rc, c, p) ← master_configure configfile p;
  if rc =? -1 then Ret None
  else
    '(rc, m, file, s) ← bootstrap c (p_io p);
    if negb (rc =? 0) then Ret None
    else
      '(ok, m, srv, s) ← master_init s fds real now m;
      Ret (if (ok : bool) then Some (mk_sys srv (mk_app m (default [] file)) s ∅) else None).

(** [master_shutdown]; closing the descriptors changes nothing else. *)
Definition master_shutdown (st : sys master_app) : sys master_app :=
  let '(_, m, s) := aof_close (script st) (master st) in set_script s (set_master m st).

(** [master_main], for the given answers of [kevent]; [None] is a master that
    still runs. *)
Definition master_main (configfile : option (list Z)) (answers : list (kevent_answer kernel_data)) (p : proc)
    : outcome (option Z * option (sys master_app)) :=
  st ← master_start configfile p;
  match st with
  | None => Ret (Some EXIT_FAILURE, None)
  | Some st =>
      '(rc, st) ← server_run answers st;
      Ret (match rc with None => (None, Some st) | Some _ => (Some EXIT_SUCCESS, Some (master_shutdown st)) end)
  end.

(** [main]: the configuration file is the first argument. *)
Definition master_program (argv : list (list Z)) (answers : list (kevent_answer kernel_data)) (p : proc)
    : outcome (option Z * option (sys master_app)) :=
  master_main (argv !! 1%nat) answers p.

(** ** The stages *)

(** The server of a master that has just started. *)
Definition fresh_server (c : master_config_t) (srv : server_t) : Prop :=
  s_clients srv = ∅ /\ s_clients_count srv = 0 /\ s_client_timeout_s srv = cfg_client_timeout_s c /\
  s_now_ms srv = now /\ el_poll_timeout_ms (s_el srv) = Z.quot 1000 (cfg_hz c).

Lemma master_init_total s m : cfg_hz (m_config m) <> 0 ->
  exists ok srv s', master_init s fds real now m = Ret (ok, set_now_realtime_ms real m, srv, s') /\
    (ok = true -> fresh_server (m_config m) srv).
Proof.
  intros Hhz. unfold master_init, server_init. cbn [m_config set_now_realtime_ms].
  destruct (create_listener s (i_listen fds)) as [lfd s1]. destruct (lfd =? -1); [by do 3 eexists|].
  destruct (Z.eqb_spec (cfg_hz (m_config m)) 0); [done|]. unfold el_init.
  destruct (io_simple s1) as [[] s2]; cbn [Z.eqb]; [|by do 3 eexists].
  destruct (io_simple s2) as [[] s3]; cbn [negb]; [|by do 3 eexists].
  destruct (set_non_blocking s3) as [rc0 s4]. destruct (rc0 =? -1); [by do 3 eexists|].
  destruct (set_non_blocking s4) as [rc1 s5]. destruct (rc1 =? -1); [by do 3 eexists|].
  unfold el_add. destruct (fd_out_of_range (i_pipe0 fds)); cbn [Z.eqb]; [by do 3 eexists|].
  destruct (io_simple s5) as [[] s6]; cbn [Z.eqb]; [|by do 3 eexists].
  destruct (fd_out_of_range lfd); cbn [Z.eqb]; [by do 3 eexists|].
  destruct (io_simple s6) as [[] s7]; cbn; [|by do 3 eexists]. do 3 eexists. by split.
Qed.

Lemma fresh_job_ok cfg paths R : job_size_ok paths R -> job_ok (fresh_master cfg paths R).
Proof.
  intros Hsize. destruct (fresh_lengths cfg paths R Hsize) as [HlM _]. pose proof Hsize as (HM & HR & _).
  unfold job_ok. cbn [fresh_master m_job m_maps set_job set_reduces set_maps j_M j_R]. rewrite HlM.
  split_and!; [lia|lia|lia|lia|lia|]. apply Forall_lookup. intros i t Ht.
  exact (table_ok_path _ TASK_KIND_MAP i t (fresh_table_ok cfg paths R Hsize) Ht).
Qed.

(** Without a log the bootstrap sets up the job of the input directory, or
    fails. *)
Lemma bootstrap_total c s : (forall path, default [] (log_of path) = []) -> 0 <= aof_fd -> config_ok c ->
  exists rc m file s', bootstrap c s = Ret (rc, m, file, s') /\
    (rc = 0 -> exists paths, job_size_ok paths (cfg_n_reduce c) /\ m = set_aof_fd aof_fd (fresh_master c paths (cfg_n_reduce c))).
Proof.
  intros Hlog Hfd Hc. unfold bootstrap.
  set (file := match cfg_aof_path c with Some path => log_of path | None => None end).
  set (fd := match cfg_aof_path c with Some _ => aof_fd | None => -1 end).
  assert ((match cfg_aof_path c with Some path => (log_of path, aof_fd) | None => (None, -1) end) = (file, fd)) as ->
    by (unfold file, fd; by destruct (cfg_aof_path c)).
  assert (default [] file = []) as Hf by (unfold file; destruct (cfg_aof_path c); [apply Hlog|done]).
  assert (fd = aof_fd \/ fd = -1) as Hfd' by (unfold fd; destruct (cfg_aof_path c); auto).
  assert (wrap 32 (cfg_n_reduce c) = cfg_n_reduce c) as HR.
  { apply wrap_small. destruct Hc as (_ & _ & _ & _ & HR & _). unfold MAX_REDUCE_TASKS in HR. unfold fits. lia. }
  clearbody file fd. unfold master_bootstrap_job.
  destruct (io_simple s) as [[] s1]; cbn [negb]; [|by do 4 eexists].
  destruct (io_simple s1) as [[] s2]; cbn [negb]; [|by do 4 eexists].
  destruct (io_simple s2) as [ok s3]. rewrite Hf. change (0 <? zlen []) with false. rewrite andb_false_r. cbv zeta. cbn [mbind outcome_bind].
  destruct (dir_of (cfg_input_dir c)) as [dir|]; [|by do 4 eexists].
  destruct (init_job_spec dir c) as [_ Hres]. rewrite HR in Hres. set (paths := regular_paths _ _) in Hres.
  destruct (master_init_job (Some dir) (master_zero c)) as [rc m]. cbn [fst snd] in Hres. cbn [mbind outcome_bind].
  destruct (Z.eqb_spec rc 0) as [->|]; cbn [negb]; [|by do 4 eexists].
  destruct (Hres eq_refl) as [-> Hsize]. destruct Hfd' as [->| ->].
  - destruct (aof_init_safe s3 file aof_fd created (fresh_master c paths (cfg_n_reduce c))) as (rc & m' & file' & s' & -> & Hor);
      [by apply fresh_job_ok|done|]. cbn [mbind outcome_bind].
    destruct Hor as [[-> ->]|[-> ->]]; do 4 eexists; split; try done. intros _. by exists paths.
  - unfold aof_init, aof_open. by destruct (io_simple s3) as [[] s4]; cbn; do 4 eexists.
Qed.

(** C11: a master starts in a consistent state. Without a log, and whatever the
    configuration file, the input directory and the kernel's answers,
    [master_main] reaches its loop without undefined behaviour (no division by
    a zero [hz], no task array overrun) or leaves with EXIT_FAILURE; it can
    abort only when memory runs out. In the loop it has the fresh job of some
    input paths and of [n_reduce] partitions, a configuration within its
    bounds, and no client. *)
Theorem master_start_safe configfile p :
  (forall path, default [] (log_of path) = []) -> 0 <= aof_fd ->
  match master_start configfile p with
  | Ret None => True
  | Ret (Some st) => exists c paths, config_ok c /\ starts c paths (cfg_n_reduce c) st /\ fresh_server c (sv st)
  | Aborted => ~ p_benign p
  | Fault => False
  end.
Proof.
  intros Hlog Hfd. unfold master_start. pose proof (configure_bounds configfile p) as H.
  destruct (master_configure configfile p) as [[[rc c] p1]| |]; [|done|done]. destruct H as (_ & Hc & _). cbn [mbind outcome_bind].
  destruct (rc =? -1); [done|]. destruct (bootstrap_total c (p_io p1) Hlog Hfd Hc) as (rc1 & m & file & s & -> & Hm). cbn [mbind outcome_bind].
  destruct (Z.eqb_spec rc1 0) as [->|]; cbn [negb]; [|done]. destruct (Hm eq_refl) as (paths & Hsize & ->).
  destruct (master_init_total s (set_aof_fd aof_fd (fresh_master c paths (cfg_n_reduce c)))) as (ok & srv & s' & -> & Hsrv).
  { destruct Hc as (_ & _ & Hhz & _). cbn. lia. }
  cbn [mbind outcome_bind]. destruct ok; [|done]. exists c, paths. split; [done|]. split; [|by apply Hsrv].
  split; [done|]. by exists aof_fd, real.
Qed.

(** ** A kernel that does what it is asked *)

Definition fds_ok : Prop := 0 <= aof_fd /\ 0 <= i_listen fds < MAX_FDS /\ 0 <= i_pipe0 fds < MAX_FDS.
#[export] Instance fds_ok_dec : Decision fds_ok.
Proof. unfold fds_ok. apply _. Defined.

Lemma set_non_blocking_benign s : benign s -> exists s', benign s' /\ set_non_blocking s = (0, s').
Proof.
  intros Hb. unfold set_non_blocking. destruct (io_simple_benign s Hb) as (s1 & -> & Hb1).
  destruct (io_simple_benign s1 Hb1) as (s2 & -> & Hb2). by exists s2.
Qed.

Lemma create_listener_benign s fd : benign s -> exists s', benign s' /\ create_listener s fd = (fd, s').
Proof.
  intros Hb. unfold create_listener. destruct (io_simple_benign s Hb) as (s1 & -> & Hb1). cbn [negb].
  destruct (io_simple_benign s1 Hb1) as (s2 & -> & Hb2). cbn [negb].
  destruct (io_simple_benign s2 Hb2) as (s3 & -> & Hb3). cbn [negb].
  destruct (io_simple_benign s3 Hb3) as (s4 & -> & Hb4). cbn [negb].
  destruct (set_non_blocking_benign s4 Hb4) as (s5 & Hb5 & ->). by exists s5.
Qed.

Lemma el_add_benign s el fd h : benign s -> 0 <= fd < MAX_FDS -> exists el' s', benign s' /\ el_add s el fd h = (0, el', s').
Proof.
  intros Hb Hfd. unfold el_add, fd_out_of_range. destruct (Z.ltb_spec fd 0), (Z.leb_spec MAX_FDS fd); try lia.
  destruct (io_simple_benign s Hb) as (s1 & -> & Hb1). by do 2 eexists.
Qed.

Lemma master_init_benign s m : benign s -> fds_ok -> cfg_hz (m_config m) <> 0 ->
  exists srv s', benign s' /\ master_init s fds real now m = Ret (true, set_now_realtime_ms real m, srv, s').
Proof.
  intros Hb (_ & Hl & Hp) Hhz. unfold master_init, server_init. cbn [m_config set_now_realtime_ms].
  destruct (create_listener_benign s (i_listen fds) Hb) as (s1 & Hb1 & ->).
  destruct (Z.eqb_spec (i_listen fds) (-1)); [lia|]. destruct (Z.eqb_spec (cfg_hz (m_config m)) 0); [done|].
  unfold el_init. destruct (io_simple_benign s1 Hb1) as (s2 & -> & Hb2). cbn [Z.eqb].
  destruct (io_simple_benign s2 Hb2) as (s3 & -> & Hb3). cbn [negb].
  destruct (set_non_blocking_benign s3 Hb3) as (s4 & Hb4 & ->). cbn [Z.eqb].
  destruct (set_non_blocking_benign s4 Hb4) as (s5 & Hb5 & ->). cbn [Z.eqb].
  match goal with |- context [el_add s5 ?el _ _] => destruct (el_add_benign s5 el _ on_shutdown_h Hb5 Hp) as (el1 & s6 & Hb6 & ->) end.
  cbn [Z.eqb]. match goal with |- context [el_add s6 ?el _ _] => destruct (el_add_benign s6 el _ on_accept_h Hb6 Hl) as (el2 & s7 & Hb7 & ->) end.
  by do 2 eexists.
Qed.

(** The master comes up when its job can be set up. *)
Lemma start_from_bootstrap (P : master_t -> list Z -> Prop) conf c aof p :
  config_ok c -> config_word (cfg_input_dir c) -> cfg_aof_path c = Some aof -> config_word aof ->
  p_benign p -> p_files p !! conf = Some (print_config c) -> fds_ok ->
  (forall s, benign s -> exists m f s', bootstrap c s = Ret (0, m, Some f, s') /\ benign s' /\ m_config m = c /\ P m f) ->
  exists m f srv s, master_start (Some conf) p = Ret (Some (mk_sys srv (mk_app (set_now_realtime_ms real m) f) s ∅)) /\
    P m f /\ fresh_server c srv.
Proof.
  intros Hc Hdir Haof Hword Hb Hconf Hfds Hboot. pose proof Hc as (_ & _ & Hhz & _).
  unfold master_start, master_configure, master_config_init.
  destruct (io_simple_benign (p_io p) Hb) as (s1 & -> & Hb1). cbn [negb]. destruct (io_simple_benign s1 Hb1) as (s2 & -> & Hb2).
  cbn [mbind outcome_bind].
  match goal with |- context [load_config conf ?c0 (set_io s2 p)] =>
    destruct (load_config_printed conf c aof c0 (set_io s2 p) Hc Hdir Haof Hword Hb2 Hconf) as (s3 & Hb3 & ->) end.
  cbn [mbind outcome_bind]. change (0 =? -1) with false. cbv iota. cbn [p_io set_io].
  destruct (Hboot s3 Hb3) as (m & f & s4 & -> & Hb4 & Hcfg & HP). cbn [mbind outcome_bind]. change (negb (0 =? 0)) with false. cbv iota.
  destruct (master_init_benign s4 m Hb4 Hfds) as (srv & s5 & _ & Ei); [rewrite Hcfg; lia|].
  destruct (master_init_total s4 m) as (ok & srv' & s' & Et & Hsrv); [rewrite Hcfg; lia|].
  rewrite Ei in Et. injection Et as <- <- _. rewrite Hcfg in Hsrv.
  rewrite Ei. cbn [mbind outcome_bind]. exists m, f, srv, s5. split; [reflexivity|]. split; [exact HP|by apply Hsrv].
Qed.

(** A configuration file and an input directory bring the master up. *)
Lemma start_benign conf c aof dir p :
  let paths := regular_paths (master_zero c) (scandir dir) in
  config_ok c -> config_word (cfg_input_dir c) -> cfg_aof_path c = Some aof -> config_word aof ->
  p_benign p -> p_files p !! conf = Some (print_config c) -> fds_ok -> default [] (log_of aof) = [] ->
  dir_of (cfg_input_dir c) = Some dir -> entries_ok (master_zero c) 0 (scandir dir) -> 0 < zlen paths ->
  exists f srv s, let a := mk_app (set_now_realtime_ms real (set_aof_fd aof_fd (fresh_master c paths (cfg_n_reduce c)))) f in
    master_start (Some conf) p = Ret (Some (mk_sys srv a s ∅)) /\ fresh_server c srv /\
    durable created paths (mk_app (set_aof_fd aof_fd (fresh_master c paths (cfg_n_reduce c))) f) /\
    starts c paths (cfg_n_reduce c) (mk_sys srv a s ∅).
Proof.
  intros paths Hc Hdir Haof Hword Hb Hconf Hfds Hlog Hd Hent Hpos. pose proof Hc as (_ & _ & _ & _ & HR & _).
  assert (wrap 32 (cfg_n_reduce c) = cfg_n_reduce c) as EW by (apply wrap_small; unfold MAX_REDUCE_TASKS, fits in *; lia).
  destruct (start_from_bootstrap (fun m f => m = set_aof_fd aof_fd (fresh_master c paths (cfg_n_reduce c)) /\ durable created paths (mk_app m f))
    conf c aof p) as (m & f & srv & s & E & [-> Hdur] & Hsrv); try done.
  - intros s0 Hb0. unfold bootstrap. rewrite Haof, Hd.
    destruct (bootstrap_first s0 dir (log_of aof) aof_fd created c Hb0 Hlog (proj1 Hfds) Hent Hpos ltac:(rewrite EW; lia))
      as (f & s4 & Eb & Hb4 & Hdur). fold paths in Eb, Hdur. rewrite EW in Eb, Hdur.
    eexists _, f, s4. by rewrite Eb.
  - exists f, srv, s. cbn zeta. split; [exact E|]. split; [done|]. split; [done|]. split; [|by exists aof_fd, real].
    destruct (init_job_spec dir c) as [Hiff Hres]. rewrite EW in Hiff, Hres. apply Hres, Hiff. split; [done|]. split; [done|lia].
Qed.

(** A master that is started again on the log of a job resumes it. *)
Lemma restart_benign created0 conf c aof paths a p :
  config_ok c -> config_word (cfg_input_dir c) -> cfg_aof_path c = Some aof -> config_word aof ->
  p_benign p -> p_files p !! conf = Some (print_config c) -> fds_ok -> log_of aof = Some (a_file a) ->
  durable created0 paths a ->
  exists cs srv s, let m := set_aof_fd aof_fd (recovered c paths (a_master a) cs) in
    master_start (Some conf) p = Ret (Some (mk_sys srv (mk_app (set_now_realtime_ms real m) (a_file a)) s ∅)) /\ fresh_server c srv /\
    durable created0 paths (mk_app m (a_file a)) /\
    forall k, n_done k (m_job (a_master a)) = zlen (completed_ids k cs) /\
      forall i, i ∈ completed_ids k cs <-> completed_in (a_master a) k i.
Proof.
  intros Hc Hdir Haof Hword Hb Hconf Hfds Hlog Hdur.
  destruct (start_from_bootstrap (fun m f => f = a_file a /\ exists cs, m = set_aof_fd aof_fd (recovered c paths (a_master a) cs) /\
      durable created0 paths (mk_app m f) /\ forall k, n_done k (m_job (a_master a)) = zlen (completed_ids k cs) /\
        forall i, i ∈ completed_ids k cs <-> completed_in (a_master a) k i) conf c aof p)
    as (m & f & srv & s & E & (-> & cs & -> & Hd & Hk) & Hsrv); try done.
  - intros s0 Hb0. unfold bootstrap. rewrite Haof, Hlog.
    destruct (bootstrap_restart created0 paths a s0 (dir_of (cfg_input_dir c)) aof_fd created c Hdur Hb0 (proj1 Hfds))
      as (cs & s' & Eb & Hb' & Hd & Hk).
    eexists _, _, s'. rewrite Eb. split; [reflexivity|]. split; [done|]. split; [done|]. split; [done|]. by exists cs.
  - exists cs, srv, s. cbn zeta. by split_and!.
Qed.
End Start.

(** A worker that connects to a job that has just started. *)
Lemma accept_ready cfg paths R fd st : starts cfg paths R st -> script st = [] -> 0 <= fd < MAX_FDS ->
  job_started cfg paths R (master (on_accept (Some fd) st)) /\ connected fd (on_accept (Some fd) st).
Proof.
  intros Hs Hsc Hfd. pose proof (starts_started _ _ _ _ Hs) as (Hsize & _ & Hj & Ht).
  pose proof (job_inv_steps st (on_accept (Some fd) st)) as Hinv. split.
  - split; [done|]. split; [|split].
    + apply Hinv; [|by eapply starts_inv]. apply rtc_once, step_accept. intros fd' [= <-]. lia.
    + unfold master. destruct (on_accept_app (Some fd) st) as [->|(fd' & _ & ->)]; exact Hj.
    + intros k. unfold master. destruct (on_accept_app (Some fd) st) as [->|(fd' & _ & ->)]; [apply Ht|]. rewrite <- Ht. by destruct k.
  - clear Hinv. unfold on_accept. destruct (Z.leb_spec MAX_FDS fd); [lia|]. rewrite Hsc. cbn.
    unfold el_add, fd_out_of_range. destruct (Z.ltb_spec fd 0), (Z.leb_spec MAX_FDS fd); try lia. cbn.
    unfold connected, idle, get_client. cbn. by rewrite lookup_insert_eq.
Qed.

(** C2: the system, from its command lines to its output. A master is started
    on a configuration file and an input directory, without a log, and a worker
    connects, on kernels that do what they are asked. The inputs are text without
    zero bytes whose lines and words fit the buffers ([text_ok]), and no word
    occurs more than WORKER_REDUCE_MAX_VALUES_PER_KEY = 1024 times in them. Then
    the master comes up, the worker runs every task and exits with success, the
    job ends in JOB_DONE, and the output files hold, partition by partition, a
    line for each distinct word of the input files with the number of its
    occurrences. A word that occurs more often fails its reduce task, and so the
    job. *)
Theorem system_word_count {q : Qsort} {HQ : QsortSpec q} dir_of log_of aof_fd created fds real now
    conf c aof dir srcs pm pw fd pid fuel :
  let paths := regular_paths (master_zero c) (scandir dir) in
  config_ok c -> config_word (cfg_input_dir c) -> cfg_aof_path c = Some aof -> config_word aof ->
  p_benign pm -> p_files pm !! conf = Some (print_config c) -> fds_ok aof_fd fds -> default [] (log_of aof) = [] ->
  dir_of (cfg_input_dir c) = Some dir -> entries_ok (master_zero c) 0 (scandir dir) -> 0 < zlen paths ->
  p_benign pw -> pid_ok pid -> 0 <= fd < MAX_FDS -> Forall clean_path paths ->
  Forall2 (fun path src => p_files pw !! path = Some src) paths srcs -> Forall text_ok srcs ->
  (forall w, occurrences w (concat (map words srcs)) <= WORKER_REDUCE_MAX_VALUES_PER_KEY) ->
  zlen paths + cfg_n_reduce c < Z.of_nat fuel ->
  exists st pw' st', master_start dir_of log_of aof_fd created fds real now (Some conf) pm = Ret (Some st) /\
    worker_main (H := master_peer fd) fuel pid (mk_worker_state pw [] (on_accept (Some fd) (set_script [] st))) =
      Ret (Some EXIT_SUCCESS, mk_worker_state pw' [] st') /\
    j_phase (m_job (master st')) = JOB_DONE /\
    forall y, (y < Z.to_nat (cfg_n_reduce c))%nat ->
      p_files pw' !! reduce_final_path (Z.of_nat y) =
        Some (word_counts (partition_words (cfg_n_reduce c) (Z.of_nat y) (concat (map words srcs)))).
Proof.
  intros paths Hc Hdir Haof Hword Hbm Hconf Hfds Hlog Hd Hent Hpos Hbw Hpid Hfd Hclean Hin Htext Hocc Hfuel.
  destruct (start_benign dir_of log_of aof_fd created fds real now conf c aof dir pm) as (f & srv & s & E & _ & _ & Hs); [done..|].
  fold paths in E, Hs. match type of E with _ = Ret (Some ?x) => set (st := x) in *; exists st end.
  destruct (accept_ready c paths (cfg_n_reduce c) fd (set_script [] st)) as [Hjob Hconn]; [exact Hs|done|done|].
  destruct (job_word_count c paths srcs (cfg_n_reduce c) pid fd pw (on_accept (Some fd) (set_script [] st)) fuel)
    as (pw' & st' & E' & Hdone & _ & Hout); [by split_and!|done|lia|done..|].
  exists pw', st'. by split_and!.
Qed.

(** ** Witnesses: two files in a directory, two partitions *)

Definition start_dir : list dirent := [mk_dirent (lit "b") (Some true); mk_dirent (lit ".x") None; mk_dirent (lit "a") (Some true)].
Definition start_proc : proc := mk_proc (mk_disk {[demo_conf := print_config demo_config]} []) [].
Definition start_demo : outcome (option (sys master_app)) :=
  master_start (fun _ => Some start_dir) (fun _ => None) 4 0 (mk_init_fds 3 7 8 9) 0 0 (Some demo_conf) start_proc.

Lemma master_start_safe_witness :
  exists st c paths, start_demo = Ret (Some st) /\ config_ok c /\ starts c paths (cfg_n_reduce c) st.
Proof.
  pose proof (master_start_safe (fun _ => Some start_dir) (fun _ => None) 4 0 (mk_init_fds 3 7 8 9) 0 0 (Some demo_conf)
    start_proc ltac:(done) ltac:(lia)) as H. fold start_demo in H.
  destruct start_demo as [[st|]| |] eqn:E; [|vm_compute in E; discriminate E..].
  destruct H as (c & paths & Hc & Hs & _). exists st, c, paths. split; [reflexivity|]. split; [exact Hc|exact Hs].
Defined.

Lemma system_word_count_witness :
  exists st pw' st', start_demo = Ret (Some st) /\
    worker_main (H := master_peer 5) (H0 := qsort_merge) 5 77 (mk_worker_state demo_start [] (on_accept (Some 5) (set_script [] st))) =
      Ret (Some EXIT_SUCCESS, mk_worker_state pw' [] st') /\
    p_files pw' !! reduce_final_path 1 = Some (lit "is" ++ [9; 49; 10]).
Proof.
  destruct (system_word_count (q := qsort_merge) (fun _ => Some start_dir) (fun _ => None) 4 0 (mk_init_fds 3 7 8 9) 0 0
    demo_conf demo_config [109; 114] start_dir demo_texts start_proc demo_start 5 77 5) as (st & pw' & st' & E & E' & _ & Hout);
    [decide_now|decide_now|reflexivity|decide_now|constructor|reflexivity|decide_now|reflexivity|reflexivity
    | |decide_now|constructor|decide_now|decide_now|decide_now| |decide_now| |reflexivity|].
  - decide_now.
  - apply Forall2_cons_2; [by vm_compute|]. apply Forall2_cons_2; [by vm_compute|constructor].
  - intros w. etrans; [apply occurrences_le|]. decide_now.
  - exists st, pw', st'. split; [exact E|]. split; [exact E'|].
    change 1 with (Z.of_nat 1). rewrite (Hout 1%nat) by (cbn; lia). vm_compute. reflexivity.
Defined.
