(* ===== verification/Cluster.v ===== *)
(** * Many workers, crashes and restarts (src/worker.c, src/master.c, src/server.c)

    A master and any number of worker processes that share a file system.
    Between two steps of one process the others may do anything: connect, ask,
    make the next system call of their task, report, die; and the master may
    die and be started again on its log. *)

From Stdlib Require Import String.
From S2P Require Import Prelude Limits Util Rpc Task Aof EventLoop Server Framing Master Sched Job Recovery Liveness.
From S2P Require Import Stdio Calls Config Publish WorkerMap WorkerReduce Worker TaskProgs WordCount Exchange System Interleave Start.

(** ** Processes and events *)

(** Where a worker is in [worker_turn]; [m] is what is left of its task. *)
Inductive activity :=
  | Asking
  | Working (r : task_response_t) (m : prog Z)
  | Reporting (r : task_response_t) (rv : Z).

(** A worker process; [wp_fd] is the master's descriptor for its connection,
    [None] when the master it was connected to is gone. *)
Record wproc := mk_wproc { wp_fd : option Z; wp_act : activity }.

(** The master, the files, and the workers by pid. *)
Record cluster := mk_cluster { cl_sys : sys master_app; cl_files : files; cl_procs : gmap Z wproc }.

Definition set_sys (st : sys master_app) (cl : cluster) : cluster := mk_cluster st (cl_files cl) (cl_procs cl).
Definition become (pid : Z) (w : wproc) (cl : cluster) : cluster :=
  mk_cluster (cl_sys cl) (cl_files cl) (<[pid := w]> (cl_procs cl)).
Definition leave (pid : Z) (cl : cluster) : cluster :=
  mk_cluster (cl_sys cl) (cl_files cl) (delete pid (cl_procs cl)).
Definition with_files (fs : files) (cl : cluster) : cluster := mk_cluster (cl_sys cl) fs (cl_procs cl).

(** The other end of a worker's socket. *)
Definition worker_peer (fd : option Z) : Peer (sys master_app) :=
  match fd with
  | Some fd => master_peer fd
  | None => fun _ st => Ret ([], st)
  end.

(** How a master is started: what the kernel answers, and the command line. *)
Record boot := mk_boot {
  b_dir : list Z -> option (list dirent);
  b_aof_fd : Z;
  b_created : Z;
  b_fds : init_fds;
  b_real : Z;
  b_now : Z;
  b_conf : list Z;
  b_proc : proc;
}.

(** A master started with the log [log]. *)
Definition boot_master (log : option (list Z)) (b : boot) : outcome (option (sys master_app)) :=
  master_start (b_dir b) (fun _ => log) (b_aof_fd b) (b_created b) (b_fds b) (b_real b) (b_now b) (Some (b_conf b)) (b_proc b).

Inductive event :=
  | EvConnect (pid fd : Z)               (* a new process connects *)
  | EvAsk (pid : Z)
  | EvStep (pid : Z) (ok : bool)         (* a system call of its task, which succeeds or fails *)
  | EvReport (pid : Z)
  | EvExit (pid : Z)                     (* the process dies *)
  | EvEof (fd : Z)                       (* the master sees a closed connection *)
  | EvRestart (b : boot).                (* the master dies and is started again *)

Section Exec.
Context `{Qsort}.

(** The system calls of an exchange act on the socket only. *)
Definition exchange_state (cl : cluster) : worker_state (sys master_app) :=
  mk_worker_state (mk_proc (mk_disk (cl_files cl) []) []) [] (cl_sys cl).

Definition cluster_ask (pid : Z) (w : wproc) (cl : cluster) : outcome cluster :=
  '(resp, ws) ← get_task_req (H := worker_peer (wp_fd w)) (exchange_state cl);
  let cl := set_sys (w_peer ws) cl in
  Ret match resp with
      | None | Some RespDone => leave pid cl
      | Some (RespWait _) => cl
      | Some r => become pid (mk_wproc (wp_fd w) (Working r (task_prog pid r))) cl
      end.

(** The next call of the task, or its result. *)
Definition cluster_step (pid : Z) (w : wproc) (r : task_response_t) (m : prog Z) (ok : bool) (cl : cluster) : outcome cluster :=
  match m with
  | PEnd o => rv ← o; Ret (become pid (mk_wproc (wp_fd w) (Reporting r rv)) cl)
  | PCall c k =>
      let fs := cl_files cl in
      Ret (become pid (mk_wproc (wp_fd w) (Working r (k (perform c ok fs).1))) (with_files (after c ok fs) cl))
  end.

Definition cluster_report (pid : Z) (w : wproc) (r : task_response_t) (rv : Z) (cl : cluster) : outcome cluster :=
  match resp_task r with
  | None => Ret cl
  | Some (_, id, attempt) =>
      '(out, ws) ← finish_task (H := worker_peer (wp_fd w)) id attempt rv (exchange_state cl);
      let cl := set_sys (w_peer ws) cl in
      Ret match out with
          | Some _ => leave pid cl
          | None => become pid (mk_wproc (wp_fd w) Asking) cl
          end
  end.

(** No process is at the other end of [fd]. *)
Definition deserted (fd : Z) (procs : gmap Z wproc) : bool :=
  negb (existsb (fun '(_, w) => bool_decide (wp_fd w = Some fd)) (map_to_list procs)).

Definition disconnected (w : wproc) : wproc := mk_wproc None (wp_act w).

(** The master [st] on the log of the old one; the connections are gone. *)
Definition restarted (st : sys master_app) (cl : cluster) : cluster :=
  mk_cluster (set_script [] st) (cl_files cl) (disconnected <$> cl_procs cl).

(** One event; an event that cannot happen changes nothing. [None] is a master
    that does not come up. *)
Definition cluster_exec (ev : event) (cl : cluster) : outcome (option cluster) :=
  let st := cl_sys cl in
  match ev with
  | EvConnect pid fd =>
      if bool_decide (cl_procs cl !! pid = None) && bool_decide (pid_ok pid) && (0 <=? fd) && (fd <? MAX_FDS) &&
         negb (c_active (get_client st fd))
      then Ret (Some (become pid (mk_wproc (Some fd) Asking) (set_sys (on_accept (Some fd) st) cl)))
      else Ret (Some cl)
  | EvAsk pid =>
      match cl_procs cl !! pid with
      | Some w => match wp_act w with Asking => cl ← cluster_ask pid w cl; Ret (Some cl) | _ => Ret (Some cl) end
      | None => Ret (Some cl)
      end
  | EvStep pid ok =>
      match cl_procs cl !! pid with
      | Some w => match wp_act w with Working r m => cl ← cluster_step pid w r m ok cl; Ret (Some cl) | _ => Ret (Some cl) end
      | None => Ret (Some cl)
      end
  | EvReport pid =>
      match cl_procs cl !! pid with
      | Some w => match wp_act w with Reporting r rv => cl ← cluster_report pid w r rv cl; Ret (Some cl) | _ => Ret (Some cl) end
      | None => Ret (Some cl)
      end
  | EvExit pid => Ret (Some (leave pid cl))
  | EvEof fd =>
      if (0 <=? fd) && deserted fd (cl_procs cl)
      then st ← on_read fd (inl []) st; Ret (Some (set_sys st cl))
      else Ret (Some cl)
  | EvRestart b =>
      new ← boot_master (Some (a_file (app st))) b;
      Ret match new with Some st => Some (restarted st cl) | None => None end
  end.

Fixpoint cluster_execs (evs : list event) (cl : cluster) : outcome (option cluster) :=
  match evs with
  | [] => Ret (Some cl)
  | ev :: evs =>
      cl ← cluster_exec ev cl;
      match cl with Some cl => cluster_execs evs cl | None => Ret None end
  end.
End Exec.

(** ** One message *)

Lemma effect_workers fd st a fd' : honest_effect fd st a -> fd' <> fd ->
  get_worker (a_master a) fd' = get_worker (master st) fd'.
Proof.
  intros He Hne.
  destruct He as [|k i t t' now Hk Hfp Hs|k i t now rc file s s' msg Hk Hh _ _ _ _ _|k i t now rc t' j Hk Hh _ Ha]; cbn [a_master].
  - done.
  - unfold assign_master. rewrite get_worker_put_ne by done. by destruct k.
  - rewrite get_worker_put_ne by done. by destruct k.
  - rewrite get_worker_put_ne by done. by destruct k.
Qed.

Lemma effect_n fd st a k' : job_inv (master st) -> honest_effect fd st a ->
  n_tasks k' (m_job (a_master a)) = n_tasks k' (m_job (master st)).
Proof.
  intros Hinv He.
  destruct He as [|k i t t' now Hk Hfp Hs|k i t now rc file s s' msg Hk Hh _ _ _ _ _|k i t now rc t' j Hk Hh _ Ha]; cbn [a_master].
  - done.
  - by destruct k, k'.
  - cbn zeta. change (m_job (put_worker _ _ ?m)) with (m_job m). unfold complete_master.
    change (m_job (maybe_advance_phase ?x)) with (maybe_advance_phase_job (m_job x)).
    rewrite (proj1 (advance_job_fields _ _)). cbn [m_job set_job]. by rewrite n_tasks_set_done, job_put_tasks.
  - destruct Hh as (_ & _ & _ & Hi & Ht & Hst & _). assert (task_ok t) as Hok by (eapply table_ok_live; [apply Hinv|done..]).
    assert (0 < t_attempts_count t) as Hpos by by apply Hok.
    destruct (task_attempt_ended_ok t ATTEMPT_FAILED fd now (m_job (master st)) Hok Hpos) as (rc' & t'' & Ha' & _); [done|].
    rewrite Ha in Ha'. injection Ha' as _ _ ->. change (n_tasks k' (if t_attempts_count t <? MAX_ATTEMPTS then m_job (master st) else set_phase JOB_FAILED (m_job (master st))) = n_tasks k' (m_job (master st))).
    destruct (_ <? _); [done|apply n_tasks_set_phase].
Qed.

Lemma completed_worker fd w m k i : completed_at k i (put_worker fd w m) <-> completed_at k i m.
Proof. unfold completed_at. by rewrite get_tasks_worker. Qed.

(** A change of one slot of [k] that was not completed. *)
Lemma completed_put m m2 k i t t' : get_tasks k m !! i = Some t -> t_state t <> TASK_COMPLETED ->
  (forall k', get_tasks k' m2 = get_tasks k' (put_tasks k (<[i := t']> (get_tasks k m)) m)) ->
  ~ completed_at k i m /\
  forall k' i', completed_at k' i' m2 <-> (k' = k /\ i' = i /\ t_state t' = TASK_COMPLETED) \/ completed_at k' i' m.
Proof.
  intros Ht Hst Htasks. assert (~ completed_at k i m) as Hno by (intros (t0 & Ht0 & ?); congruence).
  split; [done|]. intros k' i'. unfold completed_at at 1. rewrite Htasks. split.
  - intros (t1 & [(-> & -> & ->)|[_ Ht1]]%put_lookup & Hst1); [by left|right]. by exists t1.
  - intros [(-> & -> & Hst')|(t1 & Ht1 & Hst1)].
    + exists t'. split; [|done]. rewrite get_put_tasks. apply list_lookup_insert_eq. by eapply lookup_lt_Some.
    + exists t1. split; [|done]. rewrite put_lookup_ne; [done|].
      destruct (decide (k' = k)) as [->|]; [right; intros ->; congruence|by left].
Qed.

(** No task is completed, or one more of the phase. *)
Definition advances (m m2 : master_t) : Prop :=
  (forall k i, completed_in m2 k i <-> completed_in m k i) \/
  exists k i, phase_kind (j_phase (m_job m)) = Ret k /\ Z.of_nat i < n_tasks k (m_job m) /\ ~ completed_in m k i /\
    forall k' i', completed_in m2 k' i' <-> k' = k /\ i' = i \/ completed_in m k' i'.

Lemma advances_refl m : advances m m.
Proof. by left. Qed.

Lemma advances_worker m m2 fd w : advances m m2 -> advances m (put_worker fd w m2).
Proof.
  assert (forall k i, completed_in (put_worker fd w m2) k i <-> completed_in m2 k i) as Hw.
  { intros k i. unfold completed_in. by rewrite get_tasks_worker. }
  intros [H|(k & i & H1 & H2 & H3 & H)]; [left; intros k i; by rewrite Hw|right].
  exists k, i. split_and!; [done..|]. intros k' i'. by rewrite Hw.
Qed.

Lemma advances_same m m2 : (forall k, n_tasks k (m_job m2) = n_tasks k (m_job m)) ->
  (forall k i, completed_at k i m2 <-> completed_at k i m) -> advances m m2.
Proof. intros Hn H. left. intros k i. unfold completed_in. rewrite Hn. by rewrite (H k i). Qed.

Lemma advances_one m m2 k i : (forall k, n_tasks k (m_job m2) = n_tasks k (m_job m)) ->
  phase_kind (j_phase (m_job m)) = Ret k -> Z.of_nat i < n_tasks k (m_job m) -> ~ completed_at k i m ->
  (forall k' i', completed_at k' i' m2 <-> k' = k /\ i' = i \/ completed_at k' i' m) -> advances m m2.
Proof.
  intros Hn Hk Hi Hno H. right. exists k, i. split; [done|]. split; [done|]. split; [by intros [_ ?]|].
  intros k' i'. unfold completed_in. rewrite Hn. split.
  - intros [Hi' [[-> ->]|?]%H]; [by left|by right].
  - intros [[-> ->]|[Hi' ?]]; (split; [done|]); apply H; [by left|by right].
Qed.

Lemma effect_advances fd st a : job_inv (master st) -> 0 <= fd -> honest_effect fd st a -> advances (master st) (a_master a).
Proof.
  intros Hinv Hfd He. pose proof (fun k => effect_n fd st a k Hinv He) as Hn.
  destruct He as [|k i t t' now Hk Hfp Hs|k i t now rc file s s' msg Hk Hh _ _ _ _ _|k i t now rc t' j Hk Hh _ Ha]; cbn [a_master].
  - apply advances_refl.
  - apply advances_same; [done|]. destruct (first_pending_start _ _ _ _ _ _ _ (proj1 Hinv) Hfd Hfp Hs) as (_ & Hst' & _). destruct Hfp as (_ & Ht & Hst & _).
    destruct (completed_put (master st) (assign_master k i fd t' (master st)) k i t t' Ht ltac:(congruence)) as [_ H].
    { intros k'. unfold assign_master. apply get_tasks_worker. }
    intros k' i'. rewrite H. split; [intros [(_ & _ & ?)|?]; [congruence|done]|by right].
  - destruct Hh as (_ & _ & _ & Hi & Ht & Hst & _).
    destruct (completed_put (master st) (complete_master k i (completed_task fd now t) (master st)) k i t (completed_task fd now t) Ht ltac:(congruence))
      as [Hno H]. { intros k'. unfold complete_master. by rewrite advance_tasks, get_tasks_job. }
    apply (advances_one _ _ k i); [done..|]. intros k' i'. cbn zeta. rewrite completed_worker, H. split; [intros [(-> & -> & _)|?]; auto|intros [[-> ->]|?]; auto].
  - apply advances_same; [done|]. destruct Hh as (_ & _ & _ & Hi & Ht & Hst & _). assert (task_ok t) as Hok by (eapply table_ok_live; [apply Hinv|done..]).
    assert (0 < t_attempts_count t) as Hpos by by apply Hok.
    destruct (task_attempt_ended_ok t ATTEMPT_FAILED fd now (m_job (master st)) Hok Hpos) as (rc' & t'' & Ha' & _ & _ & Hst' & _); [done|].
    rewrite Ha in Ha'. injection Ha' as _ -> _.
    destruct (completed_put (master st) (fail_master k i t'' j (master st)) k i t t'' Ht ltac:(congruence)) as [_ H].
    { intros k'. unfold fail_master. by rewrite get_tasks_job. }
    intros k' i'. cbn zeta. rewrite completed_worker, H. split; [intros [(_ & _ & E)|?]; [|done]|by right].
    rewrite Hst' in E. by destruct (_ <? _).
Qed.

(** ** The job as the set of its completed tasks *)

Record progress := mk_progress { pg_maps : gset nat; pg_reduces : gset nat }.

(** One task completes; a reduce task only after all map tasks. *)
Inductive job_step (M R : nat) (p : progress) : progress -> Prop :=
  | map_completes i : (i < M)%nat -> i ∉ pg_maps p ->
      job_step M R p (mk_progress ({[i]} ∪ pg_maps p) (pg_reduces p))
  | reduce_completes y : (forall i, (i < M)%nat -> i ∈ pg_maps p) -> (y < R)%nat -> y ∉ pg_reduces p ->
      job_step M R p (mk_progress (pg_maps p) ({[y]} ∪ pg_reduces p)).

Definition completed_set (k : task_kind_e) (m : master_t) : gset nat :=
  list_to_set (filter (fun i => (t_state <$> get_tasks k m !! i) = Some TASK_COMPLETED) (seq 0 (Z.to_nat (n_tasks k (m_job m))))).

(** What the master counts as done. *)
Definition progress_of (m : master_t) : progress :=
  mk_progress (completed_set TASK_KIND_MAP m) (completed_set TASK_KIND_REDUCE m).

Lemma elem_of_completed k m i : i ∈ completed_set k m <-> completed_in m k i.
Proof.
  unfold completed_set, completed_in. rewrite elem_of_list_to_set, list_elem_of_filter, elem_of_seq, fmap_Some.
  split; [intros [(t & Ht & E) Hi]|intros [Hi (t & Ht & E)]]; (split; [|by lia || by exists t]); [lia|by exists t].
Qed.

Lemma completed_set_same k m m2 : (forall i, completed_in m2 k i <-> completed_in m k i) -> completed_set k m2 = completed_set k m.
Proof. intros H. apply set_eq. intros i. by rewrite !elem_of_completed. Qed.

Lemma completed_set_one k m m2 i : (forall i', completed_in m2 k i' <-> i' = i \/ completed_in m k i') ->
  completed_set k m2 = {[i]} ∪ completed_set k m.
Proof. intros H. apply set_eq. intros i'. by rewrite elem_of_union, elem_of_singleton, !elem_of_completed, H. Qed.

(** Of a job that is done, every task is completed. *)
Lemma done_all k m : job_inv m -> j_phase (m_job m) = JOB_DONE ->
  completed_set k m = set_seq 0 (Z.to_nat (n_tasks k (m_job m))).
Proof.
  intros (Hm & Hc & Hph & _) Hd. apply set_eq. intros i. rewrite elem_of_completed, elem_of_set_seq. split.
  - intros [Hi _]. lia.
  - intros Hi. assert (Z.of_nat i < n_tasks k (m_job m)) as Hlt by lia. split; [done|].
    destruct (table_ok_get m k i Hm Hlt) as [t Ht]. exists t. split; [done|].
    destruct (counts_all m k Hm Hc) as [_ [Hall _]]. unfold phase_ok in Hph. cbn zeta in Hph. rewrite Hd in Hph.
    assert (n_done k (m_job m) = n_tasks k (m_job m)) as E by (destruct k; apply Hph). exact (Hall E i t Hlt Ht).
Qed.

Lemma advances_step m m2 : job_inv m -> advances m m2 ->
  rtc (job_step (Z.to_nat (j_M (m_job m))) (Z.to_nat (j_R (m_job m)))) (progress_of m) (progress_of m2).
Proof.
  intros (Hm & Hc & Hph & _) [Hsame|(k & i & Hk & Hi & Hno & Hone)].
  { unfold progress_of. rewrite !(completed_set_same _ m m2) by (intros; apply Hsame). done. }
  apply rtc_once. unfold progress_of. destruct (phase_kind_phase _ _ Hk) as [[E ->]|[E ->]]; cbn [n_tasks] in Hi.
  - rewrite (completed_set_one TASK_KIND_MAP m m2 i), (completed_set_same TASK_KIND_REDUCE m m2).
    + apply (map_completes _ _ (progress_of m)); [lia|]. cbn. by rewrite elem_of_completed.
    + intros i'. rewrite Hone. split; [intros [[? _]|?]; done|by right].
    + intros i'. rewrite Hone. split; [intros [[_ ?]|?]; auto|intros [->|?]; auto].
  - rewrite (completed_set_one TASK_KIND_REDUCE m m2 i), (completed_set_same TASK_KIND_MAP m m2).
    + apply (reduce_completes _ _ (progress_of m)); [|lia|]; cbn; [|by rewrite elem_of_completed].
      intros i' Hi'. apply elem_of_completed. split; [cbn [n_tasks]; lia|].
      destruct (table_ok_get m TASK_KIND_MAP i' Hm) as [t Ht]; [cbn [n_tasks]; lia|]. exists t. split; [done|].
      destruct (counts_all m TASK_KIND_MAP Hm Hc) as [_ [Hall _]]. unfold phase_ok in Hph. cbn zeta in Hph. rewrite E in Hph.
      apply (Hall (proj1 Hph) i' t); [cbn [n_tasks]; lia|done].
    + intros i'. rewrite Hone. split; [intros [[? _]|?]; done|by right].
    + intros i'. rewrite Hone. split; [intros [[_ ?]|?]; auto|intros [->|?]; auto].
Qed.

(** ** What a message leaves as it was *)

(** What a served honest message leaves as it was. *)
Definition framed (fd : Z) (st st2 : sys master_app) : Prop :=
  same_others fd st st2 /\ script st2 = [] /\
  (forall fd', fd' <> fd -> get_worker (master st2) fd' = get_worker (master st) fd') /\
  (forall k, n_tasks k (m_job (master st2)) = n_tasks k (m_job (master st))) /\
  advances (master st) (master st2).

Lemma served_framed created paths fd p st st2 : durable created paths (app st) -> script st = [] -> 0 <= fd ->
  honest fd p st -> served fd p st st2 -> durable created paths (app st2) /\ framed fd st st2.
Proof.
  intros Hd Hs Hfd Hh ((st1 & Hm & E) & Hso & Hs2). pose proof (proj1 Hd) as Hinv.
  assert (benign (script (reading fd st))) as Hb by (change (script (reading fd st)) with (script st); rewrite Hs; by apply Forall_nil).
  split.
  - rewrite E. apply (durable_step created paths (reading fd st)); [|done|exact Hd]. by eapply step_message.
  - split; [done|]. split; [done|]. apply handle_message_inv in Hm as (a & He & Ea).
    apply (message_effect_honest fd p (reading fd st) a Hinv Hfd Hh) in He. unfold master at 1 3 6. rewrite E. split; [|split].
    + intros fd' Hne. pose proof (effect_workers fd (reading fd st) a fd' He Hne) as Hw.
      change (master (reading fd st)) with (master st) in Hw. rewrite <- Hw.
      destruct Ea as [->| ->]; [done|]. unfold master_on_disconnect. cbn [a_master]. by rewrite get_worker_put_ne.
    + intros k. pose proof (effect_n fd (reading fd st) a k Hinv He) as Hn.
      change (master (reading fd st)) with (master st) in Hn. rewrite <- Hn. by destruct Ea as [->| ->].
    + pose proof (effect_advances fd (reading fd st) a Hinv Hfd He) as Ha. change (master (reading fd st)) with (master st) in Ha.
      destruct Ea as [->| ->]; [done|]. by apply advances_worker.
Qed.

(** ** The invariant of the cluster *)

Section Invariant.
Context {q : Qsort} {HQ : QsortSpec q}.
Context (created : Z) (paths srcs : list (list Z)) (R : Z).
Context (HR : 0 < R <= 64) (HM : 0 < zlen paths <= 256) (Hlen : length srcs = length paths) (Hclean : Forall clean_path paths).

(** The master can be brought back, and what its completed tasks published is
    in place. *)
Definition master_ok (st : sys master_app) (fs : files) : Prop :=
  durable created paths (app st) /\ script st = [] /\ j_R (m_job (master st)) = R /\ job_files paths srcs R (master st) fs.

(** A worker that works has a task of the job and will do it well; one that
    reports success has published its files. *)
Definition act_files (pid : Z) (a : activity) (fs : files) : Prop :=
  match a with
  | Asking => True
  | Working r m => good_resp paths srcs R r fs /\ working paths srcs R pid r m fs
  | Reporting r rv => good_resp paths srcs R r fs /\ (rv = 0 -> resp_files srcs R r fs)
  end.

(** The master's slot of its connection names the same task. *)
Definition resp_slot (r : task_response_t) (w : worker_t) : Prop :=
  match resp_task r with
  | Some (k, id, attempt) => wk_has_task w = true /\ wk_current_kind w = Some k /\
      wk_current_task_id w = id /\ wk_current_attempt_id w = attempt
  | None => False
  end.

Definition act_slot (a : activity) (w : worker_t) : Prop :=
  match a with Asking => True | Working r _ | Reporting r _ => resp_slot r w end.

Definition proc_ok (st : sys master_app) (fs : files) (pid : Z) (w : wproc) : Prop :=
  pid_ok pid /\ act_files pid (wp_act w) fs /\
  forall fd, wp_fd w = Some fd -> 0 <= fd < MAX_FDS /\ connected fd st /\ act_slot (wp_act w) (get_worker (master st) fd).

Definition distinct_fds (procs : gmap Z wproc) : Prop :=
  forall pid1 pid2 w1 w2 fd, procs !! pid1 = Some w1 -> procs !! pid2 = Some w2 ->
    wp_fd w1 = Some fd -> wp_fd w2 = Some fd -> pid1 = pid2.

Definition cluster_ok (cl : cluster) : Prop :=
  master_ok (cl_sys cl) (cl_files cl) /\
  (forall pid w, cl_procs cl !! pid = Some w -> proc_ok (cl_sys cl) (cl_files cl) pid w) /\
  distinct_fds (cl_procs cl).

Lemma master_ok_shape st fs : master_ok st fs -> job_shape paths R (master st).
Proof.
  clear HR HM Hlen Hclean. intros ((Hinv & _ & HjM & _ & Hp & _) & _ & HjR & _). split; [done|]. split; [done|]. intros i t Ht Hlt.
  change (a_master (app st)) with (master st) in *. rewrite <- Hp. unfold task_paths.
  rewrite list_lookup_fmap, lookup_take_lt by lia. by rewrite Ht.
Qed.

(** ** Frames *)

Lemma connected_frame fd fd' st st2 : fd' <> fd -> same_others fd st st2 -> script st2 = [] -> connected fd' st -> connected fd' st2.
Proof. intros Hne Hso Hs ((_ & H1 & H2) & H3 & H4). destruct (Hso fd' Hne) as [E _]. unfold connected, idle. by rewrite E. Qed.

Lemma proc_ok_frame fd st st2 fs pid w : framed fd st st2 -> wp_fd w <> Some fd -> proc_ok st fs pid w -> proc_ok st2 fs pid w.
Proof.
  intros (Hso & Hs & Hw & _) Hne (Hp & Ha & Hfd). split; [done|]. split; [done|].
  intros fd' E. destruct (Hfd fd' E) as (H1 & H2 & H3). assert (fd' <> fd) as Hne' by congruence.
  split; [done|]. split; [by eapply connected_frame|]. by rewrite Hw.
Qed.

(** A call of one process leaves the others as they are. *)
Lemma proc_ok_step pid st fs fs2 pid' w : pid_ok pid -> pid <> pid' -> guar srcs R pid fs fs2 -> proc_ok st fs pid' w -> proc_ok st fs2 pid' w.
Proof.
  intros Hpid Hne Hg (Hp & Ha & Hfd). split; [done|]. split; [|done].
  pose proof (guar_kept paths srcs R HR HM Hlen Hclean _ _ _ Hg) as Hk.
  destruct (wp_act w) as [|r m|r rv]; [done| |]; cbn [act_files] in *; destruct Ha as [H1 H2]; (split; [by eapply kept_resp|]).
  - by apply (working_others paths srcs R HR HM Hlen Hclean pid' pid r m fs).
  - intros E k id attempt Er. apply (proj2 Hk). by apply (H2 E k id attempt).
Qed.

Lemma framed_R fd st st2 : framed fd st st2 -> j_R (m_job (master st)) = R -> j_R (m_job (master st2)) = R.
Proof. intros (_ & _ & _ & Hn & _) <-. exact (Hn TASK_KIND_REDUCE). Qed.

(** The cluster after an event. *)
Definition next_ok (cl cl' : cluster) : Prop := cluster_ok cl' /\ advances (master (cl_sys cl)) (master (cl_sys cl')).

(** A process leaves, or goes on with the same connection. *)
Lemma leave_ok pid cl st2 fs2 : cluster_ok cl -> master_ok st2 fs2 -> advances (master (cl_sys cl)) (master st2) ->
  (forall pid' w', pid' <> pid -> cl_procs cl !! pid' = Some w' -> proc_ok st2 fs2 pid' w') ->
  next_ok cl (leave pid (with_files fs2 (set_sys st2 cl))).
Proof.
  intros (_ & _ & Hd) Hm Ha Hp. split; [|done]. split; [done|]. split.
  - intros pid' w' Hl. cbn [leave cl_procs] in Hl. apply lookup_delete_Some in Hl as [Hne Hl]. by apply Hp.
  - cbn [leave cl_procs]. intros p1 p2 w1 w2 fd [_ H1]%lookup_delete_Some [_ H2]%lookup_delete_Some. by eapply Hd.
Qed.

Lemma become_ok pid w w2 cl st2 fs2 : cluster_ok cl -> master_ok st2 fs2 -> advances (master (cl_sys cl)) (master st2) ->
  cl_procs cl !! pid = Some w -> wp_fd w2 = wp_fd w -> proc_ok st2 fs2 pid w2 ->
  (forall pid' w', pid' <> pid -> cl_procs cl !! pid' = Some w' -> proc_ok st2 fs2 pid' w') ->
  next_ok cl (become pid w2 (with_files fs2 (set_sys st2 cl))).
Proof.
  intros (_ & _ & Hd) Hm Ha Hw Hfd Hp2 Hp. split; [|done]. split; [done|]. split.
  - intros pid' w' Hl. cbn [become cl_procs] in Hl. apply lookup_insert_Some in Hl as [[<- <-]|[Hne Hl]]; [done|]. by apply Hp.
  - assert (forall p w', <[pid := w2]> (cl_procs cl) !! p = Some w' -> exists w0, cl_procs cl !! p = Some w0 /\ wp_fd w0 = wp_fd w') as Hold.
    { intros p w' [[<- <-]|[_ Hl]]%lookup_insert_Some; eauto. }
    cbn [become cl_procs]. intros p1 p2 w1' w2' fd H1 H2 E1 E2. apply Hold in H1 as (u1 & H1 & F1). apply Hold in H2 as (u2 & H2 & F2).
    eapply Hd; [exact H1|exact H2|by rewrite F1|by rewrite F2].
Qed.

Lemma leave_same_ok pid cl : cluster_ok cl -> next_ok cl (leave pid cl).
Proof.
  intros Hcl. pose proof Hcl as (Hm & Hp & _). apply (leave_ok pid cl (cl_sys cl) (cl_files cl)); [done|done|apply advances_refl|].
  intros pid' w' _. apply Hp.
Qed.

Lemma framed_advances fd st st2 : framed fd st st2 -> advances (master st) (master st2).
Proof. by intros (_ & _ & _ & _ & H). Qed.

(** The other processes of a cluster keep their connections. *)
Lemma others_ok pid w fd cl st2 : cluster_ok cl -> cl_procs cl !! pid = Some w -> wp_fd w = Some fd ->
  framed fd (cl_sys cl) st2 ->
  forall pid' w', pid' <> pid -> cl_procs cl !! pid' = Some w' -> proc_ok st2 (cl_files cl) pid' w'.
Proof.
  intros (_ & Hp & Hd) Hw Hfd Hf pid' w' Hne Hw'. eapply proc_ok_frame; [exact Hf| |by apply Hp].
  intros E. apply Hne. by eapply Hd.
Qed.

(** ** A worker asks *)

(** What the master answers, and what the worker reads in it. *)
Lemma reply_cases fd now m buf m1 : job_inv m -> 0 <= fd -> get_task_reply MSG_MAX fd now m = Ret (Some buf, m1) ->
  m1 = m /\ (decode_response buf = Some RespDone \/ exists w, decode_response buf = Some (RespWait w)) \/
  exists k i t t', phase_kind (j_phase (m_job m)) = Ret k /\ first_pending k m i t /\ start_attempt fd now t = Ret t' /\
    task_ok t' /\ same_path t t' /\ m1 = assign_master k i fd t' m /\
    decode_response buf = Some (task_resp k i t' (m_job m)).
Proof.
  intros Hinv Hfd E. pose proof (get_task_reply_ok fd now m (proj1 Hinv) Hfd) as Hok.
  destruct (phase_kind (j_phase (m_job m))) as [k| |] eqn:Hk.
  - destruct Hok as [[_ E']|(i & t & t' & Hfp & Hs & E')]; rewrite E in E'.
    + left. destruct (_ <? _); [|done]. injection E' as -> ->. split; [done|]. right.
      rewrite decode_response_bytes by apply wait_msg_wf. by eexists.
    + right. injection E' as -> ->. exists k, i, t, t'. split; [done|]. split; [done|]. split; [done|].
      destruct (first_pending_start _ _ _ _ _ _ _ (proj1 Hinv) Hfd Hfp Hs) as (Hok' & _ & _ & _ & Hpath).
      split; [done|]. split; [done|]. split; [done|].
      destruct (round_assigned fd now 0 m k i t t' Hinv Hfd Hk Hfp Hs) as (_ & _ & _ & _ & Hwf & _). by apply decode_assignment.
  - left. rewrite E in Hok. injection Hok as -> ->. split; [done|by left].
  - left. rewrite E in Hok. injection Hok as -> ->. split; [done|by left].
Qed.

Lemma assign_completed k i t t' fd m k' i' : get_tasks k m !! i = Some t -> t_state t' = TASK_IN_PROGRESS ->
  completed_at k' i' (assign_master k i fd t' m) -> completed_at k' i' m.
Proof.
  intros Ht Hst (t1 & Ht1 & Hc). unfold assign_master in Ht1. rewrite get_tasks_worker in Ht1.
  apply put_lookup in Ht1 as [(_ & _ & ->)|[_ Ht1]]; [congruence|by exists t1].
Qed.

Lemma job_files_weaken m m2 fs : (forall k i, completed_at k i m2 -> completed_at k i m) ->
  job_files paths srcs R m fs -> job_files paths srcs R m2 fs.
Proof. intros Hc [H1 H2]. split; [done|]. intros k i Hd. by apply H2, Hc. Qed.

Lemma ask_honest fd st : honest fd get_task_bytes st.
Proof. intros msg k E. vm_compute in E. discriminate E. Qed.

Lemma exchange_benign cl : p_benign (w_proc (exchange_state cl)).
Proof. by apply Forall_nil. Qed.

Lemma orphan_ask cl : get_task_req (H := worker_peer None) (exchange_state cl) = Ret (None, exchange_state cl).
Proof. reflexivity. Qed.

Lemma ask_ok pid w cl : cluster_ok cl -> cl_procs cl !! pid = Some w -> wp_act w = Asking ->
  exists cl', cluster_ask pid w cl = Ret cl' /\ next_ok cl cl'.
Proof.
  intros Hcl Hw Hact. pose proof Hcl as (Hm & Hp & Hdist). pose proof Hm as (Hdur & Hs & HjR & Hjf).
  pose proof (Hp pid w Hw) as (Hpid & _ & Hconn). unfold cluster_ask.
  destruct (wp_fd w) as [fd|] eqn:Efd.
  2:{ rewrite orphan_ask. cbn [mbind outcome_bind]. eexists. split; [reflexivity|exact (leave_same_ok pid cl Hcl)]. }
  destruct (Hconn fd eq_refl) as (Hfd & Hc & _). pose proof (proj1 Hdur) as Hinv.
  destruct (ask_exchange fd (proj1 Hfd) (w_proc (exchange_state cl)) (cl_sys cl) (exchange_benign cl) Hc Hinv)
    as (buf & m1 & s & st2 & _ & Hreply & E & Hc2 & Hserved & Happ).
  destruct (served_framed created paths fd get_task_bytes (cl_sys cl) st2 Hdur Hs (proj1 Hfd) (ask_honest _ _) Hserved) as [Hdur2 Hf].
  cbn [worker_peer]. unfold exchange_state at 1. change (mk_proc _ _) with (w_proc (exchange_state cl)). rewrite E. cbn [mbind outcome_bind].
  eexists. split; [reflexivity|]. cbn [w_peer].
  assert (master st2 = m1) as Em by (unfold master; by rewrite Happ).
  pose proof (framed_R _ _ _ Hf HjR) as HjR2. pose proof (framed_advances _ _ _ Hf) as Hadv.
  pose proof (others_ok pid w fd cl st2 Hcl Hw Efd Hf) as Hothers.
  destruct (reply_cases fd _ _ _ _ Hinv (proj1 Hfd) Hreply) as [[-> Hd]|(k & i & t & t' & Hk & Hfp & Hst & Hok & Hpath & E1 & Hd)].
  - assert (master_ok st2 (cl_files cl)) as Hm2 by (split; [done|]; split; [apply Hf|]; split; [done|by rewrite Em]).
    destruct Hd as [-> |[w0 ->]]; [by apply (leave_ok pid cl st2 (cl_files cl))|].
    assert (proc_ok st2 (cl_files cl) pid w) as Hpw.
    { split; [done|]. rewrite Hact. split; [done|]. intros fd' E'. assert (fd' = fd) as -> by congruence. by split. }
    split; [|done]. split; [done|]. split; [|done]. intros pid' w' Hw'. change (cl_procs cl !! pid' = Some w') in Hw'.
    destruct (decide (pid' = pid)) as [->|Hne]; [|by apply Hothers]. rewrite Hw in Hw'. by injection Hw' as <-.
  - rewrite E1 in Em. pose proof Hfp as (_ & Ht & _).
    destruct (first_pending_start _ _ _ _ _ _ _ (proj1 Hinv) (proj1 Hfd) Hfp Hst) as (_ & Hprog & _).
    assert (master_ok st2 (cl_files cl)) as Hm2.
    { split; [done|]. split; [apply Hf|]. split; [done|]. eapply job_files_weaken; [|exact Hjf]. rewrite Em. intros k' i'. by eapply assign_completed. }
    rewrite Hd. assert (next_ok cl (become pid (mk_wproc (Some fd) (let r := task_resp k i t' (m_job (master (cl_sys cl))) in Working r (task_prog pid r))) (set_sys st2 cl))) as Hgoal.
    { apply (become_ok pid w _ cl st2 (cl_files cl)); [done|done|done|done|by rewrite Efd| |done].
      pose proof (assigned_good paths srcs R HR Hlen _ _ _ _ _ _ Hinv (master_ok_shape _ _ Hm) Hjf Hk Hfp Hok Hpath) as Hgood.
      split; [done|]. split; [cbn [wp_act act_files]; split; [exact Hgood|by apply working_start; [..|apply Hjf]]|].
      intros fd' [= <-]. split; [done|]. split; [done|]. cbn [wp_act act_slot]. rewrite Em. unfold assign_master.
      rewrite get_worker_put_eq. by destruct k. }
    by destruct k.
Qed.

(** ** A worker works *)

Lemma step_ok pid w r m ok cl : cluster_ok cl -> cl_procs cl !! pid = Some w -> wp_act w = Working r m ->
  exists cl', cluster_step pid w r m ok cl = Ret cl' /\ next_ok cl cl'.
Proof.
  intros Hcl Hw Hact. pose proof Hcl as (Hm & Hp & _). pose proof Hm as (Hdur & Hs & HjR & Hjf).
  pose proof (Hp pid w Hw) as (Hpid & Hfiles & Hconn). rewrite Hact in Hfiles, Hconn. destruct Hfiles as [Hgood Hwork].
  destruct m as [o|c k]; cbn [cluster_step].
  - destruct (working_end paths srcs R pid r o _ Hwork) as (rv & -> & H0). eexists. split; [reflexivity|].
    apply (become_ok pid w _ cl (cl_sys cl) (cl_files cl)); [done|done|apply advances_refl|done|done| |by intros; apply Hp].
    by split_and!.
  - cbv zeta. destruct (working_step paths srcs R HR HM Hlen pid r c k ok _ Hwork) as [Hg Hwork'].
    pose proof (guar_kept paths srcs R HR HM Hlen Hclean _ _ _ Hg) as Hk. eexists. split; [reflexivity|].
    apply (become_ok pid w _ cl (cl_sys cl)); [done| |apply advances_refl|done|done| |].
    + split; [done|]. split; [done|]. split; [done|]. by eapply kept_job.
    + split; [done|]. split; [split; [by eapply kept_resp|done]|done].
    + intros pid' w' Hne Hw'. eapply proc_ok_step; [exact Hpid|done|exact Hg|by apply Hp].
Qed.

(** ** A worker reports *)

Lemma good_resp_task r fs : good_resp paths srcs R r fs -> exists k i attempt,
  resp_task r = Some (k, Z.of_nat i, attempt) /\ u32 (Z.of_nat i) /\ u32 attempt /\
  (resp_files srcs R r fs -> task_files srcs R k i fs).
Proof.
  destruct r as [m|m|m|]; [intros (i & E & Hi & Hu & _)|intros (i & E & Hi & Hu & _)|done|done];
    cbn [resp_task]; rewrite E; do 3 eexists; (split; [reflexivity|]).
  - split; [by eapply index_u32|]. split; [done|]. intros Hf. rewrite <- (Nat2Z.id i). apply (Hf TASK_KIND_MAP _ (map_resp_attempt_id m)).
    cbn [resp_task]. by rewrite E.
  - split; [by eapply part_u32|]. split; [done|]. intros Hf. rewrite <- (Nat2Z.id i). apply (Hf TASK_KIND_REDUCE _ (reduce_resp_attempt_id m)).
    cbn [resp_task]. by rewrite E.
Qed.

(** In a running job the slot's task is the one the worker has. *)
Lemma slot_holds m fd r k i attempt kk : job_inv m -> resp_slot r (get_worker m fd) ->
  resp_task r = Some (k, Z.of_nat i, attempt) -> phase_kind (j_phase (m_job m)) = Ret kk ->
  kk = k /\ exists t, holds_task m fd k i t /\ attempt = t_current_attempt t.
Proof.
  intros (_ & _ & _ & _ & Hw) Hslot Er Hk. unfold resp_slot in Hslot. rewrite Er in Hslot. destruct Hslot as (H1 & H2 & H3 & H4).
  destruct (Hw fd kk ltac:(done) Hk H1) as (i' & t & Hh). pose proof Hh as (E2 & E3 & E4 & _).
  assert (kk = k) as -> by congruence. assert (i' = i) as -> by lia. split; [done|]. exists t. split; [done|]. congruence.
Qed.

Lemma report_honest fd st r k i attempt rv : resp_slot r (get_worker (master st) fd) ->
  resp_task r = Some (k, Z.of_nat i, attempt) -> u32 (Z.of_nat i) -> u32 attempt ->
  honest fd (done_bytes (Z.of_nat i) attempt (result_code rv)) st.
Proof.
  intros Hslot Er Hu Hatt msg kk _ Hd _. unfold resp_slot in Hslot. rewrite Er in Hslot. destruct Hslot as (H1 & _ & H3 & H4).
  assert (msg_wf (mk_done_req (Z.of_nat i) attempt (result_code rv))) as Hwf by (unfold result_code; by destruct (rv =? 0)).
  assert (rpc_decode_task_done_req (tail (done_bytes (Z.of_nat i) attempt (result_code rv))) =
    Some (mk_done_req (Z.of_nat i) attempt (result_code rv))) as E by exact (msg_decode_body _ Hwf).
  rewrite E in Hd. injection Hd as <-. cbn zeta. by split_and!.
Qed.

Lemma orphan_report id attempt rv cl :
  finish_task (H := worker_peer None) id attempt rv (exchange_state cl) = Ret (Some EXIT_FAILURE, exchange_state cl).
Proof. unfold finish_task. destruct (rv =? 0); reflexivity. Qed.

(** The report of a task that is in progress is taken; the files of the tasks
    then completed are there. *)
Lemma report_taken fd st r fs k i attempt rv : master_ok st fs -> connected fd st -> 0 <= fd ->
  resp_slot r (get_worker (master st) fd) -> resp_task r = Some (k, Z.of_nat i, attempt) -> u32 (Z.of_nat i) ->
  (rv = 0 -> task_files srcs R k i fs) -> phase_kind (j_phase (m_job (master st))) = Ret k ->
  exists s st2, finish_task (H := master_peer fd) (Z.of_nat i) attempt rv (mk_worker_state (mk_proc (mk_disk fs []) []) [] st) =
      Ret (None, mk_worker_state (set_io s (mk_proc (mk_disk fs []) [])) [] st2) /\ connected fd st2 /\
    served fd (done_bytes (Z.of_nat i) attempt (result_code rv)) st st2 /\ job_files paths srcs R (master st2) fs.
Proof.
  intros (Hdur & Hs & HjR & Hjf) Hc Hfd Hslot Er Hu Hfiles Hk. pose proof (proj1 Hdur) as Hinv.
  destruct (slot_holds _ _ _ _ _ _ _ Hinv Hslot Er Hk) as (_ & t & Hh & ->). pose proof Hh as (_ & _ & _ & _ & Ht & _).
  assert (p_benign (mk_proc (mk_disk fs []) [])) as Hb by by apply Forall_nil.
  destruct (decide (rv = 0)) as [->|Hne].
  - destruct (report_round_exchange fd Hfd _ st k i t Hb Hc Hinv Hk Hh Hu) as (now & s & st2 & _ & E & Hc2 & Hserved & Em).
    exists s, st2. split; [exact E|]. split; [done|]. split; [done|].
    apply (job_files_complete paths srcs R (master st) _ fs k i Hjf (Hfiles eq_refl)). rewrite Em.
    intros k' i' (t1 & Ht1 & Hst1). unfold reported_master in Ht1. cbn zeta in Ht1. rewrite get_tasks_worker in Ht1.
    unfold complete_master in Ht1. rewrite advance_tasks, get_tasks_job in Ht1.
    apply put_lookup in Ht1 as [(-> & -> & _)|[_ Ht1]]; [by left|right]. by exists t1.
  - destruct (report_failure_exchange fd Hfd _ st k i t rv Hb Hc Hinv Hk Hh Hu Hne)
      as (t' & j & s & st2 & _ & E & Hc2 & Hserved & Hst' & Em).
    exists s, st2. split; [exact E|]. split; [done|]. split; [done|]. eapply job_files_weaken; [|exact Hjf]. rewrite Em.
    intros k' i' (t1 & Ht1 & Hst1). cbn zeta in Ht1. rewrite get_tasks_worker in Ht1. unfold fail_master in Ht1.
    rewrite get_tasks_job in Ht1. apply put_lookup in Ht1 as [(_ & _ & ->)|[_ Ht1]]; [done|by exists t1].
Qed.

(** In any phase. *)
Lemma report_served fd st r fs k i attempt rv : master_ok st fs -> connected fd st -> 0 <= fd ->
  resp_slot r (get_worker (master st) fd) -> resp_task r = Some (k, Z.of_nat i, attempt) -> u32 (Z.of_nat i) -> u32 attempt ->
  (rv = 0 -> task_files srcs R k i fs) ->
  exists out s st2, finish_task (H := master_peer fd) (Z.of_nat i) attempt rv (mk_worker_state (mk_proc (mk_disk fs []) []) [] st) =
      Ret (out, mk_worker_state (set_io s (mk_proc (mk_disk fs []) [])) [] st2) /\ (out = None -> connected fd st2) /\
    served fd (done_bytes (Z.of_nat i) attempt (result_code rv)) st st2 /\ job_files paths srcs R (master st2) fs.
Proof.
  intros Hm Hc Hfd Hslot Er Hu Hatt Hfiles. pose proof Hm as (Hdur & Hs & HjR & Hjf). pose proof (proj1 Hdur) as Hinv.
  assert ((exists kk, phase_kind (j_phase (m_job (master st))) = Ret kk) \/
    (j_phase (m_job (master st)) = JOB_DONE \/ j_phase (m_job (master st)) = JOB_FAILED)) as [[kk Hk]|Hph].
  { destruct (j_phase (m_job (master st))); cbn; [left; by eexists|left; by eexists|right; by left|right; by right]. }
  - destruct (slot_holds _ _ _ _ _ _ _ Hinv Hslot Er Hk) as [-> _].
    destruct (report_taken fd st r fs k i attempt rv Hm Hc Hfd Hslot Er Hu Hfiles Hk) as (s & st2 & E & Hc2 & Hserved & Hjf2).
    by exists None, s, st2.
  - assert (p_benign (mk_proc (mk_disk fs []) [])) as Hb by by apply Forall_nil.
    destruct (report_refused fd Hfd _ st (Z.of_nat i) attempt rv Hb Hc Hinv Hu Hatt Hph) as (s & st2 & E & Hserved & Happ).
    exists (Some EXIT_FAILURE), s, st2. split; [exact E|]. split; [done|]. split; [done|].
    eapply job_files_weaken; [|exact Hjf]. intros k' i'. unfold master. rewrite Happ. exact (proj1 (completed_worker _ _ _ k' i')).
Qed.

Lemma report_ok pid w r rv cl : cluster_ok cl -> cl_procs cl !! pid = Some w -> wp_act w = Reporting r rv ->
  exists cl', cluster_report pid w r rv cl = Ret cl' /\ next_ok cl cl'.
Proof.
  intros Hcl Hw Hact. pose proof Hcl as (Hm & Hp & _). pose proof Hm as (Hdur & Hs & HjR & _).
  pose proof (Hp pid w Hw) as (Hpid & Hfiles & Hconn). rewrite Hact in Hfiles, Hconn. destruct Hfiles as [Hgood H0].
  destruct (good_resp_task r (cl_files cl) Hgood) as (k & i & attempt & Er & Hu & Hatt & Htf).
  unfold cluster_report. rewrite Er. destruct (wp_fd w) as [fd|] eqn:Efd.
  2:{ rewrite orphan_report. cbn [mbind outcome_bind]. eexists. split; [reflexivity|exact (leave_same_ok pid cl Hcl)]. }
  destruct (Hconn fd eq_refl) as (Hfd & Hc & Hslot). cbn [act_slot] in Hslot. cbn [worker_peer]. unfold exchange_state.
  destruct (report_served fd (cl_sys cl) r (cl_files cl) k i attempt rv Hm Hc (proj1 Hfd) Hslot Er Hu Hatt ltac:(auto))
    as (out & s & st2 & E & Hc2 & Hserved & Hjf2).
  pose proof (report_honest fd (cl_sys cl) r k i attempt rv Hslot Er Hu Hatt) as Hhon.
  destruct (served_framed created paths fd _ (cl_sys cl) st2 Hdur Hs (proj1 Hfd) Hhon Hserved) as [Hdur2 Hf].
  assert (master_ok st2 (cl_files cl)) as Hm2.
  { split; [done|]. split; [apply Hf|]. split; [by eapply framed_R|done]. }
  pose proof (others_ok pid w fd cl st2 Hcl Hw Efd Hf) as Hothers.
  pose proof (framed_advances _ _ _ Hf) as Hadv. rewrite E. cbn [mbind outcome_bind w_peer]. eexists. split; [reflexivity|]. destruct out as [c|].
  - by apply (leave_ok pid cl st2 (cl_files cl)).
  - apply (become_ok pid w _ cl st2 (cl_files cl)); [done|done|done|done|by rewrite Efd| |done].
    split; [done|]. split; [done|]. intros fd' [= <-]. split; [done|]. split; [by apply Hc2|done].
Qed.

(** ** Connections and crashes *)

Lemma on_accept_framed fd st : script st = [] -> 0 <= fd < MAX_FDS -> 
  framed fd st (on_accept (Some fd) st) /\ connected fd (on_accept (Some fd) st) /\
  app (on_accept (Some fd) st) = master_on_connect fd (s_now_ms (sv st)) (app st).
Proof.
  intros Hs Hfd. unfold on_accept. destruct (Z.leb_spec MAX_FDS fd); [lia|]. rewrite Hs. cbn.
  unfold el_add, fd_out_of_range. destruct (Z.ltb_spec fd 0), (Z.leb_spec MAX_FDS fd); try lia. cbn.
  split; [|split; [|done]].
  - split; [|split; [done|split]].
    + intros fd' Hne. unfold get_client, sent. cbn. by rewrite !lookup_insert_ne.
    + intros fd' Hne. exact (get_worker_put_ne fd fd' _ (master st) (not_eq_sym Hne)).
    + split; [done|]. by apply (advances_worker (master st) (master st)), advances_refl.
  - unfold connected, idle, get_client. cbn. by rewrite lookup_insert_eq.
Qed.

Lemma connect_ok pid fd cl : cluster_ok cl -> cl_procs cl !! pid = None -> pid_ok pid -> 0 <= fd < MAX_FDS ->
  c_active (get_client (cl_sys cl) fd) = false ->
  next_ok cl (become pid (mk_wproc (Some fd) Asking) (set_sys (on_accept (Some fd) (cl_sys cl)) cl)).
Proof.
  intros ((Hdur & Hs & HjR & Hjf) & Hp & Hd) Hnone Hpid Hfd Hfree.
  destruct (on_accept_framed fd (cl_sys cl) Hs Hfd) as (Hf & Hc & Happ).
  assert (forall pid' w', cl_procs cl !! pid' = Some w' -> wp_fd w' <> Some fd) as Hne.
  { intros pid' w' Hw' E. destruct (Hp pid' w' Hw') as (_ & _ & Hconn). destruct (Hconn fd E) as (_ & (_ & Hact & _) & _). congruence. }
  split; [|by apply framed_advances in Hf]. split; [|split].
  - split; [|split; [apply Hf|split; [exact (framed_R _ _ _ Hf HjR)|]]].
    + apply (durable_step created paths (cl_sys cl)); [apply step_accept; intros fd' [= <-]; lia| |done]. rewrite Hs. by apply Forall_nil.
    + cbn [become set_sys cl_sys cl_files]. eapply job_files_weaken; [|exact Hjf]. unfold master. rewrite Happ.
      intros k i. exact (proj1 (completed_worker _ _ _ k i)).
  - intros pid' w' Hw'. cbn [become set_sys cl_procs cl_sys cl_files] in *.
    apply lookup_insert_Some in Hw' as [[<- <-]|[_ Hw']].
    + split; [done|]. split; [done|]. intros fd' [= <-]. by split.
    + eapply proc_ok_frame; [exact Hf|by eapply Hne|by apply Hp].
  - cbn [become set_sys cl_procs]. intros p1 p2 w1 w2 fd' [[<- <-]|[_ H1]]%lookup_insert_Some [[<- <-]|[_ H2]]%lookup_insert_Some E1 E2.
    + done.
    + injection E1 as <-. by destruct (Hne p2 w2 H2).
    + injection E2 as <-. by destruct (Hne p1 w1 H1).
    + by eapply Hd.
Qed.

Lemma deserted_spec fd procs : deserted fd procs = true -> forall pid w, procs !! pid = Some w -> wp_fd w <> Some fd.
Proof.
  unfold deserted. intros Hn%negb_true_iff pid w Hw E. apply not_true_iff_false in Hn. apply Hn, existsb_exists.
  exists (pid, w). split; [by apply list_elem_of_In, elem_of_map_to_list|by apply bool_decide_eq_true].
Qed.

Lemma remove_framed fd st : script st = [] -> framed fd st (remove_client fd st).
Proof.
  intros Hs. split; [apply same_others_remove|]. split; [done|]. split; [|split; [done|]].
  - intros fd' Hne. exact (get_worker_put_ne fd fd' _ (master st) (not_eq_sym Hne)).
  - apply (advances_worker (master st) (master st)), advances_refl.
Qed.

Lemma eof_ok fd cl : cluster_ok cl -> 0 <= fd -> deserted fd (cl_procs cl) = true ->
  exists st, on_read fd (inl []) (cl_sys cl) = Ret st /\ next_ok cl (set_sys st cl).
Proof.
  intros Hcl Hfd Hdes. pose proof Hcl as ((Hdur & Hs & HjR & Hjf) & Hp & Hd). unfold on_read.
  destruct (negb _); [exists (cl_sys cl); split; [done|]; split; [by destruct cl|apply advances_refl]|]. rewrite take_nil. change (zlen [] =? 0) with true. cbv iota.
  eexists. split; [reflexivity|]. pose proof (remove_framed fd (cl_sys cl) Hs) as Hf.
  split; [|by apply framed_advances in Hf]. split; [|split; [|done]].
  - split; [|split; [apply Hf|split; [exact (framed_R _ _ _ Hf HjR)|]]].
    + apply (durable_step created paths (cl_sys cl)); [by apply step_disconnect| |done]. rewrite Hs. by apply Forall_nil.
    + eapply job_files_weaken; [|exact Hjf]. intros k i. exact (proj1 (completed_worker fd worker_zero (master (cl_sys cl)) k i)).
  - intros pid w Hw. eapply proc_ok_frame; [exact Hf|by eapply deserted_spec|by apply Hp].
Qed.

(** Starting a master of the job's configuration. *)
Definition boot_ok (c : master_config_t) (b : boot) : Prop :=
  p_benign (b_proc b) /\ p_files (b_proc b) !! b_conf b = Some (print_config c) /\ fds_ok (b_aof_fd b) (b_fds b).

Context (c : master_config_t) (aof : list Z).
Context (Hc : config_ok c) (Hdir : config_word (cfg_input_dir c)) (Haof : cfg_aof_path c = Some aof) (Hword : config_word aof).

Lemma restart_ok b cl : cluster_ok cl -> boot_ok c b ->
  exists st, boot_master (Some (a_file (app (cl_sys cl)))) b = Ret (Some st) /\ next_ok cl (restarted st cl) /\
    quiet (master st) /\ j_phase (m_job (master st)) <> JOB_FAILED /\ s_clients (sv st) = ∅.
Proof.
  intros ((Hdur & Hs & HjR & Hjf) & Hp & Hd) (Hb & Hconf & Hfds).
  destruct (restart_benign (b_dir b) (fun _ => Some (a_file (app (cl_sys cl)))) (b_aof_fd b) (b_created b) (b_fds b) (b_real b) (b_now b)
    created (b_conf b) c aof paths (app (cl_sys cl)) (b_proc b) Hc Hdir Haof Hword Hb Hconf Hfds eq_refl Hdur)
    as (cs & srv & s & E & (Hcl & _) & Hdur2 & Hk).
  pose proof Hdur as [Hinv (_ & HjM & Hpok & _)]. change (a_master (app (cl_sys cl))) with (master (cl_sys cl)) in *.
  set (m0 := master (cl_sys cl)) in *. set (m2 := recovered c paths m0 cs) in *.
  unfold boot_master. rewrite E. eexists. split; [reflexivity|].
  assert (forall k, get_tasks k (set_now_realtime_ms (b_real b) (set_aof_fd (b_aof_fd b) m2)) = get_tasks k m2) as Ht by (by intros []).
  split; [split; [split; [|split]|]|split; [|split; [|exact Hcl]]].
  - split; [|split; [done|split]].
    + exact Hdur2.
    + rewrite <- HjR. exact (proj1 (recovered_fields c paths m0 cs Hinv Hk TASK_KIND_REDUCE)).
    + eapply job_files_weaken; [|exact Hjf]. intros k i (t2 & Ht2 & Hst).
      change (get_tasks k (set_now_realtime_ms (b_real b) (set_aof_fd (b_aof_fd b) m2)) !! i = Some t2) in Ht2. rewrite Ht in Ht2.
      destruct (recovered_slot c paths m0 cs Hinv HjM Hpok Hk k i t2 Ht2) as [(Hi & _)|[_ ->]]; [|done].
      apply (recovered_completed c paths m0 cs Hinv HjM Hpok Hk k i). split; [by rewrite (proj1 (recovered_fields c paths m0 cs Hinv Hk k))|by exists t2].
  - intros pid w Hw. cbn [restarted cl_procs cl_sys cl_files] in *. apply lookup_fmap_Some in Hw as (w0 & <- & Hw0).
    destruct (Hp pid w0 Hw0) as (H1 & H2 & _). by split_and!.
  - intros p1 p2 w1 w2 fd H1 _ E1. cbn [restarted cl_procs] in H1. apply lookup_fmap_Some in H1 as (w0 & <- & _). done.
  - left. intros k i. etrans; [|exact (recovered_completed c paths m0 cs Hinv HjM Hpok Hk k i)]. fold m2. unfold completed_in.
    change (master (cl_sys (restarted _ _))) with (set_now_realtime_ms (b_real b) (set_aof_fd (b_aof_fd b) m2)). by rewrite Ht.
  - intros k i t2 Hi Ht2. change (get_tasks k (set_now_realtime_ms (b_real b) (set_aof_fd (b_aof_fd b) m2)) !! i = Some t2) in Ht2.
    change (Z.of_nat i < n_tasks k (m_job m2)) in Hi. rewrite Ht in Ht2.
    pose proof (proj1 (recovered_fields c paths m0 cs Hinv Hk k)) as En. fold m2 in En. rewrite En in Hi.
    destruct (recovered_lookup c paths m0 cs Hinv k i t2 Hi Ht2) as [t Ht0].
    rewrite (recovered_state c paths m0 cs Hinv HjM Hpok Hk k i t t2 Ht0 Ht2 Hi). destruct (decide _); [by right|by left].
  - apply (recovered_phase c paths m0 cs Hinv HjM Hpok Hk).
Qed.

(** ** Any history *)

(** A master is started again under the job's configuration. *)
Definition event_ok (ev : event) : Prop := match ev with EvRestart b => boot_ok c b | _ => True end.

Lemma next_refl cl : cluster_ok cl -> next_ok cl cl.
Proof. intros Hcl. split; [done|apply advances_refl]. Qed.

Lemma exec_ok ev cl : cluster_ok cl -> event_ok ev ->
  exists cl', cluster_exec ev cl = Ret (Some cl') /\ next_ok cl cl'.
Proof.
  intros Hcl Hev. pose proof (next_refl cl Hcl) as Hsame. destruct ev as [pid fd|pid|pid ok|pid|pid|fd|b]; cbn [cluster_exec].
  - destruct (_ && _) eqn:E; [|by exists cl]. apply andb_true_iff in E as [[[[H1%bool_decide_eq_true H2%bool_decide_eq_true]%andb_true_iff
      H3]%andb_true_iff H4]%andb_true_iff H5%negb_true_iff].
    eexists. split; [reflexivity|]. apply connect_ok; try done. lia.
  - destruct (cl_procs cl !! pid) as [w|] eqn:Hw; [|by exists cl]. destruct (wp_act w) eqn:Ha; [|by exists cl|by exists cl].
    destruct (ask_ok pid w cl Hcl Hw Ha) as (cl' & -> & H'). by exists cl'.
  - destruct (cl_procs cl !! pid) as [w|] eqn:Hw; [|by exists cl]. destruct (wp_act w) as [|r m|] eqn:Ha; [by exists cl| |by exists cl].
    destruct (step_ok pid w r m ok cl Hcl Hw Ha) as (cl' & -> & H'). by exists cl'.
  - destruct (cl_procs cl !! pid) as [w|] eqn:Hw; [|by exists cl]. destruct (wp_act w) as [| |r rv] eqn:Ha; [by exists cl|by exists cl|].
    destruct (report_ok pid w r rv cl Hcl Hw Ha) as (cl' & -> & H'). by exists cl'.
  - eexists. split; [reflexivity|exact (leave_same_ok pid cl Hcl)].
  - destruct (_ && _) eqn:E; [|by exists cl]. apply andb_true_iff in E as [H1 H2].
    destruct (eof_ok fd cl Hcl ltac:(lia) H2) as (st & -> & H'). by eexists.
  - destruct (restart_ok b cl Hcl Hev) as (st & -> & H' & _). by eexists.
Qed.

(** ** Refinement: the job as a set of completed tasks *)

Lemma next_step cl cl' : cluster_ok cl -> next_ok cl cl' ->
  rtc (job_step (length paths) (Z.to_nat R)) (progress_of (master (cl_sys cl))) (progress_of (master (cl_sys cl'))).
Proof.
  intros (Hm & _) (_ & Ha). pose proof (master_ok_shape _ _ Hm) as (HjM & HjR & _). destruct Hm as ([Hinv _] & _).
  pose proof (advances_step _ _ Hinv Ha) as Hs. change (a_master (app (cl_sys cl))) with (master (cl_sys cl)) in *.
  rewrite HjM, HjR in Hs. unfold zlen in Hs. by rewrite Nat2Z.id in Hs.
Qed.

Lemma execs_ok evs : forall cl, cluster_ok cl -> Forall event_ok evs ->
  exists cl', cluster_execs evs cl = Ret (Some cl') /\ cluster_ok cl' /\
    rtc (job_step (length paths) (Z.to_nat R)) (progress_of (master (cl_sys cl))) (progress_of (master (cl_sys cl'))).
Proof.
  induction evs as [|ev evs IH]; intros cl Hcl Hev; cbn [cluster_execs]; [by exists cl|].
  apply Forall_cons in Hev as [Hev Hevs]. destruct (exec_ok ev cl Hcl Hev) as (cl1 & -> & Hnext).
  destruct (IH cl1 (proj1 Hnext) Hevs) as (cl' & E & Hcl' & Hrun). exists cl'. split; [exact E|]. split; [done|].
  etrans; [by apply next_step|exact Hrun].
Qed.

(** The job done, its outputs are there. *)
Lemma cluster_outputs cl : cluster_ok cl -> j_phase (m_job (master (cl_sys cl))) = JOB_DONE -> outputs srcs R (cl_files cl).
Proof.
  intros ((Hdur & _ & HjR & Hjf) & _) Hd y Hy. destruct Hdur as [(Hm & Hcnt & Hph & _) _]. change (a_master (app (cl_sys cl))) with (master (cl_sys cl)) in *.
  apply (proj2 Hjf TASK_KIND_REDUCE y); [|done]. destruct (counts_all _ TASK_KIND_REDUCE Hm Hcnt) as [_ [Hall _]].
  unfold phase_ok in Hph. cbn zeta in Hph. rewrite Hd in Hph.
  destruct (table_ok_get _ TASK_KIND_REDUCE y Hm) as [t Ht]; [cbn [n_tasks]; lia|].
  exists t. split; [done|]. apply (Hall (proj2 Hph) y t); [cbn [n_tasks]; lia|done].
Qed.

Context (pid fd : Z) (Hpid : pid_ok pid) (Hfd : 0 <= fd < MAX_FDS).

(** A worker that connects to a master that has been started again finds a job
    without assigned tasks. *)
Lemma restart_between b cl : cluster_ok cl -> boot_ok c b ->
  exists st, boot_master (Some (a_file (app (cl_sys cl)))) b = Ret (Some st) /\
    let st1 := on_accept (Some fd) (set_script [] st) in
    between paths srcs R fd (mk_proc (mk_disk (cl_files cl) []) []) st1 /\ remaining (m_job (master st1)) <= zlen paths + R.
Proof.
  intros Hcl Hb. destruct (restart_ok b cl Hcl Hb) as (st & E & ((Hm & _) & _) & Hq & Hnf & Hnocl).
  assert (cluster_ok (mk_cluster (set_script [] st) (cl_files cl) ∅)) as Hcl0.
  { split; [exact Hm|]. split; [intros p w Hl|intros p1 p2 w1 w2 x Hl]; cbn [cl_procs] in Hl; by rewrite lookup_empty in Hl. }
  exists st. split; [exact E|]. cbn zeta. set (st1 := on_accept (Some fd) (set_script [] st)).
  destruct (connect_ok pid fd _ Hcl0 (lookup_empty _) Hpid Hfd) as ((Hm1 & _ & _) & _).
  { unfold get_client. cbn [cl_sys]. change (sv (set_script [] st)) with (sv st). by rewrite Hnocl. }
  change (master_ok st1 (cl_files cl)) in Hm1. pose proof Hm1 as ([Hinv1 _] & _ & HjR1 & Hjf1).
  destruct (on_accept_framed fd (set_script [] st) eq_refl Hfd) as (_ & Hc1 & Happ). fold st1 in Hc1, Happ.
  assert (m_job (master st1) = m_job (master st)) as Hj by (unfold master; by rewrite Happ). split.
  - split; [by apply Forall_nil|]. split; [done|]. split; [done|]. split; [|split; [by rewrite Hj|split; [by eapply master_ok_shape|done]]].
    intros k i t Hi Ht. rewrite Hj in Hi. apply (Hq k i t Hi). rewrite <- Ht. unfold master. rewrite Happ. f_equal.
  - destruct Hinv1 as (_ & Hcnt & _). destruct (master_ok_shape _ _ Hm1) as (HjM & _).
    pose proof (Hcnt TASK_KIND_MAP) as E1. pose proof (Hcnt TASK_KIND_REDUCE) as E2. cbn [n_done n_tasks get_tasks] in E1, E2.
    change (a_master (app st1)) with (master st1) in *. rewrite HjM in E1. rewrite HjR1 in E2.
    pose proof (count_completed_le (m_maps (master st1)) (zlen paths) ltac:(lia)).
    pose proof (count_completed_le (m_reduces (master st1)) R ltac:(lia)). unfold remaining. rewrite HjM, HjR1. lia.
Qed.
End Invariant.
