(* ===== verification/History.v ===== *)
(** * Any history of a cluster (src/worker.c, src/master.c, src/server.c, src/aof.c)

    What holds after any sequence of the events of Cluster.v, from the first
    start of the master on: nothing is undefined, what is completed is
    published and stays, the job refines its specification, and it can always
    be finished with the right word counts. *)

From Stdlib Require Import String.
From S2P Require Import Prelude Limits Util Rpc Task Aof EventLoop Server Framing Master Sched Job Recovery Liveness.
From S2P Require Import Stdio Calls Config Publish WorkerMap WorkerReduce Worker TaskProgs WordCount Exchange System Interleave Start Cluster.

(** ** The first start *)

Section Cluster.
Context {q : Qsort} {HQ : QsortSpec q}.
Context (c : master_config_t) (aof : list Z) (b : boot) (dir : list dirent) (srcs : list (list Z)) (fs : files).
Let paths := regular_paths (master_zero c) (scandir dir).
Let R := cfg_n_reduce c.

(** A configured job whose inputs are in place, without a log. *)
Definition cluster_start : Prop :=
  config_ok c /\ config_word (cfg_input_dir c) /\ cfg_aof_path c = Some aof /\ config_word aof /\ boot_ok c b /\
  b_dir b (cfg_input_dir c) = Some dir /\ entries_ok (master_zero c) 0 (scandir dir) /\ 0 < zlen paths /\
  Forall clean_path paths /\ Forall2 (fun path src => fs !! path = Some src) paths srcs /\ Forall text_ok srcs.

Hypothesis (Hstart : cluster_start).

Lemma start_sizes : 0 < R <= 64 /\ 0 < zlen paths <= 256 /\ length srcs = length paths.
Proof.
  destruct Hstart as ((_ & _ & _ & _ & HR & _) & _ & _ & _ & _ & _ & Hent & Hpos & _ & Hin & _).
  apply Forall2_length in Hin. unfold MAX_REDUCE_TASKS in HR. fold R in HR.
  destruct (init_job_spec dir c) as [Hiff Hres]. 
  assert (wrap 32 (cfg_n_reduce c) = R) as EW by (apply wrap_small; unfold fits; fold R; lia). rewrite EW in Hiff, Hres.
  destruct Hres as (_ & Hsize); [apply Hiff; split; [done|]; split; [done|]; unfold MAX_REDUCE_TASKS; lia|].
  destruct Hsize as (HM & _). limits. fold paths in HM. split; [lia|]. split; [lia|done].
Qed.

Lemma started_ok : exists st, boot_master None b = Ret (Some st) /\
  cluster_ok (b_created b) paths srcs R (mk_cluster (set_script [] st) fs ∅) /\ progress_of (master st) = mk_progress ∅ ∅.
Proof.
  destruct Hstart as (Hc & Hdir & Haof & Hword & (Hb & Hconf & Hfds) & Hd & Hent & Hpos & _ & Hin & _).
  destruct (start_benign (b_dir b) (fun _ => None) (b_aof_fd b) (b_created b) (b_fds b) (b_real b) (b_now b) (b_conf b) c aof dir (b_proc b))
    as (f & srv & s & E & _ & Hdur & Hs); try done.
  fold paths in E, Hdur, Hs. eexists. split; [exact E|]. pose proof (starts_started _ _ _ _ Hs) as Hjob.
  assert (forall k, completed_set k (master (mk_sys srv (mk_app (set_now_realtime_ms (b_real b) (set_aof_fd (b_aof_fd b)
    (fresh_master c paths (cfg_n_reduce c)))) f) s ∅)) = ∅) as Hnone.
  { intros k. apply set_eq. intros i. rewrite elem_of_completed, elem_of_empty. split; [|done].
    intros [_ Hd']. exact (started_completed c paths R _ k i Hjob Hd'). }
  split; [|unfold progress_of; by rewrite !Hnone]. split; [split; [|split; [done|split]]|split].
  - exact Hdur.
  - exact (proj1 (proj2 (started_shape _ _ _ _ Hjob))).
  - split; [intros i path src Hp Hsr; by eapply Forall2_lookup_lr in Hin|].
    intros k i Hd'. exfalso. exact (started_completed c paths R _ k i Hjob Hd').
  - intros pid w Hl. cbn [cl_procs] in Hl. by rewrite lookup_empty in Hl.
  - intros p1 p2 w1 w2 x Hl. cbn [cl_procs] in Hl. by rewrite lookup_empty in Hl.
Qed.

(** Any history of a job that has been started keeps the invariant. *)
Lemma history_ok_from evs : Forall (event_ok c) evs ->
  exists st cl, boot_master None b = Ret (Some st) /\
    cluster_execs evs (mk_cluster (set_script [] st) fs ∅) = Ret (Some cl) /\ cluster_ok (b_created b) paths srcs R cl /\
    rtc (job_step (length srcs) (Z.to_nat R)) (mk_progress ∅ ∅) (progress_of (master (cl_sys cl))).
Proof.
  intros Hevs. destruct started_ok as (st & E & Hcl & Hp). destruct start_sizes as (HR & HM & Hlen).
  pose proof Hstart as (Hc & Hdir & Haof & Hword & _ & _ & _ & _ & Hclean & _).
  destruct (execs_ok (b_created b) paths srcs R HR HM Hlen Hclean c aof Hc Hdir Haof Hword evs _ Hcl Hevs) as (cl & E' & Hcl' & Hrun).
  rewrite Hlen, <- Hp. by exists st, cl.
Qed.
End Cluster.

(** C1: the cluster counts words. A master is started on a configured job, and
    then anything happens, in any order: workers connect and ask; several make
    the system calls of their tasks in any interleaving, on one file system,
    each call succeeding or failing; they report, and die at any moment, in the
    middle of a task too; the master dies and is started again. No step is
    undefined behaviour or an abort, every restart comes up, and whenever the
    job is JOB_DONE the output file of each partition holds a line for each distinct
    word of the inputs in that partition with the number of its occurrences. *)
Theorem cluster_word_count {q : Qsort} {HQ : QsortSpec q} c aof b dir srcs fs evs :
  cluster_start c aof b dir srcs fs -> Forall (event_ok c) evs ->
  exists st cl, boot_master None b = Ret (Some st) /\
    cluster_execs evs (mk_cluster (set_script [] st) fs ∅) = Ret (Some cl) /\
    (j_phase (m_job (master (cl_sys cl))) = JOB_DONE ->
     forall y, (y < Z.to_nat (cfg_n_reduce c))%nat ->
       cl_files cl !! reduce_final_path (Z.of_nat y) =
         Some (word_counts (partition_words (cfg_n_reduce c) (Z.of_nat y) (concat (map words srcs))))).
Proof.
  intros Hstart Hevs. destruct (history_ok_from c aof b dir srcs fs Hstart evs Hevs) as (st & cl & E & E' & Hcl & _).
  destruct (start_sizes c aof b dir srcs fs Hstart) as (HR & _ & Hlen).
  exists st, cl. split; [done|]. split; [done|]. intros Hd. apply outputs_words; [by apply Hstart|].
  exact (cluster_outputs _ _ _ _ HR Hlen cl Hcl Hd).
Qed.

(** C3: the cluster refines the abstract job. Seen as the set of the tasks the
    master counts as completed, any history of workers and masters that come and
    go is a sequence of steps of the specification: each step completes one task
    that was not completed, a reduce task only when every map task is, and all
    other events, crashes and restarts included, leave the set as it is; nothing
    completed is ever lost or redone. JOB_DONE means that every task is in it. *)
Theorem cluster_refines {q : Qsort} {HQ : QsortSpec q} c aof b dir srcs fs evs :
  cluster_start c aof b dir srcs fs -> Forall (event_ok c) evs ->
  let M := length srcs in
  let R := Z.to_nat (cfg_n_reduce c) in
  exists st cl, boot_master None b = Ret (Some st) /\
    cluster_execs evs (mk_cluster (set_script [] st) fs ∅) = Ret (Some cl) /\
    rtc (job_step M R) (mk_progress ∅ ∅) (progress_of (master (cl_sys cl))) /\
    (j_phase (m_job (master (cl_sys cl))) = JOB_DONE ->
     progress_of (master (cl_sys cl)) = mk_progress (set_seq 0 M) (set_seq 0 R)).
Proof.
  intros Hstart Hevs M R. destruct (history_ok_from c aof b dir srcs fs Hstart evs Hevs) as (st & cl & E & E' & Hcl & Hrun).
  destruct (start_sizes c aof b dir srcs fs Hstart) as (HR & _ & Hlen).
  exists st, cl. split; [done|]. split; [done|]. split; [done|]. intros Hd.
  destruct Hcl as (Hm & _). pose proof (master_ok_shape _ _ _ _ _ _ Hm) as (HjM & HjR & _). destruct Hm as ([Hinv _] & _).
  change (a_master (app (cl_sys cl))) with (master (cl_sys cl)) in Hinv. unfold progress_of.
  rewrite !done_all by done. cbn [n_tasks]. rewrite HjM, HjR. unfold M, R, zlen. by rewrite Hlen, Nat2Z.id.
Qed.

(** C6: what a completed task published stays. In every state such a history
    reaches, the inputs are unchanged, a map task the master counts as COMPLETED
    has its R files in place, with the records of its input, and a COMPLETED
    reduce task has its output file, whichever processes have died since and
    whatever tasks are being run again. *)
Theorem completed_tasks_published {q : Qsort} {HQ : QsortSpec q} c aof b dir srcs fs evs :
  cluster_start c aof b dir srcs fs -> Forall (event_ok c) evs ->
  let paths := regular_paths (master_zero c) (scandir dir) in
  let R := cfg_n_reduce c in
  exists st cl, boot_master None b = Ret (Some st) /\
    cluster_execs evs (mk_cluster (set_script [] st) fs ∅) = Ret (Some cl) /\
    (forall i path src, paths !! i = Some path -> srcs !! i = Some src -> cl_files cl !! path = Some src) /\
    (forall i t src y, m_maps (master (cl_sys cl)) !! i = Some t -> t_state t = TASK_COMPLETED ->
       srcs !! i = Some src -> (y < Z.to_nat R)%nat ->
       cl_files cl !! map_final_path (Z.of_nat i) (Z.of_nat y) = Some (map_data R src y)) /\
    (forall y t, m_reduces (master (cl_sys cl)) !! y = Some t -> t_state t = TASK_COMPLETED -> (y < Z.to_nat R)%nat ->
       cl_files cl !! reduce_final_path (Z.of_nat y) = Some (reduce_output (partition_records R srcs y))).
Proof.
  intros Hstart Hevs paths R. destruct (history_ok_from c aof b dir srcs fs Hstart evs Hevs) as (st & cl & E & E' & Hcl & _).
  exists st, cl. split; [done|]. split; [done|]. destruct Hcl as ((_ & _ & _ & Hin & Hdone) & _).
  split; [exact Hin|]. split.
  - intros i t src y Ht Hst. apply (Hdone TASK_KIND_MAP i). by exists t.
  - intros y t Ht Hst. apply (Hdone TASK_KIND_REDUCE y). by exists t.
Qed.

(** C5: a job survives any crashes. The inputs are text whose lines and words fit
    the buffers, and no word occurs more than WORKER_REDUCE_MAX_VALUES_PER_KEY =
    1024 times in them (such a word would fail its reduce task, and so the job).
    After any history, also one that has lost tasks or failed the job, the
    master is started again and one worker connects, on kernels that do what
    they are asked: within one turn more than the job has tasks the worker
    finishes the job and exits with success, the job is JOB_DONE, and the output
    files hold the word counts of the inputs. *)
Theorem cluster_recovers {q : Qsort} {HQ : QsortSpec q} c aof b dir srcs fs evs b2 pid fd fuel :
  cluster_start c aof b dir srcs fs -> Forall (event_ok c) evs -> boot_ok c b2 -> pid_ok pid -> 0 <= fd < MAX_FDS ->
  (forall w, occurrences w (concat (map words srcs)) <= WORKER_REDUCE_MAX_VALUES_PER_KEY) ->
  zlen srcs + cfg_n_reduce c < Z.of_nat fuel ->
  exists st cl st2 pw st', boot_master None b = Ret (Some st) /\
    cluster_execs evs (mk_cluster (set_script [] st) fs ∅) = Ret (Some cl) /\
    boot_master (Some (a_file (app (cl_sys cl)))) b2 = Ret (Some st2) /\
    worker_main (H := master_peer fd) fuel pid
      (mk_worker_state (mk_proc (mk_disk (cl_files cl) []) []) [] (on_accept (Some fd) (set_script [] st2))) =
      Ret (Some EXIT_SUCCESS, mk_worker_state pw [] st') /\
    j_phase (m_job (master st')) = JOB_DONE /\
    forall y, (y < Z.to_nat (cfg_n_reduce c))%nat ->
      p_files pw !! reduce_final_path (Z.of_nat y) =
        Some (word_counts (partition_words (cfg_n_reduce c) (Z.of_nat y) (concat (map words srcs)))).
Proof.
  intros Hstart Hevs Hb2 Hpid Hfd Hocc Hfuel.
  destruct (history_ok_from c aof b dir srcs fs Hstart evs Hevs) as (st & cl & E & E' & Hcl & _).
  destruct (start_sizes c aof b dir srcs fs Hstart) as (HR & HM & Hlen).
  pose proof Hstart as (Hc & Hdir & Haof & Hword & _ & _ & _ & _ & Hclean & _ & Htext).
  edestruct (restart_between (b_created b)) as (st2 & E2 & Hbt & Hrem); [done..|].
  unfold zlen in Hfuel. rewrite Hlen in Hfuel.
  destruct (main_done (regular_paths (master_zero c) (scandir dir)) srcs (cfg_n_reduce c) pid fd HR HM Hlen Hclean Hpid (proj1 Hfd))
    with (fuel := fuel) (2 := Hbt) as (pw & st' & Ew & Hd & _ & Hout).
  - intros y _. by apply rare_small.
  - unfold zlen in Hrem. lia.
  - exists st, cl, st2, pw, st'. split; [done|]. split; [done|]. split; [done|]. split; [done|]. split; [done|]. by apply outputs_words.
Qed.

(** ** Witnesses: a small cluster

    Two workers on two inputs run their map tasks at the same time, call by
    call; the first dies in the middle, and the master dies too; a third worker
    joins. *)

Definition demo_boot : boot := mk_boot (fun _ => Some start_dir) 4 0 (mk_init_fds 3 7 8 9) 0 0 demo_conf start_proc.

Definition demo_cluster : option cluster :=
  match boot_master None demo_boot with
  | Ret (Some st) => Some (mk_cluster (set_script [] st) (p_files demo_start) ∅)
  | _ => None
  end.

(** [n] calls of the task of [pid]; a task that has ended ignores the rest. *)
Definition steps (n : nat) (pid : Z) : list event := replicate n (EvStep pid true).
Definition work (pid : Z) : list event := EvAsk pid :: steps 60 pid ++ [EvReport pid].
Definition demo_history : list event :=
  [EvConnect 70 5; EvConnect 71 6; EvAsk 70; EvAsk 71] ++ concat (replicate 6 (steps 2 70 ++ steps 3 71)) ++ [EvExit 70; EvEof 5] ++
  steps 40 71 ++ [EvReport 71; EvAsk 71] ++
  [EvRestart demo_boot; EvAsk 71; EvConnect 72 5; EvConnect 71 6] ++ work 72 ++ [EvAsk 71; EvAsk 72] ++
  concat (replicate 60 [EvStep 71 true; EvStep 72 true]) ++ [EvReport 72; EvReport 71] ++ work 71.

Definition demo_run : option cluster :=
  match demo_cluster with
  | Some cl => match cluster_execs (H := qsort_merge) demo_history cl with Ret (Some cl) => Some cl | _ => None end
  | None => None
  end.

#[export] Instance fds_ok_b_dec c b : Decision (boot_ok c b).
Proof. unfold boot_ok. apply _. Defined.

Lemma demo_cluster_start : cluster_start demo_config [109; 114] demo_boot start_dir demo_texts (p_files demo_start).
Proof.
  split; [decide_now|]. split; [decide_now|]. split; [reflexivity|]. split; [decide_now|]. split; [decide_now|].
  split; [reflexivity|]. split; [decide_now|]. split; [decide_now|]. split; [decide_now|]. split; [|decide_now].
  apply Forall2_cons_2; [by vm_compute|]. apply Forall2_cons_2; [by vm_compute|constructor].
Qed.

Lemma demo_history_ok : Forall (event_ok demo_config) demo_history.
Proof. repeat constructor; decide_now. Qed.

(** The state the history leads to from the state a theorem names. *)
Lemma demo_run_is st cl : boot_master None demo_boot = Ret (Some st) ->
  cluster_execs (H := qsort_merge) demo_history (mk_cluster (set_script [] st) (p_files demo_start) ∅) = Ret (Some cl) ->
  demo_run = Some cl.
Proof. intros E E'. unfold demo_run, demo_cluster. by rewrite E, E'. Qed.

Definition demo_phase : option job_phase_e := (fun cl => j_phase (m_job (master (cl_sys cl)))) <$> demo_run.

Lemma demo_run_done cl : demo_run = Some cl -> j_phase (m_job (master (cl_sys cl))) = JOB_DONE.
Proof.
  intros Er. assert (demo_phase = Some JOB_DONE) as Hp by (vm_compute; reflexivity). unfold demo_phase in Hp. rewrite Er in Hp.
  by injection Hp.
Qed.

Lemma cluster_word_count_witness :
  exists cl, demo_run = Some cl /\ j_phase (m_job (master (cl_sys cl))) = JOB_DONE /\
    cl_files cl !! reduce_final_path 1 = Some (lit "is" ++ [9; 49; 10]).
Proof.
  destruct (cluster_word_count (q := qsort_merge) demo_config [109; 114] demo_boot start_dir demo_texts (p_files demo_start) demo_history
    demo_cluster_start demo_history_ok) as (st & cl & E & E' & Hout).
  pose proof (demo_run_is st cl E E') as Er. exists cl. split; [exact Er|].
  pose proof (demo_run_done cl Er) as Hd.
  split; [exact Hd|]. change 1 with (Z.of_nat 1). rewrite (Hout Hd 1%nat) by (cbn; lia). vm_compute. reflexivity.
Defined.

(** The history up to the crash: the first task is lost with its worker, the
    second is completed. *)
Definition demo_crashed : list event := take 78 demo_history.

Lemma completed_tasks_published_witness :
  exists st cl t, boot_master None demo_boot = Ret (Some st) /\
    cluster_execs (H := qsort_merge) demo_crashed (mk_cluster (set_script [] st) (p_files demo_start) ∅) = Ret (Some cl) /\
    m_maps (master (cl_sys cl)) !! 1%nat = Some t /\ t_state t = TASK_COMPLETED /\
    cl_files cl !! map_final_path 1 0 = Some (map_data 2 (lit "that is to be" ++ [10]) 0).
Proof.
  destruct (completed_tasks_published (q := qsort_merge) demo_config [109; 114] demo_boot start_dir demo_texts (p_files demo_start) demo_crashed
    demo_cluster_start ltac:(repeat constructor; decide_now)) as (st & cl & E & E' & _ & Hmaps & _).
  assert (match boot_master None demo_boot with
    | Ret (Some st) => match cluster_execs (H := qsort_merge) demo_crashed (mk_cluster (set_script [] st) (p_files demo_start) ∅) with
        | Ret (Some cl) => t_state <$> m_maps (master (cl_sys cl)) !! 1%nat | _ => None end
    | _ => None end = Some TASK_COMPLETED) as Hp by (vm_compute; reflexivity).
  rewrite E, E' in Hp. destruct (m_maps (master (cl_sys cl)) !! 1%nat) as [t|] eqn:Ht; [|discriminate Hp]. injection Hp as Hst.
  exists st, cl, t. split; [exact E|]. split; [exact E'|]. split; [exact Ht|]. split; [exact Hst|].
  exact (Hmaps 1%nat t _ 0%nat Ht Hst eq_refl ltac:(cbn; lia)).
Defined.

Lemma cluster_recovers_witness :
  exists st cl st2 pw st', boot_master None demo_boot = Ret (Some st) /\
    cluster_execs (H := qsort_merge) demo_crashed (mk_cluster (set_script [] st) (p_files demo_start) ∅) = Ret (Some cl) /\
    boot_master (Some (a_file (app (cl_sys cl)))) demo_boot = Ret (Some st2) /\
    worker_main (H := master_peer 5) (H0 := qsort_merge) 5 80
      (mk_worker_state (mk_proc (mk_disk (cl_files cl) []) []) [] (on_accept (Some 5) (set_script [] st2))) =
      Ret (Some EXIT_SUCCESS, mk_worker_state pw [] st') /\
    p_files pw !! reduce_final_path 1 = Some (lit "is" ++ [9; 49; 10]).
Proof.
  destruct (cluster_recovers (q := qsort_merge) demo_config [109; 114] demo_boot start_dir demo_texts (p_files demo_start) demo_crashed
    demo_boot 80 5 5 demo_cluster_start ltac:(repeat constructor; decide_now) ltac:(decide_now) ltac:(decide_now) ltac:(decide_now))
    as (st & cl & st2 & pw & st' & E & E' & E2 & Ew & _ & Hout).
  - intros w. etrans; [apply occurrences_le|]. decide_now.
  - reflexivity.
  - exists st, cl, st2, pw, st'. split; [exact E|]. split; [exact E'|]. split; [exact E2|]. split; [exact Ew|].
    change 1 with (Z.of_nat 1). rewrite (Hout 1%nat) by (cbn; lia). vm_compute. reflexivity.
Defined.

Lemma cluster_refines_witness :
  exists cl, demo_run = Some cl /\ rtc (job_step 2 2) (mk_progress ∅ ∅) (progress_of (master (cl_sys cl))) /\
    progress_of (master (cl_sys cl)) = mk_progress {[0%nat; 1%nat]} {[0%nat; 1%nat]}.
Proof.
  destruct (cluster_refines (q := qsort_merge) demo_config [109; 114] demo_boot start_dir demo_texts (p_files demo_start) demo_history
    demo_cluster_start demo_history_ok) as (st & cl & E & E' & Hrun & Hdone).
  pose proof (demo_run_is st cl E E') as Er. exists cl. split; [exact Er|]. split; [exact Hrun|].
  rewrite (Hdone (demo_run_done cl Er)). vm_compute. reflexivity.
Defined.
