(* ===== verification/Shutdown.v ===== *)
(** * Signals, the end of the loop, and descriptors (src/server.c, src/event_loop.c, src/master.c)

    How a signal stops the master: the handler writes to a pipe, the event loop
    reads it and returns, [master_main] closes what the server has open. *)

From S2P Require Import Prelude Limits Util Rpc Task Aof EventLoop Server Framing Master Sched Job.

(** ** The signal handler *)

Definition SIGINT : Z := 2.
Definition SIGTERM : Z := 15.

(** The two static variables of src/server.c, and the bytes in the pipe. *)
Record signal_state := mk_signal { shutdown_signaled : bool; shutdown_pipe_fd : Z; pipe_bytes : list Z }.

(** What a handler does to the process: it goes on, or exits with a status. *)
Inductive handler_outcome :=
  | Resume (s : signal_state)
  | Exit (status : Z).

(** [room] tells whether the write to the pipe finds room. *)
Definition sig_shutdown_handler (sig : Z) (room : bool) (s : signal_state) : handler_outcome :=
  if shutdown_signaled s && (sig =? SIGINT) then Exit 1
  else
    let s := mk_signal true (shutdown_pipe_fd s) (pipe_bytes s) in
    Resume (if (0 <=? shutdown_pipe_fd s) && room
            then mk_signal true (shutdown_pipe_fd s) (pipe_bytes s ++ [wrap 8 sig]) else s).

(** A sequence of signals; [setup_signal_handlers] installs the handler for
    SIGINT and SIGTERM. *)
Fixpoint deliver_signals (sigs : list (Z * bool)) (s : signal_state) : handler_outcome :=
  match sigs with
  | [] => Resume s
  | (sig, room) :: sigs =>
      match sig_shutdown_handler sig room s with
      | Resume s => deliver_signals sigs s
      | Exit status => Exit status
      end
  end.

(** The bytes the writes leave in the pipe. *)
Definition written (sigs : list (Z * bool)) : list Z := map (fun x => wrap 8 x.1) (filter (fun x => x.2 = true) sigs).

Lemma deliver_more sigs p b : 0 <= p ->
  deliver_signals sigs (mk_signal true p b) =
  if existsb (fun x => x.1 =? SIGINT) sigs then Exit 1 else Resume (mk_signal true p (b ++ written sigs)).
Proof.
  intros Hp. revert b. induction sigs as [|[sig room] sigs IH]; intros b; cbn [deliver_signals existsb].
  { unfold written. cbn. by rewrite app_nil_r. }
  unfold sig_shutdown_handler. cbn [shutdown_signaled shutdown_pipe_fd pipe_bytes fst andb].
  destruct (sig =? SIGINT) eqn:E; cbn [orb]; [done|]. destruct (Z.leb_spec 0 p); [|lia]. cbn [andb].
  unfold written. rewrite filter_cons. cbn [snd]. destruct room; rewrite IH.
  - rewrite decide_True by done. cbn [map fst]. unfold written. by rewrite <- app_assoc.
  - by rewrite decide_False.
Qed.

(** Signals. With the pipe open, the first SIGINT or SIGTERM asks for a
    shutdown, by a byte in the pipe. The process is killed with status 1 exactly
    when a SIGINT arrives after that; otherwise the pipe holds a byte for each
    signal whose write found room, in order. *)
Theorem signals_spec sig room sigs p b : 0 <= p ->
  deliver_signals ((sig, room) :: sigs) (mk_signal false p b) =
  if existsb (fun x => x.1 =? SIGINT) sigs then Exit 1 else Resume (mk_signal true p (b ++ written ((sig, room) :: sigs))).
Proof.
  intros Hp. cbn [deliver_signals]. unfold sig_shutdown_handler. cbn [shutdown_signaled shutdown_pipe_fd pipe_bytes andb].
  destruct (Z.leb_spec 0 p); [|lia]. cbn [andb]. unfold written. rewrite filter_cons. cbn [snd].
  destruct room; rewrite deliver_more by done.
  - rewrite decide_True by done. cbn [map fst]. unfold written. by rewrite <- app_assoc.
  - by rewrite decide_False.
Qed.

Lemma signals_spec_witness :
  deliver_signals [(SIGTERM, true); (SIGTERM, false); (SIGTERM, true)] (mk_signal false 9 []) = Resume (mk_signal true 9 [15; 15]).
Proof. rewrite (signals_spec SIGTERM true [(SIGTERM, false); (SIGTERM, true)] 9 []) by lia. reflexivity. Defined.

(** ** The end of the loop *)

(** The read handler of [p] stays, and a request to stop is not withdrawn. *)
Definition keeps_handler (p : Z) (el el' : event_loop_t) : Prop :=
  el_read_handlers el' !! p = el_read_handlers el !! p /\ (el_stop el = true -> el_stop el' = true).

Section Handlers.
Context (p : Z).
Abbreviation loop st := (s_el (sv st)).

Lemma keeps_refl el : keeps_handler p el el.
Proof. by split. Qed.

Lemma keeps_trans el1 el2 el3 : keeps_handler p el1 el2 -> keeps_handler p el2 el3 -> keeps_handler p el1 el3.
Proof. intros [H1 H2] [H3 H4]. split; [congruence|auto]. Qed.

Lemma keeps_el_remove el fd : fd <> p -> keeps_handler p el (el_remove el fd).
Proof.
  intros Hne. unfold el_remove. destruct (fd_out_of_range fd); [apply keeps_refl|]. split; [|done].
  cbn. by rewrite lookup_delete_ne.
Qed.

Lemma keeps_remove {A} `{ServerCallbacks A} fd (st : sys A) : fd <> p -> keeps_handler p (loop st) (loop (remove_client fd st)).
Proof. intros Hne. exact (keeps_el_remove (loop st) fd Hne). Qed.

Lemma keeps_add_write {A} fd (st : sys A) : keeps_handler p (loop st) (loop (add_write_handler fd st)).
Proof.
  unfold add_write_handler, el_add_write. destruct (fd_out_of_range fd); [apply keeps_refl|].
  destruct (io_simple (script st)) as [[] s]; by split.
Qed.

Lemma keeps_queue_write fd data (st : sys master_app) : fd <> p ->
  keeps_handler p (loop st) (loop (queue_write fd data st).2).
Proof.
  intros Hne. unfold queue_write. fold (make_room data (get_client st fd)). set (c := make_room _ _).
  destruct (_ <? _); [apply keeps_refl|].
  destruct (wlen c =? 0); [|exact (keeps_add_write fd (put_client fd (c_set_wbuf (c_wbuf c ++ data) (c_woff c) c) (put_client fd c st)))].
  destruct (sock_write _ _) as [[n|[]] s].
  - destruct (_ =? _); [apply keeps_refl|]. eapply keeps_trans; [|apply keeps_add_write]. apply keeps_refl.
  - eapply keeps_trans; [|apply keeps_add_write]. apply keeps_refl.
  - eapply keeps_trans; [|by apply keeps_remove]. apply keeps_refl.
Qed.

Lemma keeps_server_send fd q (st : sys master_app) rc st' : fd <> p -> server_send fd q st = Ret (rc, st') ->
  keeps_handler p (loop st) (loop st').
Proof.
  intros Hne. unfold server_send, send_framed. destruct (_ <? _); [done|]. cbn [mbind outcome_bind].
  pose proof (keeps_queue_write fd (be_encode 4 (zlen q) ++ q) st Hne) as Hk.
  destruct (queue_write _ _ _) as [ok st1]. cbn in *. by intros [= _ <-].
Qed.

Lemma keeps_message fd q st rc st' : fd <> p -> master_on_message fd q st = Ret (rc, st') -> keeps_handler p (loop st) (loop st').
Proof.
  intros Hne Hmsg. destruct (on_message_inv _ _ _ _ _ Hmsg) as [[_ ->]|[[_ Hg]|(msg & _ & _ & Hd)]].
  - apply keeps_refl.
  - unfold master_handle_get_task in Hg. apply outcome_bind_Ret in Hg as ([buf m1] & _ & Hg).
    destruct buf as [buf|]; [|injection Hg as _ <-; apply keeps_refl].
    apply outcome_bind_Ret in Hg as ([rc1 st1] & Hs & Hg). injection Hg as _ <-.
    exact (keeps_server_send fd buf (set_master m1 st) rc1 st1 Hne Hs).
  - unfold task_done_helper in Hd. apply outcome_bind_Ret in Hd as (k & _ & Hd).
    apply outcome_bind_Ret in Hd as (t & _ & Hd). change (rpc_encode_task_done_ack MSG_MAX) with (Some [7]) in Hd. cbv beta iota in Hd.
    destruct (negb _).
    + apply outcome_bind_Ret in Hd as ([rc1 st1] & Hs & Hd). apply (keeps_server_send _ _ _ _ _ Hne) in Hs.
      destruct (negb _); by injection Hd as _ <-.
    + apply outcome_bind_Ret in Hd as (st0 & Hr & Hd). apply outcome_bind_Ret in Hd as ([rc1 st1] & Hs & Hd).
      apply (keeps_server_send _ _ _ _ _ Hne) in Hs. rewrite (record_result_shell _ _ _ _ _ _ _ Hr) in Hs.
      destruct (negb _); by injection Hd as _ <-.
Qed.

Lemma keeps_process fuel fd : fd <> p -> forall st st', process_frames fuel fd st = Ret st' -> keeps_handler p (loop st) (loop st').
Proof.
  intros Hne. induction fuel as [|fuel IH]; intros st st' Hp; cbn [process_frames] in Hp.
  { destruct (_ <? _); [injection Hp as <-; apply keeps_refl|done]. }
  destruct (_ <? _); [injection Hp as <-; apply keeps_refl|].
  destruct (_ <? _); [injection Hp as <-; by apply keeps_remove|].
  destruct (_ <? _); [injection Hp as <-; apply keeps_refl|].
  apply outcome_bind_Ret in Hp as ([rc st1] & Hm & Hp).
  change (on_message fd ?q st) with (master_on_message fd q st) in Hm. apply (keeps_message _ _ _ _ _ Hne) in Hm.
  destruct (negb (rc =? 0)); [injection Hp as <-; eapply keeps_trans; [exact Hm|by apply keeps_remove]|].
  destruct (_ <? _); [done|]. eapply keeps_trans; [exact Hm|]. by apply IH in Hp.
Qed.

(** A handler of another descriptor. *)
Lemma keeps_call h fd k (st st' : sys master_app) : fd <> p -> k_accept k <> Some p ->
  call_handler h fd k st = Ret st' -> keeps_handler p (loop st) (loop st').
Proof.
  intros Hne Hacc. destruct h; cbn [call_handler]; intros Hc.
  - unfold on_read in Hc. destruct (negb _); [injection Hc as <-; apply keeps_refl|].
    destruct (k_read k) as [b|[]]; [|injection Hc as <-; apply keeps_refl|injection Hc as <-; by apply keeps_remove].
    destruct (_ =? 0); [injection Hc as <-; by apply keeps_remove|]. by apply (keeps_process _ _ Hne) in Hc.
  - unfold on_write in Hc. destruct (sock_write _ _) as [[n|[]] s];
      [|injection Hc as <-; apply keeps_refl|injection Hc as <-; exact (keeps_remove fd (set_script s st) Hne)].
    destruct (_ =? _); [|injection Hc as <-; apply keeps_refl].
    apply (keeps_process _ _ Hne) in Hc. eapply keeps_trans; [|exact Hc]. cbn. unfold el_remove_write.
    destruct (fd_out_of_range fd); by split.
  - injection Hc as <-. unfold on_accept. destruct (k_accept k) as [fd'|]; [|apply keeps_refl].
    assert (fd' <> p) as Hne' by congruence.
    destruct (_ <=? _); [apply keeps_refl|]. destruct (set_non_blocking _) as [rc s]. destruct (_ =? _); [apply keeps_refl|].
    cbv zeta. unfold el_add. destruct (fd_out_of_range fd'); [apply keeps_refl|].
    destruct (io_simple _) as [[] s2]; cbn; [|apply keeps_refl]. split; [|done]. cbn. by rewrite lookup_insert_ne.
  - injection Hc as <-. by split.
Qed.
End Handlers.

(** The batch of events in which the pipe [p] is readable. *)
Definition pipe_readable (p : Z) (events : list (Z * filter_t * kernel_data)) : Prop :=
  Forall (fun '(fd, f, k) => (fd = p -> f = EVFILT_READ) /\ k_accept k <> Some p) events /\
  exists k, (p, EVFILT_READ, k) ∈ events.

Abbreviation master_dispatch := (el_dispatch (fun st : sys master_app => s_el (sv st)) call_handler).

Lemma dispatch_keeps p events : forall st st',
  Forall (fun '(fd, f, k) => (fd = p -> f = EVFILT_READ) /\ k_accept k <> Some p) events ->
  el_read_handlers (s_el (sv st)) !! p = Some on_shutdown_h -> master_dispatch events st = Ret st' ->
  (el_stop (s_el (sv st)) = true \/ exists k, (p, EVFILT_READ, k) ∈ events) -> el_stop (s_el (sv st')) = true.
Proof.
  induction events as [|[[fd f] k] events IH]; intros st st' Hg Hh Hd Hor; cbn [el_dispatch] in Hd.
  { injection Hd as <-. destruct Hor as [?|[k []%elem_of_nil]]; done. }
  apply Forall_cons in Hg as [[Hf Hacc] Hg]. apply outcome_bind_Ret in Hd as (st1 & H1 & H2).
  destruct (decide (fd = p)) as [->|Hne].
  - rewrite (Hf eq_refl) in H1. cbn [handler_of] in H1. rewrite Hh in H1. injection H1 as <-.
    by apply (IH (on_shutdown st) st' Hg Hh H2); left.
  - assert (keeps_handler p (s_el (sv st)) (s_el (sv st1))) as [Hk1 Hk2].
    { destruct (handler_of _ fd f) as [h|]; [by eapply keeps_call|injection H1 as <-; apply keeps_refl]. }
    eapply IH; [exact Hg|by rewrite Hk1|exact H2|].
    destruct Hor as [?|[k' [[= -> _ _]|Hin]%elem_of_cons]]; [left; auto|done|right; by exists k'].
Qed.

(** C30: a shutdown request ends the loop. When the shutdown pipe is readable,
    the batch of events that reports it is the last one: its other events are
    handled too, whatever they are, and [server_run] returns 0, so that
    [master_main] goes on to close the log and the descriptors. *)
Theorem shutdown_signal_stops p events answers (st st' : sys master_app) :
  el_stop (s_el (sv st)) = false -> el_read_handlers (s_el (sv st)) !! p = Some on_shutdown_h ->
  pipe_readable p events -> master_dispatch events st = Ret st' ->
  server_run (KEvents events :: answers) st = Ret (Some 0, st').
Proof.
  intros Hstop Hh [Hg Hin] Hd. pose proof (dispatch_keeps p events st st' Hg Hh Hd (or_intror Hin)) as Hs.
  unfold server_run. cbn [el_run]. rewrite Hstop, Hd. cbn [mbind outcome_bind].
  destruct answers; cbn [el_run]; by rewrite Hs.
Qed.

(** ** Descriptors *)

(** The descriptors [server_init] leaves open when it returns, by the answers of
    the kernel it is given. *)
Definition server_init_open (s : list io) (fds : init_fds) : list Z :=
  let '(listen_fd, s) := create_listener s (i_listen fds) in
  if listen_fd =? -1 then []
  else
    let '(rc, el, s) := el_init s (i_kq fds) 0 el_zero in
    if rc =? -1 then []
    else
      let '(ok, s) := io_simple s in                   (* pipe *)
      if negb ok then []
      else
        let pipe := [i_pipe0 fds; i_pipe1 fds] in
        let '(rc0, s) := set_non_blocking s in
        if rc0 =? -1 then pipe
        else
          let '(rc1, s) := set_non_blocking s in
          if rc1 =? -1 then pipe
          else
            let '(rc, el, s) := el_add s el (i_pipe0 fds) on_shutdown_h in
            if rc =? -1 then []
            else
              let '(rc, el, s) := el_add s el listen_fd on_accept_h in
              if rc =? -1 then [] else listen_fd :: pipe ++ [i_kq fds].

Inductive fd_call :=
  | CallShutdown (fd : Z)              (* shutdown(fd, SHUT_WR) *)
  | CallClose (fd : Z).

(** The calls of [server_shutdown], in order. *)
Definition server_shutdown (s : server_t) : list fd_call :=
  concat (map (fun fd => if c_active (default client_zero (s_clients s !! fd)) then [CallShutdown fd; CallClose fd] else [])
            (seqZ 0 MAX_FDS)) ++
  [CallClose (s_listen_fd s); CallClose (s_pipe s).1; CallClose (s_pipe s).2; CallClose (el_kq (s_el s))].

Definition closed (calls : list fd_call) : list Z :=
  concat (map (fun c => match c with CallClose fd => [fd] | CallShutdown _ => [] end) calls).

(** The descriptors of a server: its clients and its own four. *)
Definition client_fds (s : server_t) : list Z :=
  filter (fun fd => c_active (default client_zero (s_clients s !! fd)) = true) (seqZ 0 MAX_FDS).
Definition own_fds (s : server_t) : list Z := [s_listen_fd s; (s_pipe s).1; (s_pipe s).2; el_kq (s_el s)].

Lemma closed_app a b : closed (a ++ b) = closed a ++ closed b.
Proof. unfold closed. by rewrite map_app, concat_app. Qed.

Lemma server_shutdown_closed s : closed (server_shutdown s) = client_fds s ++ own_fds s.
Proof.
  unfold server_shutdown. rewrite closed_app. f_equal. unfold client_fds. induction (seqZ 0 MAX_FDS) as [|fd l IH]; [done|].
  cbn [map concat]. rewrite closed_app, IH, filter_cons.
  destruct (c_active _); [by rewrite decide_True|by rewrite decide_False].
Qed.

(** [server_shutdown] closes every descriptor of the server once. With the
    descriptors the kernel has handed out distinct, the [close] calls name each
    connected client and the listening socket, the pipe and the kernel queue,
    and nothing twice; a client's connection is shut down before it is closed. *)
Theorem server_shutdown_closes s :
  NoDup (own_fds s) -> (forall fd, fd ∈ own_fds s -> c_active (default client_zero (s_clients s !! fd)) = false) ->
  NoDup (closed (server_shutdown s)) /\
  (forall fd, fd ∈ closed (server_shutdown s) <->
     0 <= fd < MAX_FDS /\ c_active (default client_zero (s_clients s !! fd)) = true \/ fd ∈ own_fds s) /\
  (forall fd, 0 <= fd < MAX_FDS -> c_active (default client_zero (s_clients s !! fd)) = true ->
     exists l1 l2, server_shutdown s = l1 ++ [CallShutdown fd; CallClose fd] ++ l2).
Proof.
  intros Hd Hfree. rewrite server_shutdown_closed. split; [|split].
  - apply NoDup_app. split; [apply NoDup_filter, NoDup_seqZ|]. split; [|done].
    intros fd [Ha _]%list_elem_of_filter Ho. rewrite (Hfree fd Ho) in Ha. done.
  - intros fd. unfold client_fds. rewrite elem_of_app, list_elem_of_filter, elem_of_seqZ.
    split; (intros [[H1 H2]|Ho]; [left; split; [done || lia|done || lia]|by right]).
  - intros fd Hfd Ha. assert (fd ∈ seqZ 0 MAX_FDS) as Hin by (apply elem_of_seqZ; lia).
    apply list_elem_of_split in Hin as (l1 & l2 & E). unfold server_shutdown. rewrite E, map_app, concat_app. cbn [map concat].
    rewrite Ha, <- !app_assoc. by do 2 eexists.
Qed.

(** What a failed start leaves open. [server_init] returns 0 exactly when it
    keeps the listening socket, the pipe and the kernel queue open; when it
    fails it has closed what it had opened, except that both ends of the pipe
    stay open when they cannot be made non-blocking. *)
Theorem server_init_descriptors s fds now hz timeout : hz <> 0 ->
  exists rc srv s', server_init s fds now hz timeout = Ret (rc, srv, s') /\
    (rc = 0 /\ server_init_open s fds = own_fds srv \/
     rc = -1 /\ (server_init_open s fds = [] \/ server_init_open s fds = [i_pipe0 fds; i_pipe1 fds])).
Proof.
  intros Hhz. unfold server_init, server_init_open. destruct (create_listener s (i_listen fds)) as [lfd s1].
  destruct (lfd =? -1); [do 3 eexists; split; [reflexivity|right; auto]|].
  destruct (Z.eqb_spec hz 0); [done|]. unfold el_init.
  destruct (io_simple s1) as [[] s2]; cbn [Z.eqb]; [|do 3 eexists; split; [reflexivity|right; auto]].
  destruct (io_simple s2) as [[] s3]; cbn [negb]; [|do 3 eexists; split; [reflexivity|right; auto]].
  destruct (set_non_blocking s3) as [rc0 s4]. destruct (rc0 =? -1); [do 3 eexists; split; [reflexivity|right; auto]|].
  destruct (set_non_blocking s4) as [rc1 s5]. destruct (rc1 =? -1); [do 3 eexists; split; [reflexivity|right; auto]|].
  unfold el_add. destruct (fd_out_of_range (i_pipe0 fds)); cbn [Z.eqb]; [do 3 eexists; split; [reflexivity|right; auto]|].
  destruct (io_simple s5) as [[] s6]; cbn [Z.eqb]; [|do 3 eexists; split; [reflexivity|right; auto]].
  destruct (fd_out_of_range lfd); cbn [Z.eqb]; [do 3 eexists; split; [reflexivity|right; auto]|].
  destruct (io_simple s6) as [[] s7]; cbn; do 3 eexists; (split; [reflexivity|]); [by left|right; auto].
Qed.

(** ** Witnesses *)

(** A master whose server listens on 3, with its pipe on 7 and 8 and its queue
    on 9, and a client on 5. *)
Definition demo_serving : sys master_app :=
  match server_init [] (mk_init_fds 3 9 7 8) 0 10 300 with
  | Ret (_, srv, _) => on_accept (Some 5) (set_sv srv demo)
  | _ => demo
  end.

(** A request of the client and a signal are reported together. *)
Definition demo_signal : list (Z * filter_t * kernel_data) :=
  [(7, EVFILT_READ, mk_kernel (inr true) None);
   (5, EVFILT_READ, mk_kernel (inl (frame get_task_bytes)) None)].

Lemma shutdown_signal_stops_witness :
  exists st', server_run [KEvents demo_signal; KErr] demo_serving = Ret (Some 0, st') /\
    wk_has_task (get_worker (master st') 5) = true.
Proof.
  destruct (master_dispatch demo_signal demo_serving) as [st'| |] eqn:E; [|vm_compute in E; discriminate E..].
  exists st'. split.
  - apply (shutdown_signal_stops 7 demo_signal [KErr] demo_serving st'); [by vm_compute|by vm_compute| |exact E].
    split; [repeat constructor; done|]. exists (mk_kernel (inr true) None). by left.
  - assert (match master_dispatch demo_signal demo_serving with Ret st => wk_has_task (get_worker (master st) 5) | _ => false end = true)
      as H by (vm_compute; reflexivity).
    rewrite E in H. exact H.
Defined.

Lemma server_shutdown_closes_witness :
  closed (server_shutdown (sv demo_serving)) = [5; 3; 7; 8; 9] /\ NoDup (closed (server_shutdown (sv demo_serving))).
Proof.
  split; [vm_compute; reflexivity|].
  apply (server_shutdown_closes (sv demo_serving)); [decide_now|].
  intros fd Hfd. assert (Forall (fun fd => c_active (default client_zero (s_clients (sv demo_serving) !! fd)) = false)
    (own_fds (sv demo_serving))) as H by decide_now.
  rewrite Forall_forall in H. by apply H.
Defined.

Lemma server_init_descriptors_witness :
  server_init_open [IoOk 0; IoOk 0; IoOk 0; IoOk 0; IoOk 0; IoOk 0; IoOk 0; IoOk 0; IoErr] (mk_init_fds 3 9 7 8) = [7; 8].
Proof.
  destruct (server_init_descriptors [IoOk 0; IoOk 0; IoOk 0; IoOk 0; IoOk 0; IoOk 0; IoOk 0; IoOk 0; IoErr] (mk_init_fds 3 9 7 8) 0 10 300)
    as (rc & srv & s' & E & [[Hrc Ho]|[_ [Ho|Ho]]]); [lia| | |exact Ho].
  - exfalso. vm_compute in E. injection E as E _ _. rewrite <- E in Hrc. discriminate Hrc.
  - vm_compute in Ho. discriminate Ho.
Defined.
